(** * Steamdle: the daily-game pipeline of server.js, embedded and verified

    The repository keeps several revisions of its server.  This development
    embeds the two revisions that rotate on [last_played_on]:

    - the handler of src/unnamed/part_001 (second document, lines 152-479),
      which answers every request from the catalog, and
    - the handler of src/public/script.js (third document, lines 972-1305),
      which adds the single-slot [dailyGameCache].

    Both share, word for word, the selector blocks A-D, the review-URL query
    and [scrapeSteamReview].

    Around them it embeds what they are used with: the search endpoint of
    part_001, the page script (src/public/script.js, lines 458-972), the
    first revision of the handler, which picks by the day of the year
    (part_001, lines 69-137), and [seedInitialData] with the list it seeds
    (src/unnamed/part_000, lines 570-1623).

    Strings are sequences of code units in the range U+0000..U+00FF
    ([Stdlib.Strings.String]); the DOM queries of cheerio, the network, the
    failures of the SQLite driver and the values of [RANDOM()] are inputs of
    the model (records [page] and [env]). *)

From Stdlib Require Import List Bool Arith ZArith Lia String Ascii.
From Stdlib Require Import Permutation Sorted.
Import ListNotations.

Local Open Scope string_scope.

(* ------------------------------------------------------------------ *)
(** ** JavaScript string primitives used by the server *)

Module JsString.

Definition chr (n : nat) : ascii := ascii_of_nat n.

Definition LF : ascii := chr 10.

(** White space in the sense of [String.prototype.trim] and of the regular
    expression class [\s], restricted to code units below 256. *)
Definition is_space (c : ascii) : bool :=
  let n := nat_of_ascii c in
  (((9 <=? n) && (n <=? 13)) || (n =? 32) || (n =? 160))%nat.

Fixpoint trimStart (s : string) : string :=
  match s with
  | EmptyString => EmptyString
  | String c r => if is_space c then trimStart r else s
  end.

(** [trimEnd] keeps a character when it is not white space or when
    something survives to its right. *)
Fixpoint trimEnd (s : string) : string :=
  match s with
  | EmptyString => EmptyString
  | String c r =>
      match trimEnd r with
      | EmptyString => if is_space c then EmptyString else String c EmptyString
      | r' => String c r'
      end
  end.

Definition trim (s : string) : string := trimEnd (trimStart s).

(** A string is truthy when it is not empty. *)
Definition truthy (s : string) : bool :=
  match s with EmptyString => false | _ => true end.

(** [a || b] on strings. *)
Definition or_else (a b : string) : string := if truthy a then a else b.

Definition lower_char (c : ascii) : ascii :=
  let n := nat_of_ascii c in
  if (((65 <=? n) && (n <=? 90))
      || ((192 <=? n) && (n <=? 222) && negb (n =? 215)))%nat
  then chr (n + 32) else c.

Fixpoint toLowerCase (s : string) : string :=
  match s with
  | EmptyString => EmptyString
  | String c r => String (lower_char c) (toLowerCase r)
  end.

Fixpoint startsWith (s p : string) : bool :=
  match p, s with
  | EmptyString, _ => true
  | String _ _, EmptyString => false
  | String a p', String b s' => Ascii.eqb a b && startsWith s' p'
  end.

Fixpoint drop (n : nat) (s : string) : string :=
  match n, s with
  | O, _ => s
  | S k, EmptyString => EmptyString
  | S k, String _ r => drop k r
  end.

Fixpoint includes (s p : string) : bool :=
  startsWith s p ||
  match s with
  | EmptyString => false
  | String _ r => includes r p
  end.

(** The part of [s] before the first occurrence of [p]; all of [s] when
    [p] does not occur.  This is [s.split(p)[0]] for a non-empty [p]. *)
Fixpoint before (p s : string) : string :=
  match s with
  | EmptyString => EmptyString
  | String c r => if startsWith s p then EmptyString else String c (before p r)
  end.

(** The part of [s] after the first occurrence of [p], if any. *)
Fixpoint after (p s : string) : option string :=
  if startsWith s p then Some (drop (String.length p) s)
  else match s with
       | EmptyString => None
       | String _ r => after p r
       end.

(** [s.split(sep)[1]]: the second piece, [None] for [undefined]. *)
Definition split_second (sep s : string) : option string :=
  option_map (before sep) (after sep s).

(** [s.replace(p, r)] with a string pattern: the first occurrence only. *)
Definition replace_first (p r s : string) : string :=
  match after p s with
  | Some rest => before p s ++ r ++ rest
  | None => s
  end.

Fixpoint ends_with_strip (suffix s : string) : option string :=
  if String.eqb s suffix then Some EmptyString
  else match s with
       | EmptyString => None
       | String c r => option_map (String c) (ends_with_strip suffix r)
       end.

End JsString.
Import JsString.

(* ------------------------------------------------------------------ *)
(** ** The two regular expressions of [scrapeSteamReview] *)

Module Regex.

Definition RPAREN : ascii := ")"%char.
Definition LPAREN : ascii := "("%char.

(** The characters before the first [)] of [s]; [None] without one. *)
Fixpoint until_rparen (s : string) : option string :=
  match s with
  | EmptyString => None
  | String c r =>
      if Ascii.eqb c RPAREN then Some EmptyString
      else option_map (String c) (until_rparen r)
  end.

(** An attempt of [/\(([^)]+) at review time\)/] anchored at the head of
    [s].  The class [[^)]] and the literal contain no [)], so the closing
    parenthesis of a match is the first [)] after the opening one, and the
    group is what stands between them without its suffix. *)
Definition at_review_time_here (s : string) : option string :=
  match s with
  | String c r =>
      if Ascii.eqb c LPAREN then
        match until_rparen r with
        | Some inner =>
            match ends_with_strip " at review time" inner with
            | Some g => if truthy g then Some g else None
            | None => None
            end
        | None => None
        end
      else None
  | EmptyString => None
  end.

(** [s.match(/\(([^)]+) at review time\)/)], reduced to its group 1:
    the leftmost position where the anchored attempt succeeds. *)
Fixpoint at_review_time_match (s : string) : option string :=
  match at_review_time_here s with
  | Some g => Some g
  | None => match s with
            | EmptyString => None
            | String _ r => at_review_time_match r
            end
  end.

Fixpoint skip_spaces (s : string) : string :=
  match s with
  | String c r => if is_space c then skip_spaces r else s
  | EmptyString => EmptyString
  end.

(** An attempt of [/<br\s*\/?>/i] anchored at the head of [s]: the number
    of code units matched. *)
Definition br_here (s : string) : option nat :=
  if startsWith (toLowerCase s) "<br" then
    let r1 := drop 3 s in
    let r2 := skip_spaces r1 in
    let r3 := if startsWith r2 "/" then drop 1 r2 else r2 in
    if startsWith r3 ">"
    then Some (String.length s - String.length r3 + 1)
    else None
  else None.

(** [s.replace(/<br\s*\/?>/gi, '\n')].  [skip] counts the code units of
    the current match still to be dropped. *)
Fixpoint replace_br_from (skip : nat) (s : string) : string :=
  match s with
  | EmptyString => EmptyString
  | String c r =>
      match skip with
      | S k => replace_br_from k r
      | O =>
          match br_here s with
          | Some n => String LF (replace_br_from (n - 1) r)
          | None => String c (replace_br_from 0 r)
          end
      end
  end.

Definition replace_br (s : string) : string := replace_br_from 0 s.

End Regex.
Import Regex.

(* ------------------------------------------------------------------ *)
(** ** Clue records and [scrapeSteamReview] *)

(** What the cheerio queries of [scrapeSteamReview] return on a loaded
    page, before any post-processing; [None] stands for [undefined] (a
    missing attribute) or [null] (no element for [.html()]). *)
Record page : Type := mkPage {
  (* $('.profile_small_header_name a.persona_name_text_content').text() *)
  persona_name_text : string;
  (* $('.profile_small_header_name').clone().children().remove().end().text() *)
  header_name_text : string;
  (* $('.profile_small_header_avatar .playerAvatar > img:last-child').attr('src') *)
  avatar_last_child_src : option string;
  (* $('.profile_small_header_avatar .playerAvatar img').eq(1).attr('src') *)
  avatar_second_img_src : option string;
  (* $('.ratingSummaryBlock .ratingSummaryHeader .ratingSummary').text() *)
  rating_summary_text : string;
  (* $('.ratingSummaryBlock .ratingSummaryHeader .playTime').text() *)
  play_time_text : string;
  (* $('.ratingSummaryBlock .recommendation_date').text() *)
  recommendation_date_text : string;
  (* $('#ReviewText').html() *)
  review_text_html : option string
}.

(** The success shape of a clue record. *)
Record reviewData : Type := mkReviewData {
  reviewerName : string;
  reviewerAvatarUrl : option string;
  recommendation : string;
  playtime : string;
  datePosted : string;
  reviewText : string
}.

(** The object returned by the [catch] of [scrapeSteamReview]; its [error]
    field is the constant [true]. *)
Record scrapeFailure : Type := mkScrapeFailure {
  message : string;
  originalUrl : string;
  failureReviewerName : string
}.

Inductive clue : Type :=
| Scraped (r : reviewData)
| ScrapeFailed (f : scrapeFailure).

(** [r && r.error] *)
Definition clue_error (c : clue) : bool :=
  match c with Scraped _ => false | ScrapeFailed _ => true end.

Module Scraper.

Definition truthy_opt (o : option string) : bool :=
  match o with Some s => truthy s | None => false end.

(** Lines 375-380. *)
Definition extract_reviewerName (p : page) : string :=
  let tempName := trim (persona_name_text p) in
  if truthy tempName then tempName
  else
    let tempName := trim (header_name_text p) in
    if truthy tempName then tempName else "A Steam User".

(** Lines 382-386. *)
Definition extract_reviewerAvatarUrl (p : page) : option string :=
  let avatarSrc := avatar_last_child_src p in
  let avatarSrc :=
    if negb (truthy_opt avatarSrc) then avatar_second_img_src p
    else avatarSrc in
  if truthy_opt avatarSrc then avatarSrc else None.

(** Lines 388-389. *)
Definition extract_recommendation (p : page) : string :=
  let tempRec := trim (rating_summary_text p) in
  if truthy tempRec then tempRec else "Not specified".

(** [playTimeText.split('/')[1]?.trim().split(' on record')[0]?.trim()] *)
Definition fallbackPlaytime (playTimeText : string) : option string :=
  match split_second "/" playTimeText with
  | Some piece => Some (trim (before " on record" (trim piece)))
  | None => None
  end.

(** Lines 391-402. *)
Definition extract_playtime (p : page) : string :=
  let playTimeText := trim (play_time_text p) in
  match at_review_time_match playTimeText with
  | Some g => g
  | None =>
      if truthy playTimeText then
        match fallbackPlaytime playTimeText with
        | Some fb =>
            if truthy fb then
              let pt := fb in
              let pt := if negb (includes pt "hrs") then pt ++ " hrs" else pt in
              if String.eqb pt "hrs" then "Playtime not shown" else pt
            else "Playtime not shown"
        | None => "Playtime not shown"
        end
      else "Playtime not shown"
  end.

(** Lines 404-405. *)
Definition extract_datePosted (p : page) : string :=
  let tempDate :=
    replace_first "Posted: " "" (trim (recommendation_date_text p)) in
  if truthy tempDate then tempDate else "Date not found".

(** Lines 407-411; [div_text h] is [$('<div>').html(h).text()]. *)
Definition extract_reviewText (div_text : string -> string) (p : page)
  : string :=
  match review_text_html p with
  | Some reviewContentHTML =>
      if truthy reviewContentHTML
      then trim (div_text (replace_br reviewContentHTML))
      else "Could not load review text."
  | None => "Could not load review text."
  end.

(** The body of the [try] of [scrapeSteamReview] after [cheerio.load]. *)
Definition parse_review (div_text : string -> string) (p : page)
  : reviewData :=
  {| reviewerName := extract_reviewerName p;
     reviewerAvatarUrl := extract_reviewerAvatarUrl p;
     recommendation := extract_recommendation p;
     playtime := extract_playtime p;
     datePosted := extract_datePosted p;
     reviewText := extract_reviewText div_text p |}.

(** The object built by the [catch] (line 419). *)
Definition scrape_failed (reviewUrl : string) : clue :=
  ScrapeFailed {| message := "Scraping failed";
                  originalUrl := reviewUrl;
                  failureReviewerName := "Error" |}.

(** The defaults of line 365-372. *)
Definition default_reviewData : reviewData :=
  {| reviewerName := "A Steam User";
     reviewerAvatarUrl := None;
     recommendation := "Not specified";
     playtime := "Playtime not shown";
     datePosted := "Date not found";
     reviewText := "Could not load review text." |}.

End Scraper.
Import Scraper.

(* ------------------------------------------------------------------ *)
(** ** The catalog store: tables [games] and [game_reviews] *)

(** A row of [games].  [is_active] is [true] when the column satisfies
    [is_active = TRUE]; [last_played_on] is [None] for SQL [NULL] and the
    text the server wrote otherwise. *)
Record game_row : Type := mkGame {
  id : Z;
  title : string;
  steam_app_id : string;
  last_played_on : option string;
  is_active : bool
}.

(** A row of [game_reviews]. *)
Record review_row : Type := mkReviewRow {
  game_id : Z;
  review_page_url : string;
  clue_order : Z
}.

(** The three columns every selector query projects. *)
Record selection : Type := mkSelection {
  sel_id : Z;
  sel_title : string;
  sel_steam_app_id : string
}.

Definition project (g : game_row) : selection :=
  {| sel_id := id g; sel_title := title g; sel_steam_app_id := steam_app_id g |}.

Module Sql.

(** Stable insertion sort: the order of [ORDER BY] with the scan order kept
    among equal keys. *)
Fixpoint insert_by {A : Type} (leb : A -> A -> bool) (x : A) (l : list A)
  : list A :=
  match l with
  | [] => [x]
  | y :: t => if leb x y then x :: y :: t else y :: insert_by leb x t
  end.

Fixpoint order_by {A : Type} (leb : A -> A -> bool) (l : list A) : list A :=
  match l with
  | [] => []
  | x :: t => insert_by leb x (order_by leb t)
  end.

(** Rows paired with the value [RANDOM()] takes on each of them; [keys i]
    is the value on the [i]-th row that passes the [WHERE] clause. *)
Fixpoint with_random_from {A : Type} (keys : nat -> Z) (i : nat) (l : list A)
  : list (Z * A) :=
  match l with
  | [] => []
  | x :: t => (keys i, x) :: with_random_from keys (S i) t
  end.

Definition with_random {A : Type} (keys : nat -> Z) (l : list A)
  : list (Z * A) := with_random_from keys 0 l.

(** [last_played_on = ?] *)
Definition played_on (today : string) (g : game_row) : bool :=
  match last_played_on g with
  | Some d => String.eqb d today
  | None => false
  end.

(** [last_played_on IS NULL] *)
Definition never_played (g : game_row) : bool :=
  match last_played_on g with Some _ => false | None => true end.

(** SQLite's order on the column: [NULL] first, then text in the order of
    its code units. *)
Definition date_leb (a b : option string) : bool :=
  match a, b with
  | None, _ => true
  | Some _, None => false
  | Some x, Some y => String.leb x y
  end.

Definition date_eqb (a b : option string) : bool :=
  match a, b with
  | None, None => true
  | Some x, Some y => String.eqb x y
  | _, _ => false
  end.

(** SELECT id, title, steam_app_id FROM games
    WHERE last_played_on = ? AND is_active = TRUE            (first row) *)
Definition select_played_today (today : string) (games : list game_row)
  : option selection :=
  option_map project
    (find (fun g => played_on today g && is_active g) games).

(** SELECT id, title, steam_app_id FROM games
    WHERE last_played_on IS NULL AND is_active = TRUE
    ORDER BY RANDOM() LIMIT 1 *)
Definition random_leb (a b : Z * game_row) : bool := (fst a <=? fst b)%Z.

Definition select_unplayed (keys : nat -> Z) (games : list game_row)
  : option selection :=
  option_map (fun kg => project (snd kg))
    (hd_error
       (order_by random_leb
          (with_random keys
             (filter (fun g => never_played g && is_active g) games)))).

(** SELECT id, title, steam_app_id FROM games WHERE is_active = TRUE
    ORDER BY last_played_on ASC, RANDOM() LIMIT 1 *)
Definition played_then_random_leb (a b : Z * game_row) : bool :=
  let da := last_played_on (snd a) in
  let db := last_played_on (snd b) in
  if date_eqb da db then (fst a <=? fst b)%Z else date_leb da db.

Definition select_least_recent (keys : nat -> Z) (games : list game_row)
  : option selection :=
  option_map (fun kg => project (snd kg))
    (hd_error
       (order_by played_then_random_leb
          (with_random keys (filter is_active games)))).

(** UPDATE games SET last_played_on = ? WHERE id = ? *)
Definition mark_played (today : string) (gid : Z) (games : list game_row)
  : list game_row :=
  map (fun g =>
         if (id g =? gid)%Z
         then {| id := id g; title := title g; steam_app_id := steam_app_id g;
                 last_played_on := Some today; is_active := is_active g |}
         else g)
      games.

(** SELECT review_page_url FROM game_reviews WHERE game_id = ?
    ORDER BY clue_order ASC LIMIT 6, followed by
    [rows.map(r => r.review_page_url)] *)
Definition clue_order_leb (a b : review_row) : bool :=
  (clue_order a <=? clue_order b)%Z.

Definition review_rows_of (gid : Z) (reviews : list review_row)
  : list review_row :=
  firstn 6
    (order_by clue_order_leb (filter (fun r => (game_id r =? gid)%Z) reviews)).

Definition select_review_urls (gid : Z) (reviews : list review_row)
  : list string :=
  map review_page_url (review_rows_of gid reviews).

End Sql.
Import Sql.

(* ------------------------------------------------------------------ *)
(** ** Process state, environment and the effect monad *)

(** The JSON bodies the two endpoints send. *)
Inductive gameData : Type :=
(* { title, appId, reviews } *)
| GameData (gd_title gd_appId : string) (gd_reviews : list clue)
(* { error: true, message, title, appId, reviews: [] } *)
| ReviewsFailedData (gd_message gd_title : string) (gd_appId : option string)
(* { error: true, message } *)
| ErrorData (gd_message : string).

(** [gameData.error] *)
Definition gameData_error (g : gameData) : bool :=
  match g with GameData _ _ _ => false | _ => true end.

(** [gameData.message]; [""] stands for [undefined]. *)
Definition gameData_message (g : gameData) : string :=
  match g with
  | GameData _ _ _ => ""
  | ReviewsFailedData m _ _ => m
  | ErrorData m => m
  end.

Inductive json : Type :=
| JGame (g : gameData)
(* { error: "<text>" } *)
| JError (error : string)
| JNames (names : list string).

Record response : Type := mkResponse {
  status : nat;
  body : json
}.

(** [let dailyGameCache = { date: null, gameData: null }] *)
Record cache_slot : Type := mkCache {
  cache_date : option string;
  cache_gameData : option gameData
}.

Record steam_app : Type := mkApp {
  name : string;
  appid : Z
}.

(** What the handlers do to the outside world, newest first. *)
Inductive event : Type :=
| EvSelectPlayedToday (today : string)
| EvSelectUnplayed
| EvSelectLeastRecent
| EvMarkPlayed (today : string) (gid : Z)
| EvSelectReviewUrls (gid : Z)
| EvHttpGet (url : string)
| EvFetchAppList.

Record world : Type := mkWorld {
  games : list game_row;
  game_reviews : list review_row;
  dailyGameCache : cache_slot;
  steamAppsCache : list steam_app;
  lastSteamAppsFetchTime : Z;
  log : list event
}.

Inductive app_list_reply : Type :=
| AppListFailed
| AppListMalformed
| AppList (apps : list steam_app).

(** Everything the process does not control.  The argument [nat] is the
    number of events logged so far, so each interaction has its own
    answer. *)
Record env : Type := mkEnv {
  (* the error SQLite hands to the callback, if any *)
  db_err : nat -> option string;
  (* [db.all] calling back without error and without rows *)
  db_null_rows : nat -> bool;
  (* the value of RANDOM() on the i-th row of the scan *)
  sql_random : nat -> nat -> Z;
  (* [axios.get] followed by [cheerio.load]; [None] when either throws *)
  http_get : nat -> string -> option page;
  (* $('<div>').html(h).text() *)
  div_text : string -> string;
  (* String.prototype.localeCompare *)
  localeCompare : string -> string -> Z;
  (* the reply of ISteamApps/GetAppList *)
  app_list : nat -> app_list_reply;
  (* Date.now() *)
  clock : nat -> Z
}.

Inductive outcome (A : Type) : Type :=
| Ret (a : A)
| Throw (msg : string).
Arguments Ret {A} a.
Arguments Throw {A} msg.

(** A computation reads and writes the process state and either returns or
    rejects with an [Error] carrying a message. *)
Definition M (A : Type) : Type := world -> outcome A * world.

Definition ret {A : Type} (a : A) : M A := fun w => (Ret a, w).

Definition throw {A : Type} (msg : string) : M A := fun w => (Throw msg, w).

Definition bind {A B : Type} (m : M A) (k : A -> M B) : M B :=
  fun w =>
    match m w with
    | (Ret a, w') => k a w'
    | (Throw msg, w') => (Throw msg, w')
    end.

Definition try_catch {A : Type} (m : M A) (handler : string -> M A) : M A :=
  fun w =>
    match m w with
    | (Ret a, w') => (Ret a, w')
    | (Throw msg, w') => handler msg w'
    end.

Declare Scope js_scope.
Delimit Scope js_scope with js.
Notation "x <- m ;; k" := (bind m (fun x => k))
  (at level 100, m at next level, right associativity) : js_scope.
Notation "m ;;; k" := (bind m (fun _ => k))
  (at level 100, right associativity) : js_scope.
Local Open Scope js_scope.

Definition now (w : world) : nat := List.length (log w).

Definition record (e : event) (w : world) : world :=
  {| games := games w; game_reviews := game_reviews w;
     dailyGameCache := dailyGameCache w; steamAppsCache := steamAppsCache w;
     lastSteamAppsFetchTime := lastSteamAppsFetchTime w;
     log := e :: log w |}.

Definition set_games (gs : list game_row) (w : world) : world :=
  {| games := gs; game_reviews := game_reviews w;
     dailyGameCache := dailyGameCache w; steamAppsCache := steamAppsCache w;
     lastSteamAppsFetchTime := lastSteamAppsFetchTime w;
     log := log w |}.

Definition set_dailyGameCache (c : cache_slot) : M unit :=
  fun w =>
    (Ret tt,
     {| games := games w; game_reviews := game_reviews w;
        dailyGameCache := c; steamAppsCache := steamAppsCache w;
        lastSteamAppsFetchTime := lastSteamAppsFetchTime w;
        log := log w |}).

Definition set_steamApps (apps : list steam_app) (t : Z) (w : world) : world :=
  {| games := games w; game_reviews := game_reviews w;
     dailyGameCache := dailyGameCache w; steamAppsCache := apps;
     lastSteamAppsFetchTime := t;
     log := log w |}.

(** A read of the catalog wrapped in [new Promise]: the callback rejects
    with SQLite's error or resolves with the row. *)
Definition db_query {A : Type} (E : env) (e : event) (q : nat -> world -> A)
  : M A :=
  fun w =>
    let t := now w in
    match db_err E t with
    | Some msg => (Throw msg, record e w)
    | None => (Ret (q t w), record e w)
    end.

(* ------------------------------------------------------------------ *)
(** ** GET /api/daily-game *)

Module DailyGame.

(** Blocks A to D, shared by both revisions (part_001 lines 273-337,
    script.js lines 1153-1192): the game already marked for today, else a
    random active game never played, else the active game played least
    recently; a game found by the last two is marked as played today. *)
Definition block_A (E : env) (todayStr : string) : M (option selection) :=
  db_query E (EvSelectPlayedToday todayStr)
    (fun _ w => select_played_today todayStr (games w)).

Definition block_B (E : env) : M (option selection) :=
  db_query E EvSelectUnplayed
    (fun t w => select_unplayed (sql_random E t) (games w)).

Definition block_C (E : env) : M (option selection) :=
  db_query E EvSelectLeastRecent
    (fun t w => select_least_recent (sql_random E t) (games w)).

Definition block_D (E : env) (todayStr : string) (gid : Z) : M unit :=
  fun w =>
    let t := now w in
    match db_err E t with
    | Some msg => (Throw msg, record (EvMarkPlayed todayStr gid) w)
    | None =>
        (Ret tt,
         record (EvMarkPlayed todayStr gid)
           (set_games (mark_played todayStr gid (games w)) w))
    end.

Definition select_daily_game (E : env) (todayStr : string)
  : M (option selection) :=
  game <- block_A E todayStr ;;
  match game with
  | Some g => ret (Some g)
  | None =>
      game <- block_B E ;;
      game <- match game with
              | Some g => ret (Some g)
              | None => block_C E
              end ;;
      match game with
      | Some g => block_D E todayStr (sel_id g) ;;; ret (Some g)
      | None => ret None
      end
  end.

(** The promise around [db.all] (part_001 lines 427-441). *)
Definition review_page_urls (E : env) (gid : Z) : M (list string) :=
  fun w =>
    let t := now w in
    let w' := record (EvSelectReviewUrls gid) w in
    match db_err E t with
    | Some _ => (Throw "Could not fetch review URLs.", w')
    | None =>
        if db_null_rows E t
        then (Throw "Database returned unexpected null for review URLs.", w')
        else (Ret (select_review_urls gid (game_reviews w)), w')
    end.

(** [scrapeSteamReview] (part_001 lines 355-421): whatever is thrown inside
    the [try] becomes the failure record. *)
Definition scrapeSteamReview (E : env) (reviewUrl : string) : M clue :=
  fun w =>
    let t := now w in
    (Ret match http_get E t reviewUrl with
         | Some p => Scraped (parse_review (div_text E) p)
         | None => scrape_failed reviewUrl
         end,
     record (EvHttpGet reviewUrl) w).

(** [Promise.all(reviewPageUrls.map(url => scrapeSteamReview(url)))]: the
    requests leave in list order and the results keep their positions. *)
Fixpoint scrape_all (E : env) (urls : list string) : M (list clue) :=
  match urls with
  | [] => ret []
  | url :: rest =>
      r <- scrapeSteamReview E url ;;
      rs <- scrape_all E rest ;;
      ret (r :: rs)
  end.

Definition ok (g : gameData) : response := {| status := 200; body := JGame g |}.

Definition fail (msg : string) : response :=
  {| status := 500; body := JError msg |}.

(** [fetchReviewsForGameAndRespond] (part_001 lines 424-466). *)
Definition fetchReviewsForGameAndRespond (E : env) (game : selection)
  : M response :=
  try_catch
    (reviewPageUrls <- review_page_urls E (sel_id game) ;;
     match reviewPageUrls with
     | [] => ret (ok (GameData (sel_title game) (sel_steam_app_id game) []))
     | _ =>
         scrapedReviews <- scrape_all E reviewPageUrls ;;
         ret (ok (GameData (sel_title game) (sel_steam_app_id game)
                    scrapedReviews))
     end)
    (fun msg =>
       ret (fail (or_else msg
                    "Internal server error while fetching/scraping reviews."))).

(** The handler of part_001 (lines 268-351). *)
Definition daily_game (E : env) (todayStr : string) : M response :=
  try_catch
    (game <- select_daily_game E todayStr ;;
     match game with
     | None => ret (fail "No games available to select for today.")
     | Some g => fetchReviewsForGameAndRespond E g
     end)
    (fun _ => ret (fail "Internal server error while selecting daily game.")).

(** [getAndScrapeReviewDataForGame] (script.js lines 1095-1132). *)
Definition getAndScrapeReviewDataForGame (E : env) (gameSelection : selection)
  : M gameData :=
  try_catch
    (reviewPageUrls <- review_page_urls E (sel_id gameSelection) ;;
     match reviewPageUrls with
     | [] => ret (GameData (sel_title gameSelection)
                    (sel_steam_app_id gameSelection) [])
     | _ =>
         scrapedReviews <- scrape_all E reviewPageUrls ;;
         ret (GameData (sel_title gameSelection)
                (sel_steam_app_id gameSelection) scrapedReviews)
     end)
    (fun _ =>
       ret (ReviewsFailedData "Failed to process game reviews."
              (or_else (sel_title gameSelection) "Unknown")
              (if truthy (sel_steam_app_id gameSelection)
               then Some (sel_steam_app_id gameSelection) else None))).

(** [dailyGameCache.date === todayStr && dailyGameCache.gameData] *)
Definition cache_lookup (todayStr : string) (c : cache_slot) : option gameData :=
  match cache_date c with
  | Some d => if String.eqb d todayStr then cache_gameData c else None
  | None => None
  end.

Definition store_in_cache (todayStr : string) (g : gameData) : M unit :=
  set_dailyGameCache {| cache_date := Some todayStr; cache_gameData := Some g |}.

(** The handler of script.js (lines 1137-1221). *)
Definition daily_game_cached (E : env) (todayStr : string) : M response :=
  fun w =>
    match cache_lookup todayStr (dailyGameCache w) with
    | Some g =>
        if gameData_error g
        then (Ret (fail (or_else (gameData_message g)
                           "Failed to get daily game data (cached error).")),
              w)
        else (Ret (ok g), w)
    | None =>
        try_catch
          (game <- select_daily_game E todayStr ;;
           match game with
           | None =>
               let e := ErrorData "No games available to select for today." in
               store_in_cache todayStr e ;;;
               ret {| status := 500; body := JGame e |}
           | Some g =>
               fullGameDataWithReviews <- getAndScrapeReviewDataForGame E g ;;
               store_in_cache todayStr fullGameDataWithReviews ;;;
               if gameData_error fullGameDataWithReviews
               then ret (fail (or_else
                                 (gameData_message fullGameDataWithReviews)
                                 "Failed to process reviews for the daily game."))
               else ret (ok fullGameDataWithReviews)
           end)
          (fun _ =>
             let e :=
               ErrorData "Internal server error while selecting daily game." in
             store_in_cache todayStr e ;;;
             ret {| status := 500; body := JGame e |})
          w
    end.

End DailyGame.
Import DailyGame.

(* ------------------------------------------------------------------ *)
(** ** GET /api/search-steam-games *)

Module Autocomplete.

Definition STEAM_APPS_CACHE_DURATION : Z := 24 * 60 * 60 * 1000.

Definition NON_GAME_KEYWORDS : list string :=
  [ "dlc"; "soundtrack"; "ost"; "artbook"; "art book"; "expansion";
    "pack"; "demo"; "beta"; "playtest"; "bonus"; "season pass";
    "skin"; "wallpaper"; "trailer"; "key"; "server"; "dedicated server";
    "sdk"; "tool"; "editor"; "trial"; "vr edition" ].

Definition is_alnum_lower (c : ascii) : bool :=
  let n := nat_of_ascii c in
  (((97 <=? n) && (n <=? 122)) || ((48 <=? n) && (n <=? 57)))%nat.

Fixpoint keep_alnum (s : string) : string :=
  match s with
  | EmptyString => EmptyString
  | String c r => if is_alnum_lower c then String c (keep_alnum r)
                  else keep_alnum r
  end.

(** [str.toLowerCase().replace(/[^a-z0-9]/gi, '')] *)
Definition normalizeStringServer (str : string) : string :=
  keep_alnum (toLowerCase str).

(** The first [filter] of [fetchAndCacheSteamApps]. *)
Definition is_game (app : steam_app) : bool :=
  if negb (truthy (name app)) || negb (truthy (trim (name app))) then false
  else
    let lowerCaseName := toLowerCase (name app) in
    negb (existsb (fun keyword => includes lowerCaseName keyword)
            NON_GAME_KEYWORDS).

(** [.filter((app, index, self) =>
       index === self.findIndex(t => t.name === app.name))] *)
Fixpoint first_by_name (earlier : list steam_app) (l : list steam_app)
  : list steam_app :=
  match l with
  | [] => []
  | a :: t =>
      if existsb (fun b => String.eqb (name b) (name a)) earlier
      then first_by_name (earlier ++ [a]) t
      else a :: first_by_name (earlier ++ [a]) t
  end.

(** [fetchAndCacheSteamApps] (part_001 lines 188-223); it never rejects. *)
Definition fetchAndCacheSteamApps (E : env) : M unit :=
  fun w =>
    let t := now w in
    let w' := record EvFetchAppList w in
    match app_list E t with
    | AppList rawApps =>
        let apps := first_by_name [] (filter is_game rawApps) in
        let sorted :=
          order_by (fun a b => (localeCompare E (name a) (name b) <=? 0)%Z)
            apps in
        (Ret tt, set_steamApps sorted (clock E (now w')) w')
    | _ => (Ret tt, w')
    end.

Definition digit_of (c : ascii) : option Z :=
  let n := nat_of_ascii c in
  if ((48 <=? n) && (n <=? 57))%nat then Some (Z.of_nat (n - 48)) else None.

Fixpoint digits (acc : option Z) (s : string) : option Z :=
  match s with
  | EmptyString => acc
  | String c r =>
      match digit_of c with
      | Some d =>
          digits (Some (10 * match acc with Some a => a | None => 0 end + d)%Z) r
      | None => acc
      end
  end.

(** [parseInt(x, 10)]; [None] is [NaN]. *)
Definition parseInt (x : option string) : option Z :=
  match x with
  | None => None
  | Some s =>
      match trimStart s with
      | String "-" r => option_map Z.opp (digits None r)
      | String "+" r => digits None r
      | r => digits None r
      end
  end.

(** [arr.slice(0, limit)] *)
Definition slice0 {A : Type} (limit : Z) (l : list A) : list A :=
  if (limit <? 0)%Z
  then firstn (Z.to_nat (Z.max (Z.of_nat (List.length l) + limit) 0)) l
  else firstn (Z.to_nat limit) l.

Record candidate : Type := mkCandidate {
  originalName : string;
  normalizedName : string
}.

(** The comparator handed to [sort] (part_001 lines 252-259). *)
Definition by_prefix_then_name (E : env) (normalizedSearchTerm : string)
  (a b : candidate) : Z :=
  let aStartsWith := startsWith (normalizedName a) normalizedSearchTerm in
  let bStartsWith := startsWith (normalizedName b) normalizedSearchTerm in
  if aStartsWith && negb bStartsWith then (-1)%Z
  else if negb aStartsWith && bStartsWith then 1%Z
  else localeCompare E (normalizedName a) (normalizedName b).

Definition suggestions_for (E : env) (searchTermRaw : string) (limit : Z)
  (apps : list steam_app) : list string :=
  let normalizedSearchTerm := normalizeStringServer searchTermRaw in
  map originalName
    (slice0 limit
       (order_by
          (fun a b => (by_prefix_then_name E normalizedSearchTerm a b <=? 0)%Z)
          (filter (fun app => includes (normalizedName app) normalizedSearchTerm)
             (map (fun app => {| originalName := name app;
                                 normalizedName := normalizeStringServer (name app) |})
                apps)))).

(** The handler (part_001 lines 229-264); [term] and [limit] are
    [req.query.term] and [req.query.limit]. *)
Definition search_steam_games (E : env) (term limit : option string)
  : M response :=
  fun w =>
    let currentTime := clock E (now w) in
    (_ <- (if (List.length (steamAppsCache w) =? 0)%nat
              || (currentTime - lastSteamAppsFetchTime w
                  >? STEAM_APPS_CACHE_DURATION)%Z
           then fetchAndCacheSteamApps E else ret tt) ;;
     let searchTermRaw :=
       match term with
       | Some t => if truthy t then trim t else ""
       | None => ""
       end in
     let limit :=
       match parseInt limit with
       | Some n => if (n =? 0)%Z then 15%Z else n
       | None => 15%Z
       end in
     if negb (truthy searchTermRaw) || (String.length searchTermRaw <? 2)%nat
     then ret {| status := 200; body := JNames [] |}
     else
       fun w' =>
         (Ret {| status := 200;
                 body := JNames (suggestions_for E searchTermRaw limit
                                   (steamAppsCache w')) |},
          w')) w.

End Autocomplete.
Import Autocomplete.

(* ------------------------------------------------------------------ *)
(** ** Sequences of requests *)

Module Scenario.

(** The same handler called [n] times in a row. *)
Fixpoint repeat_request (h : M response) (n : nat) (w : world) : world :=
  match n with
  | O => w
  | S k => repeat_request h k (snd (h w))
  end.

(** One request on each day of [days], in order. *)
Fixpoint serve_days (h : string -> M response) (days : list string) (w : world)
  : list (outcome response) * world :=
  match days with
  | [] => ([], w)
  | d :: rest =>
      let (r, w1) := h d w in
      let (rs, w2) := serve_days h rest w1 in
      (r :: rs, w2)
  end.

(** The title and appId of a 200 payload. *)
Definition served_game (r : outcome response) : option (string * string) :=
  match r with
  | Ret {| status := 200; body := JGame (GameData t a _) |} => Some (t, a)
  | _ => None
  end.

Definition unplayed_active (gs : list game_row) : list game_row :=
  filter (fun g => never_played g && is_active g) gs.

(** The clue record a request for [url] leaving at time [t] resolves to. *)
Definition resolve (E : env) (t : nat) (url : string) : clue :=
  match http_get E t url with
  | Some p => Scraped (parse_review (div_text E) p)
  | None =>
      ScrapeFailed {| message := "Scraping failed"; originalUrl := url;
                      failureReviewerName := "Error" |}
  end.

Fixpoint resolve_all (E : env) (t : nat) (urls : list string) : list clue :=
  match urls with
  | [] => []
  | url :: rest => resolve E t url :: resolve_all E (S t) rest
  end.

Fixpoint record_all (es : list event) (w : world) : world :=
  match es with
  | [] => w
  | e :: rest => record_all rest (record e w)
  end.

(** The world after a successful block D on [base]. *)
Definition marked (todayStr : string) (g : selection) (base : world) : world :=
  record (EvMarkPlayed todayStr (sel_id g))
    (set_games (mark_played todayStr (sel_id g) (games base)) base).

(** The nine ways through blocks A to D: which store operation failed, or
    which block supplied the game. *)
Inductive selector_path (E : env) (todayStr : string) (w : world)
  : outcome (option selection) -> world -> Prop :=
| path_A_fails msg :
    db_err E (now w) = Some msg ->
    selector_path E todayStr w (Throw msg)
      (record (EvSelectPlayedToday todayStr) w)
| path_preselected g :
    db_err E (now w) = None ->
    select_played_today todayStr (games w) = Some g ->
    selector_path E todayStr w (Ret (Some g))
      (record (EvSelectPlayedToday todayStr) w)
| path_B_fails msg :
    db_err E (now w) = None ->
    select_played_today todayStr (games w) = None ->
    db_err E (1 + now w) = Some msg ->
    selector_path E todayStr w (Throw msg)
      (record EvSelectUnplayed (record (EvSelectPlayedToday todayStr) w))
| path_unplayed_D_fails g msg :
    db_err E (now w) = None ->
    select_played_today todayStr (games w) = None ->
    db_err E (1 + now w) = None ->
    select_unplayed (sql_random E (1 + now w)) (games w) = Some g ->
    db_err E (2 + now w) = Some msg ->
    selector_path E todayStr w (Throw msg)
      (record (EvMarkPlayed todayStr (sel_id g))
         (record EvSelectUnplayed (record (EvSelectPlayedToday todayStr) w)))
| path_unplayed g :
    db_err E (now w) = None ->
    select_played_today todayStr (games w) = None ->
    db_err E (1 + now w) = None ->
    select_unplayed (sql_random E (1 + now w)) (games w) = Some g ->
    db_err E (2 + now w) = None ->
    selector_path E todayStr w (Ret (Some g))
      (marked todayStr g
         (record EvSelectUnplayed (record (EvSelectPlayedToday todayStr) w)))
| path_C_fails msg :
    db_err E (now w) = None ->
    select_played_today todayStr (games w) = None ->
    db_err E (1 + now w) = None ->
    select_unplayed (sql_random E (1 + now w)) (games w) = None ->
    db_err E (2 + now w) = Some msg ->
    selector_path E todayStr w (Throw msg)
      (record EvSelectLeastRecent
         (record EvSelectUnplayed (record (EvSelectPlayedToday todayStr) w)))
| path_no_game :
    db_err E (now w) = None ->
    select_played_today todayStr (games w) = None ->
    db_err E (1 + now w) = None ->
    select_unplayed (sql_random E (1 + now w)) (games w) = None ->
    db_err E (2 + now w) = None ->
    select_least_recent (sql_random E (2 + now w)) (games w) = None ->
    selector_path E todayStr w (Ret None)
      (record EvSelectLeastRecent
         (record EvSelectUnplayed (record (EvSelectPlayedToday todayStr) w)))
| path_least_recent_D_fails g msg :
    db_err E (now w) = None ->
    select_played_today todayStr (games w) = None ->
    db_err E (1 + now w) = None ->
    select_unplayed (sql_random E (1 + now w)) (games w) = None ->
    db_err E (2 + now w) = None ->
    select_least_recent (sql_random E (2 + now w)) (games w) = Some g ->
    db_err E (3 + now w) = Some msg ->
    selector_path E todayStr w (Throw msg)
      (record (EvMarkPlayed todayStr (sel_id g))
         (record EvSelectLeastRecent
            (record EvSelectUnplayed (record (EvSelectPlayedToday todayStr) w))))
| path_least_recent g :
    db_err E (now w) = None ->
    select_played_today todayStr (games w) = None ->
    db_err E (1 + now w) = None ->
    select_unplayed (sql_random E (1 + now w)) (games w) = None ->
    db_err E (2 + now w) = None ->
    select_least_recent (sql_random E (2 + now w)) (games w) = Some g ->
    db_err E (3 + now w) = None ->
    selector_path E todayStr w (Ret (Some g))
      (marked todayStr g
         (record EvSelectLeastRecent
            (record EvSelectUnplayed (record (EvSelectPlayedToday todayStr) w)))).

(** The world once [dailyGameCache] has been replaced. *)
Definition with_cache (todayStr : string) (g : gameData) (w : world) : world :=
  snd (store_in_cache todayStr g w).

(** What the caching handler answers once the payload is assembled. *)
Definition respond_with (full : gameData) : response :=
  if gameData_error full
  then fail (or_else (gameData_message full)
               "Failed to process reviews for the daily game.")
  else ok full.

(** The row [g] after [UPDATE games SET last_played_on = ?] reached it. *)
Definition set_last_played (todayStr : string) (g : game_row) : game_row :=
  {| id := id g; title := title g; steam_app_id := steam_app_id g;
     last_played_on := Some todayStr; is_active := is_active g |}.

(** The table before and after a day's requests: either nothing was written
    or exactly one row, an active one, had its [last_played_on] set. *)
Inductive catalog_step (todayStr : string) (gs : list game_row)
  : list game_row -> Prop :=
| step_unchanged : catalog_step todayStr gs gs
| step_one_marked l1 g l2 :
    gs = (l1 ++ g :: l2)%list ->
    is_active g = true ->
    catalog_step todayStr gs (l1 ++ set_last_played todayStr g :: l2)%list.

(** Blocks A to C settle on the new entry [g], and block D is the store
    operation number [tD]. *)
Definition picks_new (E : env) (todayStr : string) (w : world)
  (g : selection) (tD : nat) : Prop :=
  db_err E (now w) = None /\
  select_played_today todayStr (games w) = None /\
  db_err E (1 + now w) = None /\
  ((select_unplayed (sql_random E (1 + now w)) (games w) = Some g /\
    tD = 2 + now w) \/
   (select_unplayed (sql_random E (1 + now w)) (games w) = None /\
    db_err E (2 + now w) = None /\
    select_least_recent (sql_random E (2 + now w)) (games w) = Some g /\
    tD = 3 + now w)).

Definition is_mark_event (e : event) : bool :=
  match e with EvMarkPlayed _ _ => true | _ => false end.

(** An active row already carries today's date. *)
Definition marked_today (todayStr : string) (gs : list game_row) : Prop :=
  exists g, In g gs /\ is_active g = true /\ last_played_on g = Some todayStr.

(** Every active row was never played or was played on a day that is not
    among [days]. *)
Definition rotating (days : list string) (gs : list game_row) : Prop :=
  forall g, In g gs -> is_active g = true ->
    last_played_on g = None \/
    exists d, last_played_on g = Some d /\ ~ In d days.

Definition card (g : game_row) : option (string * string) :=
  Some (title g, steam_app_id g).

(** What the caching handler answers from a filled cache slot. *)
Definition replay (g : gameData) : response :=
  if gameData_error g
  then fail (or_else (gameData_message g)
               "Failed to get daily game data (cached error).")
  else ok g.

(** The events a call added to the log. *)
Definition new_events (before after : world) : list event :=
  firstn (List.length (log after) - List.length (log before)) (log after).

End Scenario.
Import Scenario.

(* ------------------------------------------------------------------ *)
(** ** The values of [RANDOM()] as a ranking of the rows *)

Module Chance.

(** Exchange of the positions [i] and [j]. *)
Definition tr (i j k : nat) : nat :=
  if (k =? i)%nat then j else if (k =? j)%nat then i else k.

(** The ranking [p] with the ranks of rows [i] and [j] exchanged. *)
Definition swap_keys (i j : nat) (p : list nat) : list nat :=
  map (fun k => nth (tr i j k) p 0) (seq 0 (List.length p)).

(** All the lists obtained by putting [x] somewhere into [p]. *)
Fixpoint inserts (x : nat) (p : list nat) : list (list nat) :=
  match p with
  | [] => [[x]]
  | y :: t => (x :: y :: t) :: map (cons y) (inserts x t)
  end.

(** All the orders in which the elements of [l] can come. *)
Fixpoint rankings_of (l : list nat) : list (list nat) :=
  match l with
  | [] => [[]]
  | x :: t => flat_map (inserts x) (rankings_of t)
  end.

(** The [m!] rankings of [m] rows. *)
Definition rankings (m : nat) : list (list nat) := rankings_of (seq 0 m).

(** The values [RANDOM()] takes when the rows are ranked by [p]: row [i]
    gets the rank [nth i p]. *)
Definition keys_of (p : list nat) : nat -> Z := fun i => Z.of_nat (nth i p 0).

Definition selection_eqb (a b : selection) : bool :=
  (sel_id a =? sel_id b)%Z && String.eqb (sel_title a) (sel_title b)
  && String.eqb (sel_steam_app_id a) (sel_steam_app_id b).

(** The query [select] returns the row [g] under the ranking [p]. *)
Definition draws (select : (nat -> Z) -> option selection) (g : game_row)
  (p : list nat) : bool :=
  match select (keys_of p) with
  | Some s => selection_eqb s (project g)
  | None => false
  end.

(** The rows of [l] whose [last_played_on] is that of [g]. *)
Definition tied_with (g : game_row) (l : list game_row) : list game_row :=
  filter (fun g' => date_eqb (last_played_on g') (last_played_on g)) l.

(** Row [a] of [l] has a least [last_played_on], and on it [RANDOM()] is
    least among the rows with that date. *)
Definition least_at (l : list game_row) (keys : nat -> Z) (a : nat)
  (g : game_row) : Prop :=
  nth_error l a = Some g /\
  forall b g', nth_error l b = Some g' ->
    date_leb (last_played_on g) (last_played_on g') = true /\
    (last_played_on g = last_played_on g' -> (keys a <= keys b)%Z).

(** No row of [l] is older than [g]. *)
Definition oldest (l : list game_row) (g : game_row) : Prop :=
  forall g', In g' l -> date_leb (last_played_on g) (last_played_on g') = true.

End Chance.
Import Chance.

(* ------------------------------------------------------------------ *)
(** ** Concrete catalogs and environments *)

Module Samples.

Definition portal2 : game_row := mkGame 1 "Portal 2" "620" None true.
Definition hades : game_row := mkGame 2 "Hades" "1145360" None true.
Definition celeste : game_row :=
  mkGame 3 "Celeste" "504230" (Some "2024-04-30") true.
Definition retired : game_row :=
  mkGame 4 "Retired" "1" (Some "2024-01-01") false.

Definition hollow : game_row :=
  mkGame 5 "Hollow Knight" "367520" (Some "2024-04-12") true.

Definition url1 : string := "https://steamcommunity.com/id/a/recommended/620/".
Definition url2 : string := "https://steamcommunity.com/id/b/recommended/620/".

Definition portal_reviews : list review_row :=
  [ mkReviewRow 1 url2 2; mkReviewRow 1 url1 1 ].

Definition full_page : page :=
  {| persona_name_text := "  GLaDOS ";
     header_name_text := "";
     avatar_last_child_src := Some "https://avatars.example/glados.jpg";
     avatar_second_img_src := None;
     rating_summary_text := "Recommended";
     play_time_text := "3.0 hrs last two weeks / 51.2 hrs on record (17.4 hrs at review time)";
     recommendation_date_text := "Posted: 21 April, 2011";
     review_text_html := Some "The cake<br>is a lie" |}.

Definition blank_page : page := mkPage "" "" None None "" "" "" None.

(** A page with the name in the header only, the avatar in the second
    image, and neither rating nor date. *)
Definition partial_page : page :=
  {| persona_name_text := "";
     header_name_text := " Chell ";
     avatar_last_child_src := None;
     avatar_second_img_src := Some "https://avatars.example/chell.jpg";
     rating_summary_text := "  ";
     play_time_text := "0.5 hrs last two weeks / 12 hrs on record";
     recommendation_date_text := "";
     review_text_html := Some "Still alive.<br />Really." |}.

(** A page whose review body holds markup but no text. *)
Definition wordless_page : page :=
  {| persona_name_text := "Chell";
     header_name_text := "";
     avatar_last_child_src := None;
     avatar_second_img_src := None;
     rating_summary_text := "Recommended";
     play_time_text := "";
     recommendation_date_text := "Posted: 1 May, 2024";
     review_text_html := Some " <br> " |}.

Definition compare_code_units (a b : string) : Z :=
  match String.compare a b with Lt => (-1)%Z | Eq => 0%Z | Gt => 1%Z end.

(** A healthy store; only [url1] can be fetched. *)
Definition calm : env :=
  {| db_err := fun _ => None;
     db_null_rows := fun _ => false;
     sql_random := fun _ i => Z.of_nat i;
     http_get := fun _ url => if String.eqb url url1 then Some full_page else None;
     div_text := fun h => h;
     localeCompare := compare_code_units;
     app_list := fun _ => AppListFailed;
     clock := fun _ => 0%Z |}.

(** The store operation number [k] fails. *)
Definition store_fails_at (k : nat) : env :=
  {| db_err := fun t => if (t =? k)%nat then Some "SQLITE_BUSY: database is locked"
                        else None;
     db_null_rows := fun _ => false;
     sql_random := fun _ i => Z.of_nat i;
     http_get := fun _ url => if String.eqb url url1 then Some full_page else None;
     div_text := fun h => h;
     localeCompare := compare_code_units;
     app_list := fun _ => AppListFailed;
     clock := fun _ => 0%Z |}.

Definition empty_cache : cache_slot :=
  {| cache_date := None; cache_gameData := None |}.

Definition fresh (gs : list game_row) (rs : list review_row) : world :=
  {| games := gs; game_reviews := rs; dailyGameCache := empty_cache;
     steamAppsCache := []; lastSteamAppsFetchTime := 0; log := [] |}.

End Samples.

(* ------------------------------------------------------------------ *)
(** ** Requests in flight at the same time *)

Module Overlap.

(** Where a call of the handler of part_001 (lines 268-351) is suspended:
    the [await] it stands at, with what it has found so far.  The process
    runs one call at a time from one [await] to the next; which of the
    calls in flight is resumed next, once the store or the network has
    answered, is not up to the handler. *)
Inductive stage : Type :=
(* at the [await] of block A (line 275) *)
| Received
(* block A found no row: at the [await] of block B (line 294) *)
| NoneToday
(* block B found no row: at the [await] of block C (line 309) *)
| NoneUnplayed
(* block B or C found [game]: at the [await] of block D (line 325) *)
| Chosen (game : selection)
(* in [fetchReviewsForGameAndRespond], at the [await] of line 427 *)
| Serving (game : selection)
(* the review URLs are known: at the [await] of line 449 *)
| Scraping (game : selection) (reviewPageUrls : list string)
(* [res.json] was called *)
| Answered (r : response).

(** The [catch] of the handler (lines 347-350). *)
Definition selecting_failed : stage :=
  Answered (fail "Internal server error while selecting daily game.").

(** The [catch] of [fetchReviewsForGameAndRespond] (lines 459-465). *)
Definition serving_failed (msg : string) : stage :=
  Answered (fail (or_else msg
                    "Internal server error while fetching/scraping reviews.")).

(** The call is resumed: the operation it awaits takes effect and settles,
    and the handler runs on to its next [await] or to its answer. *)
Definition resume (E : env) (todayStr : string) (s : stage) (w : world)
  : stage * world :=
  match s with
  | Received =>
      match block_A E todayStr w with
      | (Ret (Some game), w') => (Serving game, w')
      | (Ret None, w') => (NoneToday, w')
      | (Throw _, w') => (selecting_failed, w')
      end
  | NoneToday =>
      match block_B E w with
      | (Ret (Some game), w') => (Chosen game, w')
      | (Ret None, w') => (NoneUnplayed, w')
      | (Throw _, w') => (selecting_failed, w')
      end
  | NoneUnplayed =>
      match block_C E w with
      | (Ret (Some game), w') => (Chosen game, w')
      | (Ret None, w') =>
          (Answered (fail "No games available to select for today."), w')
      | (Throw _, w') => (selecting_failed, w')
      end
  | Chosen game =>
      match block_D E todayStr (sel_id game) w with
      | (Ret _, w') => (Serving game, w')
      | (Throw _, w') => (selecting_failed, w')
      end
  | Serving game =>
      match review_page_urls E (sel_id game) w with
      | (Ret [], w') =>
          (Answered (ok (GameData (sel_title game) (sel_steam_app_id game) [])),
           w')
      | (Ret reviewPageUrls, w') => (Scraping game reviewPageUrls, w')
      | (Throw msg, w') => (serving_failed msg, w')
      end
  | Scraping game reviewPageUrls =>
      match scrape_all E reviewPageUrls w with
      | (Ret scrapedReviews, w') =>
          (Answered (ok (GameData (sel_title game) (sel_steam_app_id game)
                           scrapedReviews)),
           w')
      | (Throw msg, w') => (serving_failed msg, w')
      end
  | Answered r => (Answered r, w)
  end.

(** One call resumed [n] times in a row, no other call in between. *)
Fixpoint settle (E : env) (todayStr : string) (n : nat) (s : stage) (w : world)
  : stage * world :=
  match n with
  | O => (s, w)
  | S k => let (s', w') := resume E todayStr s w in settle E todayStr k s' w'
  end.

(** [l] with [x] at index [i]. *)
Fixpoint put {A : Type} (i : nat) (x : A) (l : list A) : list A :=
  match l, i with
  | [], _ => []
  | _ :: t, O => x :: t
  | y :: t, S j => y :: put j x t
  end.

(** The calls in flight [calls], resumed in the order [turns] gives: each
    turn names the call whose awaited operation settles next. *)
Fixpoint overlap (E : env) (todayStr : string) (turns : list nat)
  (calls : list stage) (w : world) : list stage * world :=
  match turns with
  | [] => (calls, w)
  | i :: rest =>
      match nth_error calls i with
      | Some s =>
          let (s', w') := resume E todayStr s w in
          overlap E todayStr rest (put i s' calls) w'
      | None => overlap E todayStr rest calls w
      end
  end.

(** Two requests of 2024-05-01 on a catalog of two entries never played.
    The second is received while the first awaits block A; block A answers
    both before either goes on; then the first runs blocks B and D, the
    second runs blocks B and D, and both fetch their reviews. *)
Definition two_at_once : list stage * world :=
  overlap Samples.calm "2024-05-01" [0; 1; 0; 0; 1; 1; 0; 0; 1]%nat
    [Received; Received]
    (Samples.fresh [Samples.portal2; Samples.hades] Samples.portal_reviews).

End Overlap.

(* ------------------------------------------------------------------ *)
(** ** Requests to the search endpoint *)

Module Lookup.

(** The test that opens the handler (part_001 lines 230-234). *)
Definition refresh_due (E : env) (w : world) : bool :=
  (List.length (steamAppsCache w) =? 0)%nat
  || (clock E (now w) - lastSteamAppsFetchTime w >? STEAM_APPS_CACHE_DURATION)%Z.

(** The process state once the handler is past that test. *)
Definition after_refresh (E : env) (w : world) : world :=
  if refresh_due E w then snd (fetchAndCacheSteamApps E w) else w.

(** [req.query.term ? req.query.term.trim() : ""] *)
Definition term_of (term : option string) : string :=
  match term with
  | Some t => if truthy t then trim t else ""
  | None => ""
  end.

(** [parseInt(req.query.limit, 10) || 15] *)
Definition limit_of (limit : option string) : Z :=
  match parseInt limit with
  | Some n => if (n =? 0)%Z then 15%Z else n
  | None => 15%Z
  end.

(** The entry of the suggestion pipeline made from a name. *)
Definition candidate_of (n : string) : candidate :=
  {| originalName := n; normalizedName := normalizeStringServer n |}.

(** The cached apps a term matches. *)
Definition matching (searchTermRaw : string) (apps : list steam_app)
  : list steam_app :=
  filter (fun app => includes (normalizeStringServer (name app))
                       (normalizeStringServer searchTermRaw))
    apps.




End Lookup.
Import Lookup.

(* ------------------------------------------------------------------ *)
(** ** What a request asked of the network *)

Module Trace.

(** The addresses of the review pages requested in [es], in the order of
    [es] (a log lists the newest event first). *)
Definition fetched_urls (es : list event) : list string :=
  flat_map (fun e => match e with EvHttpGet url => [url] | _ => [] end) es.

End Trace.
Import Trace.

(* ------------------------------------------------------------------ *)
(** ** The page script (src/public/script.js, lines 458-972) *)

From Stdlib Require Import DecimalString.

Module Page.

(** [normalizeString] (lines 483-491). *)
Definition normalizeString (str : string) : string :=
  keep_alnum (toLowerCase str).

(** What [fetch('/api/daily-game')] and the reading of its body come to. *)
Inductive fetch_outcome : Type :=
(* [fetch] rejects *)
| NetworkError (msg : string)
(* a response whose body is the JSON the server sent *)
| HttpAnswer (r : response)
(* a response whose body does not parse; [msg] is the parser's complaint *)
| HttpGarbled (status : nat) (msg : string).

(** The squares pushed onto [shareGrid]. *)
Inductive square : Type := Green | Red.

(** The children of [reviewsContainer]. *)
Inductive tile : Type :=
(* a clue under the heading [Clue number of total:] *)
| ClueCard (number total : Z) (c : clue)
(* the paragraph written when the game cannot be loaded *)
| LoadError (text : string).

(** The variables of the script and the parts of the document it writes. *)
Record ui : Type := mkUi {
  currentGame : option json;
  currentReviewIndex : Z;
  guessesLeft : Z;
  isGameOver : bool;
  shareGrid : list square;
  (* guessInput.disabled, guessButton.disabled *)
  inputDisabled : bool;
  reviewsContainer : list tile;
  (* the items of previousGuessesList *)
  previousGuesses : list string;
  (* loadingMessage.textContent *)
  loadingText : string;
  (* gameOverMessageDiv: hidden, or shown with class win or lose *)
  verdict : option bool;
  (* correctGameTitleSpan.textContent *)
  revealedTitle : string;
  (* steamLink.href while the link is shown *)
  storeLink : option string;
  (* the texts passed to [alert], newest first *)
  alerts : list string
}.

(** The page as the document is loaded, before [initGame] runs. *)
Definition blank : ui :=
  {| currentGame := None; currentReviewIndex := 0; guessesLeft := 0;
     isGameOver := false; shareGrid := []; inputDisabled := false;
     reviewsContainer := []; previousGuesses := [];
     loadingText := ""; verdict := None; revealedTitle := "";
     storeLink := None; alerts := [] |}.

(** [currentGame.title]; the empty text stands for [undefined]. *)
Definition title_of (j : json) : string :=
  match j with
  | JGame (GameData t _ _) => t
  | JGame (ReviewsFailedData _ t _) => t
  | _ => ""
  end.

(** [currentGame.appId] *)
Definition appId_of (j : json) : string :=
  match j with
  | JGame (GameData _ a _) => a
  | JGame (ReviewsFailedData _ _ (Some a)) => a
  | _ => ""
  end.

(** [currentGame.reviews]; a missing array and an empty one are refused
    alike by the script. *)
Definition reviews_of (j : json) : list clue :=
  match j with
  | JGame (GameData _ _ reviews) => reviews
  | _ => []
  end.

(** The text of [errorData.error] when that field is truthy. *)
Definition error_text (j : json) : option string :=
  match j with
  | JError e => if truthy e then Some e else None
  | JGame (ReviewsFailedData _ _ _) => Some "true"
  | JGame (ErrorData _) => Some "true"
  | _ => None
  end.

(** [response.ok] *)
Definition response_ok (status : nat) : bool :=
  ((200 <=? status) && (status <=? 299))%nat.

Definition decimal (n : nat) : string := NilZero.string_of_uint (Nat.to_uint n).

(** The [catch] of [fetchDailyGame] (lines 537-544). *)
Definition load_failed (msg : string) (s : ui) : ui :=
  {| currentGame := currentGame s;
     currentReviewIndex := currentReviewIndex s;
     guessesLeft := guessesLeft s;
     isGameOver := isGameOver s;
     shareGrid := shareGrid s;
     inputDisabled := true;
     reviewsContainer :=
       [LoadError ("Error loading today's game: " ++ msg
                   ++ ". Please try refreshing the page.")];
     previousGuesses := previousGuesses s;
     loadingText := "Error: " ++ msg ++ " Please try refreshing.";
     verdict := verdict s;
     revealedTitle := revealedTitle s;
     storeLink := storeLink s;
     alerts := alerts s |}.

Definition set_currentGame (j : json) (s : ui) : ui :=
  {| currentGame := Some j;
     currentReviewIndex := currentReviewIndex s;
     guessesLeft := guessesLeft s;
     isGameOver := isGameOver s;
     shareGrid := shareGrid s;
     inputDisabled := inputDisabled s;
     reviewsContainer := reviewsContainer s;
     previousGuesses := previousGuesses s;
     loadingText := loadingText s;
     verdict := verdict s;
     revealedTitle := revealedTitle s;
     storeLink := storeLink s;
     alerts := alerts s |}.

(** [fetchDailyGame] (lines 524-545): whether the game was loaded, and the
    page afterwards. *)
Definition fetchDailyGame (reply : fetch_outcome) (s : ui) : bool * ui :=
  match reply with
  | NetworkError msg => (false, load_failed msg s)
  | HttpGarbled status msg =>
      if response_ok status then (false, load_failed msg s)
      else (false, load_failed "Failed to fetch daily game data." s)
  | HttpAnswer r =>
      if response_ok (status r) then
        let s1 := set_currentGame (body r) s in
        if negb (truthy (title_of (body r)))
           || (List.length (reviews_of (body r)) =? 0)%nat
        then (false, load_failed "Incomplete game data received from server." s1)
        else (true, s1)
      else
        (false,
         load_failed
           (match error_text (body r) with
            | Some e => e
            | None => "Server error: " ++ decimal (status r)
            end)
           s)
  end.

Definition show (c : tile) (s : ui) : ui :=
  {| currentGame := currentGame s;
     currentReviewIndex := currentReviewIndex s;
     guessesLeft := guessesLeft s;
     isGameOver := isGameOver s;
     shareGrid := shareGrid s;
     inputDisabled := inputDisabled s;
     reviewsContainer := (reviewsContainer s ++ [c])%list;
     previousGuesses := previousGuesses s;
     loadingText := loadingText s;
     verdict := verdict s;
     revealedTitle := revealedTitle s;
     storeLink := storeLink s;
     alerts := alerts s |}.

(** [displayNextReview] (lines 590-720). *)
Definition displayNextReview (s : ui) : ui :=
  match currentGame s with
  | None => s
  | Some j =>
      if isGameOver s
         || (Z.of_nat (List.length (reviews_of j)) <=? currentReviewIndex s)%Z
      then s
      else
        match nth_error (reviews_of j) (Z.to_nat (currentReviewIndex s)) with
        | Some reviewData =>
            show (ClueCard (currentReviewIndex s + 1)
                    (Z.of_nat (List.length (reviews_of j))) reviewData) s
        | None => s
        end
  end.

(** [initGame] (lines 547-588). *)
Definition initGame (reply : fetch_outcome) (s : ui) : ui :=
  let (gameLoaded, s1) := fetchDailyGame reply s in
  if negb gameLoaded then s1
  else
    displayNextReview
      {| currentGame := currentGame s1;
         currentReviewIndex := 0;
         guessesLeft := 6;
         isGameOver := false;
         shareGrid := [];
         inputDisabled := false;
         reviewsContainer := [];
         previousGuesses := [];
         loadingText := loadingText s1;
         verdict := None;
         revealedTitle := "";
         storeLink := None;
         alerts := alerts s1 |}.

(** The cards [endGame] puts in place of the clues shown so far. *)
Fixpoint reveal_from (index : Z) (total : Z) (reviews : list clue) : list tile :=
  match reviews with
  | [] => []
  | reviewData :: rest =>
      ClueCard (index + 1) total reviewData :: reveal_from (index + 1) total rest
  end.

(** [endGame] (lines 779-912). *)
Definition endGame (didWin : bool) (s : ui) : ui :=
  match currentGame s with
  | None => s
  | Some j =>
      {| currentGame := currentGame s;
         currentReviewIndex := currentReviewIndex s;
         guessesLeft := guessesLeft s;
         isGameOver := true;
         shareGrid := shareGrid s;
         inputDisabled := true;
         reviewsContainer :=
           reveal_from 0 (Z.of_nat (List.length (reviews_of j))) (reviews_of j);
         previousGuesses := previousGuesses s;
         loadingText := loadingText s;
         verdict := Some didWin;
         revealedTitle := title_of j;
         storeLink :=
           if truthy (appId_of j)
           then Some ("https://store.steampowered.com/app/" ++ appId_of j ++ "/")
           else None;
         alerts := alerts s |}
  end.

Definition alert (text : string) (s : ui) : ui :=
  {| currentGame := currentGame s;
     currentReviewIndex := currentReviewIndex s;
     guessesLeft := guessesLeft s;
     isGameOver := isGameOver s;
     shareGrid := shareGrid s;
     inputDisabled := inputDisabled s;
     reviewsContainer := reviewsContainer s;
     previousGuesses := previousGuesses s;
     loadingText := loadingText s;
     verdict := verdict s;
     revealedTitle := revealedTitle s;
     storeLink := storeLink s;
     alerts := text :: alerts s |}.

(** The state after [shareGrid.push(sq)] and, for a wrong guess,
    [guessesLeft--], the new item of the list of guesses and
    [currentReviewIndex++]. *)
Definition note_guess (sq : square) (guessedTitle : string) (s : ui) : ui :=
  {| currentGame := currentGame s;
     currentReviewIndex :=
       match sq with Green => currentReviewIndex s
                   | Red => currentReviewIndex s + 1 end;
     guessesLeft :=
       match sq with Green => guessesLeft s | Red => guessesLeft s - 1 end;
     isGameOver := isGameOver s;
     shareGrid := (shareGrid s ++ [sq])%list;
     inputDisabled := inputDisabled s;
     reviewsContainer := reviewsContainer s;
     previousGuesses :=
       match sq with Green => previousGuesses s
                   | Red => (previousGuesses s ++ [guessedTitle])%list end;
     loadingText := loadingText s;
     verdict := verdict s;
     revealedTitle := revealedTitle s;
     storeLink := storeLink s;
     alerts := alerts s |}.

(** [handleGuess] (lines 722-777); [value] is [guessInput.value]. *)
Definition handleGuess (value : string) (s : ui) : ui :=
  if isGameOver s || inputDisabled s then s
  else
    let guessedTitle := trim value in
    if negb (truthy guessedTitle)
    then alert "Please enter a game title to guess." s
    else
      match currentGame s with
      | None =>
          alert "A critical error occurred: Game data is missing. Please refresh." s
      | Some j =>
          if negb (truthy (title_of j))
          then alert "A critical error occurred: Game data is missing. Please refresh." s
          else if String.eqb (normalizeString guessedTitle)
                    (normalizeString (title_of j))
          then endGame true (note_guess Green guessedTitle s)
          else
            let s1 := note_guess Red guessedTitle s in
            if (guessesLeft s1 <=? 0)%Z then endGame false s1
            else if (currentReviewIndex s1
                     <? Z.of_nat (List.length (reviews_of j)))%Z
            then displayNextReview s1
            else endGame false s1
      end.

(** The guesses of [values], entered one after the other. *)
Definition play (values : list string) (s : ui) : ui :=
  fold_left (fun s value => handleGuess value s) values s.

(** The guesses [handleGuess] takes up among [values]: the trimmed entries
    that are not empty. *)
Definition entered (values : list string) : list string :=
  filter truthy (map trim values).

(** A game in progress on [j] after the wrong guesses [gs]. *)
Definition playing (j : json) (gs : list string) (s : ui) : Prop :=
  currentGame s = Some j /\
  isGameOver s = false /\
  inputDisabled s = false /\
  verdict s = None /\
  currentReviewIndex s = Z.of_nat (List.length gs) /\
  guessesLeft s = (6 - Z.of_nat (List.length gs))%Z /\
  shareGrid s = repeat Red (List.length gs) /\
  previousGuesses s = gs /\
  reviewsContainer s
  = reveal_from 0 (Z.of_nat (List.length (reviews_of j)))
      (firstn (S (List.length gs)) (reviews_of j)).

(** A game on [j] that has ended. *)
Definition over (j : json) (didWin : bool) (grid : list square)
  (gs : list string) (s : ui) : Prop :=
  currentGame s = Some j /\
  isGameOver s = true /\
  inputDisabled s = true /\
  verdict s = Some didWin /\
  revealedTitle s = title_of j /\
  shareGrid s = grid /\
  previousGuesses s = gs /\
  reviewsContainer s
  = reveal_from 0 (Z.of_nat (List.length (reviews_of j))) (reviews_of j).

(** [fetchAutocompleteSuggestions] with [populateAutocompleteDatalist]
    (lines 494-521): the values of the options of [gameTitlesDatalist]
    afterwards.  [ask term limit] is what the request to
    [/api/search-steam-games] comes to. *)
Definition fetchAutocompleteSuggestions
  (ask : option string -> option string -> fetch_outcome)
  (searchTerm : string) : list string :=
  if (String.length searchTerm <? 2)%nat then []
  else
    match ask (Some searchTerm) (Some "10") with
    | NetworkError _ => ["Suggestions unavailable"]
    | HttpGarbled status _ =>
        if response_ok status then ["Suggestions unavailable"]
        else ["Error loading suggestions"]
    | HttpAnswer r =>
        if response_ok (status r) then
          match body r with
          | JNames suggestions => suggestions
          | _ => ["Suggestions unavailable"]
          end
        else ["Error loading suggestions"]
    end.

(** What the page makes of the answer of a handler of the server. *)
Definition received (o : outcome response) : fetch_outcome :=
  match o with
  | Ret r => HttpAnswer r
  | Throw msg => NetworkError msg
  end.

End Page.
Import Page.

(* ------------------------------------------------------------------ *)
(** ** The first revision of GET /api/daily-game (part_001, lines 69-137) *)

Module DayOfYear.

(** A row of [game_reviews] in the schema of this revision. *)
Record image_row : Type := mkImageRow {
  image_game_id : Z;
  review_image_url : string;
  image_clue_order : Z
}.

(** The body of an answer: [{ title, appId, reviews }] or [{ error }]. *)
Inductive answer_body : Type :=
| Payload (title appId : string) (reviews : list string)
| Failure (error : string).

Record answer : Type := mkAnswer {
  answer_status : nat;
  answer_body_of : answer_body
}.

Definition oneDay : Z := 1000 * 60 * 60 * 24.

(** [Math.floor(diff / oneDay)], [diff] being the milliseconds elapsed
    since the last midnight of the year before. *)
Definition dayOfYear (diff : Z) : Z := (diff / oneDay)%Z.

(** [(dayOfYear - 1) % totalGames]: the remainder has the sign of the
    dividend. *)
Definition gameOffset (diff totalGames : Z) : Z :=
  Z.rem (dayOfYear diff - 1) totalGames.

Definition id_leb (a b : game_row) : bool := (id a <=? id b)%Z.

(** SELECT id, title, steam_app_id FROM games ORDER BY id LIMIT 1 OFFSET ?
    (SQLite reads a negative offset as none). *)
Definition select_at_offset (offset : Z) (games : list game_row)
  : option game_row :=
  nth_error (order_by id_leb games) (Z.to_nat offset).

Definition image_order_leb (a b : image_row) : bool :=
  (image_clue_order a <=? image_clue_order b)%Z.

(** SELECT review_image_url FROM game_reviews WHERE game_id = ?
    ORDER BY clue_order ASC LIMIT 6 *)
Definition select_review_images (gid : Z) (reviews : list image_row)
  : list string :=
  map review_image_url
    (firstn 6
       (order_by image_order_leb
          (filter (fun r => (image_game_id r =? gid)%Z) reviews))).

(** [fetchReviewsForGameAndRespond] (lines 118-137); [err] is the error
    SQLite hands to the callback of [db.all], if any. *)
Definition fetchReviewsForGameAndRespond (err : option string)
  (game : game_row) (reviews : list image_row) : answer :=
  match err with
  | Some _ =>
      {| answer_status := 500;
         answer_body_of :=
           Failure "Could not fetch reviews for the selected game." |}
  | None =>
      {| answer_status := 200;
         answer_body_of :=
           Payload (title game) (steam_app_id game)
             (select_review_images (id game) reviews) |}
  end.

(** The handler (lines 69-115).  [err k] is the error of the [k]-th store
    operation of the request, if any; the columns [last_played_on] and
    [is_active] of a row are not read. *)
Definition daily_game (err : nat -> option string) (diff : Z)
  (games : list game_row) (reviews : list image_row) : answer :=
  match err 0%nat with
  | Some _ =>
      {| answer_status := 500;
         answer_body_of :=
           Failure "Database error occurred while counting games." |}
  | None =>
      let totalGames := Z.of_nat (List.length games) in
      if (totalGames =? 0)%Z then
        {| answer_status := 500;
           answer_body_of :=
             Failure "No games available in the database to select for today." |}
      else
        match err 1%nat with
        | Some _ =>
            {| answer_status := 500;
               answer_body_of :=
                 Failure "Could not fetch the selected game from database." |}
        | None =>
            match select_at_offset (gameOffset diff totalGames) games with
            | Some game => fetchReviewsForGameAndRespond (err 2%nat) game reviews
            | None =>
                match err 2%nat, select_at_offset 0 games with
                | None, Some fallbackGame =>
                    fetchReviewsForGameAndRespond (err 3%nat) fallbackGame reviews
                | _, _ =>
                    {| answer_status := 404;
                       answer_body_of :=
                         Failure "Game not found for today and no fallback is available." |}
                end
            end
        end
  end.

(** The title and appId of a 200 answer. *)
Definition served (r : answer) : option (string * string) :=
  match answer_body_of r with
  | Payload t a _ => Some (t, a)
  | Failure _ => None
  end.

(** The store answers every operation. *)
Definition healthy : nat -> option string := fun _ => None.

End DayOfYear.

(* ------------------------------------------------------------------ *)
(** ** Seeding at start-up (part_000, third document, lines 570-1623) *)

Module Seeding.

(** An entry of [gamesToSeed]. *)
Record seed : Type := mkSeed {
  seed_title : string;
  seed_steam_app_id : string;
  seed_reviews : list string
}.

(** The database file: the two tables and, for [AUTOINCREMENT], the largest
    id ever given to a row of [games]. *)
Record database : Type := mkDatabase {
  stored_games : list game_row;
  stored_reviews : list review_row;
  games_sequence : Z
}.

(** What the script does not decide: the error of the [k]-th statement, if
    any, and whether the connection enforces foreign keys (the script sets
    no pragma). *)
Record sqlite : Type := mkSqlite {
  statement_err : nat -> option string;
  foreign_keys : bool
}.

(** A computation on the database; the number counts the statements run. *)
Definition Run (A : Type) : Type :=
  database * nat -> outcome A * (database * nat).

Definition done {A : Type} (a : A) : Run A := fun st => (Ret a, st).

Definition and_then {A B : Type} (m : Run A) (k : A -> Run B) : Run B :=
  fun st =>
    match m st with
    | (Ret a, st') => k a st'
    | (Throw msg, st') => (Throw msg, st')
    end.

(** [try { ... } catch (err) { console.error(...) }] *)
Definition caught (m : Run unit) : Run unit :=
  fun st =>
    match m st with
    | (Ret a, st') => (Ret a, st')
    | (Throw _, st') => (Ret tt, st')
    end.

(** One statement: SQLite refuses it, or it takes effect. *)
Definition statement {A : Type} (sq : sqlite)
  (effect : database -> outcome A * database) : Run A :=
  fun st =>
    let (db, k) := st in
    match statement_err sq k with
    | Some msg => (Throw msg, (db, S k))
    | None => let (o, db') := effect db in (o, (db', S k))
    end.

(** SELECT id, title FROM games *)
Definition select_id_title (sq : sqlite) : Run (list (Z * string)) :=
  statement sq
    (fun db => (Ret (map (fun g => (id g, title g)) (stored_games db)), db)).

(** UPDATE games SET steam_app_id = ? WHERE id = ? *)
Definition update_steam_app_id (sq : sqlite) (appId : string) (gameId : Z)
  : Run unit :=
  statement sq
    (fun db =>
       (Ret tt,
        {| stored_games :=
             map (fun g =>
                    if (id g =? gameId)%Z
                    then {| id := id g; title := title g; steam_app_id := appId;
                            last_played_on := last_played_on g;
                            is_active := is_active g |}
                    else g)
               (stored_games db);
           stored_reviews := stored_reviews db;
           games_sequence := games_sequence db |})).

(** DELETE FROM game_reviews WHERE game_id = ? *)
Definition delete_reviews (sq : sqlite) (gameId : Z) : Run unit :=
  statement sq
    (fun db =>
       (Ret tt,
        {| stored_games := stored_games db;
           stored_reviews :=
             filter (fun r => negb (game_id r =? gameId)%Z) (stored_reviews db);
           games_sequence := games_sequence db |})).

Definition largest_id (games : list game_row) : Z :=
  fold_right (fun g acc => Z.max (id g) acc) 0%Z games.

(** INSERT INTO games (title, steam_app_id) VALUES (?, ?), resolving with
    [this.lastID].  [title] is UNIQUE; the new row takes the defaults of
    the other columns. *)
Definition insert_game (sq : sqlite) (gameTitle appId : string) : Run Z :=
  statement sq
    (fun db =>
       if existsb (fun g => String.eqb (title g) gameTitle) (stored_games db)
       then (Throw "SQLITE_CONSTRAINT: UNIQUE constraint failed: games.title", db)
       else
         let lastID :=
           (Z.max (games_sequence db) (largest_id (stored_games db)) + 1)%Z in
         (Ret lastID,
          {| stored_games :=
               (stored_games db
                ++ [{| id := lastID; title := gameTitle; steam_app_id := appId;
                       last_played_on := None; is_active := true |}])%list;
             stored_reviews := stored_reviews db;
             games_sequence := lastID |})).

(** INSERT OR IGNORE INTO game_reviews (game_id, review_page_url,
    clue_order) VALUES (?, ?, ?); [review_page_url] is UNIQUE. *)
Definition insert_review_or_ignore (sq : sqlite) (gameId : Z)
  (reviewPageUrl : string) (clueOrder : Z) : Run unit :=
  statement sq
    (fun db =>
       (Ret tt,
        if existsb (fun r => String.eqb (review_page_url r) reviewPageUrl)
             (stored_reviews db)
        then db
        else
          {| stored_games := stored_games db;
             stored_reviews :=
               (stored_reviews db
                ++ [{| game_id := gameId; review_page_url := reviewPageUrl;
                       clue_order := clueOrder |}])%list;
             games_sequence := games_sequence db |})).

(** DELETE FROM games WHERE id = ?, with ON DELETE CASCADE on
    [game_reviews] when foreign keys are enforced. *)
Definition delete_game (sq : sqlite) (gameId : Z) : Run unit :=
  statement sq
    (fun db =>
       (Ret tt,
        {| stored_games :=
             filter (fun g => negb (id g =? gameId)%Z) (stored_games db);
           stored_reviews :=
             if foreign_keys sq
             then filter (fun r => negb (game_id r =? gameId)%Z)
                    (stored_reviews db)
             else stored_reviews db;
           games_sequence := games_sequence db |})).

(** The test of lines 1573-1576, negated. *)
Definition usable_url (reviewPageUrl : string) : bool :=
  truthy reviewPageUrl
  && (startsWith (toLowerCase reviewPageUrl) "http://"
      || startsWith (toLowerCase reviewPageUrl) "https://").

(** The loop of lines 1571-1593, from index [i] on. *)
Fixpoint insert_reviews (sq : sqlite) (gameId : Z) (i : Z) (reviews : list string)
  : Run unit :=
  match reviews with
  | [] => done tt
  | reviewPageUrl :: rest =>
      if usable_url reviewPageUrl
      then and_then (insert_review_or_ignore sq gameId reviewPageUrl (i + 1))
             (fun _ => insert_reviews sq gameId (i + 1) rest)
      else insert_reviews sq gameId (i + 1) rest
  end.

(** The basic validation of lines 1523-1526, negated. *)
Definition usable_seed (gameData : seed) : bool :=
  truthy (seed_title gameData) && truthy (seed_steam_app_id gameData)
  && negb (List.length (seed_reviews gameData) =? 0)%nat.

(** The body of the [try] of lines 1531-1593.  The rows of [dbGames] hold
    [id] and [title] only, so the comparison of line 1539 always finds the
    appId different and the UPDATE always runs. *)
Definition upsert (sq : sqlite) (dbGames : list (Z * string)) (gameData : seed)
  : Run unit :=
  match find (fun g => String.eqb (snd g) (seed_title gameData)) dbGames with
  | Some existingGame =>
      let gameId := fst existingGame in
      and_then (update_steam_app_id sq (seed_steam_app_id gameData) gameId)
        (fun _ =>
           and_then (delete_reviews sq gameId)
             (fun _ => insert_reviews sq gameId 0 (seed_reviews gameData)))
  | None =>
      and_then (insert_game sq (seed_title gameData) (seed_steam_app_id gameData))
        (fun gameId => insert_reviews sq gameId 0 (seed_reviews gameData))
  end.

(** The first loop (lines 1519-1597). *)
Fixpoint upsert_all (sq : sqlite) (dbGames : list (Z * string))
  (gamesToSeed : list seed) : Run unit :=
  match gamesToSeed with
  | [] => done tt
  | gameData :: rest =>
      and_then
        (if usable_seed gameData then caught (upsert sq dbGames gameData)
         else done tt)
        (fun _ => upsert_all sq dbGames rest)
  end.

(** The second loop (lines 1600-1620). *)
Fixpoint clean_up (sq : sqlite) (titlesToSeed : list string)
  (dbGames : list (Z * string)) : Run unit :=
  match dbGames with
  | [] => done tt
  | dbGame :: rest =>
      and_then
        (if existsb (String.eqb (snd dbGame)) titlesToSeed then done tt
         else caught (delete_game sq (fst dbGame)))
        (fun _ => clean_up sq titlesToSeed rest)
  end.

(** [seedInitialData] (lines 612-1623) on the list [gamesToSeed]. *)
Definition seedInitialData (sq : sqlite) (gamesToSeed : list seed) : Run unit :=
  match gamesToSeed with
  | [] => done tt
  | _ =>
      and_then (select_id_title sq)
        (fun dbGames =>
           let titlesToSeed := map seed_title gamesToSeed in
           and_then (upsert_all sq dbGames gamesToSeed)
             (fun _ => clean_up sq titlesToSeed dbGames))
  end.

(** The database once [seedInitialData] has settled. *)
Definition seeded (sq : sqlite) (gamesToSeed : list seed) (db : database)
  : database :=
  fst (snd (seedInitialData sq gamesToSeed (db, 0%nat))).

(** A database file just created. *)
Definition empty : database :=
  {| stored_games := []; stored_reviews := []; games_sequence := 0 |}.

(** SQLite runs every statement. *)
Definition obliging (fk : bool) : sqlite :=
  {| statement_err := fun _ => None; foreign_keys := fk |}.

(** A row entered by this run of the script for one of [titles]. *)
Definition entered_now (titles : list string) (g : game_row) : Prop :=
  last_played_on g = None /\ is_active g = true /\ In (title g) titles.

(** The rows of [games] entered for the entries [gamesToSeed] when each
    [INSERT] succeeds: numbered from [n + 1] on in the order of the list. *)
Fixpoint game_rows_from (n : Z) (gamesToSeed : list seed) : list game_row :=
  match gamesToSeed with
  | [] => []
  | gameData :: rest =>
      {| id := n + 1; title := seed_title gameData;
         steam_app_id := seed_steam_app_id gameData;
         last_played_on := None; is_active := true |}
      :: game_rows_from (n + 1) rest
  end.

(** The entries the first loop does not skip (lines 1523-1526). *)
Definition valid_seeds (gamesToSeed : list seed) : list seed :=
  filter usable_seed gamesToSeed.

(** The URLs of [urls] that pass the test of line 1573 and occur neither
    in [seen] nor earlier in [urls], in the order of [urls]. *)
Fixpoint first_seen (seen urls : list string) : list string :=
  match urls with
  | [] => []
  | reviewPageUrl :: rest =>
      if usable_url reviewPageUrl
         && negb (existsb (String.eqb reviewPageUrl) seen)
      then reviewPageUrl :: first_seen (reviewPageUrl :: seen) rest
      else first_seen seen rest
  end.

(** The rows the loop of lines 1571-1593 adds for the URLs of one entry
    when the table holds the usable URLs of [seen]: each URL is numbered by
    its place in the entry, from [i + 1] on, and [INSERT OR IGNORE] drops
    the ones the table holds. *)
Fixpoint review_rows_kept (gameId i : Z) (seen urls : list string)
  : list review_row :=
  match urls with
  | [] => []
  | reviewPageUrl :: rest =>
      if usable_url reviewPageUrl
         && negb (existsb (String.eqb reviewPageUrl) seen)
      then {| game_id := gameId; review_page_url := reviewPageUrl;
              clue_order := i + 1 |}
           :: review_rows_kept gameId (i + 1) (reviewPageUrl :: seen) rest
      else review_rows_kept gameId (i + 1) seen rest
  end.

Fixpoint all_review_rows_kept (n : Z) (seen : list string)
  (gamesToSeed : list seed) : list review_row :=
  match gamesToSeed with
  | [] => []
  | gameData :: rest =>
      (review_rows_kept (n + 1) 0 seen (seed_reviews gameData)
       ++ all_review_rows_kept (n + 1) (seen ++ seed_reviews gameData) rest)%list
  end.

(** No text occurs twice in [l]. *)
Fixpoint distinct (l : list string) : bool :=
  match l with
  | [] => true
  | x :: t => negb (existsb (String.eqb x) t) && distinct t
  end.

(** The list of the script (lines 622-1501).  Characters beyond U+00FF are
    written as their UTF-8 bytes: the script compares titles and tests
    them for emptiness, and both are the same on the bytes. *)
Definition gamesToSeed : list seed :=
  [
  mkSeed "Portal 2" "620"
    [ "https://steamcommunity.com/id/Etra_/recommended/620/";
      "https://steamcommunity.com/profiles/76561198883403386/recommended/400/";
      "https://steamcommunity.com/profiles/76561198401838613/recommended/620/";
      "https://steamcommunity.com/id/possysillyboy/recommended/620/";
      "https://steamcommunity.com/profiles/76561199076991591/recommended/620/";
      "https://steamcommunity.com/id/hangover66st/recommended/620/" ];
  mkSeed "Stardew Valley" "413150"
    [ "https://steamcommunity.com/id/Kekkykekkekkekky/recommended/413150/";
      "https://steamcommunity.com/id/Focusta_/recommended/413150/";
      "https://steamcommunity.com/id/ItsDommyMommy/recommended/413150/";
      "https://steamcommunity.com/profiles/76561198261179773/recommended/413150/";
      "https://steamcommunity.com/id/nuance/recommended/413150/";
      "https://steamcommunity.com/id/killerzimmer/recommended/413150/" ];
  mkSeed "Terraria" "105600"
    [ "https://steamcommunity.com/id/sugarfanged/recommended/105600/";
      "https://steamcommunity.com/id/CornetTheory/recommended/105600/";
      "https://steamcommunity.com/profiles/76561199014671970/recommended/105600/";
      "https://steamcommunity.com/profiles/76561199003326280/recommended/105600/";
      "https://steamcommunity.com/id/ClarifiedClara/recommended/105600/";
      "https://steamcommunity.com/profiles/76561199480521925/recommended/105600/" ];
  mkSeed "Satisfactory" "526870"
    [ "https://steamcommunity.com/profiles/76561198994752998/recommended/526870/";
      "https://steamcommunity.com/id/GalaxyFops/recommended/526870/";
      "https://steamcommunity.com/profiles/76561198119457419/recommended/526870/";
      "https://steamcommunity.com/id/aByZMaI/recommended/526870/";
      "https://steamcommunity.com/profiles/76561198127775791/recommended/526870/";
      "https://steamcommunity.com/id/NeoVexan/recommended/526870/" ];
  mkSeed "Apex Legends" "1172470"
    [ "https://steamcommunity.com/id/Impades/recommended/1172470/";
      "https://steamcommunity.com/id/jacobmuno/recommended/1172470/";
      "https://steamcommunity.com/profiles/76561198258941202/recommended/1172470/";
      "https://steamcommunity.com/id/IWasAbadGirl/recommended/1172470/";
      "https://steamcommunity.com/id/kenyylol/recommended/1172470/";
      "https://steamcommunity.com/id/5tock/recommended/1172470/" ];
  mkSeed "Elden Ring" "1245620"
    [ "https://steamcommunity.com/profiles/76561198038703897/recommended/1245620/";
      "https://steamcommunity.com/id/RtKitty/recommended/1245620/";
      "https://steamcommunity.com/id/TheRealDripMonkey/recommended/1245620/";
      "https://steamcommunity.com/id/76561198004031162/recommended/1245620/";
      "https://steamcommunity.com/id/haisyub/recommended/1245620/";
      "https://steamcommunity.com/id/dyrwk/recommended/1245620/" ];
  mkSeed "R.E.P.O" "3241660"
    [ "https://steamcommunity.com/id/sathiriya/recommended/3241660/";
      "https://steamcommunity.com/id/-orpheus/recommended/3241660/";
      "https://steamcommunity.com/id/ehuxley/recommended/3241660/";
      "https://steamcommunity.com/id/bestboi_/recommended/3241660/";
      "https://steamcommunity.com/id/FuzzyIsAlive/recommended/3241660/";
      "https://steamcommunity.com/id/kaitlyngibson/recommended/3241660/" ];
  mkSeed "Resident Evil 4" "2050650"
    [ "https://steamcommunity.com/id/czechem/recommended/2050650/";
      "https://steamcommunity.com/id/left4shred/recommended/2050650/";
      "https://steamcommunity.com/id/Avargrist/recommended/2050650/";
      "https://steamcommunity.com/profiles/76561198374265199/recommended/2050650/";
      "https://steamcommunity.com/profiles/76561198100249649/recommended/2050650/";
      "https://steamcommunity.com/id/nemesist-type/recommended/2050650/" ];
  mkSeed "The Forest" "242760"
    [ "https://steamcommunity.com/profiles/76561199091914736/recommended/242760/";
      "https://steamcommunity.com/profiles/76561199125806861/recommended/242760/";
      "https://steamcommunity.com/profiles/76561198208941887/recommended/242760/";
      "https://steamcommunity.com/profiles/76561198078451667/recommended/242760/";
      "https://steamcommunity.com/profiles/76561198310845163/recommended/242760/";
      "https://steamcommunity.com/id/TitanMind/recommended/242760/" ];
  mkSeed "Subnautica" "264710"
    [ "https://steamcommunity.com/profiles/76561199417250065/recommended/264710/";
      "https://steamcommunity.com/profiles/76561199388576645/recommended/264710/";
      "https://steamcommunity.com/id/TheNopeRoad/recommended/264710/";
      "https://steamcommunity.com/id/951329149/recommended/264710/";
      "https://steamcommunity.com/profiles/76561198403670745/recommended/264710/";
      "https://steamcommunity.com/id/parallacks/recommended/264710/" ];
  mkSeed "Halo Infinite" "1240440"
    [ "https://steamcommunity.com/id/couragethecat/recommended/1240440/";
      "https://steamcommunity.com/profiles/76561198039328649/recommended/1240440/";
      "https://steamcommunity.com/profiles/76561198808723893/recommended/1240440/";
      "https://steamcommunity.com/id/Delcorexd/recommended/1240440/";
      "https://steamcommunity.com/id/anorak21/recommended/1240440/";
      "https://steamcommunity.com/id/espectrohunk/recommended/1240440/" ];
  mkSeed "Borderlands 2" "49520"
    [ "https://steamcommunity.com/id/Joequel/recommended/49520/";
      "https://steamcommunity.com/profiles/76561198982170820/recommended/49520/";
      "https://steamcommunity.com/id/POtat0Child/recommended/49520/";
      "https://steamcommunity.com/profiles/76561198283893715/recommended/49520/";
      "https://steamcommunity.com/id/NeeKrox/recommended/49520/";
      "https://steamcommunity.com/id/IS0LAT0R/recommended/49520/" ];
  mkSeed "ANIMAL WELL" "813230"
    [ "https://steamcommunity.com/profiles/76561198119700865/recommended/813230/";
      "https://steamcommunity.com/id/_SpiderTroll_/recommended/813230/";
      "https://steamcommunity.com/id/OneRockyBoi/recommended/813230/";
      "https://steamcommunity.com/profiles/76561198284853936/recommended/813230/";
      "https://steamcommunity.com/id/Banishmento-dis-waludo/recommended/813230/";
      "https://steamcommunity.com/profiles/76561197978394418/recommended/813230/" ];
  mkSeed "Outer Wilds" "753640"
    [ "https://steamcommunity.com/profiles/76561198846112985/recommended/753640/";
      "https://steamcommunity.com/profiles/76561198141721312/recommended/753640/";
      "https://steamcommunity.com/profiles/76561198248869468/recommended/753640/";
      "https://steamcommunity.com/profiles/76561198182740454/recommended/753640/";
      "https://steamcommunity.com/id/Zombie1I1/recommended/753640/";
      "https://steamcommunity.com/id/Fludella/recommended/753640/" ];
  mkSeed "Storyteller" "1624540"
    [ "https://steamcommunity.com/profiles/76561198106113475/recommended/1624540/";
      "https://steamcommunity.com/profiles/76561198851809658/recommended/1624540/";
      "https://steamcommunity.com/id/jemkatkitty/recommended/1624540/";
      "https://steamcommunity.com/id/BluntSam/recommended/1624540/";
      "https://steamcommunity.com/profiles/76561199109946202/recommended/1624540/";
      "https://steamcommunity.com/id/eerflas027/recommended/1624540/" ];
  mkSeed "Myst" "1255560"
    [ "https://steamcommunity.com/profiles/76561198130408520/recommended/1255560/";
      "https://steamcommunity.com/id/aclfx/recommended/1255560/";
      "https://steamcommunity.com/id/cthulhucrisis/recommended/1255560/";
      "https://steamcommunity.com/id/PogChampion3791/recommended/1255560/";
      "https://steamcommunity.com/profiles/76561198078151458/recommended/1255560/";
      "https://steamcommunity.com/profiles/76561198049183091/recommended/1255560/" ];
  mkSeed "Lies of P" "16277720"
    [ "https://steamcommunity.com/id/sneezyplays/recommended/1627720/";
      "https://steamcommunity.com/profiles/76561198070110348/recommended/1627720/";
      "https://steamcommunity.com/id/GrannyStation/recommended/1627720/";
      "https://steamcommunity.com/profiles/76561199476656861/recommended/1627720/";
      "https://steamcommunity.com/profiles/76561198393192099/recommended/1627720/";
      "https://steamcommunity.com/profiles/76561198126957161/recommended/1627720/" ];
  mkSeed "Hogwarts Legacy" "990080"
    [ "https://steamcommunity.com/id/akumikagi/recommended/990080/";
      "https://steamcommunity.com/id/swedishtish/recommended/990080/";
      "https://steamcommunity.com/profiles/76561197969670214/recommended/990080/";
      "https://steamcommunity.com/profiles/76561198290120667/recommended/990080/";
      "https://steamcommunity.com/profiles/76561198142247081/recommended/990080/";
      "https://steamcommunity.com/id/X2Eliah/recommended/990080/" ];
  mkSeed "Among Us" "945360"
    [ "https://steamcommunity.com/id/brugonometry/recommended/945360/";
      "https://steamcommunity.com/id/omgitspriest/recommended/945360/";
      "https://steamcommunity.com/id/hashu23/recommended/945360/";
      "https://steamcommunity.com/id/fortaime/recommended/945360/";
      "https://steamcommunity.com/profiles/76561198043377725/recommended/945360/";
      "https://steamcommunity.com/id/EarlyZ/recommended/945360/" ];
  mkSeed "Gorilla Tag" "1533390"
    [ "https://steamcommunity.com/profiles/76561199222814163/recommended/1533390/";
      "https://steamcommunity.com/id/coolguy1260/recommended/1533390/";
      "https://steamcommunity.com/profiles/76561198320644207/recommended/1533390/";
      "https://steamcommunity.com/profiles/76561199612997292/recommended/1533390/";
      "https://steamcommunity.com/id/PlayzerGames/recommended/1533390/";
      "https://steamcommunity.com/id/chineselxsoft/recommended/1533390/" ];
  mkSeed "Pizza Tower" "2231450"
    [ "https://steamcommunity.com/profiles/76561199527916598/recommended/2231450/";
      "https://steamcommunity.com/id/bursy/recommended/2231450/";
      "https://steamcommunity.com/profiles/76561199601186130/recommended/2231450/";
      "https://steamcommunity.com/id/fiddlestone/recommended/2231450/";
      "https://steamcommunity.com/id/pOllOXD789/recommended/2231450/";
      "https://steamcommunity.com/id/RIPOOB/recommended/2231450/" ];
  mkSeed "Half-Life" "70"
    [ "https://steamcommunity.com/id/megaapple/recommended/70/";
      "https://steamcommunity.com/profiles/76561198112180826/recommended/70/";
      "https://steamcommunity.com/id/Vatonix/recommended/70/";
      "https://steamcommunity.com/id/janjon98/recommended/70/";
      "https://steamcommunity.com/profiles/76561198359339915/recommended/70/";
      "https://steamcommunity.com/id/megakabuterimon/recommended/70/" ];
  mkSeed "Dwarf Fortress" "975370"
    [ "https://steamcommunity.com/profiles/76561198039209165/recommended/975370/";
      "https://steamcommunity.com/id/bleepbloopbeert/recommended/975370/";
      "https://steamcommunity.com/profiles/76561199452745082/recommended/975370/";
      "https://steamcommunity.com/profiles/76561198042666928/recommended/975370/";
      "https://steamcommunity.com/profiles/76561198041798902/recommended/975370/";
      "https://steamcommunity.com/profiles/76561198114319682/recommended/975370/" ];
  mkSeed "Vampire Survivors" "1794680"
    [ "https://steamcommunity.com/profiles/76561198198629187/recommended/1794680/";
      "https://steamcommunity.com/profiles/76561198201928415/recommended/1794680/";
      "https://steamcommunity.com/profiles/76561199596285991/recommended/1794680/";
      "https://steamcommunity.com/id/brigkline/recommended/1794680/";
      "https://steamcommunity.com/id/squallyboo/recommended/1794680/";
      "https://steamcommunity.com/profiles/76561198100249649/recommended/1794680/" ];
  mkSeed "Counter-Strike 2" "730"
    [ "https://steamcommunity.com/profiles/76561198335590980/recommended/730/";
      "https://steamcommunity.com/profiles/76561198341139450/recommended/730/";
      "https://steamcommunity.com/id/IMANGEL1337/recommended/730/";
      "https://steamcommunity.com/id/zima25/recommended/730/";
      "https://steamcommunity.com/id/lampostjohny19/recommended/730/";
      "https://steamcommunity.com/id/FATEYYYY/recommended/730/" ];
  mkSeed "Marvel Rivals" "2767030"
    [ "https://steamcommunity.com/id/SilvanusVT/recommended/2767030/";
      "https://steamcommunity.com/profiles/76561198881029636/recommended/2767030/";
      "https://steamcommunity.com/id/Fryrrs/recommended/2767030/";
      "https://steamcommunity.com/id/yubuu/recommended/2767030/";
      "https://steamcommunity.com/id/kelfezond/recommended/2767030/";
      "https://steamcommunity.com/id/Zerathos_Dagon/recommended/2767030/" ];
  mkSeed "Balatro" "2379780"
    [ "https://steamcommunity.com/profiles/76561198296118902/recommended/2379780/";
      "https://steamcommunity.com/profiles/76561199029912652/recommended/2379780/";
      "https://steamcommunity.com/id/sayteenies/recommended/2379780/";
      "https://steamcommunity.com/id/JuniperTheory2/recommended/2379780/";
      "https://steamcommunity.com/id/mscupcakes/recommended/2379780/";
      "https://steamcommunity.com/profiles/76561198987185457/recommended/2379780/" ];
  mkSeed "Path of Exile" "238960"
    [ "https://steamcommunity.com/profiles/76561198078333010/recommended/238960/";
      "https://steamcommunity.com/id/yiyuanian/recommended/238960/";
      "https://steamcommunity.com/profiles/76561198076472166/recommended/238960/";
      "https://steamcommunity.com/id/fu-fu-fuu/recommended/238960/";
      "https://steamcommunity.com/id/Kristofer432525/recommended/238960/";
      "https://steamcommunity.com/id/SeaDjinn/recommended/238960/" ];
  mkSeed "The Witcher 3: Wild Hunt" "292030"
    [ "https://steamcommunity.com/id/iamkio/recommended/292030/";
      "https://steamcommunity.com/profiles/76561199164802263/recommended/292030/";
      "https://steamcommunity.com/profiles/76561199371649476/recommended/292030/";
      "https://steamcommunity.com/id/MilchChocolate/recommended/292030/";
      "https://steamcommunity.com/profiles/76561198038931832/recommended/292030/";
      "https://steamcommunity.com/profiles/76561198801655891/recommended/292030/" ];
  mkSeed "Dead by Daylight" "381210"
    [ "https://steamcommunity.com/profiles/76561198054225396/recommended/381210/";
      "https://steamcommunity.com/id/thisisnotbritney/recommended/381210/";
      "https://steamcommunity.com/id/raerihel/recommended/381210/";
      "https://steamcommunity.com/id/lifeisfine/recommended/381210/";
      "https://steamcommunity.com/id/AllGunny/recommended/381210/";
      "https://steamcommunity.com/id/JupiterGhoul/recommended/381210/" ];
  mkSeed "Lethal Company" "1966720"
    [ "https://steamcommunity.com/profiles/76561199202598599/recommended/1966720/";
      "https://steamcommunity.com/profiles/76561199002363268/recommended/1966720/";
      "https://steamcommunity.com/id/djboogyCSGO/recommended/1966720/";
      "https://steamcommunity.com/id/iprobablydontexist/recommended/1966720/";
      "https://steamcommunity.com/profiles/76561199122063117/recommended/1966720/";
      "https://steamcommunity.com/profiles/76561198984489068/recommended/1966720/" ];
  mkSeed "Warframe" "230410"
    [ "https://steamcommunity.com/id/6266067080/recommended/230410/";
      "https://steamcommunity.com/profiles/76561198086054565/recommended/230410/";
      "https://steamcommunity.com/profiles/76561198159476207/recommended/230410/";
      "https://steamcommunity.com/profiles/76561198799517283/recommended/230410/";
      "https://steamcommunity.com/profiles/76561198044624153/recommended/230410/";
      "https://steamcommunity.com/profiles/76561199041861842/recommended/230410/" ];
  mkSeed "Rust" "252490"
    [ "https://steamcommunity.com/id/MarsyLia/recommended/252490/";
      "https://steamcommunity.com/profiles/76561198396086694/recommended/252490/";
      "https://steamcommunity.com/id/Sollamel/recommended/252490/";
      "https://steamcommunity.com/id/Realpofu/recommended/252490/";
      "https://steamcommunity.com/id/slymecs/recommended/252490/";
      "https://steamcommunity.com/id/rylanmb/recommended/252490/" ];
  mkSeed "Baldur's Gate 3" "1086940"
    [ "https://steamcommunity.com/id/Dragonkight2005/recommended/1086940/";
      "https://steamcommunity.com/profiles/76561198968001571/recommended/1086940/";
      "https://steamcommunity.com/profiles/76561198848069470/recommended/1086940/";
      "https://steamcommunity.com/profiles/76561197964430628/recommended/1086940/";
      "https://steamcommunity.com/id/TLLLLLLLLLLL/recommended/1086940/";
      "https://steamcommunity.com/profiles/76561198002549206/recommended/1086940/" ];
  mkSeed "HELLDIVERS� 2" "553850"
    [ "https://steamcommunity.com/profiles/76561198880429065/recommended/553850/";
      "https://steamcommunity.com/profiles/76561198047483756/recommended/553850/";
      "https://steamcommunity.com/id/DDuckyy/recommended/553850/";
      "https://steamcommunity.com/id/unobtrusivenature/recommended/553850/";
      "https://steamcommunity.com/profiles/76561198069748555/recommended/553850/";
      "https://steamcommunity.com/profiles/76561198281596195/recommended/553850/" ];
  mkSeed "Cyberpunk 2077" "1091500"
    [ "https://steamcommunity.com/id/jokerdesu/recommended/1091500/";
      "https://steamcommunity.com/profiles/76561198118956082/recommended/1091500/";
      "https://steamcommunity.com/profiles/76561198842646248/recommended/1091500/";
      "https://steamcommunity.com/profiles/76561197993010115/recommended/1091500/";
      "https://steamcommunity.com/id/mysteriousswede/recommended/1091500/";
      "https://steamcommunity.com/id/masoudbyhimself/recommended/1091500/" ];
  mkSeed "The Sims� 4" "1222670"
    [ "https://steamcommunity.com/profiles/76561199434648497/recommended/1222670/";
      "https://steamcommunity.com/profiles/76561199178554581/recommended/1222670/";
      "https://steamcommunity.com/id/AllGunny/recommended/1222670/";
      "https://steamcommunity.com/id/chaoguangleisu/recommended/1222670/";
      "https://steamcommunity.com/profiles/76561198171981621/recommended/1222670/";
      "https://steamcommunity.com/profiles/76561199157665393/recommended/1222670/" ];
  mkSeed "VRChat" "438100"
    [ "https://steamcommunity.com/profiles/76561199012169608/recommended/438100/";
      "https://steamcommunity.com/id/JJNuttyButter/recommended/438100/";
      "https://steamcommunity.com/profiles/76561198025004855/recommended/438100/";
      "https://steamcommunity.com/id/Mokocchi/recommended/438100/";
      "https://steamcommunity.com/id/MoonkingSteam/recommended/438100/";
      "https://steamcommunity.com/id/kinggod374/recommended/438100/" ];
  mkSeed "Yu-Gi-Oh! Master Duel" "1449850"
    [ "https://steamcommunity.com/id/lelaigod/recommended/1449850/";
      "https://steamcommunity.com/profiles/76561199222389614/recommended/1449850/";
      "https://steamcommunity.com/profiles/76561199132016159/recommended/1449850/";
      "https://steamcommunity.com/profiles/76561199199863275/recommended/1449850/";
      "https://steamcommunity.com/profiles/76561199013688835/recommended/1449850/";
      "https://steamcommunity.com/profiles/76561199215901403/recommended/1449850/" ];
  mkSeed "Magic: The Gathering Arena" "2141910"
    [ "https://steamcommunity.com/id/noahtheboah36/recommended/2141910/";
      "https://steamcommunity.com/profiles/76561198120815266/recommended/2141910/";
      "https://steamcommunity.com/profiles/76561198415450285/recommended/2141910/";
      "https://steamcommunity.com/profiles/76561198372689483/recommended/2141910/";
      "https://steamcommunity.com/id/RatShadows98/recommended/2141910/";
      "https://steamcommunity.com/profiles/76561198004945792/recommended/2141910/" ];
  mkSeed "Undertale" "391540"
    [ "https://steamcommunity.com/id/FlibbleBibble/recommended/391540/";
      "https://steamcommunity.com/profiles/76561198864188914/recommended/391540/";
      "https://steamcommunity.com/profiles/76561199012852599/recommended/391540/";
      "https://steamcommunity.com/profiles/76561198342867463/recommended/391540/";
      "https://steamcommunity.com/profiles/76561199068653922/recommended/391540/";
      "https://steamcommunity.com/id/Daeren/recommended/391540/" ];
  mkSeed "DELTARUNE" "1671210"
    [ "https://steamcommunity.com/profiles/76561199561667522/recommended/1671210/";
      "https://steamcommunity.com/profiles/76561198344848623/recommended/1671210/";
      "https://steamcommunity.com/id/Darkiue/recommended/1671210/";
      "https://steamcommunity.com/profiles/76561199694480721/recommended/1671210/";
      "https://steamcommunity.com/id/Beatzy/recommended/1671210/";
      "https://steamcommunity.com/profiles/76561199152871185/recommended/1671210/" ];
  mkSeed "Victoria 3" "529340"
    [ "https://steamcommunity.com/id/13S3NT1N3L77/recommended/529340/";
      "https://steamcommunity.com/id/IlliterateSquid/recommended/529340/";
      "https://steamcommunity.com/id/Nemesysbr/recommended/529340/";
      "https://steamcommunity.com/profiles/76561198056265908/recommended/529340/";
      "https://steamcommunity.com/profiles/76561198042641999/recommended/529340/";
      "https://steamcommunity.com/profiles/76561198084636944/recommended/529340/" ];
  mkSeed "Destiny 2" "1085660"
    [ "https://steamcommunity.com/id/xXx_mtv_xXx/recommended/1085660/";
      "https://steamcommunity.com/id/tipp3x/recommended/1085660/";
      "https://steamcommunity.com/profiles/76561198014839244/recommended/1085660/";
      "https://steamcommunity.com/profiles/76561198064623007/recommended/1085660/";
      "https://steamcommunity.com/profiles/76561199232494297/recommended/1085660/";
      "https://steamcommunity.com/id/xxxfantasy/recommended/1085660/" ];
  mkSeed "Geometry Dash" "322170"
    [ "https://steamcommunity.com/profiles/76561198241728872/recommended/322170/";
      "https://steamcommunity.com/profiles/76561199864172445/recommended/322170/";
      "https://steamcommunity.com/profiles/76561199231913144/recommended/322170/";
      "https://steamcommunity.com/id/findingerik/recommended/322170/";
      "https://steamcommunity.com/profiles/76561198798972691/recommended/322170/";
      "https://steamcommunity.com/profiles/76561199141604144/recommended/322170/" ];
  mkSeed "Don't Starve Together" "322330"
    [ "https://steamcommunity.com/id/catgirI/recommended/322330/";
      "https://steamcommunity.com/id/loluaregay/recommended/322330/";
      "https://steamcommunity.com/profiles/76561198847352324/recommended/322330/";
      "https://steamcommunity.com/id/V_M99/recommended/322330/";
      "https://steamcommunity.com/id/Memozz-is-a-hero/recommended/322330/";
      "https://steamcommunity.com/id/LegendLazy/recommended/322330/" ];
  mkSeed "PAYDAY 2" "218620"
    [ "https://steamcommunity.com/id/naughtykitty666/recommended/218620/";
      "https://steamcommunity.com/id/juberax/recommended/218620/";
      "https://steamcommunity.com/id/thatannoyingcat12/recommended/218620/";
      "https://steamcommunity.com/id/Deerstroyer/recommended/218620/";
      "https://steamcommunity.com/id/0sKu/recommended/218620/";
      "https://steamcommunity.com/id/The_Badger/recommended/218620/" ];
  mkSeed "Bloons TD 6" "960090"
    [ "https://steamcommunity.com/profiles/76561199625941327/recommended/960090/";
      "https://steamcommunity.com/profiles/76561198269468656/recommended/960090/";
      "https://steamcommunity.com/profiles/76561198021926401/recommended/960090/";
      "https://steamcommunity.com/id/malletcrush/recommended/960090/";
      "https://steamcommunity.com/id/fuze_x/recommended/960090/";
      "https://steamcommunity.com/id/VeeliaX/recommended/960090/" ];
  mkSeed "ELDEN RING NIGHTREIGN" "2622380"
    [ "https://steamcommunity.com/id/Curtisldavies/recommended/2622380/";
      "https://steamcommunity.com/id/navivan_/recommended/2622380/";
      "https://steamcommunity.com/id/JinnXV/recommended/2622380/";
      "https://steamcommunity.com/id/ravenrinkaa/recommended/2622380/";
      "https://steamcommunity.com/id/benli118118/recommended/2622380/";
      "https://steamcommunity.com/id/a3lzZGJtaWQ/recommended/2622380/" ];
  mkSeed "WEBFISHING" "3146520"
    [ "https://steamcommunity.com/id/GingernutMoose/recommended/3146520/";
      "https://steamcommunity.com/id/Kogleru/recommended/3146520/";
      "https://steamcommunity.com/id/thealiceofred/recommended/3146520/";
      "https://steamcommunity.com/id/MotionlessPoetry/recommended/3146520/";
      "https://steamcommunity.com/id/sorebones/recommended/3146520/";
      "https://steamcommunity.com/id/pm52/recommended/3146520/" ];
  mkSeed "Barony" "371970"
    [ "https://steamcommunity.com/id/URG_Executor/recommended/371970/";
      "https://steamcommunity.com/id/Koibu/recommended/371970/";
      "https://steamcommunity.com/id/dawnshalo/recommended/371970/";
      "https://steamcommunity.com/id/notverysubtle/recommended/371970/";
      "https://steamcommunity.com/profiles/76561198996567685/recommended/371970/";
      "https://steamcommunity.com/id/pantsowl/recommended/371970/" ];
  mkSeed "Halo: The Master Chief Collection" "976730"
    [ "https://steamcommunity.com/id/medina2465/recommended/976730/";
      "https://steamcommunity.com/id/RiFFnTEAR/recommended/976730/";
      "https://steamcommunity.com/id/rekt0ro/recommended/976730/";
      "https://steamcommunity.com/id/OMFGoddess/recommended/976730/";
      "https://steamcommunity.com/id/Spy_Hunter/recommended/976730/";
      "https://steamcommunity.com/profiles/76561199698732163/recommended/976730/" ];
  mkSeed "ARMORED CORE� VI FIRES OF RUBICON�" "1888160"
    [ "https://steamcommunity.com/profiles/76561198241257916/recommended/1888160/";
      "https://steamcommunity.com/profiles/76561198003434473/recommended/1888160/";
      "https://steamcommunity.com/id/flaptaincappers/recommended/1888160/";
      "https://steamcommunity.com/id/Mulder_JTT047101111/recommended/1888160/";
      "https://steamcommunity.com/profiles/76561198263298647/recommended/1888160/";
      "https://steamcommunity.com/id/1nterstellar/recommended/1888160/" ];
  mkSeed "SIGNALIS" "1262350"
    [ "https://steamcommunity.com/profiles/76561198043699187/recommended/1262350/";
      "https://steamcommunity.com/id/superawesomekickass/recommended/1262350/";
      "https://steamcommunity.com/profiles/76561198390264836/recommended/1262350/";
      "https://steamcommunity.com/id/iamconsent/recommended/1262350/";
      "https://steamcommunity.com/id/SyntheticHellhound/recommended/1262350/";
      "https://steamcommunity.com/id/yuromilk9/recommended/1262350/" ];
  mkSeed "Solar Ash" "1867530"
    [ "https://steamcommunity.com/id/vaati_006/recommended/1867530/";
      "https://steamcommunity.com/profiles/76561198088173876/recommended/1867530/";
      "https://steamcommunity.com/id/altairzio/recommended/1867530/";
      "https://steamcommunity.com/id/aglevel/recommended/1867530/";
      "https://steamcommunity.com/id/skilluplayz/recommended/1867530/";
      "https://steamcommunity.com/id/Glazelf/recommended/1867530/" ];
  mkSeed "Neon White" "1533420"
    [ "https://steamcommunity.com/id/SonEfsane3/recommended/1533420/";
      "https://steamcommunity.com/profiles/76561198008521229/recommended/1533420/";
      "https://steamcommunity.com/id/Simonsyndaren/recommended/1533420/";
      "https://steamcommunity.com/id/AlwaysSleepy0/recommended/1533420/";
      "https://steamcommunity.com/id/sirlagsal0t/recommended/1533420/";
      "https://steamcommunity.com/id/swansbb/recommended/1533420/" ];
  mkSeed "Psychonauts 2" "607080"
    [ "https://steamcommunity.com/profiles/76561198010209427/recommended/607080/";
      "https://steamcommunity.com/profiles/76561198068726029/recommended/607080/";
      "https://steamcommunity.com/profiles/76561198882082220/recommended/607080/";
      "https://steamcommunity.com/id/soupmasters/recommended/607080/";
      "https://steamcommunity.com/profiles/76561198034199250/recommended/607080/";
      "https://steamcommunity.com/id/thickman420/recommended/607080/" ];
  mkSeed "Psychonauts" "3830"
    [ "https://steamcommunity.com/profiles/76561198032518991/recommended/3830/";
      "https://steamcommunity.com/id/GajimaMoro/recommended/3830/";
      "https://steamcommunity.com/profiles/76561198259582505/recommended/3830/";
      "https://steamcommunity.com/profiles/76561198186242370/recommended/3830/";
      "https://steamcommunity.com/id/loopuleasa/recommended/3830/";
      "https://steamcommunity.com/id/Thekingofthepiratesbabyyyyy/recommended/3830/" ];
  mkSeed "ACE COMBAT� 7: SKIES UNKNOWN" "502500"
    [ "https://steamcommunity.com/id/SubwayEatThresh/recommended/502500/";
      "https://steamcommunity.com/profiles/76561199062988146/recommended/502500/";
      "https://steamcommunity.com/profiles/76561198376802797/recommended/502500/";
      "https://steamcommunity.com/profiles/76561198255621670/recommended/502500/";
      "https://steamcommunity.com/profiles/76561198179893841/recommended/502500/";
      "https://steamcommunity.com/id/runeow/recommended/502500/" ];
  mkSeed "Rain World" "312520"
    [ "https://steamcommunity.com/profiles/76561198092135223/recommended/312520/";
      "https://steamcommunity.com/id/oquinnisi/recommended/312520/";
      "https://steamcommunity.com/profiles/76561198926413446/recommended/312520/";
      "https://steamcommunity.com/profiles/76561199526316321/recommended/312520/";
      "https://steamcommunity.com/id/noonereedus/recommended/312520/";
      "https://steamcommunity.com/id/86492/recommended/312520/" ];
  mkSeed "Barotrauma" "602960"
    [ "https://steamcommunity.com/profiles/76561198214118412/recommended/602960/";
      "https://steamcommunity.com/id/gigabyte171/recommended/602960/";
      "https://steamcommunity.com/id/questionabledark/recommended/602960/";
      "https://steamcommunity.com/id/Apotarest/recommended/602960/";
      "https://steamcommunity.com/id/TheGrandCanyon/recommended/602960/";
      "https://steamcommunity.com/id/ozwilliam/recommended/602960/" ];
  mkSeed "Poco" "3454610"
    [ "https://steamcommunity.com/id/T10SOLITAIRE/recommended/3454610/";
      "https://steamcommunity.com/id/lullaby-of-time/recommended/3454610/";
      "https://steamcommunity.com/profiles/76561198327799680/recommended/3454610/";
      "https://steamcommunity.com/profiles/76561199796244019/recommended/3454610/";
      "https://steamcommunity.com/profiles/76561198426482832/recommended/3454610/";
      "https://steamcommunity.com/id/PrincessKara/recommended/3454610/" ];
  mkSeed "Limbus Company" "1973530"
    [ "https://steamcommunity.com/profiles/76561199231176078/recommended/1973530/";
      "https://steamcommunity.com/profiles/76561198198701690/recommended/1973530/";
      "https://steamcommunity.com/id/Tsuttan/recommended/1973530/";
      "https://steamcommunity.com/profiles/76561198834855056/recommended/1973530/";
      "https://steamcommunity.com/profiles/76561198198701690/recommended/1973530/";
      "https://steamcommunity.com/profiles/76561199083033455/recommended/1973530/" ];
  mkSeed "Stray" "1332010"
    [ "https://steamcommunity.com/profiles/76561198386518711/recommended/1332010/";
      "https://steamcommunity.com/id/daizbid/recommended/1332010/";
      "https://steamcommunity.com/id/roastytoasty/recommended/1332010/";
      "https://steamcommunity.com/id/zeusbuilt/recommended/1332010/";
      "https://steamcommunity.com/id/TheSindarianKing/recommended/1332010/";
      "https://steamcommunity.com/id/IsonDaya/recommended/1332010/" ];
  mkSeed "REMNANT II" "1282100"
    [ "https://steamcommunity.com/id/ForceInept/recommended/1282100/";
      "https://steamcommunity.com/profiles/76561198344876684/recommended/1282100/";
      "https://steamcommunity.com/profiles/76561197998371036/recommended/1282100/";
      "https://steamcommunity.com/id/raudrick/recommended/1282100/";
      "https://steamcommunity.com/profiles/76561198132595581/recommended/1282100/";
      "https://steamcommunity.com/id/gentleb/recommended/1282100/" ];
  mkSeed "Phasmophobia" "739630"
    [ "https://steamcommunity.com/id/TylerPark/recommended/739630/";
      "https://steamcommunity.com/id/givemegamespls/recommended/739630/";
      "https://steamcommunity.com/id/kwytz_/recommended/739630/";
      "https://steamcommunity.com/id/Mogul162/recommended/739630/";
      "https://steamcommunity.com/profiles/76561198155350524/recommended/739630/";
      "https://steamcommunity.com/id/WitchPa1ace/recommended/739630/" ];
  mkSeed "Content Warning" "2881650"
    [ "https://steamcommunity.com/profiles/76561198377109887/recommended/2881650/";
      "https://steamcommunity.com/id/wlr757/recommended/2881650/";
      "https://steamcommunity.com/profiles/76561199020970251/recommended/2881650/";
      "https://steamcommunity.com/profiles/76561199072613057/recommended/2881650/";
      "https://steamcommunity.com/id/Akuairopalette/recommended/2881650/";
      "https://steamcommunity.com/profiles/76561198209194904/recommended/2881650/" ];
  mkSeed "BELOW" "250680"
    [ "https://steamcommunity.com/id/Dikie13ingo/recommended/250680/";
      "https://steamcommunity.com/profiles/76561198799958481/recommended/250680/";
      "https://steamcommunity.com/profiles/76561199131435587/recommended/250680/";
      "https://steamcommunity.com/profiles/76561198036754085/recommended/250680/";
      "https://steamcommunity.com/id/YourKingMob/recommended/250680/";
      "https://steamcommunity.com/id/imjezze/recommended/250680/" ];
  mkSeed "NieR Replicant™ ver.1.22474487139..." "1113560"
    [ "https://steamcommunity.com/id/GregorRisenwald/recommended/1113560/";
      "https://steamcommunity.com/id/bartas4550/recommended/1113560/";
      "https://steamcommunity.com/profiles/76561198051959783/recommended/1113560/";
      "https://steamcommunity.com/id/XxHidanxX/recommended/1113560/";
      "https://steamcommunity.com/profiles/76561198806214254/recommended/1113560/";
      "https://steamcommunity.com/profiles/76561198859283781/recommended/1113560/" ];
  mkSeed "LOCKDOWN Protocol" "2780980"
    [ "https://steamcommunity.com/id/setzera/recommended/2780980/";
      "https://steamcommunity.com/id/123456789810/recommended/2780980/";
      "https://steamcommunity.com/profiles/76561199470353699/recommended/2780980/";
      "https://steamcommunity.com/profiles/76561199176792153/recommended/2780980/";
      "https://steamcommunity.com/profiles/76561198953717132/recommended/2780980/";
      "https://steamcommunity.com/id/spellynelly/recommended/2780980/" ];
  mkSeed "Guild Wars 2" "1284210"
    [ "https://steamcommunity.com/profiles/76561197994051630/recommended/1284210/";
      "https://steamcommunity.com/profiles/76561198410433055/recommended/1284210/";
      "https://steamcommunity.com/profiles/76561198049436351/recommended/1284210/";
      "https://steamcommunity.com/id/egssucks/recommended/1284210/";
      "https://steamcommunity.com/id/XiiDraco/recommended/1284210/";
      "https://steamcommunity.com/id/koozebane/recommended/1284210/" ];
  mkSeed "" ""
    [ "";
      "";
      "";
      "";
      "";
      "" ]
  ].

(** Two rows that agree on all but [steam_app_id]. *)
Definition same_entry (g g' : game_row) : Prop :=
  id g' = id g /\ title g' = title g /\
  last_played_on g' = last_played_on g /\ is_active g' = is_active g.

(** The table of games before and after a part of the first loop: every
    row is still there, and every row there was there or is entered now,
    under an id no row had. *)
Definition evolves (titles : list string) (gs gs' : list game_row) : Prop :=
  (forall g, In g gs -> exists g', In g' gs' /\ same_entry g g') /\
  (forall g', In g' gs' ->
     (exists g, In g gs /\ same_entry g g') \/
     (entered_now titles g' /\ ~ In (id g') (map id gs))).

Definition grows {A : Type} (titles : list string) (m : Run A) : Prop :=
  forall st o st', m st = (o, st') ->
    evolves titles (stored_games (fst st)) (stored_games (fst st')).

(** The second loop only deletes, and it deletes no row whose id is not
    the id of an entry of [dbGames] missing from [titles]. *)
Definition shrinks (titles : list string) (dbGames : list (Z * string))
  (m : Run unit) : Prop :=
  forall st o st', m st = (o, st') ->
    (forall g, In g (stored_games (fst st')) -> In g (stored_games (fst st))) /\
    (forall g, In g (stored_games (fst st)) ->
       (forall d, In d dbGames ->
                  existsb (String.eqb (snd d)) titles = false ->
                  id g <> fst d) ->
       In g (stored_games (fst st'))).

(** The server process started on the database. *)
Definition serving (db : database) : world :=
  {| games := stored_games db; game_reviews := stored_reviews db;
     dailyGameCache := {| cache_date := None; cache_gameData := None |};
     steamAppsCache := []; lastSteamAppsFetchTime := 0; log := [] |}.

End Seeding.

(* ------------------------------------------------------------------ *)
(** * Evaluation on concrete inputs *)

Example trim_ex : trim "  12.5 hrs  " = "12.5 hrs".
Proof. reflexivity. Qed.

Example at_review_time_ex :
  at_review_time_match "10.1 hrs on record (4.2 hrs at review time)"
  = Some "4.2 hrs".
Proof. reflexivity. Qed.

Example replace_br_ex :
  replace_br "a<BR />b<br>c<b>"
  = String "a" (String LF (String "b" (String LF "c<b>"))).
Proof. reflexivity. Qed.

Example playtime_from_record_ex :
  extract_playtime
    (mkPage "" "" None None "" "12.0 hrs last two weeks / 340.2 hrs on record" "" None)
  = "340.2 hrs".
Proof. reflexivity. Qed.

Example playtime_units_ex :
  extract_playtime (mkPage "" "" None None "" "1.0 / 7 on record" "" None)
  = "7 hrs".
Proof. reflexivity. Qed.

Example parse_full_page_ex :
  parse_review (fun h => h) Samples.full_page
  = {| reviewerName := "GLaDOS";
       reviewerAvatarUrl := Some "https://avatars.example/glados.jpg";
       recommendation := "Recommended";
       playtime := "17.4 hrs";
       datePosted := "21 April, 2011";
       reviewText := String.append "The cake" (String LF "is a lie") |}.
Proof. reflexivity. Qed.

Example parseInt_ex : parseInt (Some "  -12px") = Some (-12)%Z.
Proof. reflexivity. Qed.

Example one_ranking_in_two_ex :
  filter (draws (fun keys => select_unplayed keys
                               [Samples.portal2; Samples.celeste; Samples.hades])
            Samples.hades)
    (rankings 2)
  = [[1; 0]].
Proof. reflexivity. Qed.

Example three_days_ex :
  map served_game
    (fst (serve_days (daily_game Samples.calm)
            ["2024-05-01"; "2024-05-02"; "2024-05-03"; "2024-05-04"]
            (Samples.fresh [Samples.portal2; Samples.hades; Samples.celeste]
               Samples.portal_reviews)))
  = [Some ("Portal 2", "620"); Some ("Hades", "1145360");
     Some ("Celeste", "504230"); Some ("Portal 2", "620")].
Proof. reflexivity. Qed.

(* ------------------------------------------------------------------ *)
(** * Facts about the building blocks *)

(** ** ORDER BY *)

Section OrderBy.

Context {A : Type}.
Variable leb : A -> A -> bool.

Lemma insert_by_perm (x : A) (l : list A) :
  Permutation (insert_by leb x l) (x :: l).
Proof.
  induction l as [|y t IH]; simpl.
  - apply Permutation_refl.
  - destruct (leb x y).
    + apply Permutation_refl.
    + apply perm_trans with (y :: x :: t).
      * apply perm_skip, IH.
      * apply perm_swap.
Qed.

Lemma order_by_perm (l : list A) : Permutation (order_by leb l) l.
Proof.
  induction l as [|x t IH]; simpl.
  - apply perm_nil.
  - apply perm_trans with (x :: order_by leb t).
    + apply insert_by_perm.
    + apply perm_skip, IH.
Qed.

Lemma order_by_length (l : list A) :
  List.length (order_by leb l) = List.length l.
Proof. apply Permutation_length, order_by_perm. Qed.

Lemma order_by_In (x : A) (l : list A) : In x (order_by leb l) <-> In x l.
Proof.
  split; apply Permutation_in;
    [apply order_by_perm | apply Permutation_sym, order_by_perm].
Qed.

Hypothesis leb_total : forall a b, leb a b = true \/ leb b a = true.
Hypothesis leb_trans :
  forall a b c, leb a b = true -> leb b c = true -> leb a c = true.

Let le (a b : A) : Prop := leb a b = true.

Lemma insert_by_sorted (x : A) (l : list A) :
  StronglySorted le l -> StronglySorted le (insert_by leb x l).
Proof.
  induction 1 as [|y t Hs IH Hall]; simpl.
  - constructor; constructor.
  - destruct (leb x y) eqn:Hxy.
    + constructor.
      * constructor; assumption.
      * constructor; [exact Hxy|].
        rewrite Forall_forall in Hall |- *.
        intros z Hz. apply (leb_trans x y z Hxy), Hall, Hz.
    + constructor; [exact IH|].
      rewrite Forall_forall in Hall |- *.
      intros z Hz.
      apply (Permutation_in _ (insert_by_perm x t)) in Hz.
      destruct Hz as [<-|Hz].
      * destruct (leb_total x y) as [H|H]; [congruence|exact H].
      * apply Hall, Hz.
Qed.

Lemma order_by_sorted (l : list A) : StronglySorted le (order_by leb l).
Proof.
  induction l as [|x t IH]; simpl.
  - constructor.
  - apply insert_by_sorted, IH.
Qed.

(** [ORDER BY ... LIMIT 1] yields a least row. *)
Lemma order_by_head_least (l : list A) (m : A) :
  hd_error (order_by leb l) = Some m ->
  In m l /\ forall x, In x l -> leb m x = true.
Proof.
  intros Hhd.
  pose proof (order_by_sorted l) as Hs.
  destruct (order_by leb l) as [|m' t] eqn:Hl; [discriminate|].
  injection Hhd as ->.
  split.
  - apply order_by_In. rewrite Hl. left; reflexivity.
  - intros x Hx. apply order_by_In in Hx. rewrite Hl in Hx.
    destruct Hx as [<-|Hx].
    + destruct (leb_total m m); assumption.
    + inversion Hs as [|? ? _ Hall]; subst.
      rewrite Forall_forall in Hall. apply Hall, Hx.
Qed.

End OrderBy.

Lemma order_by_head_none {A : Type} (leb : A -> A -> bool) (l : list A) :
  hd_error (order_by leb l) = None <-> l = [].
Proof.
  split.
  - intros H. pose proof (order_by_length leb l) as Hlen.
    destruct (order_by leb l); [|discriminate].
    destruct l; [reflexivity|discriminate].
  - intros ->. reflexivity.
Qed.

(** ** The order of SQLite on text *)

Lemma ascii_compare_trans (a b c : ascii) (o : comparison) :
  Ascii.compare a b = o -> Ascii.compare b c = o -> Ascii.compare a c = o.
Proof.
  unfold Ascii.compare. intros H1 H2. destruct o.
  - apply N.compare_eq_iff in H1, H2. apply N.compare_eq_iff. congruence.
  - rewrite N.compare_lt_iff in *. lia.
  - rewrite N.compare_gt_iff in *. lia.
Qed.

Lemma string_compare_refl (s : string) : String.compare s s = Eq.
Proof.
  induction s as [|c s IH]; simpl; [reflexivity|].
  unfold Ascii.compare. rewrite N.compare_refl. exact IH.
Qed.

Lemma string_compare_lt_trans (s1 s2 s3 : string) :
  String.compare s1 s2 = Lt -> String.compare s2 s3 = Lt ->
  String.compare s1 s3 = Lt.
Proof.
  revert s2 s3.
  induction s1 as [|a s1 IH]; intros [|b s2] [|c s3]; simpl;
    try discriminate; try reflexivity.
  destruct (Ascii.compare a b) eqn:Hab; try discriminate;
    destruct (Ascii.compare b c) eqn:Hbc; try discriminate; intros H1 H2.
  - apply Ascii.compare_eq_iff in Hab, Hbc. subst.
    unfold Ascii.compare. rewrite N.compare_refl. eapply IH; eassumption.
  - apply Ascii.compare_eq_iff in Hab. subst. rewrite Hbc. reflexivity.
  - apply Ascii.compare_eq_iff in Hbc. subst. rewrite Hab. reflexivity.
  - rewrite (ascii_compare_trans a b c Lt Hab Hbc). reflexivity.
Qed.

Lemma string_leb_trans (s1 s2 s3 : string) :
  String.leb s1 s2 = true -> String.leb s2 s3 = true ->
  String.leb s1 s3 = true.
Proof.
  unfold String.leb.
  destruct (String.compare s1 s2) eqn:H12; try discriminate;
    destruct (String.compare s2 s3) eqn:H23; try discriminate; intros _ _.
  - apply String.compare_eq_iff in H12, H23. subst.
    rewrite string_compare_refl. reflexivity.
  - apply String.compare_eq_iff in H12. subst. rewrite H23. reflexivity.
  - apply String.compare_eq_iff in H23. subst. rewrite H12. reflexivity.
  - rewrite (string_compare_lt_trans _ _ _ H12 H23). reflexivity.
Qed.

Lemma date_leb_total (a b : option string) :
  date_leb a b = true \/ date_leb b a = true.
Proof.
  destruct a as [x|], b as [y|]; simpl; auto. apply String.leb_total.
Qed.

Lemma date_leb_trans (a b c : option string) :
  date_leb a b = true -> date_leb b c = true -> date_leb a c = true.
Proof.
  destruct a as [x|], b as [y|], c as [z|]; simpl; try discriminate; auto.
  apply string_leb_trans.
Qed.

Lemma date_eqb_eq (a b : option string) : date_eqb a b = true <-> a = b.
Proof.
  destruct a as [x|], b as [y|]; simpl; split; try discriminate; auto.
  - intros H. apply String.eqb_eq in H. congruence.
  - intros H. injection H as ->. apply String.eqb_refl.
Qed.

(* ------------------------------------------------------------------ *)
(** ** The effect monad and the log *)

Ltac run :=
  unfold daily_game, daily_game_cached, fetchReviewsForGameAndRespond,
    getAndScrapeReviewDataForGame, select_daily_game, review_page_urls,
    block_A, block_B, block_C, block_D, db_query, store_in_cache,
    set_dailyGameCache, try_catch, bind, ret, throw; simpl.

Lemma now_record (e : event) (w : world) : now (record e w) = S (now w).
Proof. reflexivity. Qed.

Lemma games_record_all (es : list event) (w : world) :
  games (record_all es w) = games w.
Proof.
  revert w. induction es as [|e es IH]; intros w; simpl; [|rewrite IH];
    reflexivity.
Qed.

Lemma log_record_all (es : list event) (w : world) :
  log (record_all es w) = (rev es ++ log w)%list.
Proof.
  revert w. induction es as [|e es IH]; intros w; simpl; [reflexivity|].
  rewrite IH. simpl. rewrite <- app_assoc. reflexivity.
Qed.

(** ** [scrapeSteamReview] and [Promise.all] *)

Lemma scrapeSteamReview_eq (E : env) (url : string) (w : world) :
  scrapeSteamReview E url w = (Ret (resolve E (now w) url), record (EvHttpGet url) w).
Proof. reflexivity. Qed.

Lemma scrape_all_eq (E : env) (urls : list string) (w : world) :
  scrape_all E urls w
  = (Ret (resolve_all E (now w) urls), record_all (map EvHttpGet urls) w).
Proof.
  revert w. induction urls as [|url rest IH]; intros w; simpl; [reflexivity|].
  unfold bind. rewrite scrapeSteamReview_eq, IH. reflexivity.
Qed.

Lemma resolve_all_nth (E : env) (urls : list string) (t i : nat) :
  nth_error (resolve_all E t urls) i
  = option_map (resolve E (t + i)) (nth_error urls i).
Proof.
  revert t i. induction urls as [|url rest IH]; intros t [|i]; simpl;
    try reflexivity.
  - rewrite Nat.add_0_r. reflexivity.
  - rewrite IH. replace (S t + i) with (t + S i) by lia. reflexivity.
Qed.

Lemma resolve_all_length (E : env) (urls : list string) (t : nat) :
  List.length (resolve_all E t urls) = List.length urls.
Proof. revert t. induction urls; intros t; simpl; [|rewrite IHurls]; reflexivity. Qed.

(* ------------------------------------------------------------------ *)
(** * Facts about the endpoints *)

(** ** The app list *)

Lemma fetchAndCacheSteamApps_returns (E : env) (w : world) :
  exists w', fetchAndCacheSteamApps E w = (Ret tt, w').
Proof.
  unfold fetchAndCacheSteamApps.
  destruct (app_list E (now w)); eexists; reflexivity.
Qed.

(** ** Review acquisition *)

Lemma select_review_urls_none (gid : Z) (reviews : list review_row) :
  (forall r, In r reviews -> game_id r <> gid) ->
  select_review_urls gid reviews = [].
Proof.
  intros H. unfold select_review_urls, review_rows_of.
  replace (filter (fun r => (game_id r =? gid)%Z) reviews) with (@nil review_row).
  - reflexivity.
  - symmetry. induction reviews as [|r t IH]; simpl; [reflexivity|].
    destruct (Z.eqb_spec (game_id r) gid) as [Heq|_].
    + exfalso. apply (H r); [left; reflexivity|exact Heq].
    + apply IH. intros r' Hr'. apply H. right. exact Hr'.
Qed.

(** Once the selector has returned a game, both handlers hand it to the
    review acquisition. *)
Lemma daily_game_after_selection (E : env) (todayStr : string)
  (w0 w : world) (game : selection) :
  select_daily_game E todayStr w0 = (Ret (Some game), w) ->
  daily_game E todayStr w0 = fetchReviewsForGameAndRespond E game w.
Proof.
  intros Hsel. unfold daily_game, try_catch, bind at 1. rewrite Hsel.
  unfold fetchReviewsForGameAndRespond, try_catch.
  destruct (bind _ _ w) as [[r|msg] w']; reflexivity.
Qed.

(** ** The selector, path by path *)

Lemma select_daily_game_path (E : env) (todayStr : string) (w : world) :
  selector_path E todayStr w
    (fst (select_daily_game E todayStr w))
    (snd (select_daily_game E todayStr w)).
Proof.
  run. unfold now. simpl.
  destruct (db_err E (List.length (log w))) as [m|] eqn:HA; simpl.
  { apply path_A_fails. exact HA. }
  destruct (select_played_today todayStr (games w)) as [g|] eqn:Hpre; simpl.
  { apply path_preselected; assumption. }
  destruct (db_err E (S (List.length (log w)))) as [m|] eqn:HB; simpl.
  { apply path_B_fails; assumption. }
  destruct (select_unplayed (sql_random E (S (List.length (log w)))) (games w))
    as [g|] eqn:Hun; simpl.
  { destruct (db_err E (S (S (List.length (log w))))) as [m|] eqn:HD; simpl.
    - apply path_unplayed_D_fails; assumption.
    - apply (path_unplayed E todayStr w g); assumption. }
  destruct (db_err E (S (S (List.length (log w))))) as [m|] eqn:HC; simpl.
  { apply path_C_fails; assumption. }
  destruct (select_least_recent (sql_random E (S (S (List.length (log w))))) (games w))
    as [g|] eqn:Hlr; simpl.
  { destruct (db_err E (S (S (S (List.length (log w)))))) as [m|] eqn:HD; simpl.
    - apply path_least_recent_D_fails; assumption.
    - apply (path_least_recent E todayStr w g); assumption. }
  apply path_no_game; assumption.
Qed.

Lemma select_daily_game_inv (E : env) (todayStr : string) (w w' : world)
  (o : outcome (option selection)) :
  select_daily_game E todayStr w = (o, w') -> selector_path E todayStr w o w'.
Proof.
  intros H. pose proof (select_daily_game_path E todayStr w) as P.
  rewrite H in P. exact P.
Qed.

Lemma games_of_select (E : env) (todayStr : string) (w0 w : world)
  (o : outcome (option selection)) :
  select_daily_game E todayStr w0 = (o, w) ->
  game_reviews w = game_reviews w0 /\ dailyGameCache w = dailyGameCache w0.
Proof.
  intros H. apply select_daily_game_inv in H.
  destruct H; simpl; auto.
Qed.

(** ** Review acquisition, case by case *)

Section Acquisition.

Variable E : env.
Variable game : selection.
Variable w : world.

Let urls := select_review_urls (sel_id game) (game_reviews w).
Let w1 := record (EvSelectReviewUrls (sel_id game)) w.

Lemma fetchReviews_ok :
  db_err E (now w) = None -> db_null_rows E (now w) = false ->
  fetchReviewsForGameAndRespond E game w
  = (Ret {| status := 200;
            body := JGame (GameData (sel_title game) (sel_steam_app_id game)
                             (resolve_all E (S (now w)) urls)) |},
     record_all (map EvHttpGet urls) w1).
Proof.
  intros Herr Hnull. subst urls w1.
  unfold fetchReviewsForGameAndRespond, try_catch, bind, review_page_urls.
  rewrite Herr, Hnull.
  destruct (select_review_urls (sel_id game) (game_reviews w)) as [|u us] eqn:Hu.
  - reflexivity.
  - rewrite scrape_all_eq. reflexivity.
Qed.

Lemma fetchReviews_failed :
  db_err E (now w) <> None \/ db_null_rows E (now w) = true ->
  exists msg,
    fetchReviewsForGameAndRespond E game w
    = (Ret {| status := 500; body := JError msg |}, w1).
Proof.
  intros H. subst w1.
  unfold fetchReviewsForGameAndRespond, try_catch, bind, review_page_urls.
  destruct (db_err E (now w)) as [m|].
  - eexists; reflexivity.
  - destruct H as [H|H]; [congruence|]. rewrite H. eexists; reflexivity.
Qed.

Lemma getAndScrape_ok :
  db_err E (now w) = None -> db_null_rows E (now w) = false ->
  getAndScrapeReviewDataForGame E game w
  = (Ret (GameData (sel_title game) (sel_steam_app_id game)
            (resolve_all E (S (now w)) urls)),
     record_all (map EvHttpGet urls) w1).
Proof.
  intros Herr Hnull. subst urls w1.
  unfold getAndScrapeReviewDataForGame, try_catch, bind, review_page_urls.
  rewrite Herr, Hnull.
  destruct (select_review_urls (sel_id game) (game_reviews w)) as [|u us] eqn:Hu.
  - reflexivity.
  - rewrite scrape_all_eq. reflexivity.
Qed.

Lemma getAndScrape_failed :
  db_err E (now w) <> None \/ db_null_rows E (now w) = true ->
  getAndScrapeReviewDataForGame E game w
  = (Ret (ReviewsFailedData "Failed to process game reviews."
            (or_else (sel_title game) "Unknown")
            (if truthy (sel_steam_app_id game)
             then Some (sel_steam_app_id game) else None)),
     w1).
Proof.
  intros H. subst w1.
  unfold getAndScrapeReviewDataForGame, try_catch, bind, review_page_urls.
  destruct (db_err E (now w)) as [m|].
  - reflexivity.
  - destruct H as [H|H]; [congruence|]. rewrite H. reflexivity.
Qed.

End Acquisition.

Lemma clue_order_leb_total (a b : review_row) :
  clue_order_leb a b = true \/ clue_order_leb b a = true.
Proof. unfold clue_order_leb. rewrite !Z.leb_le. lia. Qed.

Lemma clue_order_leb_trans (a b c : review_row) :
  clue_order_leb a b = true -> clue_order_leb b c = true ->
  clue_order_leb a c = true.
Proof. unfold clue_order_leb. rewrite !Z.leb_le. lia. Qed.

Lemma resolve_all_map_nth (E : env) (t i : nat) (rows : list review_row) :
  nth_error (resolve_all E t (map review_page_url rows)) i
  = option_map (fun row => resolve E (t + i) (review_page_url row))
      (nth_error rows i).
Proof.
  rewrite resolve_all_nth, nth_error_map.
  destruct (nth_error rows i); reflexivity.
Qed.

(** ** The two handlers in terms of the selector *)

Lemma fetchReviews_returns (E : env) (game : selection) (w : world) :
  exists r,
    fetchReviewsForGameAndRespond E game w
    = (Ret r, record_all
                (map EvHttpGet
                   (match fst (fetchReviewsForGameAndRespond E game w) with
                    | Ret {| status := 200 |} =>
                        select_review_urls (sel_id game) (game_reviews w)
                    | _ => []
                    end))
                (record (EvSelectReviewUrls (sel_id game)) w)).
Proof.
  destruct (db_err E (now w)) as [m|] eqn:Herr;
    [|destruct (db_null_rows E (now w)) eqn:Hnull].
  - destruct (fetchReviews_failed E game w) as [msg Hf]; [left; congruence|].
    rewrite Hf. eexists; reflexivity.
  - destruct (fetchReviews_failed E game w) as [msg Hf]; [right; exact Hnull|].
    rewrite Hf. eexists; reflexivity.
  - rewrite (fetchReviews_ok E game w Herr Hnull). eexists; reflexivity.
Qed.

Lemma getAndScrape_returns (E : env) (game : selection) (w : world) :
  exists full,
    getAndScrapeReviewDataForGame E game w
    = (Ret full,
       record_all
         (map EvHttpGet
            (if gameData_error full then []
             else select_review_urls (sel_id game) (game_reviews w)))
         (record (EvSelectReviewUrls (sel_id game)) w)).
Proof.
  destruct (db_err E (now w)) as [m|] eqn:Herr;
    [|destruct (db_null_rows E (now w)) eqn:Hnull].
  - rewrite (getAndScrape_failed E game w) by (left; congruence).
    match goal with |- exists full, (Ret ?x, _) = _ => exists x end.
    reflexivity.
  - rewrite (getAndScrape_failed E game w) by (right; exact Hnull).
    match goal with |- exists full, (Ret ?x, _) = _ => exists x end.
    reflexivity.
  - rewrite (getAndScrape_ok E game w Herr Hnull).
    match goal with |- exists full, (Ret ?x, _) = _ => exists x end.
    reflexivity.
Qed.

Lemma daily_game_unfold (E : env) (todayStr : string) (w : world) :
  daily_game E todayStr w
  = match select_daily_game E todayStr w with
    | (Ret (Some g), w') => fetchReviewsForGameAndRespond E g w'
    | (Ret None, w') => (Ret (fail "No games available to select for today."), w')
    | (Throw _, w') =>
        (Ret (fail "Internal server error while selecting daily game."), w')
    end.
Proof.
  unfold daily_game, try_catch, bind at 1.
  destruct (select_daily_game E todayStr w) as [[[g|]|m] w']; try reflexivity.
  destruct (fetchReviews_returns E g w') as [r ->]. reflexivity.
Qed.

Lemma daily_game_cached_miss (E : env) (todayStr : string) (w : world) :
  cache_lookup todayStr (dailyGameCache w) = None ->
  daily_game_cached E todayStr w
  = match select_daily_game E todayStr w with
    | (Ret (Some g), w') =>
        match getAndScrapeReviewDataForGame E g w' with
        | (Ret full, w'') => (Ret (respond_with full), with_cache todayStr full w'')
        | (Throw _, w'') =>
            let e := ErrorData "Internal server error while selecting daily game." in
            (Ret {| status := 500; body := JGame e |}, with_cache todayStr e w'')
        end
    | (Ret None, w') =>
        let e := ErrorData "No games available to select for today." in
        (Ret {| status := 500; body := JGame e |}, with_cache todayStr e w')
    | (Throw _, w') =>
        let e := ErrorData "Internal server error while selecting daily game." in
        (Ret {| status := 500; body := JGame e |}, with_cache todayStr e w')
    end.
Proof.
  intros Hmiss. unfold daily_game_cached. rewrite Hmiss.
  unfold try_catch, bind at 1.
  destruct (select_daily_game E todayStr w) as [[[g|]|m] w']; try reflexivity.
  unfold bind.
  destruct (getAndScrapeReviewDataForGame E g w') as [[full|m] w''];
    [|reflexivity].
  unfold respond_with, with_cache, store_in_cache, set_dailyGameCache. simpl.
  destruct (gameData_error full); reflexivity.
Qed.

Lemma daily_game_cached_hit (E : env) (todayStr : string) (w : world)
  (g : gameData) :
  cache_lookup todayStr (dailyGameCache w) = Some g ->
  daily_game_cached E todayStr w
  = (Ret (if gameData_error g
          then fail (or_else (gameData_message g)
                       "Failed to get daily game data (cached error).")
          else ok g), w).
Proof.
  intros Hhit. unfold daily_game_cached. rewrite Hhit.
  destruct (gameData_error g); reflexivity.
Qed.

(** ** The three selector queries *)

Lemma select_played_today_some (todayStr : string) (gs : list game_row)
  (s : selection) :
  select_played_today todayStr gs = Some s ->
  exists g, In g gs /\ is_active g = true /\
            last_played_on g = Some todayStr /\ s = project g.
Proof.
  unfold select_played_today. intros H.
  destruct (find _ gs) as [g|] eqn:Hfind; [|discriminate].
  injection H as <-. apply find_some in Hfind. destruct Hfind as [Hin Hg].
  apply andb_true_iff in Hg. destruct Hg as [Hp Ha].
  exists g. repeat split; auto.
  unfold played_on in Hp. destruct (last_played_on g) as [d|]; [|discriminate].
  apply String.eqb_eq in Hp. congruence.
Qed.

Lemma select_played_today_none (todayStr : string) (gs : list game_row) :
  select_played_today todayStr gs = None <->
  forall g, In g gs -> is_active g = true -> last_played_on g <> Some todayStr.
Proof.
  unfold select_played_today. split.
  - intros H g Hin Ha Hd.
    destruct (find _ gs) as [g'|] eqn:Hfind; [discriminate|].
    pose proof (find_none _ _ Hfind g Hin) as Hg. simpl in Hg.
    unfold played_on in Hg. rewrite Hd, String.eqb_refl, Ha in Hg. discriminate.
  - intros H. destruct (find _ gs) as [g|] eqn:Hfind; [|reflexivity].
    apply find_some in Hfind. destruct Hfind as [Hin Hg].
    apply andb_true_iff in Hg. destruct Hg as [Hp Ha].
    exfalso. apply (H g Hin Ha).
    unfold played_on in Hp. destruct (last_played_on g) as [d|]; [|discriminate].
    apply String.eqb_eq in Hp. congruence.
Qed.

Lemma with_random_from_nth {A : Type} (keys : nat -> Z) (l : list A) (i j : nat) :
  nth_error (with_random_from keys i l) j
  = option_map (fun x => (keys (i + j), x)) (nth_error l j).
Proof.
  revert i j. induction l as [|x t IH]; intros i [|j]; simpl; try reflexivity.
  - rewrite Nat.add_0_r. reflexivity.
  - rewrite IH. replace (S i + j) with (i + S j) by lia. reflexivity.
Qed.

Lemma with_random_In {A : Type} (keys : nat -> Z) (l : list A) (k : Z) (x : A) :
  In (k, x) (with_random keys l) <->
  exists j, nth_error l j = Some x /\ k = keys j.
Proof.
  unfold with_random. split.
  - intros H. apply In_nth_error in H. destruct H as [j Hj].
    rewrite with_random_from_nth in Hj. simpl in Hj.
    destruct (nth_error l j) as [y|] eqn:Hy; [|discriminate].
    injection Hj as <- <-. exists j. auto.
  - intros [j [Hj ->]]. apply nth_error_In with j.
    rewrite with_random_from_nth, Hj. reflexivity.
Qed.

Lemma with_random_nil {A : Type} (keys : nat -> Z) (l : list A) :
  with_random keys l = [] <-> l = [].
Proof. destruct l; simpl; split; intros; try reflexivity; discriminate. Qed.

Lemma random_leb_total (a b : Z * game_row) :
  random_leb a b = true \/ random_leb b a = true.
Proof. unfold random_leb. rewrite !Z.leb_le. lia. Qed.

Lemma random_leb_trans (a b c : Z * game_row) :
  random_leb a b = true -> random_leb b c = true -> random_leb a c = true.
Proof. unfold random_leb. rewrite !Z.leb_le. lia. Qed.

Lemma date_leb_antisym (a b : option string) :
  date_leb a b = true -> date_leb b a = true -> a = b.
Proof.
  destruct a as [x|], b as [y|]; simpl; try discriminate; auto.
  intros H1 H2. f_equal. apply String.leb_antisym; assumption.
Qed.

Lemma played_then_random_leb_total (a b : Z * game_row) :
  played_then_random_leb a b = true \/ played_then_random_leb b a = true.
Proof.
  unfold played_then_random_leb.
  destruct (date_eqb (last_played_on (snd a)) (last_played_on (snd b))) eqn:Hab.
  - apply date_eqb_eq in Hab. rewrite Hab.
    replace (date_eqb (last_played_on (snd b)) (last_played_on (snd b)))
      with true by (symmetry; apply date_eqb_eq; reflexivity).
    rewrite !Z.leb_le. lia.
  - destruct (date_eqb (last_played_on (snd b)) (last_played_on (snd a))) eqn:Hba.
    + apply date_eqb_eq in Hba. rewrite Hba in Hab.
      replace (date_eqb (last_played_on (snd a)) (last_played_on (snd a)))
        with true in Hab by (symmetry; apply date_eqb_eq; reflexivity).
      discriminate.
    + apply date_leb_total.
Qed.

Lemma played_then_random_leb_iff (a b : Z * game_row) :
  played_then_random_leb a b = true <->
  date_leb (last_played_on (snd a)) (last_played_on (snd b)) = true /\
  (last_played_on (snd a) = last_played_on (snd b) -> (fst a <= fst b)%Z).
Proof.
  unfold played_then_random_leb.
  destruct (date_eqb (last_played_on (snd a)) (last_played_on (snd b))) eqn:Hab.
  - apply date_eqb_eq in Hab. rewrite Hab, Z.leb_le. split.
    + intros H. split; [|auto].
      destruct (date_leb_total (last_played_on (snd b)) (last_played_on (snd b)));
        assumption.
    + intros [_ H]. apply H. reflexivity.
  - split.
    + intros H. split; [exact H|]. intros Heq.
      apply date_eqb_eq in Heq. congruence.
    + intros [H _]. exact H.
Qed.

Lemma played_then_random_leb_trans (a b c : Z * game_row) :
  played_then_random_leb a b = true -> played_then_random_leb b c = true ->
  played_then_random_leb a c = true.
Proof.
  rewrite !played_then_random_leb_iff. intros [Hab Kab] [Hbc Kbc].
  split; [eapply date_leb_trans; eassumption|].
  intros Hac. rewrite Hac in Hab.
  pose proof (date_leb_antisym _ _ Hab Hbc) as Hcb.
  assert (Hab' : last_played_on (snd a) = last_played_on (snd b)) by congruence.
  specialize (Kab Hab'). specialize (Kbc (eq_sym Hcb)). lia.
Qed.

Lemma select_unplayed_none (keys : nat -> Z) (gs : list game_row) :
  select_unplayed keys gs = None <-> unplayed_active gs = [].
Proof.
  unfold select_unplayed, unplayed_active.
  destruct (hd_error _) as [kg|] eqn:Hhd; simpl.
  - split; [discriminate|]. intros Hnil. rewrite Hnil in Hhd. discriminate.
  - split; [|reflexivity]. intros _.
    apply order_by_head_none in Hhd. apply with_random_nil in Hhd. exact Hhd.
Qed.

(** Block B returns the unplayed active row on which [RANDOM()] is least. *)
Lemma select_unplayed_some (keys : nat -> Z) (gs : list game_row) (s : selection) :
  select_unplayed keys gs = Some s ->
  exists j g,
    nth_error (unplayed_active gs) j = Some g /\ s = project g /\
    forall j' g', nth_error (unplayed_active gs) j' = Some g' ->
                  (keys j <= keys j')%Z.
Proof.
  unfold select_unplayed. fold (unplayed_active gs). intros H.
  destruct (hd_error _) as [[k g]|] eqn:Hhd; [|discriminate].
  injection H as <-.
  apply (order_by_head_least random_leb random_leb_total random_leb_trans)
    in Hhd.
  destruct Hhd as [Hin Hleast].
  apply with_random_In in Hin. destruct Hin as [j [Hj ->]].
  exists j, g. split; [exact Hj|]. split; [reflexivity|].
  intros j' g' Hj'.
  assert (Hin' : In (keys j', g') (with_random keys (unplayed_active gs))).
  { apply with_random_In. exists j'. auto. }
  specialize (Hleast _ Hin'). unfold random_leb in Hleast. simpl in Hleast.
  apply Z.leb_le. exact Hleast.
Qed.

Lemma select_least_recent_none (keys : nat -> Z) (gs : list game_row) :
  select_least_recent keys gs = None <-> filter is_active gs = [].
Proof.
  unfold select_least_recent.
  destruct (hd_error _) as [kg|] eqn:Hhd; simpl.
  - split; [discriminate|]. intros Hnil. rewrite Hnil in Hhd. discriminate.
  - split; [|reflexivity]. intros _.
    apply order_by_head_none in Hhd. apply with_random_nil in Hhd. exact Hhd.
Qed.

(** Block C returns an active row whose [last_played_on] is least, and
    among those the one on which [RANDOM()] is least. *)
Lemma select_least_recent_some (keys : nat -> Z) (gs : list game_row)
  (s : selection) :
  select_least_recent keys gs = Some s ->
  exists j g,
    nth_error (filter is_active gs) j = Some g /\ s = project g /\
    forall j' g', nth_error (filter is_active gs) j' = Some g' ->
      date_leb (last_played_on g) (last_played_on g') = true /\
      (last_played_on g = last_played_on g' -> (keys j <= keys j')%Z).
Proof.
  unfold select_least_recent. intros H.
  destruct (hd_error _) as [[k g]|] eqn:Hhd; [|discriminate].
  injection H as <-.
  apply (order_by_head_least played_then_random_leb
           played_then_random_leb_total played_then_random_leb_trans) in Hhd.
  destruct Hhd as [Hin Hleast].
  apply with_random_In in Hin. destruct Hin as [j [Hj ->]].
  exists j, g. split; [exact Hj|]. split; [reflexivity|].
  intros j' g' Hj'.
  assert (Hin' : In (keys j', g') (with_random keys (filter is_active gs))).
  { apply with_random_In. exists j'. auto. }
  specialize (Hleast _ Hin').
  apply played_then_random_leb_iff in Hleast. exact Hleast.
Qed.

(** ** A failing write *)

Lemma picks_new_then_write_fails (E : env) (todayStr : string) (w : world)
  (g : selection) (tD : nat) (msg : string) :
  picks_new E todayStr w g tD -> db_err E tD = Some msg ->
  exists w', select_daily_game E todayStr w = (Throw msg, w') /\
             games w' = games w /\ dailyGameCache w' = dailyGameCache w.
Proof.
  intros (HA & Hpre & HB & Hpick) HD.
  run. unfold now in *. simpl in *. rewrite HA; simpl. rewrite Hpre; simpl.
  rewrite HB; simpl.
  destruct Hpick as [[Hun ->]|(Hun & HC & Hlr & ->)].
  - rewrite Hun; simpl. rewrite HD; simpl. eexists; repeat split.
  - rewrite Hun; simpl. rewrite HC; simpl. rewrite Hlr; simpl.
    rewrite HD; simpl. eexists; repeat split.
Qed.

(** ** What a request writes *)

Lemma mark_played_other (todayStr : string) (gid : Z) (l : list game_row) :
  ~ In gid (map id l) -> mark_played todayStr gid l = l.
Proof.
  unfold mark_played. induction l as [|r t IH]; simpl; intros Hnot;
    [reflexivity|].
  destruct (Z.eqb_spec (id r) gid) as [Heq|_].
  - exfalso. apply Hnot. left. exact Heq.
  - f_equal. apply IH. intros Hin. apply Hnot. right. exact Hin.
Qed.

(** With [id] a primary key the UPDATE of block D rewrites one row. *)
Lemma mark_played_split (todayStr : string) (g : game_row)
  (l1 l2 : list game_row) :
  NoDup (map id (l1 ++ g :: l2)) ->
  mark_played todayStr (id g) (l1 ++ g :: l2)
  = (l1 ++ set_last_played todayStr g :: l2)%list.
Proof.
  intros Hnd. rewrite map_app in Hnd. simpl in Hnd.
  pose proof (NoDup_remove_2 _ _ _ Hnd) as Hnot.
  assert (H1 : ~ In (id g) (map id l1)).
  { intros H. apply Hnot. apply in_or_app. left. exact H. }
  assert (H2 : ~ In (id g) (map id l2)).
  { intros H. apply Hnot. apply in_or_app. right. exact H. }
  pose proof (mark_played_other todayStr (id g) l1 H1) as E1.
  pose proof (mark_played_other todayStr (id g) l2 H2) as E2.
  unfold mark_played in *. rewrite map_app. simpl.
  rewrite E1, E2, Z.eqb_refl. reflexivity.
Qed.

Lemma mark_played_ids (todayStr : string) (gid : Z) (l : list game_row) :
  map id (mark_played todayStr gid l) = map id l.
Proof.
  unfold mark_played. rewrite map_map. apply map_ext.
  intros r. destruct (id r =? gid)%Z; reflexivity.
Qed.

Lemma selected_row_step (todayStr : string) (gs : list game_row)
  (g : game_row) :
  NoDup (map id gs) -> In g gs -> is_active g = true ->
  catalog_step todayStr gs (mark_played todayStr (id g) gs).
Proof.
  intros Hnd Hin Hact. apply in_split in Hin. destruct Hin as (l1 & l2 & ->).
  rewrite (mark_played_split _ _ _ _ Hnd).
  apply step_one_marked with (g := g); [reflexivity|exact Hact].
Qed.

Lemma unplayed_active_In (gs : list game_row) (g : game_row) :
  In g (unplayed_active gs) <->
  In g gs /\ last_played_on g = None /\ is_active g = true.
Proof.
  unfold unplayed_active. rewrite filter_In, andb_true_iff.
  unfold never_played. destruct (last_played_on g); intuition congruence.
Qed.

Lemma selector_catalog_step (E : env) (todayStr : string) (w w' : world)
  (o : outcome (option selection)) :
  NoDup (map id (games w)) ->
  selector_path E todayStr w o w' ->
  catalog_step todayStr (games w) (games w').
Proof.
  intros Hnd Hpath.
  destruct Hpath; simpl; try apply step_unchanged.
  - match goal with H : select_unplayed _ _ = Some _ |- _ =>
      apply select_unplayed_some in H; destruct H as (j & row & Hj & -> & _)
    end.
    apply nth_error_In, unplayed_active_In in Hj. destruct Hj as (Hin & _ & Hact).
    apply selected_row_step; assumption.
  - match goal with H : select_least_recent _ _ = Some _ |- _ =>
      apply select_least_recent_some in H; destruct H as (j & row & Hj & -> & _)
    end.
    apply nth_error_In, filter_In in Hj. destruct Hj as (Hin & Hact).
    apply selected_row_step; assumption.
Qed.

(** The acquisition of reviews and the cache slot leave [games] alone. *)
Lemma daily_game_games (E : env) (todayStr : string) (w : world) :
  games (snd (daily_game E todayStr w))
  = games (snd (select_daily_game E todayStr w)).
Proof.
  rewrite daily_game_unfold.
  destruct (select_daily_game E todayStr w) as [[[g|]|m] w']; try reflexivity.
  destruct (fetchReviews_returns E g w') as [r ->]. simpl.
  rewrite games_record_all. reflexivity.
Qed.

Lemma daily_game_cached_games (E : env) (todayStr : string) (w : world) :
  games (snd (daily_game_cached E todayStr w)) = games w \/
  games (snd (daily_game_cached E todayStr w))
  = games (snd (select_daily_game E todayStr w)).
Proof.
  destruct (cache_lookup todayStr (dailyGameCache w)) as [c|] eqn:Hc.
  - left. rewrite (daily_game_cached_hit _ _ _ _ Hc). reflexivity.
  - right. rewrite (daily_game_cached_miss _ _ _ Hc).
    destruct (select_daily_game E todayStr w) as [[[g|]|m] w']; try reflexivity.
    destruct (getAndScrape_returns E g w') as [full ->]. simpl.
    rewrite games_record_all. reflexivity.
Qed.

Lemma daily_game_step (E : env) (todayStr : string) (w : world) :
  NoDup (map id (games w)) ->
  catalog_step todayStr (games w) (games (snd (daily_game E todayStr w))).
Proof.
  intros Hnd. rewrite daily_game_games.
  eapply selector_catalog_step; [exact Hnd|apply select_daily_game_path].
Qed.

Lemma daily_game_cached_step (E : env) (todayStr : string) (w : world) :
  NoDup (map id (games w)) ->
  catalog_step todayStr (games w) (games (snd (daily_game_cached E todayStr w))).
Proof.
  intros Hnd. destruct (daily_game_cached_games E todayStr w) as [-> | ->].
  - apply step_unchanged.
  - eapply selector_catalog_step; [exact Hnd|apply select_daily_game_path].
Qed.

Lemma marked_today_preselects (todayStr : string) (gs : list game_row) :
  marked_today todayStr gs ->
  exists s, select_played_today todayStr gs = Some s.
Proof.
  intros (g & Hin & Hact & Hd).
  destruct (select_played_today todayStr gs) as [s|] eqn:Hs; [eauto|].
  exfalso. exact (proj1 (select_played_today_none _ _) Hs g Hin Hact Hd).
Qed.

Lemma selector_when_marked (E : env) (todayStr : string) (w : world) :
  marked_today todayStr (games w) ->
  exists o,
    select_daily_game E todayStr w
    = (o, record (EvSelectPlayedToday todayStr) w) /\
    forall s, o = Ret s ->
      exists g, s = Some (project g) /\ In g (games w) /\
                is_active g = true /\ last_played_on g = Some todayStr.
Proof.
  intros Hm. destruct (marked_today_preselects _ _ Hm) as [s Hs].
  run. destruct (db_err E (now w)) as [m|]; simpl.
  - eexists. split; [reflexivity|]. discriminate.
  - rewrite Hs. simpl. eexists. split; [reflexivity|].
    intros s' Hs'. injection Hs' as <-.
    apply select_played_today_some in Hs.
    destruct Hs as (g & Hin & Hact & Hd & ->). eauto.
Qed.

Lemma new_events_app (w w' : world) (es : list event) :
  log w' = (es ++ log w)%list -> new_events w w' = es.
Proof.
  intros H. unfold new_events. rewrite H, length_app.
  replace (List.length es + List.length (log w) - List.length (log w))
    with (List.length es + 0) by lia.
  rewrite firstn_app_2. simpl. apply app_nil_r.
Qed.

Lemma no_mark_among_fetches (urls : list string) :
  existsb is_mark_event (rev (map EvHttpGet urls)) = false.
Proof.
  induction urls as [|u t IH]; simpl; [reflexivity|].
  rewrite existsb_app, IH. reflexivity.
Qed.

Lemma fetchReviews_body (E : env) (game : selection) (w : world) (r : response) :
  fst (fetchReviewsForGameAndRespond E game w) = Ret r -> status r = 200 ->
  exists reviews,
    body r = JGame (GameData (sel_title game) (sel_steam_app_id game) reviews).
Proof.
  intros Hr Hs.
  destruct (db_err E (now w)) as [m|] eqn:Herr;
    [|destruct (db_null_rows E (now w)) eqn:Hnull].
  - destruct (fetchReviews_failed E game w) as [msg Hf]; [left; congruence|].
    rewrite Hf in Hr. injection Hr as <-. discriminate Hs.
  - destruct (fetchReviews_failed E game w) as [msg Hf]; [right; exact Hnull|].
    rewrite Hf in Hr. injection Hr as <-. discriminate Hs.
  - rewrite (fetchReviews_ok E game w Herr Hnull) in Hr. injection Hr as <-.
    eexists; reflexivity.
Qed.

Lemma daily_game_idle (E : env) (todayStr : string) (w : world) :
  marked_today todayStr (games w) ->
  games (snd (daily_game E todayStr w)) = games w /\
  existsb is_mark_event (new_events w (snd (daily_game E todayStr w))) = false /\
  forall r, fst (daily_game E todayStr w) = Ret r -> status r = 200 ->
    exists g reviews,
      In g (games w) /\ is_active g = true /\
      last_played_on g = Some todayStr /\
      body r = JGame (GameData (title g) (steam_app_id g) reviews).
Proof.
  intros Hm. destruct (selector_when_marked E _ _ Hm) as (o & Hsel & Ho).
  rewrite daily_game_unfold, Hsel.
  destruct o as [[s|]|m].
  - destruct (Ho _ eq_refl) as (g & Hs & Hin & Hact & Hd).
    injection Hs as ->.
    destruct (fetchReviews_returns E (project g)
                (record (EvSelectPlayedToday todayStr) w)) as [r Hr].
    split; [|split].
    + rewrite Hr. simpl. rewrite games_record_all. reflexivity.
    + rewrite Hr. simpl snd.
      erewrite new_events_app.
      2:{ rewrite log_record_all. simpl.
          instantiate (1 := (rev (map EvHttpGet _)
                               ++ [EvSelectReviewUrls (id g);
                                   EvSelectPlayedToday todayStr])%list).
          rewrite <- app_assoc. reflexivity. }
      rewrite existsb_app, no_mark_among_fetches. reflexivity.
    + intros r' Hr' Hstatus.
      destruct (fetchReviews_body _ _ _ _ Hr' Hstatus) as [reviews Hb].
      exists g, reviews. auto.
  - simpl. split; [reflexivity|]. split.
    + rewrite (new_events_app w _ [EvSelectPlayedToday todayStr]); reflexivity.
    + intros r Hr Hs. injection Hr as <-. discriminate Hs.
  - simpl. split; [reflexivity|]. split.
    + rewrite (new_events_app w _ [EvSelectPlayedToday todayStr]); reflexivity.
    + intros r Hr Hs. injection Hr as <-. discriminate Hs.
Qed.

Lemma respond_with_body (full : gameData) :
  status (respond_with full) = 200 -> body (respond_with full) = JGame full.
Proof.
  unfold respond_with. destruct (gameData_error full); simpl;
    [discriminate|reflexivity].
Qed.

Lemma getAndScrape_title (E : env) (game : selection) (w : world)
  (full : gameData) :
  fst (getAndScrapeReviewDataForGame E game w) = Ret full ->
  gameData_error full = false ->
  exists reviews,
    full = GameData (sel_title game) (sel_steam_app_id game) reviews.
Proof.
  intros Hr He.
  destruct (db_err E (now w)) as [m|] eqn:Herr;
    [|destruct (db_null_rows E (now w)) eqn:Hnull].
  - rewrite (getAndScrape_failed E game w) in Hr by (left; congruence).
    injection Hr as <-. discriminate He.
  - rewrite (getAndScrape_failed E game w) in Hr by (right; exact Hnull).
    injection Hr as <-. discriminate He.
  - rewrite (getAndScrape_ok E game w Herr Hnull) in Hr. injection Hr as <-.
    eexists; reflexivity.
Qed.

Lemma daily_game_cached_idle (E : env) (todayStr : string) (w : world) :
  marked_today todayStr (games w) ->
  games (snd (daily_game_cached E todayStr w)) = games w /\
  existsb is_mark_event (new_events w (snd (daily_game_cached E todayStr w)))
  = false /\
  (cache_lookup todayStr (dailyGameCache w) = None ->
   forall r, fst (daily_game_cached E todayStr w) = Ret r -> status r = 200 ->
     exists g reviews,
       In g (games w) /\ is_active g = true /\
       last_played_on g = Some todayStr /\
       body r = JGame (GameData (title g) (steam_app_id g) reviews)).
Proof.
  intros Hm.
  destruct (cache_lookup todayStr (dailyGameCache w)) as [c|] eqn:Hc.
  { rewrite (daily_game_cached_hit _ _ _ _ Hc). simpl.
    split; [reflexivity|]. split; [|discriminate].
    unfold new_events. rewrite Nat.sub_diag. reflexivity. }
  destruct (selector_when_marked E _ _ Hm) as (o & Hsel & Ho).
  rewrite (daily_game_cached_miss _ _ _ Hc), Hsel.
  destruct o as [[s|]|m].
  - destruct (Ho _ eq_refl) as (g & Hs & Hin & Hact & Hd).
    injection Hs as ->.
    destruct (getAndScrape_returns E (project g)
                (record (EvSelectPlayedToday todayStr) w)) as [full Hfull].
    rewrite Hfull.
    split; [|split].
    + simpl. rewrite games_record_all. reflexivity.
    + simpl snd.
      erewrite new_events_app.
      2:{ unfold with_cache. simpl. rewrite log_record_all. simpl.
          instantiate (1 := (rev (map EvHttpGet _)
                               ++ [EvSelectReviewUrls (id g);
                                   EvSelectPlayedToday todayStr])%list).
          rewrite <- app_assoc. reflexivity. }
      rewrite existsb_app, no_mark_among_fetches. reflexivity.
    + intros _ r Hr Hstatus. simpl in Hr. injection Hr as <-.
      assert (He : gameData_error full = false).
      { unfold respond_with in Hstatus.
        destruct (gameData_error full); [discriminate|reflexivity]. }
      destruct (getAndScrape_title E (project g)
                  (record (EvSelectPlayedToday todayStr) w) full) as [reviews ->];
        [rewrite Hfull; reflexivity|exact He|].
      exists g, reviews. auto.
  - simpl. split; [reflexivity|]. split.
    + rewrite (new_events_app w _ [EvSelectPlayedToday todayStr]); reflexivity.
    + intros _ r Hr Hs. injection Hr as <-. discriminate Hs.
  - simpl. split; [reflexivity|]. split.
    + rewrite (new_events_app w _ [EvSelectPlayedToday todayStr]); reflexivity.
    + intros _ r Hr Hs. injection Hr as <-. discriminate Hs.
Qed.

(** Requests of one day, for any handler that writes at most one row and
    none once a row is marked. *)
Section SameDay.

Variable todayStr : string.
Variable h : M response.

Hypothesis h_step : forall w,
  NoDup (map id (games w)) ->
  catalog_step todayStr (games w) (games (snd (h w))).
Hypothesis h_idle : forall w,
  marked_today todayStr (games w) -> games (snd (h w)) = games w.

Lemma repeat_request_idle (n : nat) (w : world) :
  marked_today todayStr (games w) ->
  games (repeat_request h n w) = games w.
Proof.
  revert w. induction n as [|n IH]; intros w Hm; simpl; [reflexivity|].
  rewrite IH; [apply h_idle, Hm|]. rewrite (h_idle w Hm). exact Hm.
Qed.

Lemma repeat_request_step (n : nat) (w : world) :
  NoDup (map id (games w)) ->
  catalog_step todayStr (games w) (games (repeat_request h n w)).
Proof.
  revert w. induction n as [|n IH]; intros w Hnd; simpl;
    [apply step_unchanged|].
  pose proof (h_step w Hnd) as Hstep.
  inversion Hstep as [Hsame | l1 g l2 Hgs Hact Hnew].
  - assert (Hnd' : NoDup (map id (games (snd (h w))))) by (rewrite <- Hsame; exact Hnd).
    pose proof (IH _ Hnd') as Hrest. rewrite <- Hsame in Hrest. exact Hrest.
  - rewrite repeat_request_idle.
    + rewrite <- Hnew. apply step_one_marked with (g := g); assumption.
    + rewrite <- Hnew. exists (set_last_played todayStr g).
      split; [apply in_elt|]. split; [exact Hact|reflexivity].
Qed.

End SameDay.

(** ** Rotation *)

(** The keys that make [RANDOM()] least on row [j]. *)
Lemma favoured_least (j j' : nat) :
  ((if (j' =? j)%nat then 0 else 1) <= 0)%Z -> j' = j.
Proof. destruct (Nat.eqb_spec j' j); [auto|lia]. Qed.

Lemma every_oldest_can_be_drawn (gs : list game_row) (j : nat) (g : game_row) :
  nth_error (filter is_active gs) j = Some g ->
  (forall g', In g' (filter is_active gs) ->
              date_leb (last_played_on g) (last_played_on g') = true) ->
  select_least_recent (fun i => if (i =? j)%nat then 0%Z else 1%Z) gs
  = Some (project g).
Proof.
  intros Hj Hold.
  destruct (select_least_recent _ gs) as [s|] eqn:Hs.
  - apply select_least_recent_some in Hs.
    destruct Hs as (j0 & g0 & Hj0 & -> & Hleast).
    destruct (Hleast j g Hj) as [Hle Hkey].
    assert (Heq : last_played_on g0 = last_played_on g).
    { apply date_leb_antisym; [exact Hle|].
      apply Hold. eapply nth_error_In. exact Hj0. }
    specialize (Hkey Heq). rewrite Nat.eqb_refl in Hkey.
    apply favoured_least in Hkey. subst j0. congruence.
  - apply select_least_recent_none in Hs. rewrite Hs in Hj.
    destruct j; discriminate.
Qed.

Lemma every_unplayed_can_be_drawn (gs : list game_row) (j : nat) (g : game_row) :
  nth_error (unplayed_active gs) j = Some g ->
  select_unplayed (fun i => if (i =? j)%nat then 0%Z else 1%Z) gs
  = Some (project g).
Proof.
  intros Hj.
  destruct (select_unplayed _ gs) as [s|] eqn:Hs.
  - apply select_unplayed_some in Hs.
    destruct Hs as (j0 & g0 & Hj0 & -> & Hleast).
    specialize (Hleast j g Hj). rewrite Nat.eqb_refl in Hleast.
    apply favoured_least in Hleast. subst j0. congruence.
  - apply select_unplayed_none in Hs. rewrite Hs in Hj.
    destruct j; discriminate.
Qed.

Lemma all_played_no_unplayed (gs : list game_row) :
  (forall g, In g gs -> is_active g = true -> last_played_on g <> None) ->
  unplayed_active gs = [].
Proof.
  intros H. destruct (unplayed_active gs) as [|g t] eqn:Hu; [reflexivity|].
  assert (Hin : In g (unplayed_active gs)) by (rewrite Hu; left; reflexivity).
  apply unplayed_active_In in Hin. destruct Hin as (Hin & Hnone & Hact).
  exfalso. exact (H g Hin Hact Hnone).
Qed.

Lemma unplayed_active_app (l1 l2 : list game_row) :
  unplayed_active (l1 ++ l2) = (unplayed_active l1 ++ unplayed_active l2)%list.
Proof. apply filter_app. Qed.

Lemma selector_draws_unplayed (E : env) (todayStr : string) (w : world) :
  db_err E (now w) = None -> db_err E (1 + now w) = None ->
  db_err E (2 + now w) = None ->
  select_played_today todayStr (games w) = None ->
  unplayed_active (games w) <> [] ->
  exists j g,
    nth_error (unplayed_active (games w)) j = Some g /\
    select_daily_game E todayStr w
    = (Ret (Some (project g)),
       marked todayStr (project g)
         (record EvSelectUnplayed (record (EvSelectPlayedToday todayStr) w))) /\
    forall j' g', nth_error (unplayed_active (games w)) j' = Some g' ->
      (sql_random E (1 + now w) j <= sql_random E (1 + now w) j')%Z.
Proof.
  intros HA HB HD Hpre Hne.
  destruct (select_unplayed (sql_random E (1 + now w)) (games w)) as [s|] eqn:Hun.
  - pose proof Hun as Hun'. apply select_unplayed_some in Hun'.
    destruct Hun' as (j & g & Hj & -> & Hleast).
    exists j, g. split; [exact Hj|]. split; [|exact Hleast].
    run. unfold now in *. simpl in *.
    rewrite HA; simpl. rewrite Hpre; simpl. rewrite HB; simpl.
    rewrite Hun; simpl. rewrite HD; simpl. reflexivity.
  - apply select_unplayed_none in Hun. contradiction.
Qed.

(** One request a day, for any handler that on a day without a marked row
    serves a never-played active row and marks it. *)
Section Rotation.

Variable h : string -> M response.
Variable fresh_for : string -> world -> Prop.

Hypothesis h_serves : forall d w,
  fresh_for d w ->
  NoDup (map id (games w)) ->
  select_played_today d (games w) = None ->
  unplayed_active (games w) <> [] ->
  exists l1 g l2,
    games w = (l1 ++ g :: l2)%list /\
    last_played_on g = None /\ is_active g = true /\
    served_game (fst (h d w)) = card g /\
    games (snd (h d w)) = (l1 ++ set_last_played d g :: l2)%list /\
    forall d', d' <> d -> fresh_for d' (snd (h d w)).

Lemma rotation_serves_the_unplayed (days : list string) :
  forall w,
    NoDup days ->
    NoDup (map id (games w)) ->
    rotating days (games w) ->
    List.length days = List.length (unplayed_active (games w)) ->
    (forall d, In d days -> fresh_for d w) ->
    Permutation (map served_game (fst (serve_days h days w)))
      (map card (unplayed_active (games w))).
Proof.
  induction days as [|d rest IH]; intros w Hdays Hids Hrot Hlen Hfresh.
  - simpl in *. destruct (unplayed_active (games w)); [|discriminate].
    apply perm_nil.
  - assert (Hpre : select_played_today d (games w) = None).
    { apply select_played_today_none. intros g Hin Hact Hd.
      destruct (Hrot g Hin Hact) as [Hn|(d' & Hd' & Hnot)]; [congruence|].
      apply Hnot. left. congruence. }
    assert (Hne : unplayed_active (games w) <> []).
    { intros Hnil. rewrite Hnil in Hlen. discriminate. }
    destruct (h_serves d w (Hfresh d (or_introl eq_refl)) Hids Hpre Hne)
      as (l1 & g & l2 & Hgs & Hnone & Hact & Hserved & Hnew & Hnext).
    simpl. destruct (h d w) as [r w1] eqn:Hh. simpl in *.
    destruct (serve_days h rest w1) as [rs w2] eqn:Hrest. simpl.
    assert (Hua : unplayed_active (games w)
                  = (unplayed_active l1 ++ g :: unplayed_active l2)%list).
    { rewrite Hgs, unplayed_active_app. simpl.
      unfold never_played. rewrite Hnone, Hact. reflexivity. }
    assert (Hua1 : unplayed_active (games w1)
                   = (unplayed_active l1 ++ unplayed_active l2)%list).
    { rewrite Hnew, unplayed_active_app. reflexivity. }
    inversion Hdays as [|? ? Hd_notin Hrest_nodup]; subst.
    assert (IHw1 : Permutation (map served_game (fst (serve_days h rest w1)))
                     (map card (unplayed_active (games w1)))).
    { apply IH.
      - exact Hrest_nodup.
      - rewrite Hnew. rewrite Hgs in Hids. rewrite map_app in *. exact Hids.
      - intros g' Hin' Hact'. rewrite Hnew in Hin'.
        apply in_app_or in Hin'. destruct Hin' as [Hin'|[<-|Hin']].
        + destruct (Hrot g') as [Hn|(d' & Hd' & Hnot)];
            [rewrite Hgs; apply in_or_app; left; exact Hin'|exact Hact'|auto|].
          right. exists d'. split; [exact Hd'|].
          intros Hc. apply Hnot. right. exact Hc.
        + right. exists d. split; [reflexivity|exact Hd_notin].
        + destruct (Hrot g') as [Hn|(d' & Hd' & Hnot)];
            [rewrite Hgs; apply in_or_app; right; right; exact Hin'
            |exact Hact'|auto|].
          right. exists d'. split; [exact Hd'|].
          intros Hc. apply Hnot. right. exact Hc.
      - rewrite Hua1. rewrite Hua, !length_app in Hlen. simpl in Hlen.
        rewrite length_app. lia.
      - intros d' Hd'. apply Hnext. intros ->. contradiction. }
    rewrite Hrest in IHw1. simpl in IHw1.
    rewrite Hserved, Hua, map_app. simpl.
    apply Permutation_cons_app. rewrite <- map_app, <- Hua1. exact IHw1.
Qed.

End Rotation.

Lemma all_unplayed_is_all_active (gs : list game_row) :
  (forall g, In g gs -> is_active g = true -> last_played_on g = None) ->
  unplayed_active gs = filter is_active gs.
Proof.
  intros H. unfold unplayed_active. apply filter_ext_in.
  intros g Hin. destruct (is_active g) eqn:Hact;
    [|apply andb_false_r].
  unfold never_played. rewrite (H g Hin Hact). reflexivity.
Qed.

Section HealthyStore.

Variable E : env.
Hypothesis store_answers : forall t, db_err E t = None.
Hypothesis rows_answer : forall t, db_null_rows E t = false.

Lemma healthy_selection (d : string) (w : world) :
  NoDup (map id (games w)) ->
  select_played_today d (games w) = None ->
  unplayed_active (games w) <> [] ->
  exists l1 g l2 w',
    games w = (l1 ++ g :: l2)%list /\
    last_played_on g = None /\ is_active g = true /\
    select_daily_game E d w = (Ret (Some (project g)), w') /\
    games w' = (l1 ++ set_last_played d g :: l2)%list /\
    dailyGameCache w' = dailyGameCache w.
Proof.
  intros Hids Hpre Hne.
  destruct (selector_draws_unplayed E d w (store_answers _) (store_answers _)
              (store_answers _) Hpre Hne) as (j & g & Hj & Hsel & _).
  apply nth_error_In in Hj. apply unplayed_active_In in Hj.
  destruct Hj as (Hin & Hnone & Hact).
  apply in_split in Hin. destruct Hin as (l1 & l2 & Hgs).
  exists l1, g, l2. eexists. split; [exact Hgs|].
  split; [exact Hnone|]. split; [exact Hact|]. split; [exact Hsel|].
  simpl. rewrite Hgs. split; [|reflexivity].
  apply mark_played_split. rewrite <- Hgs. exact Hids.
Qed.

Lemma daily_game_serves (d : string) (w : world) :
  True ->
  NoDup (map id (games w)) ->
  select_played_today d (games w) = None ->
  unplayed_active (games w) <> [] ->
  exists l1 g l2,
    games w = (l1 ++ g :: l2)%list /\
    last_played_on g = None /\ is_active g = true /\
    served_game (fst (daily_game E d w)) = card g /\
    games (snd (daily_game E d w)) = (l1 ++ set_last_played d g :: l2)%list /\
    forall d', d' <> d -> True.
Proof.
  intros _ Hids Hpre Hne.
  destruct (healthy_selection d w Hids Hpre Hne)
    as (l1 & g & l2 & w' & Hgs & Hnone & Hact & Hsel & Hnew & _).
  exists l1, g, l2. rewrite daily_game_unfold, Hsel.
  rewrite (fetchReviews_ok E (project g) w' (store_answers _) (rows_answer _)).
  simpl. rewrite games_record_all. simpl. auto 10.
Qed.

Lemma daily_game_cached_serves (d : string) (w : world) :
  cache_lookup d (dailyGameCache w) = None ->
  NoDup (map id (games w)) ->
  select_played_today d (games w) = None ->
  unplayed_active (games w) <> [] ->
  exists l1 g l2,
    games w = (l1 ++ g :: l2)%list /\
    last_played_on g = None /\ is_active g = true /\
    served_game (fst (daily_game_cached E d w)) = card g /\
    games (snd (daily_game_cached E d w))
    = (l1 ++ set_last_played d g :: l2)%list /\
    forall d', d' <> d ->
      cache_lookup d' (dailyGameCache (snd (daily_game_cached E d w))) = None.
Proof.
  intros Hmiss Hids Hpre Hne.
  destruct (healthy_selection d w Hids Hpre Hne)
    as (l1 & g & l2 & w' & Hgs & Hnone & Hact & Hsel & Hnew & _).
  exists l1, g, l2. rewrite (daily_game_cached_miss _ _ _ Hmiss), Hsel.
  rewrite (getAndScrape_ok E (project g) w' (store_answers _) (rows_answer _)).
  simpl. rewrite games_record_all. simpl.
  split; [exact Hgs|]. split; [exact Hnone|]. split; [exact Hact|].
  split; [reflexivity|]. split; [exact Hnew|].
  intros d' Hne'. unfold cache_lookup. simpl.
  destruct (String.eqb_spec d d'); [congruence|reflexivity].
Qed.

End HealthyStore.

(** ** The cache slot *)

Lemma getAndScrape_replay (E : env) (game : selection) (w : world)
  (full : gameData) :
  fst (getAndScrapeReviewDataForGame E game w) = Ret full ->
  respond_with full = replay full.
Proof.
  intros Hr.
  destruct (db_err E (now w)) as [m|] eqn:Herr;
    [|destruct (db_null_rows E (now w)) eqn:Hnull].
  - rewrite (getAndScrape_failed E game w) in Hr by (left; congruence).
    injection Hr as <-. reflexivity.
  - rewrite (getAndScrape_failed E game w) in Hr by (right; exact Hnull).
    injection Hr as <-. reflexivity.
  - rewrite (getAndScrape_ok E game w Herr Hnull) in Hr. injection Hr as <-.
    reflexivity.
Qed.

Lemma cache_lookup_stored (todayStr : string) (g : gameData) (w : world) :
  cache_lookup todayStr (dailyGameCache (with_cache todayStr g w)) = Some g.
Proof. unfold cache_lookup. simpl. rewrite String.eqb_refl. reflexivity. Qed.

(** After any request the slot holds today's date and a payload.  The
    answer sent was the replay of that payload, except when the selector
    found no game or rejected: then the stored error object itself was
    sent. *)
Lemma cache_filled_by_first_call (E : env) (todayStr : string) (w : world) :
  exists g,
    cache_lookup todayStr
      (dailyGameCache (snd (daily_game_cached E todayStr w))) = Some g /\
    (fst (daily_game_cached E todayStr w) = Ret (replay g) \/
     (cache_lookup todayStr (dailyGameCache w) = None /\
      (forall s w', select_daily_game E todayStr w <> (Ret (Some s), w')) /\
      exists m, g = ErrorData m /\
                fst (daily_game_cached E todayStr w)
                = Ret {| status := 500; body := JGame (ErrorData m) |})).
Proof.
  destruct (cache_lookup todayStr (dailyGameCache w)) as [c|] eqn:Hc.
  { exists c. rewrite (daily_game_cached_hit _ _ _ _ Hc). simpl.
    split; [exact Hc|left; reflexivity]. }
  rewrite (daily_game_cached_miss _ _ _ Hc).
  destruct (select_daily_game E todayStr w) as [[[s|]|m] w'] eqn:Hsel.
  - destruct (getAndScrape_returns E s w') as [full Hfull]. rewrite Hfull.
    exists full. cbn [fst snd]. split; [apply cache_lookup_stored|].
    left. f_equal. apply (getAndScrape_replay E s w').
    rewrite Hfull. reflexivity.
  - eexists. cbn [fst snd]. split; [apply cache_lookup_stored|].
    right. split; [reflexivity|]. split; [congruence|].
    eexists. split; reflexivity.
  - eexists. cbn [fst snd]. split; [apply cache_lookup_stored|].
    right. split; [reflexivity|]. split; [congruence|].
    eexists. split; reflexivity.
Qed.

(** The second request of a day is answered from the slot: it touches
    neither the store nor the network nor the state, carries the status of
    the first answer, and carries its body too whenever the first request
    was itself a cache hit or got a game from the selector. *)
Lemma second_call_is_served_from_cache (E : env) (todayStr : string)
  (w : world) :
  let first := daily_game_cached E todayStr w in
  let second := daily_game_cached E todayStr (snd first) in
  snd second = snd first /\
  (exists r1 r2, fst first = Ret r1 /\ fst second = Ret r2 /\
                 status r1 = status r2) /\
  (cache_lookup todayStr (dailyGameCache w) <> None \/
   (exists s w', select_daily_game E todayStr w = (Ret (Some s), w')) ->
   fst second = fst first).
Proof.
  cbv zeta.
  destruct (cache_filled_by_first_call E todayStr w) as (g & Hlook & Hsent).
  rewrite (daily_game_cached_hit _ _ _ _ Hlook). fold (replay g). simpl.
  split; [reflexivity|]. split.
  - destruct Hsent as [-> | (_ & _ & m & -> & ->)].
    + eexists _, _. repeat split.
    + eexists _, _. repeat split.
  - intros Hgood.
    destruct Hsent as [-> | (Hmiss & Hnone & _)]; [reflexivity|].
    destruct Hgood as [Hhit|(s & w' & Hs)]; [congruence|].
    exfalso. exact (Hnone _ _ Hs).
Qed.

Lemma active_entry_is_selected (E : env) (todayStr : string) (w : world) :
  (exists g, In g (games w) /\ is_active g = true) ->
  db_err E (now w) = None -> db_err E (1 + now w) = None ->
  db_err E (2 + now w) = None -> db_err E (3 + now w) = None ->
  exists s w', select_daily_game E todayStr w = (Ret (Some s), w').
Proof.
  intros (g & Hin & Hact) HA HB HC HD.
  destruct (select_daily_game E todayStr w) as [o w'] eqn:Hsel.
  pose proof (select_daily_game_inv _ _ _ _ _ Hsel) as Hpath.
  destruct Hpath; try congruence; eauto.
  exfalso.
  match goal with H : select_least_recent _ _ = None |- _ =>
    apply select_least_recent_none in H;
    assert (Hg : In g (filter is_active (games w))) by (apply filter_In; auto);
    rewrite H in Hg; exact Hg
  end.
Qed.

(** With an active entry in the catalog and a store that answers the
    selector, two requests on one day get the same answer, and the second
    one is served from the slot alone. *)
Lemma same_day_requests_agree (E : env) (todayStr : string) (w : world) :
  (exists g, In g (games w) /\ is_active g = true) ->
  db_err E (now w) = None -> db_err E (1 + now w) = None ->
  db_err E (2 + now w) = None -> db_err E (3 + now w) = None ->
  let first := daily_game_cached E todayStr w in
  let second := daily_game_cached E todayStr (snd first) in
  fst second = fst first /\ snd second = snd first /\
  new_events (snd first) (snd second) = [].
Proof.
  intros Hact HA HB HC HD. cbv zeta.
  destruct (second_call_is_served_from_cache E todayStr w) as (Hw & _ & Hbody).
  split; [|split; [exact Hw|]].
  - apply Hbody. right.
    apply active_entry_is_selected; assumption.
  - rewrite Hw. unfold new_events. rewrite Nat.sub_diag. reflexivity.
Qed.

(** The revision without cache asks the store on every request. *)
Lemma selector_path_logs (E : env) (todayStr : string) (w w' : world)
  (o : outcome (option selection)) :
  selector_path E todayStr w o w' -> now w < now w'.
Proof. intros H. destruct H; unfold now; simpl; lia. Qed.

Lemma daily_game_always_queries (E : env) (todayStr : string) (w : world) :
  now w < now (snd (daily_game E todayStr w)).
Proof.
  rewrite daily_game_unfold.
  pose proof (selector_path_logs E todayStr w _ _
                (select_daily_game_path E todayStr w)) as Hlog.
  destruct (select_daily_game E todayStr w) as [[[g|]|m] w']; simpl in *;
    try exact Hlog.
  destruct (fetchReviews_returns E g w') as [r ->]. simpl.
  unfold now in *. rewrite log_record_all, length_app. simpl. lia.
Qed.

(* ------------------------------------------------------------------ *)
(** * Counting rankings *)

Local Close Scope string_scope.

Section Counting.

Context {T : Type}.
Variable O : list T.
Hypothesis O_nodup : NoDup O.

Lemma involution_permutes (f : T -> T) :
  (forall x, In x O -> In (f x) O) ->
  (forall x, In x O -> f (f x) = x) ->
  Permutation (map f O) O.
Proof.
  intros Hclosed Hinv. apply NoDup_Permutation.
  - apply Finite.Injective_map_NoDup_in; [|exact O_nodup].
    intros x y Hx Hy Hxy.
    rewrite <- (Hinv x Hx), <- (Hinv y Hy), Hxy. reflexivity.
  - exact O_nodup.
  - intros x. rewrite in_map_iff. split.
    + intros (y & <- & Hy). apply Hclosed, Hy.
    + intros Hx. exists (f x). split; [apply Hinv, Hx|apply Hclosed, Hx].
Qed.

Lemma filter_length_perm (Q : T -> bool) (l1 l2 : list T) :
  Permutation l1 l2 -> List.length (filter Q l1) = List.length (filter Q l2).
Proof.
  induction 1; simpl; try congruence.
  - destruct (Q x); simpl; congruence.
  - destruct (Q x), (Q y); simpl; reflexivity.
Qed.

Lemma filter_map_length (f : T -> T) (Q : T -> bool) (l : list T) :
  List.length (filter Q (map f l)) = List.length (filter (fun x => Q (f x)) l).
Proof.
  induction l as [|x t IH]; simpl; [reflexivity|].
  destruct (Q (f x)); simpl; congruence.
Qed.

(** Two predicates that an involution of the sample space exchanges hold
    on equally many samples. *)
Lemma equal_shares (Q Q' : T -> bool) (f : T -> T) :
  (forall x, In x O -> In (f x) O) ->
  (forall x, In x O -> f (f x) = x) ->
  (forall x, In x O -> Q' (f x) = Q x) ->
  List.length (filter Q O) = List.length (filter Q' O).
Proof.
  intros Hclosed Hinv Hsym.
  rewrite <- (filter_length_perm Q' _ _ (involution_permutes f Hclosed Hinv)).
  rewrite filter_map_length.
  f_equal. apply filter_ext_in. intros x Hx. symmetry. apply Hsym, Hx.
Qed.

End Counting.

Section Shares.

Context {T K : Type}.
Variable P : K -> T -> bool.

Lemma no_hit (C : list K) (x : T) :
  (forall c, In c C -> P c x = false) ->
  list_sum (map (fun c => if P c x then 1 else 0) C) = 0.
Proof.
  induction C as [|k t IH]; intros H; simpl; [reflexivity|].
  rewrite (H k (or_introl eq_refl)). apply IH.
  intros c Hc. apply H. right. exact Hc.
Qed.

Lemma one_hit (C : list K) (x : T) (c : K) :
  NoDup C -> In c C -> P c x = true ->
  (forall c', In c' C -> P c' x = true -> c' = c) ->
  list_sum (map (fun c' => if P c' x then 1 else 0) C) = 1.
Proof.
  induction C as [|k t IH]; intros Hnd Hin Hc Huniq; [contradiction|].
  inversion Hnd as [|? ? Hnotin Hnd']; subst. simpl.
  destruct Hin as [->|Hin].
  - rewrite Hc, no_hit; [reflexivity|].
    intros c' Hc'. destruct (P c' x) eqn:Hp; [|reflexivity].
    exfalso. apply Hnotin.
    rewrite <- (Huniq c' (or_intror Hc') Hp). exact Hc'.
  - destruct (P k x) eqn:Hk.
    + exfalso. apply Hnotin. rewrite (Huniq k (or_introl eq_refl) Hk). exact Hin.
    + apply IH; auto. intros c' Hc'. apply Huniq. right. exact Hc'.
Qed.

Lemma shares_add_up (C : list K) (O : list T) :
  NoDup C ->
  (forall x, In x O ->
     exists c, In c C /\ P c x = true /\
               forall c', In c' C -> P c' x = true -> c' = c) ->
  list_sum (map (fun c => List.length (filter (P c) O)) C) = List.length O.
Proof.
  intros Hnd. induction O as [|x t IH]; intros Hone.
  - clear Hnd Hone. induction C as [|k l IHl]; simpl; [reflexivity|exact IHl].
  - assert (Hsplit : forall l : list K,
               list_sum (map (fun c => List.length (filter (P c) (x :: t))) l)
               = list_sum (map (fun c => if P c x then 1 else 0) l)
                 + list_sum (map (fun c => List.length (filter (P c) t)) l)).
    { assert (Hcons : forall (a : nat) (q : list nat),
                 list_sum (a :: q) = a + list_sum q) by reflexivity.
      induction l as [|k l IHl]; [reflexivity|].
      rewrite !map_cons, !Hcons, IHl. cbn [filter].
      destruct (P k x); simpl; lia. }
    rewrite Hsplit, IH by (intros y Hy; apply Hone; right; exact Hy).
    destruct (Hone x (or_introl eq_refl)) as (c & Hc & Hp & Huniq).
    rewrite (one_hit C x c Hnd Hc Hp Huniq). reflexivity.
Qed.

Lemma constant_sum (C : list K) (f : K -> nat) (n : nat) :
  (forall c, In c C -> f c = n) -> list_sum (map f C) = List.length C * n.
Proof.
  induction C as [|k t IH]; intros H; simpl; [reflexivity|].
  rewrite (H k (or_introl eq_refl)), IH; [reflexivity|].
  intros c Hc. apply H. right. exact Hc.
Qed.

End Shares.

(** Candidates that are drawn by exactly one sample each and that an
    involution of the sample space exchanges have equal shares of it. *)
Lemma fair_shares {T K : Type} (P : K -> T -> bool) (C : list K) (O : list T) :
  NoDup C -> NoDup O ->
  (forall x, In x O ->
     exists c, In c C /\ P c x = true /\
               forall c', In c' C -> P c' x = true -> c' = c) ->
  (forall c c', In c C -> In c' C ->
     exists f : T -> T,
       (forall x, In x O -> In (f x) O) /\
       (forall x, In x O -> f (f x) = x) /\
       (forall x, In x O -> P c' (f x) = P c x)) ->
  forall c, In c C -> List.length C * List.length (filter (P c) O) = List.length O.
Proof.
  intros HC HO Hone Hsym c Hc.
  rewrite <- (shares_add_up P C O HC Hone).
  symmetry. apply constant_sum.
  intros c' Hc'. destruct (Hsym c' c Hc' Hc) as (f & Hclosed & Hinv & Hf).
  apply (equal_shares O HO (P c') (P c) f Hclosed Hinv Hf).
Qed.

(** ** Rankings *)

Lemma inserts_In (x : nat) (p q : list nat) :
  In q (inserts x p) <-> exists p1 p2, p = p1 ++ p2 /\ q = p1 ++ x :: p2.
Proof.
  revert q. induction p as [|y t IH]; intros q; simpl.
  - split.
    + intros [<-|[]]. exists [], []. auto.
    + intros (p1 & p2 & Hp & ->). left.
      destruct p1; [|discriminate]. destruct p2; [|discriminate]. reflexivity.
  - split.
    + intros [<-|Hq].
      * exists [], (y :: t). auto.
      * apply in_map_iff in Hq. destruct Hq as (q' & <- & Hq').
        apply IH in Hq'. destruct Hq' as (p1 & p2 & -> & ->).
        exists (y :: p1), p2. auto.
    + intros (p1 & p2 & Hp & ->). destruct p1 as [|z p1]; simpl in *.
      * left. congruence.
      * injection Hp as -> ->. right. apply in_map, IH. eauto.
Qed.

Lemma inserts_length (x : nat) (p : list nat) :
  List.length (inserts x p) = S (List.length p).
Proof.
  induction p as [|y t IH]; simpl; [reflexivity|].
  rewrite length_map, IH. reflexivity.
Qed.

Lemma rankings_of_In (l p : list nat) :
  In p (rankings_of l) <-> Permutation l p.
Proof.
  revert p. induction l as [|x t IH]; intros p; simpl.
  - split.
    + intros [<-|[]]. apply perm_nil.
    + intros H. apply Permutation_nil in H. left. auto.
  - rewrite in_flat_map. split.
    + intros (q & Hq & Hp). apply IH in Hq. apply inserts_In in Hp.
      destruct Hp as (p1 & p2 & -> & ->).
      apply Permutation_cons_app. exact Hq.
    + intros H.
      assert (Hx : In x p) by (apply (Permutation_in _ H); left; reflexivity).
      apply in_split in Hx. destruct Hx as (p1 & p2 & ->).
      exists (p1 ++ p2). split.
      * apply IH. apply Permutation_cons_app_inv with x. exact H.
      * apply inserts_In. eauto.
Qed.

Lemma remove_inserted (x : nat) (p1 p2 : list nat) :
  ~ In x (p1 ++ p2) -> remove Nat.eq_dec x (p1 ++ x :: p2) = p1 ++ p2.
Proof.
  intros H. rewrite remove_app. simpl.
  destruct (Nat.eq_dec x x) as [_|Hne]; [|contradiction].
  rewrite !notin_remove; [reflexivity| |];
    intros Hin; apply H, in_or_app; auto.
Qed.

Lemma inserts_NoDup (x : nat) (p : list nat) :
  ~ In x p -> NoDup (inserts x p).
Proof.
  induction p as [|y t IH]; intros Hx; simpl.
  - repeat constructor. intros [].
  - constructor.
    + intros Hin. apply in_map_iff in Hin. destruct Hin as (q & Hq & _).
      injection Hq as Hy _. apply Hx. left. exact Hy.
    + apply Finite.Injective_map_NoDup_in.
      * intros a b _ _ Hab. congruence.
      * apply IH. intros Hin. apply Hx. right. exact Hin.
Qed.

Lemma rankings_of_NoDup (l : list nat) : NoDup l -> NoDup (rankings_of l).
Proof.
  induction l as [|x t IH]; intros Hnd; simpl.
  - repeat constructor. intros [].
  - inversion Hnd as [|? ? Hx Hnd']; subst. specialize (IH Hnd').
    assert (Hfresh : forall p, In p (rankings_of t) -> ~ In x p).
    { intros p Hp Hin. apply rankings_of_In in Hp.
      apply Hx. apply (Permutation_in _ (Permutation_sym Hp)). exact Hin. }
    induction (rankings_of t) as [|p ps IHps]; simpl; [constructor|].
    inversion IH as [|? ? Hp Hps]; subst.
    apply NoDup_app.
    + apply inserts_NoDup, Hfresh. left. reflexivity.
    + apply IHps; [exact Hps|]. intros q Hq. apply Hfresh. right. exact Hq.
    + intros q Hq1 Hq2. apply in_flat_map in Hq2.
      destruct Hq2 as (p' & Hp' & Hq2).
      apply inserts_In in Hq1. destruct Hq1 as (a1 & a2 & Ha & Hqa).
      apply inserts_In in Hq2. destruct Hq2 as (b1 & b2 & Hb & Hqb).
      assert (Hpp : p = p').
      { rewrite Ha, Hb.
        rewrite <- (remove_inserted x a1 a2), <- (remove_inserted x b1 b2).
        - congruence.
        - rewrite <- Hb. apply Hfresh. right. exact Hp'.
        - rewrite <- Ha. apply Hfresh. left. reflexivity. }
      apply Hp. rewrite Hpp. exact Hp'.
Qed.

Lemma rankings_of_length (l : list nat) :
  List.length (rankings_of l) = fact (List.length l).
Proof.
  induction l as [|x t IH]; simpl; [reflexivity|].
  assert (Hlen : forall p, In p (rankings_of t) -> List.length p = List.length t).
  { intros p Hp. apply rankings_of_In in Hp. symmetry.
    apply Permutation_length. exact Hp. }
  rewrite <- IH. clear IH.
  induction (rankings_of t) as [|p ps IHps]; simpl; [lia|].
  rewrite length_app, inserts_length, IHps.
  - rewrite (Hlen p (or_introl eq_refl)). lia.
  - intros q Hq. apply Hlen. right. exact Hq.
Qed.

Lemma rankings_In (m : nat) (p : list nat) :
  In p (rankings m) <-> Permutation (seq 0 m) p.
Proof. apply rankings_of_In. Qed.

Lemma rankings_NoDup (m : nat) : NoDup (rankings m).
Proof. apply rankings_of_NoDup, seq_NoDup. Qed.

Lemma rankings_length (m : nat) : List.length (rankings m) = fact m.
Proof. unfold rankings. rewrite rankings_of_length, length_seq. reflexivity. Qed.

(** ** Exchanging two positions of a ranking *)

Lemma tr_involutive (i j k : nat) : tr i j (tr i j k) = k.
Proof.
  unfold tr.
  destruct (Nat.eqb_spec k i) as [->|Hki].
  - destruct (Nat.eqb_spec j i) as [->|Hji]; [reflexivity|].
    rewrite Nat.eqb_refl. reflexivity.
  - destruct (Nat.eqb_spec k j) as [->|Hkj].
    + rewrite Nat.eqb_refl. reflexivity.
    + destruct (Nat.eqb_spec k i); [contradiction|].
      destruct (Nat.eqb_spec k j); [contradiction|reflexivity].
Qed.

Lemma tr_lt (i j k m : nat) : i < m -> j < m -> k < m -> tr i j k < m.
Proof.
  unfold tr. intros. destruct (k =? i); [assumption|].
  destruct (k =? j); assumption.
Qed.

Lemma map_nth_seq (p : list nat) :
  map (fun k => nth k p 0) (seq 0 (List.length p)) = p.
Proof.
  apply nth_ext with (d := 0) (d' := 0).
  - rewrite length_map, length_seq. reflexivity.
  - intros n Hn. rewrite length_map, length_seq in Hn.
    rewrite (nth_indep _ 0 (nth 0 p 0))
      by (rewrite length_map, length_seq; exact Hn).
    rewrite (map_nth (fun k => nth k p 0)), seq_nth by exact Hn.
    reflexivity.
Qed.

Lemma swap_keys_length (i j : nat) (p : list nat) :
  List.length (swap_keys i j p) = List.length p.
Proof. unfold swap_keys. rewrite length_map, length_seq. reflexivity. Qed.

Lemma swap_keys_nth (i j k : nat) (p : list nat) :
  k < List.length p -> nth k (swap_keys i j p) 0 = nth (tr i j k) p 0.
Proof.
  intros Hk. unfold swap_keys.
  rewrite (nth_indep _ 0 (nth (tr i j 0) p 0))
    by (rewrite length_map, length_seq; exact Hk).
  rewrite (map_nth (fun k => nth (tr i j k) p 0)), seq_nth by exact Hk.
  reflexivity.
Qed.

Lemma tr_permutes (i j m : nat) :
  i < m -> j < m -> Permutation (map (tr i j) (seq 0 m)) (seq 0 m).
Proof.
  intros Hi Hj. apply NoDup_Permutation_bis.
  - apply Finite.Injective_map_NoDup_in; [|apply seq_NoDup].
    intros a b _ _ Hab.
    rewrite <- (tr_involutive i j a), <- (tr_involutive i j b), Hab.
    reflexivity.
  - rewrite length_map. apply Nat.le_refl.
  - intros k Hk. apply in_map_iff in Hk. destruct Hk as (k' & <- & Hk').
    apply in_seq in Hk'. apply in_seq. split; [lia|].
    simpl. apply tr_lt; lia.
Qed.

Lemma swap_keys_ranking (i j m : nat) (p : list nat) :
  i < m -> j < m -> In p (rankings m) -> In (swap_keys i j p) (rankings m).
Proof.
  intros Hi Hj Hp. apply rankings_In in Hp. apply rankings_In.
  assert (Hlen : List.length p = m).
  { rewrite <- (Permutation_length Hp), length_seq. reflexivity. }
  apply perm_trans with p; [exact Hp|].
  unfold swap_keys. rewrite Hlen.
  rewrite <- (map_nth_seq p) at 1. rewrite Hlen.
  rewrite <- (map_map (tr i j) (fun k => nth k p 0)).
  apply Permutation_map, Permutation_sym, tr_permutes; assumption.
Qed.

Lemma swap_keys_involutive (i j : nat) (p : list nat) :
  i < List.length p -> j < List.length p -> swap_keys i j (swap_keys i j p) = p.
Proof.
  intros Hi Hj. apply nth_ext with (d := 0) (d' := 0).
  - rewrite !swap_keys_length. reflexivity.
  - intros n Hn. rewrite !swap_keys_length in Hn.
    rewrite swap_keys_nth by (rewrite swap_keys_length; exact Hn).
    rewrite swap_keys_nth by (apply tr_lt; assumption).
    rewrite tr_involutive. reflexivity.
Qed.

Lemma ranking_length (m : nat) (p : list nat) :
  In p (rankings m) -> List.length p = m.
Proof.
  intros Hp. apply rankings_In in Hp.
  rewrite <- (Permutation_length Hp), length_seq. reflexivity.
Qed.

Lemma ranking_injective (m a b : nat) (p : list nat) :
  In p (rankings m) -> a < m -> b < m -> nth a p 0 = nth b p 0 -> a = b.
Proof.
  intros Hp Ha Hb Hab. pose proof (ranking_length m p Hp) as Hlen.
  apply rankings_In in Hp.
  assert (Hnd : NoDup p) by (apply (Permutation_NoDup Hp), seq_NoDup).
  apply (proj1 (NoDup_nth p 0) Hnd); lia.
Qed.

Local Open Scope string_scope.

(* ------------------------------------------------------------------ *)
(** * Drawing by [ORDER BY ..., RANDOM() LIMIT 1] *)

Lemma selection_eqb_eq (a b : selection) : selection_eqb a b = true <-> a = b.
Proof.
  unfold selection_eqb. rewrite !andb_true_iff, Z.eqb_eq, !String.eqb_eq.
  destruct a, b; simpl. split.
  - intros [[-> ->] ->]. reflexivity.
  - intros H. injection H as -> -> ->. auto.
Qed.

Lemma same_id_same_row (l : list game_row) (a b : nat) (g g' : game_row) :
  NoDup (map id l) ->
  nth_error l a = Some g -> nth_error l b = Some g' -> id g = id g' ->
  a = b /\ g = g'.
Proof.
  intros Hnd Ha Hb Hid.
  assert (Hab : a = b).
  { apply (proj1 (NoDup_nth_error (map id l)) Hnd).
    - rewrite length_map. apply nth_error_Some. congruence.
    - rewrite !nth_error_map, Ha, Hb. simpl. congruence. }
  split; [exact Hab|]. subst b. congruence.
Qed.

Lemma filter_ids_NoDup (f : game_row -> bool) (gs : list game_row) :
  NoDup (map id gs) -> NoDup (map id (filter f gs)).
Proof.
  induction gs as [|g t IH]; simpl; intros Hnd; [constructor|].
  inversion Hnd as [|? ? Hnotin Hnd']; subst.
  destruct (f g); simpl; [|apply IH, Hnd'].
  constructor; [|apply IH, Hnd'].
  intros Hin. apply Hnotin. apply in_map_iff in Hin.
  destruct Hin as (g' & Hid & Hg'). apply filter_In in Hg'.
  apply in_map_iff. exists g'. split; [exact Hid|apply Hg'].
Qed.

Lemma tr_sym (i j k : nat) : tr i j k = tr j i k.
Proof.
  unfold tr. destruct (Nat.eqb_spec k i) as [Hi|Hi];
    destruct (Nat.eqb_spec k j) as [Hj|Hj]; congruence.
Qed.

Lemma swap_keys_sym (i j : nat) (p : list nat) :
  swap_keys i j p = swap_keys j i p.
Proof.
  unfold swap_keys. apply map_ext. intros k. rewrite tr_sym. reflexivity.
Qed.

Section Draw.

Variable l : list game_row.
Variable select : (nat -> Z) -> option selection.

Hypothesis l_ids : NoDup (map id l).
Hypothesis select_some : forall keys s,
  select keys = Some s -> exists a g, s = project g /\ least_at l keys a g.
Hypothesis select_none : forall keys, select keys = None -> l = [].

Let m := List.length l.

Lemma row_index_lt (a : nat) (g : game_row) :
  nth_error l a = Some g -> a < m.
Proof. intros H. apply nth_error_Some. congruence. Qed.

Lemma least_unique (p : list nat) (a a' : nat) (g g' : game_row) :
  In p (rankings m) ->
  least_at l (keys_of p) a g -> least_at l (keys_of p) a' g' ->
  a = a' /\ g = g'.
Proof.
  intros Hp [Ha Hleast] [Ha' Hleast'].
  destruct (Hleast a' g' Ha') as [Hle Hkey].
  destruct (Hleast' a g Ha) as [Hle' Hkey'].
  pose proof (date_leb_antisym _ _ Hle Hle') as Hdate.
  specialize (Hkey Hdate). specialize (Hkey' (eq_sym Hdate)).
  assert (Haa : a = a').
  { apply (ranking_injective m a a' p Hp);
      [eapply row_index_lt; eassumption|eapply row_index_lt; eassumption|].
    unfold keys_of in *. lia. }
  split; [exact Haa|]. subst a'. congruence.
Qed.

Lemma draws_iff (p : list nat) (a : nat) (g : game_row) :
  In p (rankings m) -> nth_error l a = Some g ->
  draws select g p = true <-> least_at l (keys_of p) a g.
Proof.
  intros Hp Ha. unfold draws. split.
  - destruct (select (keys_of p)) as [s|] eqn:Hs; [|discriminate].
    intros Heq. apply selection_eqb_eq in Heq.
    destruct (select_some _ _ Hs) as (a0 & g0 & -> & Hleast).
    assert (Hid : id g0 = id g) by (injection Heq; auto).
    destruct (same_id_same_row l a0 a g0 g l_ids (proj1 Hleast) Ha Hid)
      as [-> ->].
    exact Hleast.
  - intros Hleast.
    destruct (select (keys_of p)) as [s|] eqn:Hs.
    + destruct (select_some _ _ Hs) as (a0 & g0 & -> & Hleast0).
      destruct (least_unique p a0 a g0 g Hp Hleast0 Hleast) as [_ ->].
      apply selection_eqb_eq. reflexivity.
    + apply select_none in Hs. rewrite Hs in Ha. destruct a; discriminate.
Qed.

Lemma keys_swapped (p : list nat) (i j k : nat) :
  In p (rankings m) -> k < m ->
  keys_of (swap_keys i j p) k = keys_of p (tr i j k).
Proof.
  intros Hp Hk. unfold keys_of. rewrite swap_keys_nth; [reflexivity|].
  rewrite (ranking_length m p Hp). exact Hk.
Qed.

(** Exchanging the ranks of two rows with one date hands the draw from
    one to the other. *)
Lemma swap_least (p : list nat) (a a' : nat) (c c' : game_row) :
  In p (rankings m) ->
  nth_error l a = Some c -> nth_error l a' = Some c' ->
  last_played_on c = last_played_on c' ->
  least_at l (keys_of p) a c ->
  least_at l (keys_of (swap_keys a a' p)) a' c'.
Proof.
  intros Hp Ha Ha' Hdate [_ Hleast]. split; [exact Ha'|].
  intros b g' Hb. destruct (Hleast b g' Hb) as [Hle _].
  split; [rewrite <- Hdate; exact Hle|].
  intros Hsame.
  rewrite !keys_swapped by (try exact Hp; eapply row_index_lt; eassumption).
  replace (tr a a' a') with a.
  2:{ unfold tr. destruct (Nat.eqb_spec a' a) as [->|_]; [reflexivity|].
      rewrite Nat.eqb_refl. reflexivity. }
  unfold tr. destruct (Nat.eqb_spec b a) as [->|Hba].
  - apply (Hleast a' c' Ha'). exact Hdate.
  - destruct (Nat.eqb_spec b a') as [->|Hba'].
    + apply (Hleast a c Ha). reflexivity.
    + apply (Hleast b g' Hb). congruence.
Qed.

Lemma draws_swapped (p : list nat) (a a' : nat) (c c' : game_row) :
  In p (rankings m) ->
  nth_error l a = Some c -> nth_error l a' = Some c' ->
  last_played_on c = last_played_on c' ->
  draws select c' (swap_keys a a' p) = draws select c p.
Proof.
  intros Hp Ha Ha' Hdate.
  pose proof (row_index_lt a c Ha) as Hlt.
  pose proof (row_index_lt a' c' Ha') as Hlt'.
  pose proof (swap_keys_ranking a a' m p Hlt Hlt' Hp) as Hp'.
  apply eq_true_iff_eq.
  rewrite (draws_iff _ a' c' Hp' Ha'), (draws_iff _ a c Hp Ha). split.
  - intros Hleast.
    pose proof (swap_least _ a' a c' c Hp' Ha' Ha (eq_sym Hdate) Hleast) as H.
    rewrite (swap_keys_sym a' a), swap_keys_involutive in H;
      [exact H| |]; rewrite (ranking_length m p Hp); assumption.
  - apply swap_least; assumption.
Qed.

Lemma in_row_unique (g g' : game_row) :
  In g l -> In g' l -> id g = id g' -> g = g'.
Proof.
  intros Hg Hg' Hid.
  apply In_nth_error in Hg. destruct Hg as [a Ha].
  apply In_nth_error in Hg'. destruct Hg' as [b Hb].
  apply (same_id_same_row l a b g g' l_ids Ha Hb Hid).
Qed.

(** Of the [m!] ways [RANDOM()] can rank the [m] rows, one in [n] draws a
    given row among the [n] oldest. *)
Lemma one_ranking_in_n (g : game_row) :
  In g l -> oldest l g ->
  List.length (tied_with g l)
  * List.length (filter (draws select g) (rankings m))
  = fact m.
Proof.
  intros Hg Hold. rewrite <- (rankings_length m).
  apply (fair_shares (draws select) (tied_with g l) (rankings m)).
  - apply NoDup_filter. apply (NoDup_map_inv id). exact l_ids.
  - apply rankings_NoDup.
  - intros p Hp.
    destruct (select (keys_of p)) as [s|] eqn:Hs.
    + destruct (select_some _ _ Hs) as (a0 & g0 & -> & Hleast).
      pose proof (nth_error_In _ _ (proj1 Hleast)) as Hin0.
      exists g0. split; [|split].
      * apply filter_In. split; [exact Hin0|]. apply date_eqb_eq.
        apply date_leb_antisym.
        -- apply In_nth_error in Hg. destruct Hg as [b Hb].
           apply (proj2 Hleast b g Hb).
        -- apply Hold, Hin0.
      * unfold draws. rewrite Hs. apply selection_eqb_eq. reflexivity.
      * intros c' Hc' Hdraw. unfold draws in Hdraw. rewrite Hs in Hdraw.
        apply selection_eqb_eq in Hdraw.
        apply filter_In in Hc'. destruct Hc' as [Hc' _].
        apply in_row_unique; [exact Hc'|exact Hin0|].
        injection Hdraw; auto.
    + apply select_none in Hs. rewrite Hs in Hg. contradiction.
  - intros c c' Hc Hc'.
    apply filter_In in Hc. destruct Hc as [Hc Hdc].
    apply filter_In in Hc'. destruct Hc' as [Hc' Hdc'].
    apply date_eqb_eq in Hdc, Hdc'.
    apply In_nth_error in Hc. destruct Hc as [a Ha].
    apply In_nth_error in Hc'. destruct Hc' as [a' Ha'].
    pose proof (row_index_lt a c Ha) as Hlt.
    pose proof (row_index_lt a' c' Ha') as Hlt'.
    exists (swap_keys a a'). split; [|split].
    + intros p Hp. apply swap_keys_ranking; assumption.
    + intros p Hp. apply swap_keys_involutive;
        rewrite (ranking_length m p Hp); assumption.
    + intros p Hp. apply draws_swapped; try assumption. congruence.
  - apply filter_In. split; [exact Hg|]. apply date_eqb_eq. reflexivity.
Qed.

End Draw.

(** Block C draws each of the [n] oldest active rows under one ranking
    in [n]. *)
Lemma least_recent_is_fair (gs : list game_row) (g : game_row) :
  NoDup (map id gs) ->
  In g (filter is_active gs) -> oldest (filter is_active gs) g ->
  List.length (tied_with g (filter is_active gs))
  * List.length
      (filter (draws (fun keys => select_least_recent keys gs) g)
         (rankings (List.length (filter is_active gs))))
  = fact (List.length (filter is_active gs)).
Proof.
  intros Hnd Hg Hold.
  apply (one_ranking_in_n (filter is_active gs)
           (fun keys => select_least_recent keys gs)).
  - apply filter_ids_NoDup, Hnd.
  - intros keys s Hs. apply select_least_recent_some in Hs.
    destruct Hs as (a & g0 & Ha & -> & Hleast).
    exists a, g0. split; [reflexivity|]. split; assumption.
  - intros keys Hs. apply select_least_recent_none in Hs. exact Hs.
  - exact Hg.
  - exact Hold.
Qed.

Lemma unplayed_tied (gs : list game_row) (g : game_row) :
  In g (unplayed_active gs) ->
  tied_with g (unplayed_active gs) = unplayed_active gs.
Proof.
  intros Hg. apply unplayed_active_In in Hg. destruct Hg as (_ & Hnone & _).
  unfold tied_with. rewrite Hnone.
  apply forallb_filter_id. apply forallb_forall.
  intros g' Hg'. apply unplayed_active_In in Hg'.
  destruct Hg' as (_ & Hnone' & _). rewrite Hnone'. reflexivity.
Qed.

(** Block B draws each of the [n] never-played active rows under one
    ranking in [n]. *)
Lemma unplayed_is_fair (gs : list game_row) (g : game_row) :
  NoDup (map id gs) ->
  In g (unplayed_active gs) ->
  List.length (unplayed_active gs)
  * List.length
      (filter (draws (fun keys => select_unplayed keys gs) g)
         (rankings (List.length (unplayed_active gs))))
  = fact (List.length (unplayed_active gs)).
Proof.
  intros Hnd Hg.
  assert (Hnone : forall g', In g' (unplayed_active gs) ->
                             last_played_on g' = None).
  { intros g' Hg'. apply unplayed_active_In in Hg'. apply Hg'. }
  rewrite <- (unplayed_tied gs g Hg) at 1.
  apply (one_ranking_in_n (unplayed_active gs)
           (fun keys => select_unplayed keys gs)).
  - apply filter_ids_NoDup, Hnd.
  - intros keys s Hs. apply select_unplayed_some in Hs.
    destruct Hs as (a & g0 & Ha & -> & Hleast).
    exists a, g0. split; [reflexivity|]. split; [exact Ha|].
    intros b g' Hb.
    rewrite (Hnone g0 (nth_error_In _ _ Ha)). split; [reflexivity|].
    intros _. apply (Hleast b g' Hb).
  - intros keys Hs. apply select_unplayed_none in Hs. exact Hs.
  - exact Hg.
  - intros g' Hg'. rewrite (Hnone g Hg). reflexivity.
Qed.

(* ------------------------------------------------------------------ *)
(** * The claims *)

(** ** The cache slot replays the day *)

(** C1, on the path where it fails.  The catalog holds an active entry and
    the first store query of the day is refused.  The first answer is
    [500 { error: true, message: "Internal server error while selecting
    daily game." }]; the second, served from the cache slot without any
    query or fetch, is [500 { error: "Internal server error while selecting
    daily game." }]: the two bodies differ. *)
Theorem cached_error_is_reshaped :
  let E := Samples.store_fails_at 0 in
  let w := Samples.fresh [Samples.portal2] Samples.portal_reviews in
  let first := daily_game_cached E "2024-05-01" w in
  let second := daily_game_cached E "2024-05-01" (snd first) in
  (exists g, In g (games w) /\ is_active g = true) /\
  fst first
  = Ret {| status := 500;
           body := JGame (ErrorData
                            "Internal server error while selecting daily game.") |} /\
  fst second
  = Ret {| status := 500;
           body := JError "Internal server error while selecting daily game." |} /\
  fst second <> fst first /\
  snd second = snd first.
Proof.
  cbv zeta. split; [|split; [|split; [|split]]].
  - exists Samples.portal2. split; [left; reflexivity|reflexivity].
  - reflexivity.
  - reflexivity.
  - discriminate.
  - reflexivity.
Qed.

(** ** A failing write *)

(** C2, as amended.  When the selector has settled on a new entry and the
    write of today's date onto it fails, the request is answered with
    status 500 and no payload for that entry: the revision without cache
    sends [{ error: "Internal server error while selecting daily game." }],
    the caching revision answers 500 as well and keeps the error in the
    cache slot for the day.  The catalog is left as it was. *)
Theorem failed_write_is_answered_with_500 (E : env) (todayStr : string)
  (w : world) (g : selection) (tD : nat) (msg : string) :
  picks_new E todayStr w g tD ->
  db_err E tD = Some msg ->
  (fst (daily_game E todayStr w)
   = Ret {| status := 500;
            body := JError "Internal server error while selecting daily game." |} /\
   games (snd (daily_game E todayStr w)) = games w) /\
  (cache_lookup todayStr (dailyGameCache w) = None ->
   (exists r, fst (daily_game_cached E todayStr w) = Ret r /\ status r = 500) /\
   games (snd (daily_game_cached E todayStr w)) = games w /\
   cache_lookup todayStr (dailyGameCache (snd (daily_game_cached E todayStr w)))
   = Some (ErrorData "Internal server error while selecting daily game.")).
Proof.
  intros Hpick HD.
  destruct (picks_new_then_write_fails _ _ _ _ _ _ Hpick HD)
    as (w' & Hsel & Hgames & _).
  split.
  - rewrite daily_game_unfold, Hsel. simpl. auto.
  - intros Hmiss. rewrite (daily_game_cached_miss _ _ _ Hmiss), Hsel.
    cbn [fst snd]. split; [eexists; split; reflexivity|].
    split; [exact Hgames|apply cache_lookup_stored].
Qed.

Lemma failed_write_is_answered_with_500_witness :
  picks_new (Samples.store_fails_at 2) "2024-05-01"
    (Samples.fresh [Samples.portal2] []) (project Samples.portal2) 2 /\
  fst (daily_game (Samples.store_fails_at 2) "2024-05-01"
         (Samples.fresh [Samples.portal2] []))
  = Ret {| status := 500;
           body := JError "Internal server error while selecting daily game." |}.
Proof.
  assert (Hpick : picks_new (Samples.store_fails_at 2) "2024-05-01"
                    (Samples.fresh [Samples.portal2] [])
                    (project Samples.portal2) 2).
  { repeat split. left. split; reflexivity. }
  split; [exact Hpick|].
  exact (proj1 (proj1 (failed_write_is_answered_with_500
                         (Samples.store_fails_at 2) "2024-05-01"
                         (Samples.fresh [Samples.portal2] [])
                         (project Samples.portal2) 2
                         "SQLITE_BUSY: database is locked" Hpick eq_refl))).
Defined.

(** C2, as stated, fails: a failing write does not leave a successful
    payload. *)
Lemma failed_write_is_not_served_degraded :
  ~ (forall (E : env) (todayStr : string) (w : world) (g : selection)
            (tD : nat) (msg : string),
       picks_new E todayStr w g tD -> db_err E tD = Some msg ->
       exists r, fst (daily_game E todayStr w) = Ret r /\ status r = 200).
Proof.
  intros H.
  destruct (H (Samples.store_fails_at 2) "2024-05-01"
              (Samples.fresh [Samples.portal2] [])
              (project Samples.portal2) 2 "SQLITE_BUSY: database is locked")
    as (r & Hr & Hstatus).
  - repeat split. left. split; reflexivity.
  - reflexivity.
  - simpl in Hr. injection Hr as <-. discriminate Hstatus.
Qed.

(** ** Rotation over N days *)

(** C3. Let the catalog hold N active entries, none of them ever played,
    and let the store answer.  One request on each of N distinct days
    serves every active entry exactly once: the titles and appIds of the N
    payloads are, up to order, those of the active entries.  Each day's
    entry is drawn among the active entries never played so far: it is the
    one on which [RANDOM()] took the least value; every one of them is
    drawn for some values of [RANDOM()], and each of them equally often:
    of the [n!] ways [RANDOM()] can rank these [n] rows, [(n-1)!] draw a
    given one. *)
Theorem rotation_serves_each_entry_once (E : env) (days : list string)
  (w : world) :
  NoDup (map id (games w)) ->
  NoDup days ->
  (forall g, In g (games w) -> is_active g = true -> last_played_on g = None) ->
  List.length days = List.length (filter is_active (games w)) ->
  (forall t, db_err E t = None) ->
  (forall t, db_null_rows E t = false) ->
  Permutation (map served_game (fst (serve_days (daily_game E) days w)))
    (map card (filter is_active (games w))) /\
  ((forall d, In d days -> cache_lookup d (dailyGameCache w) = None) ->
   Permutation (map served_game (fst (serve_days (daily_game_cached E) days w)))
     (map card (filter is_active (games w)))) /\
  (forall d w',
     select_played_today d (games w') = None ->
     unplayed_active (games w') <> [] ->
     exists j g,
       nth_error (unplayed_active (games w')) j = Some g /\
       fst (select_daily_game E d w') = Ret (Some (project g)) /\
       forall j' g', nth_error (unplayed_active (games w')) j' = Some g' ->
         (sql_random E (1 + now w') j <= sql_random E (1 + now w') j')%Z) /\
  (forall gs j g,
     nth_error (unplayed_active gs) j = Some g ->
     exists keys, select_unplayed keys gs = Some (project g)) /\
  (forall gs g,
     NoDup (map id gs) ->
     In g (unplayed_active gs) ->
     List.length (unplayed_active gs)
     * List.length
         (filter (draws (fun keys => select_unplayed keys gs) g)
            (rankings (List.length (unplayed_active gs))))
     = fact (List.length (unplayed_active gs))).
Proof.
  intros Hids Hdays Hfresh Hlen Hstore Hrows.
  pose proof (all_unplayed_is_all_active _ Hfresh) as Hall.
  assert (Hrot : rotating days (games w)).
  { intros g Hin Hact. left. apply Hfresh; assumption. }
  rewrite <- Hall in *.
  split; [|split; [|split; [|split]]].
  - apply (rotation_serves_the_unplayed (daily_game E) (fun _ _ => True));
      auto.
    intros d w0. apply (daily_game_serves E Hstore Hrows d w0).
  - intros Hmiss.
    apply (rotation_serves_the_unplayed (daily_game_cached E)
             (fun d w0 => cache_lookup d (dailyGameCache w0) = None)); auto.
    intros d w0. apply (daily_game_cached_serves E Hstore Hrows d w0).
  - intros d w' Hpre Hne.
    destruct (selector_draws_unplayed E d w' (Hstore _) (Hstore _) (Hstore _)
                Hpre Hne) as (j & g & Hj & Hsel & Hleast).
    exists j, g. rewrite Hsel. auto.
  - intros gs j g Hj. eexists. apply every_unplayed_can_be_drawn. exact Hj.
  - intros gs g Hnd Hg. apply unplayed_is_fair; assumption.
Qed.

Lemma rotation_serves_each_entry_once_witness :
  Permutation
    (map served_game
       (fst (serve_days (daily_game Samples.calm)
               ["2024-05-01"; "2024-05-02"]
               (Samples.fresh [Samples.portal2; Samples.retired; Samples.hades]
                  Samples.portal_reviews))))
    [Some ("Portal 2", "620"); Some ("Hades", "1145360")].
Proof.
  refine (proj1 (rotation_serves_each_entry_once Samples.calm
                   ["2024-05-01"; "2024-05-02"]
                   (Samples.fresh
                      [Samples.portal2; Samples.retired; Samples.hades]
                      Samples.portal_reviews) _ _ _ eq_refl
                   (fun _ => eq_refl) (fun _ => eq_refl))).
  - simpl. repeat constructor; simpl; intuition discriminate.
  - repeat constructor; simpl; intuition discriminate.
  - simpl. intros g [<-|[<-|[<-|[]]]] Hact; try reflexivity; discriminate Hact.
Defined.

(** ** One write a day *)

(** C4, as amended.  With [id] a key of [games], the requests of one day,
    however many and served one after the other, leave the table as it was
    or with exactly one row rewritten, an active one whose [last_played_on]
    became today.  When an active row already carries today's date, a
    request issues no UPDATE and changes no row, and a successful answer
    carries the title and appId of such a row. *)
Theorem one_write_per_day (E : env) (todayStr : string) (w : world) :
  NoDup (map id (games w)) ->
  (forall n, catalog_step todayStr (games w)
               (games (repeat_request (daily_game E todayStr) n w))) /\
  (forall n, catalog_step todayStr (games w)
               (games (repeat_request (daily_game_cached E todayStr) n w))) /\
  (marked_today todayStr (games w) ->
   (games (snd (daily_game E todayStr w)) = games w /\
    existsb is_mark_event (new_events w (snd (daily_game E todayStr w)))
    = false /\
    forall r, fst (daily_game E todayStr w) = Ret r -> status r = 200 ->
      exists g reviews,
        In g (games w) /\ is_active g = true /\
        last_played_on g = Some todayStr /\
        body r = JGame (GameData (title g) (steam_app_id g) reviews)) /\
   (games (snd (daily_game_cached E todayStr w)) = games w /\
    existsb is_mark_event (new_events w (snd (daily_game_cached E todayStr w)))
    = false /\
    (cache_lookup todayStr (dailyGameCache w) = None ->
     forall r, fst (daily_game_cached E todayStr w) = Ret r -> status r = 200 ->
       exists g reviews,
         In g (games w) /\ is_active g = true /\
         last_played_on g = Some todayStr /\
         body r = JGame (GameData (title g) (steam_app_id g) reviews)))).
Proof.
  intros Hnd. split; [|split].
  - intros n. apply repeat_request_step; [| |exact Hnd].
    + intros w'. apply daily_game_step.
    + intros w' Hm. apply (daily_game_idle E todayStr w' Hm).
  - intros n. apply repeat_request_step; [| |exact Hnd].
    + intros w'. apply daily_game_cached_step.
    + intros w' Hm. apply (daily_game_cached_idle E todayStr w' Hm).
  - intros Hm. split.
    + apply daily_game_idle, Hm.
    + apply daily_game_cached_idle, Hm.
Qed.

Lemma one_write_per_day_witness :
  NoDup (map id [Samples.portal2; Samples.hades]) /\
  catalog_step "2024-05-01" [Samples.portal2; Samples.hades]
    (games (repeat_request (daily_game Samples.calm "2024-05-01") 3
              (Samples.fresh [Samples.portal2; Samples.hades]
                 Samples.portal_reviews))).
Proof.
  assert (Hnd : NoDup (map id [Samples.portal2; Samples.hades])).
  { simpl. repeat constructor; simpl; intuition discriminate. }
  split; [exact Hnd|].
  exact (proj1 (one_write_per_day Samples.calm "2024-05-01"
                  (Samples.fresh [Samples.portal2; Samples.hades]
                     Samples.portal_reviews) Hnd) 3).
Defined.

(** *** Requests that overlap *)

Lemma settle_answered (E : env) (todayStr : string) (n : nat) (r : response)
  (w : world) :
  Overlap.settle E todayStr n (Overlap.Answered r) w = (Overlap.Answered r, w).
Proof. induction n as [|n IH]; [reflexivity|exact IH]. Qed.

Lemma settle_serving (E : env) (todayStr : string) (n : nat) (g : selection)
  (w : world) :
  exists r,
    fetchReviewsForGameAndRespond E g w
    = (Ret r, snd (fetchReviewsForGameAndRespond E g w)) /\
    Overlap.settle E todayStr (2 + n) (Overlap.Serving g) w
    = (Overlap.Answered r, snd (fetchReviewsForGameAndRespond E g w)).
Proof.
  unfold fetchReviewsForGameAndRespond, try_catch, bind, ret.
  cbn [Overlap.settle Overlap.resume Nat.add].
  destruct (review_page_urls E (sel_id g) w) as [[[|u urls]|msg] w1].
  - eexists. split; [reflexivity|]. cbn [snd]. destruct n; apply settle_answered.
  - cbn [Overlap.resume].
    destruct (scrape_all E (u :: urls) w1) as [[clues|msg] w2];
      eexists; (split; [reflexivity|apply settle_answered]).
  - eexists. split; [reflexivity|]. cbn [snd]. destruct n; apply settle_answered.
Qed.

(** A call that no other call overlaps goes through its stages as
    [daily_game] does: resumed six times it has answered what [daily_game]
    answers and left the process as [daily_game] leaves it. *)
Lemma settle_alone (E : env) (todayStr : string) (w : world) :
  exists r,
    daily_game E todayStr w = (Ret r, snd (daily_game E todayStr w)) /\
    Overlap.settle E todayStr 6 Overlap.Received w
    = (Overlap.Answered r, snd (daily_game E todayStr w)).
Proof.
  unfold daily_game, select_daily_game, try_catch, bind, ret.
  cbn [Overlap.settle Overlap.resume].
  destruct (block_A E todayStr w) as [[[g|]|msg] w1]; cbn [Overlap.resume].
  - destruct (settle_serving E todayStr 3 g w1) as (r & Hr & Hs).
    exists r. rewrite Hr. split; [reflexivity|exact Hs].
  - destruct (block_B E w1) as [[[g|]|msg] w2]; cbn [Overlap.resume].
    + destruct (block_D E todayStr (sel_id g) w2) as [[[]|msg] w3].
      * destruct (settle_serving E todayStr 1 g w3) as (r & Hr & Hs).
        exists r. rewrite Hr. split; [reflexivity|exact Hs].
      * eexists. split; reflexivity.
    + destruct (block_C E w2) as [[[g|]|msg] w3]; cbn [Overlap.resume].
      * destruct (block_D E todayStr (sel_id g) w3) as [[[]|msg] w4].
        -- destruct (settle_serving E todayStr 0 g w4) as (r & Hr & Hs).
           exists r. rewrite Hr. split; [reflexivity|exact Hs].
        -- eexists. split; reflexivity.
      * eexists. split; reflexivity.
      * eexists. split; reflexivity.
    + eexists. split; reflexivity.
  - eexists. split; reflexivity.
Qed.

(** C4, as stated, fails: of two requests of one day that overlap, each
    can find in block A that no entry carries today's date, and each then
    marks an entry of its own. *)
Lemma overlapping_requests_mark_two_entries :
  NoDup (map id [Samples.portal2; Samples.hades]) /\
  games (snd Overlap.two_at_once)
  = [set_last_played "2024-05-01" Samples.portal2;
     set_last_played "2024-05-01" Samples.hades] /\
  filter is_mark_event (log (snd Overlap.two_at_once))
  = [EvMarkPlayed "2024-05-01" 2; EvMarkPlayed "2024-05-01" 1] /\
  map (fun s => match s with
                | Overlap.Answered r => served_game (Ret r)
                | _ => None
                end) (fst Overlap.two_at_once)
  = [Some ("Portal 2", "620"); Some ("Hades", "1145360")] /\
  ~ catalog_step "2024-05-01" [Samples.portal2; Samples.hades]
      (games (snd Overlap.two_at_once)).
Proof.
  split; [|split; [|split; [|split]]]; try reflexivity.
  - simpl. repeat constructor; simpl; intuition discriminate.
  - change (games (snd Overlap.two_at_once))
      with [set_last_played "2024-05-01" Samples.portal2;
            set_last_played "2024-05-01" Samples.hades].
    intros Hstep.
    inversion Hstep as [Hsame|l1 g l2 Hsplit Hact Hafter].
    destruct l1 as [|a [|b l1]].
    + injection Hsplit as <- <-. discriminate Hafter.
    + injection Hsplit as <- <- <-. discriminate Hafter.
    + injection Hsplit as <- <- Hrest. destruct l1; discriminate Hrest.
Qed.

(** ** Failed scrapes *)

(** C5, as amended.  Scraping a list of review URLs never rejects and yields
    one record per URL, in order.  The record at position [i] depends on the
    fetch of the [i]-th URL alone: when that fetch or its parse fails the
    record is [{ error: true, message: "Scraping failed", originalUrl,
    reviewerName: "Error" }] with the URL as [originalUrl], otherwise it is
    the parsed review. *)
Theorem failed_scrape_becomes_record (E : env) (urls : list string) (w : world) :
  exists clues w',
    scrape_all E urls w = (Ret clues, w') /\
    List.length clues = List.length urls /\
    forall i url, nth_error urls i = Some url ->
      (http_get E (now w + i) url = None ->
         nth_error clues i
         = Some (ScrapeFailed {| message := "Scraping failed";
                                 originalUrl := url;
                                 failureReviewerName := "Error" |})) /\
      (forall p, http_get E (now w + i) url = Some p ->
         nth_error clues i = Some (Scraped (parse_review (div_text E) p))).
Proof.
  exists (resolve_all E (now w) urls), (record_all (map EvHttpGet urls) w).
  split; [apply scrape_all_eq|].
  split; [apply resolve_all_length|].
  intros i url Hi. rewrite resolve_all_nth, Hi. simpl. unfold resolve.
  split.
  - intros ->. reflexivity.
  - intros p ->. reflexivity.
Qed.

Lemma failed_scrape_becomes_record_witness :
  exists clues w',
    scrape_all Samples.calm [Samples.url2; Samples.url1] (Samples.fresh [] [])
    = (Ret clues, w') /\
    nth_error clues 0
    = Some (ScrapeFailed {| message := "Scraping failed";
                            originalUrl := Samples.url2;
                            failureReviewerName := "Error" |}) /\
    nth_error clues 1
    = Some (Scraped (parse_review (fun h => h) Samples.full_page)).
Proof.
  destruct (failed_scrape_becomes_record Samples.calm
              [Samples.url2; Samples.url1] (Samples.fresh [] []))
    as (clues & w' & Hrun & _ & Hnth).
  exists clues, w'. split; [exact Hrun|]. split.
  - apply (Hnth 0 Samples.url2 eq_refl). reflexivity.
  - apply (Hnth 1 Samples.url1 eq_refl). reflexivity.
Defined.

(** C5, as stated, fails: the reason carried by a failure record is never
    the text [fetch-failed]. *)
Lemma failure_reason_is_not_fetch_failed :
  ~ (forall (E : env) (url : string) (w : world),
       http_get E (now w) url = None ->
       exists f, fst (scrapeSteamReview E url w) = Ret (ScrapeFailed f) /\
                 originalUrl f = url /\ message f = "fetch-failed").
Proof.
  intros H.
  destruct (H Samples.calm Samples.url2 (Samples.fresh [] []) eq_refl)
    as (f & Hf & _ & Hmsg).
  simpl in Hf. injection Hf as <-. simpl in Hmsg. discriminate Hmsg.
Qed.

(** ** An entry without review URLs *)

(** C6. When the entry the selector returned has no review URL in the
    store, the review query yields the empty list and both revisions answer
    [200] with [{ title, appId, reviews: [] }]. *)
Theorem no_review_urls_gives_empty_reviews (E : env) (todayStr : string)
  (w0 w : world) (game : selection) :
  select_daily_game E todayStr w0 = (Ret (Some game), w) ->
  db_err E (now w) = None ->
  db_null_rows E (now w) = false ->
  (forall r, In r (game_reviews w0) -> game_id r <> sel_id game) ->
  fst (review_page_urls E (sel_id game) w) = Ret [] /\
  fst (daily_game E todayStr w0)
  = Ret {| status := 200;
           body := JGame (GameData (sel_title game) (sel_steam_app_id game) []) |} /\
  (cache_lookup todayStr (dailyGameCache w0) = None ->
   fst (daily_game_cached E todayStr w0)
   = Ret {| status := 200;
            body := JGame (GameData (sel_title game) (sel_steam_app_id game) []) |}).
Proof.
  intros Hsel Herr Hnull Hnone.
  destruct (games_of_select _ _ _ _ _ Hsel) as [Hrev _].
  assert (Hurls : review_page_urls E (sel_id game) w
                  = (Ret [], record (EvSelectReviewUrls (sel_id game)) w)).
  { unfold review_page_urls. rewrite Herr, Hnull, Hrev.
    rewrite (select_review_urls_none _ _ Hnone). reflexivity. }
  split; [rewrite Hurls; reflexivity|]. split.
  - rewrite (daily_game_after_selection _ _ _ _ _ Hsel).
    unfold fetchReviewsForGameAndRespond, try_catch, bind.
    rewrite Hurls. reflexivity.
  - intros Hmiss. unfold daily_game_cached. rewrite Hmiss.
    unfold try_catch, bind at 1. rewrite Hsel.
    unfold getAndScrapeReviewDataForGame, try_catch, bind.
    rewrite Hurls. reflexivity.
Qed.

Lemma no_review_urls_gives_empty_reviews_witness :
  fst (daily_game Samples.calm "2024-05-01" (Samples.fresh [Samples.portal2] []))
  = Ret {| status := 200; body := JGame (GameData "Portal 2" "620" []) |}.
Proof.
  refine (proj1 (proj2
    (no_review_urls_gives_empty_reviews Samples.calm "2024-05-01"
       (Samples.fresh [Samples.portal2] [])
       (snd (select_daily_game Samples.calm "2024-05-01"
               (Samples.fresh [Samples.portal2] [])))
       (project Samples.portal2) eq_refl eq_refl eq_refl _))).
  simpl. intros r [].
Defined.

(** ** Reviews in clue order *)

(** C7. The reviews of a successful payload stand in one-to-one, in-order
    correspondence with the entry's stored review URLs sorted by
    [clue_order] and cut after the sixth: the array has as many elements as
    that list, never more than six, and its [i]-th element is the record
    the [i]-th URL resolved to. *)
Theorem reviews_follow_clue_order (E : env) (game : selection) (w : world) :
  let stored := filter (fun r => (game_id r =? sel_id game)%Z) (game_reviews w) in
  let rows := review_rows_of (sel_id game) (game_reviews w) in
  (exists sorted,
     Permutation sorted stored /\
     StronglySorted (fun a b => (clue_order a <= clue_order b)%Z) sorted /\
     rows = firstn 6 sorted) /\
  List.length rows = Nat.min 6 (List.length stored) /\
  (forall r, fst (fetchReviewsForGameAndRespond E game w) = Ret r ->
     status r = 200 ->
     exists reviews,
       body r = JGame (GameData (sel_title game) (sel_steam_app_id game) reviews) /\
       List.length reviews = List.length rows /\
       List.length reviews <= 6 /\
       forall i, nth_error reviews i
                 = option_map (fun row => resolve E (S (now w) + i)
                                            (review_page_url row))
                     (nth_error rows i)) /\
  (forall t a reviews,
     fst (getAndScrapeReviewDataForGame E game w) = Ret (GameData t a reviews) ->
     t = sel_title game /\ a = sel_steam_app_id game /\
     List.length reviews = List.length rows /\
     List.length reviews <= 6 /\
     forall i, nth_error reviews i
               = option_map (fun row => resolve E (S (now w) + i)
                                          (review_page_url row))
                   (nth_error rows i)) /\
  (db_err E (now w) = None -> db_null_rows E (now w) = false ->
   exists r, fst (fetchReviewsForGameAndRespond E game w) = Ret r /\
             status r = 200).
Proof.
  cbv zeta.
  set (stored := filter _ (game_reviews w)).
  assert (Hlen : List.length (review_rows_of (sel_id game) (game_reviews w))
                 = Nat.min 6 (List.length stored)).
  { unfold review_rows_of. fold stored.
    rewrite length_firstn, order_by_length. reflexivity. }
  assert (Hres : forall t,
             List.length (resolve_all E t
                            (select_review_urls (sel_id game) (game_reviews w)))
             = List.length (review_rows_of (sel_id game) (game_reviews w))).
  { intros t. rewrite resolve_all_length. unfold select_review_urls.
    apply length_map. }
  split; [|split; [exact Hlen|split; [|split]]].
  - exists (order_by clue_order_leb stored). split; [apply order_by_perm|].
    split; [|reflexivity].
    pose proof (order_by_sorted clue_order_leb clue_order_leb_total
                  clue_order_leb_trans stored) as Hs.
    eapply StronglySorted_ind with (P := StronglySorted _);
      [constructor| |exact Hs].
    intros a l _ IH Hall. constructor; [exact IH|].
    eapply Forall_impl; [|exact Hall].
    intros b Hb. apply Z.leb_le. exact Hb.
  - intros r Hr Hstatus.
    destruct (db_err E (now w)) as [m|] eqn:Herr;
      [|destruct (db_null_rows E (now w)) eqn:Hnull].
    + destruct (fetchReviews_failed E game w) as [msg Hf];
        [left; congruence|].
      rewrite Hf in Hr. injection Hr as <-. discriminate Hstatus.
    + destruct (fetchReviews_failed E game w) as [msg Hf]; [right; exact Hnull|].
      rewrite Hf in Hr. injection Hr as <-. discriminate Hstatus.
    + rewrite (fetchReviews_ok E game w Herr Hnull) in Hr. injection Hr as <-.
      eexists. split; [reflexivity|]. rewrite Hres.
      split; [reflexivity|]. split; [rewrite Hlen; lia|].
      intros i. apply resolve_all_map_nth.
  - intros t a reviews Hr.
    destruct (db_err E (now w)) as [m|] eqn:Herr;
      [|destruct (db_null_rows E (now w)) eqn:Hnull].
    + rewrite (getAndScrape_failed E game w) in Hr by (left; congruence).
      discriminate Hr.
    + rewrite (getAndScrape_failed E game w) in Hr by (right; exact Hnull).
      discriminate Hr.
    + rewrite (getAndScrape_ok E game w Herr Hnull) in Hr.
      injection Hr as <- <- <-. rewrite Hres.
      split; [reflexivity|]. split; [reflexivity|]. split; [reflexivity|].
      split; [rewrite Hlen; lia|].
      intros i. apply resolve_all_map_nth.
  - intros Herr Hnull. rewrite (fetchReviews_ok E game w Herr Hnull).
    eexists. split; reflexivity.
Qed.

Lemma reviews_follow_clue_order_witness :
  exists r reviews,
    fst (fetchReviewsForGameAndRespond Samples.calm (project Samples.portal2)
           (Samples.fresh [Samples.portal2] Samples.portal_reviews)) = Ret r /\
    status r = 200 /\
    body r = JGame (GameData "Portal 2" "620" reviews) /\
    List.length reviews = 2 /\
    nth_error reviews 0 = Some (resolve Samples.calm 1 Samples.url1).
Proof.
  destruct (reviews_follow_clue_order Samples.calm (project Samples.portal2)
              (Samples.fresh [Samples.portal2] Samples.portal_reviews))
    as (_ & _ & Hpayload & _ & Hruns).
  destruct (Hruns eq_refl eq_refl) as (r & Hr & Hstatus).
  destruct (Hpayload r Hr Hstatus) as (reviews & Hbody & Hlen & _ & Hnth).
  exists r, reviews.
  split; [exact Hr|]. split; [exact Hstatus|]. split; [exact Hbody|].
  split; [rewrite Hlen; reflexivity|rewrite Hnth; reflexivity].
Defined.

(** ** The parser *)

Lemma appended_hrs_is_not_bare (fb : string) :
  fb <> "" -> String.eqb (fb ++ " hrs") "hrs" = false.
Proof.
  intros Hfb. apply String.eqb_neq. intros Heq.
  apply (f_equal String.length) in Heq.
  assert (Hlen : forall a b, String.length (a ++ b)
                             = (String.length a + String.length b)%nat).
  { intros a b. induction a as [|c a IH]; [reflexivity|].
    simpl. rewrite IH. reflexivity. }
  rewrite Hlen in Heq. destruct fb; [contradiction|]. simpl in Heq. lia.
Qed.

Lemma truthy_nonempty (s : string) : s <> "" -> truthy s = true.
Proof. destruct s; [contradiction|reflexivity]. Qed.

(** C8, as amended.  On a fetched page the parser always produces a review
    record, and each of its six fields is computed from that field's own
    queries alone.  A field whose queries yield a text, an attribute or
    markup takes what they yield: the trimmed text for the name (the header
    standing in for the persona link), the rating and the date (without its
    first [Posted: ]), the [src] of the first of the two images that has
    one, the hours at review time or else those on record, and for the body
    the trimmed text of the markup with its line breaks turned into line
    feeds.  A field whose queries yield nothing takes its own default; for
    the body that is the case when [#ReviewText] is missing or has empty
    markup, so a body that holds markup but no text is the empty string. *)
Theorem parse_review_fields_are_independent (E : env) (p : page) :
  let r := parse_review (div_text E) p in
  let playTimeText := trim (play_time_text p) in
  let tempDate :=
    replace_first "Posted: " "" (trim (recommendation_date_text p)) in
  (* the record is never dropped *)
  (forall url w, http_get E (now w) url = Some p ->
     fst (scrapeSteamReview E url w) = Ret (Scraped r)) /\
  (* what is there is extracted *)
  ((trim (persona_name_text p) <> "" ->
      reviewerName r = trim (persona_name_text p)) /\
   (trim (persona_name_text p) = "" -> trim (header_name_text p) <> "" ->
      reviewerName r = trim (header_name_text p)) /\
   (forall src, avatar_last_child_src p = Some src -> src <> "" ->
      reviewerAvatarUrl r = Some src) /\
   (forall src, truthy_opt (avatar_last_child_src p) = false ->
      avatar_second_img_src p = Some src -> src <> "" ->
      reviewerAvatarUrl r = Some src) /\
   (trim (rating_summary_text p) <> "" ->
      recommendation r = trim (rating_summary_text p)) /\
   (forall g, at_review_time_match playTimeText = Some g -> playtime r = g) /\
   (forall fb, at_review_time_match playTimeText = None ->
      fallbackPlaytime playTimeText = Some fb -> fb <> "" -> fb <> "hrs" ->
      playtime r = if includes fb "hrs" then fb else fb ++ " hrs") /\
   (tempDate <> "" -> datePosted r = tempDate) /\
   (forall h, review_text_html p = Some h -> h <> "" ->
      reviewText r = trim (div_text E (replace_br h)))) /\
  (* what is not there takes the default *)
  ((trim (persona_name_text p) = "" -> trim (header_name_text p) = "" ->
      reviewerName r = "A Steam User") /\
   (truthy_opt (avatar_last_child_src p) = false ->
    truthy_opt (avatar_second_img_src p) = false ->
      reviewerAvatarUrl r = None) /\
   (trim (rating_summary_text p) = "" -> recommendation r = "Not specified") /\
   (at_review_time_match playTimeText = None ->
    fallbackPlaytime playTimeText = None \/
    fallbackPlaytime playTimeText = Some "" \/
    fallbackPlaytime playTimeText = Some "hrs" ->
      playtime r = "Playtime not shown") /\
   (tempDate = "" -> datePosted r = "Date not found") /\
   (truthy_opt (review_text_html p) = false ->
      reviewText r = "Could not load review text.")) /\
  (* no field looks at another field's queries *)
  (forall q, persona_name_text q = persona_name_text p ->
             header_name_text q = header_name_text p ->
     reviewerName (parse_review (div_text E) q) = reviewerName r) /\
  (forall q, avatar_last_child_src q = avatar_last_child_src p ->
             avatar_second_img_src q = avatar_second_img_src p ->
     reviewerAvatarUrl (parse_review (div_text E) q) = reviewerAvatarUrl r) /\
  (forall q, rating_summary_text q = rating_summary_text p ->
     recommendation (parse_review (div_text E) q) = recommendation r) /\
  (forall q, play_time_text q = play_time_text p ->
     playtime (parse_review (div_text E) q) = playtime r) /\
  (forall q, recommendation_date_text q = recommendation_date_text p ->
     datePosted (parse_review (div_text E) q) = datePosted r) /\
  (forall q, review_text_html q = review_text_html p ->
     reviewText (parse_review (div_text E) q) = reviewText r).
Proof.
  cbv zeta. cbn [parse_review reviewerName reviewerAvatarUrl recommendation
                 playtime datePosted reviewText].
  split; [|split; [|split]].
  - intros url w H. unfold scrapeSteamReview. simpl. rewrite H. reflexivity.
  - repeat split.
    + intros H. unfold extract_reviewerName.
      rewrite (truthy_nonempty _ H). reflexivity.
    + intros H1 H2. unfold extract_reviewerName.
      rewrite H1, (truthy_nonempty _ H2). reflexivity.
    + intros src H1 H2. unfold extract_reviewerAvatarUrl. rewrite H1.
      cbn [truthy_opt]. rewrite (truthy_nonempty _ H2).
      cbn [negb truthy_opt]. rewrite (truthy_nonempty _ H2). reflexivity.
    + intros src H1 H2 H3. unfold extract_reviewerAvatarUrl. rewrite H1.
      cbn [negb]. rewrite H2. cbn [truthy_opt].
      rewrite (truthy_nonempty _ H3). reflexivity.
    + intros H. unfold extract_recommendation.
      rewrite (truthy_nonempty _ H). reflexivity.
    + intros g H. unfold extract_playtime. rewrite H. reflexivity.
    + intros fb H1 H2 H3 H4. unfold extract_playtime. rewrite H1.
      destruct (truthy (trim (play_time_text p))) eqn:Ht.
      * rewrite H2, (truthy_nonempty _ H3).
        destruct (includes fb "hrs"); cbn [negb].
        -- apply String.eqb_neq in H4. rewrite H4. reflexivity.
        -- rewrite (appended_hrs_is_not_bare _ H3). reflexivity.
      * destruct (trim (play_time_text p)); [discriminate H2|discriminate Ht].
    + intros H. unfold extract_datePosted.
      rewrite (truthy_nonempty _ H). reflexivity.
    + intros h H1 H2. unfold extract_reviewText. rewrite H1.
      rewrite (truthy_nonempty _ H2). reflexivity.
  - repeat split.
    + intros H1 H2. unfold extract_reviewerName. rewrite H1, H2. reflexivity.
    + intros H1 H2. unfold extract_reviewerAvatarUrl. rewrite H1. simpl.
      rewrite H2. reflexivity.
    + intros H. unfold extract_recommendation. rewrite H. reflexivity.
    + intros H1 H2. unfold extract_playtime. rewrite H1.
      destruct (truthy (trim (play_time_text p))); [|reflexivity].
      destruct H2 as [-> | [-> | ->]]; reflexivity.
    + intros H. unfold extract_datePosted. rewrite H. reflexivity.
    + intros H. unfold extract_reviewText.
      destruct (review_text_html p) as [h|]; [|reflexivity].
      simpl in H. rewrite H. reflexivity.
  - repeat split; intros q; intros;
      unfold extract_reviewerName, extract_reviewerAvatarUrl,
        extract_recommendation, extract_playtime, extract_datePosted,
        extract_reviewText;
      repeat match goal with H : _ q = _ |- _ => rewrite H; clear H end;
      reflexivity.
Qed.

Lemma parse_review_fields_are_independent_witness :
  parse_review (div_text Samples.calm) Samples.partial_page
  = {| reviewerName := "Chell";
       reviewerAvatarUrl := Some "https://avatars.example/chell.jpg";
       recommendation := "Not specified";
       playtime := "12 hrs";
       datePosted := "Date not found";
       reviewText := "Still alive." ++ String LF "Really." |}.
Proof.
  pose proof (parse_review_fields_are_independent Samples.calm
                Samples.partial_page)
    as (_ & (_ & Hname & _ & Havatar & _ & _ & Hplay & _ & Htext)
          & (_ & _ & Hrec & _ & Hdate & _) & _).
  cbv zeta in *.
  destruct (parse_review (div_text Samples.calm) Samples.partial_page)
    as [nm av rc pt dt tx].
  cbn [reviewerName reviewerAvatarUrl recommendation playtime datePosted
       reviewText] in *.
  rewrite (Hname eq_refl ltac:(discriminate)),
    (Havatar _ eq_refl eq_refl ltac:(discriminate)),
    (Hrec eq_refl),
    (Hplay "12 hrs" eq_refl eq_refl ltac:(discriminate) ltac:(discriminate)),
    (Hdate eq_refl),
    (Htext _ eq_refl ltac:(discriminate)).
  reflexivity.
Defined.

(** C8, as stated, fails: a review body from which no text can be
    extracted does not take the default of the body. *)
Lemma wordless_body_is_not_defaulted :
  ~ (forall (E : env) (p : page),
       (forall h, review_text_html p = Some h ->
                  trim (div_text E (replace_br h)) = "") ->
       reviewText (parse_review (div_text E) p) = "Could not load review text.").
Proof.
  intros H.
  specialize (H Samples.calm Samples.wordless_page).
  assert (Hnone : forall h, review_text_html Samples.wordless_page = Some h ->
                    trim (div_text Samples.calm (replace_br h)) = "").
  { intros h Hh. injection Hh as <-. reflexivity. }
  specialize (H Hnone). discriminate H.
Qed.

(** ** The least recently played entry *)

(** C9. When every active entry has a date in [last_played_on], none of
    them today's, and the store answers, the selector returns an active
    entry whose date is least among the active entries (in the order of
    SQLite on text, which on [yyyy-MM-dd] is the order of the calendar) and
    marks it as played today.  Among the entries with that least date it is
    the one on which [RANDOM()] took the least value; every one of them is
    drawn for some values of [RANDOM()], and each of them equally often:
    of the [m!] ways [RANDOM()] can rank the [m] active rows, one in [n]
    draws a given one of the [n] oldest. *)
Theorem least_recently_played_is_selected (E : env) (todayStr : string)
  (w : world) :
  (forall g, In g (games w) -> is_active g = true ->
     exists d, last_played_on g = Some d /\ d <> todayStr) ->
  (exists g, In g (games w) /\ is_active g = true) ->
  db_err E (now w) = None -> db_err E (1 + now w) = None ->
  db_err E (2 + now w) = None -> db_err E (3 + now w) = None ->
  (exists j g,
     nth_error (filter is_active (games w)) j = Some g /\
     fst (select_daily_game E todayStr w) = Ret (Some (project g)) /\
     games (snd (select_daily_game E todayStr w))
     = mark_played todayStr (id g) (games w) /\
     (forall j' g', nth_error (filter is_active (games w)) j' = Some g' ->
        date_leb (last_played_on g) (last_played_on g') = true /\
        (last_played_on g = last_played_on g' ->
         (sql_random E (2 + now w) j <= sql_random E (2 + now w) j')%Z)) /\
     (forall r, fst (daily_game E todayStr w) = Ret r -> status r = 200 ->
        exists reviews,
          body r = JGame (GameData (title g) (steam_app_id g) reviews)) /\
     (cache_lookup todayStr (dailyGameCache w) = None ->
      forall r, fst (daily_game_cached E todayStr w) = Ret r ->
        status r = 200 ->
        exists reviews,
          body r = JGame (GameData (title g) (steam_app_id g) reviews))) /\
  (forall j g,
     nth_error (filter is_active (games w)) j = Some g ->
     oldest (filter is_active (games w)) g ->
     exists keys, select_least_recent keys (games w) = Some (project g)) /\
  (NoDup (map id (games w)) ->
   forall g,
     In g (filter is_active (games w)) ->
     oldest (filter is_active (games w)) g ->
     List.length (tied_with g (filter is_active (games w)))
     * List.length
         (filter (draws (fun keys => select_least_recent keys (games w)) g)
            (rankings (List.length (filter is_active (games w)))))
     = fact (List.length (filter is_active (games w)))).
Proof.
  intros Hplayed (g0 & Hin0 & Hact0) HA HB HC HD.
  assert (Hpre : select_played_today todayStr (games w) = None).
  { apply select_played_today_none. intros g Hin Hact Hd.
    destruct (Hplayed g Hin Hact) as (d & Hd' & Hne). congruence. }
  assert (Hun : forall keys, select_unplayed keys (games w) = None).
  { intros keys. apply select_unplayed_none, all_played_no_unplayed.
    intros g Hin Hact Hd.
    destruct (Hplayed g Hin Hact) as (d & Hd' & _). congruence. }
  split.
  - destruct (select_least_recent (sql_random E (2 + now w)) (games w))
      as [s|] eqn:Hlr.
    + pose proof Hlr as Hlr'. apply select_least_recent_some in Hlr'.
      destruct Hlr' as (j & g & Hj & -> & Hleast).
      assert (Hsel : select_daily_game E todayStr w
                     = (Ret (Some (project g)),
                        marked todayStr (project g)
                          (record EvSelectLeastRecent
                             (record EvSelectUnplayed
                                (record (EvSelectPlayedToday todayStr) w))))).
      { run. unfold now in *. simpl in *.
        rewrite HA; simpl. rewrite Hpre; simpl. rewrite HB; simpl.
        rewrite (Hun _); simpl. rewrite HC; simpl. rewrite Hlr; simpl.
        rewrite HD; simpl. reflexivity. }
      exists j, g. rewrite Hsel. simpl.
      split; [exact Hj|]. split; [reflexivity|]. split; [reflexivity|].
      split; [exact Hleast|]. split.
      * intros r Hr Hs. rewrite daily_game_unfold, Hsel in Hr.
        destruct (fetchReviews_body _ _ _ _ Hr Hs) as [reviews Hb].
        exists reviews. exact Hb.
      * intros Hmiss r Hr Hs.
        rewrite (daily_game_cached_miss _ _ _ Hmiss), Hsel in Hr.
        match type of Hr with
        | context [getAndScrapeReviewDataForGame E ?s ?w0] =>
            destruct (getAndScrape_returns E s w0) as [full Hfull];
            rewrite Hfull in Hr;
            pose proof (getAndScrape_title E s w0 full) as Htitle;
            rewrite Hfull in Htitle
        end.
        simpl in Hr. injection Hr as <-.
        assert (He : gameData_error full = false).
        { unfold respond_with in Hs.
          destruct (gameData_error full); [discriminate|reflexivity]. }
        destruct (Htitle eq_refl He) as [reviews ->].
        exists reviews. reflexivity.
    + exfalso. apply select_least_recent_none in Hlr.
      assert (Hin : In g0 (filter is_active (games w)))
        by (apply filter_In; auto).
      rewrite Hlr in Hin. exact Hin.
  - split.
    + intros j g Hj Hold. eexists.
      apply every_oldest_can_be_drawn; eassumption.
    + intros Hnd g Hg Hold. apply least_recent_is_fair; assumption.
Qed.

Lemma least_recently_played_is_selected_witness :
  exists j g,
    nth_error (filter is_active [Samples.celeste; Samples.retired; Samples.hollow]) j
    = Some g /\
    fst (select_daily_game Samples.calm "2024-05-01"
           (Samples.fresh [Samples.celeste; Samples.retired; Samples.hollow] []))
    = Ret (Some (project g)).
Proof.
  destruct (least_recently_played_is_selected Samples.calm "2024-05-01"
              (Samples.fresh [Samples.celeste; Samples.retired; Samples.hollow] []))
    as [(j & g & Hj & Hsel & _) _].
  - simpl. intros g [<-|[<-|[<-|[]]]] Hact; try discriminate Hact;
      eexists; (split; [reflexivity|discriminate]).
  - exists Samples.celeste. split; [left; reflexivity|reflexivity].
  - reflexivity.
  - reflexivity.
  - reflexivity.
  - reflexivity.
  - exists j, g. split; [exact Hj|exact Hsel].
Defined.

(** ** Short search terms *)

(** C10. A request to GET /api/search-steam-games whose [term] is missing,
    or whose trimmed [term] has fewer than two characters, is answered with
    the empty array, whatever [limit] is and whatever the app list holds
    (even when the list had to be fetched again first). *)
Theorem search_short_term_is_empty (E : env) (term limit : option string)
  (w : world) :
  term = None \/ (exists t, term = Some t /\ String.length (trim t) < 2) ->
  fst (search_steam_games E term limit w)
  = Ret {| status := 200; body := JNames [] |}.
Proof.
  intros Hterm. unfold search_steam_games, bind.
  assert (Hrefresh : exists w',
             (if (List.length (steamAppsCache w) =? 0)%nat
                 || (clock E (now w) - lastSteamAppsFetchTime w
                     >? STEAM_APPS_CACHE_DURATION)%Z
              then fetchAndCacheSteamApps E else ret tt) w = (Ret tt, w')).
  { destruct (_ || _).
    - apply fetchAndCacheSteamApps_returns.
    - eexists; reflexivity. }
  destruct Hrefresh as [w' ->].
  set (raw := match term with Some t => if truthy t then trim t else "" | None => "" end).
  assert (Hraw : negb (truthy raw) || (String.length raw <? 2)%nat = true).
  { subst raw. destruct Hterm as [->|[t [-> Hlen]]]; [reflexivity|].
    destruct (truthy t); [|reflexivity].
    apply orb_true_iff. right. apply Nat.ltb_lt. exact Hlen. }
  rewrite Hraw. reflexivity.
Qed.

Lemma search_short_term_is_empty_witness :
  String.length (trim " a  ") < 2 /\
  fst (search_steam_games Samples.calm (Some " a  ") (Some "50")
         (Samples.fresh [] []))
  = Ret {| status := 200; body := JNames [] |}.
Proof.
  split.
  - simpl. lia.
  - apply (search_short_term_is_empty Samples.calm (Some " a  ") (Some "50")).
    right. exists " a  ". split; [reflexivity|simpl; lia].
Defined.

(* ------------------------------------------------------------------ *)
(** * Further properties of the code *)

(** ** Normal forms of names *)

Lemma lower_char_fixes_alnum (c : ascii) :
  is_alnum_lower c = true -> lower_char c = c.
Proof.
  destruct c as [[|] [|] [|] [|] [|] [|] [|] [|]]; intros H;
    try reflexivity; discriminate H.
Qed.

Lemma lower_char_idem (c : ascii) : lower_char (lower_char c) = lower_char c.
Proof. destruct c as [[|] [|] [|] [|] [|] [|] [|] [|]]; reflexivity. Qed.

Lemma toLowerCase_idem (s : string) : toLowerCase (toLowerCase s) = toLowerCase s.
Proof.
  induction s as [|c r IH]; [reflexivity|].
  simpl. rewrite lower_char_idem, IH. reflexivity.
Qed.

Lemma toLowerCase_app (a b : string) :
  toLowerCase (a ++ b) = toLowerCase a ++ toLowerCase b.
Proof.
  induction a as [|c r IH]; [reflexivity|]. simpl. rewrite IH. reflexivity.
Qed.

Lemma keep_alnum_app (a b : string) :
  keep_alnum (a ++ b) = keep_alnum a ++ keep_alnum b.
Proof.
  induction a as [|c r IH]; [reflexivity|]. simpl.
  destruct (is_alnum_lower c); simpl; rewrite IH; reflexivity.
Qed.

Lemma keep_alnum_forallb (s : string) :
  forallb is_alnum_lower (list_ascii_of_string (keep_alnum s)) = true.
Proof.
  induction s as [|c r IH]; [reflexivity|]. simpl.
  destruct (is_alnum_lower c) eqn:Hc; [|exact IH].
  simpl. rewrite Hc. exact IH.
Qed.

Lemma alnum_string_fixed (s : string) :
  forallb is_alnum_lower (list_ascii_of_string s) = true ->
  toLowerCase s = s /\ keep_alnum s = s.
Proof.
  induction s as [|c r IH]; [split; reflexivity|].
  simpl. intros H. apply andb_true_iff in H. destruct H as [Hc Hr].
  destruct (IH Hr) as [IH1 IH2].
  rewrite (lower_char_fixes_alnum c Hc), IH1, Hc, IH2. split; reflexivity.
Qed.

(** X1. The normal form used for matching holds nothing but the letters
    [a]-[z] and the digits, and normalising a normal form changes nothing. *)
Theorem normalizeStringServer_normal_form (str : string) :
  forallb is_alnum_lower (list_ascii_of_string (normalizeStringServer str)) = true /\
  normalizeStringServer (normalizeStringServer str) = normalizeStringServer str.
Proof.
  unfold normalizeStringServer.
  pose proof (keep_alnum_forallb (toLowerCase str)) as H.
  split; [exact H|].
  destruct (alnum_string_fixed _ H) as [-> ->]. reflexivity.
Qed.

(** X2. The normal form is computed piece by piece, does not see the case
    of letters, and does not see a character that is neither a letter nor a
    digit, wherever it stands. *)
Theorem normalizeStringServer_ignores_case_and_punctuation (a b : string)
  (c : ascii) :
  is_alnum_lower (lower_char c) = false ->
  normalizeStringServer (a ++ String c b) = normalizeStringServer (a ++ b) /\
  normalizeStringServer (a ++ b)
  = normalizeStringServer a ++ normalizeStringServer b /\
  normalizeStringServer (toLowerCase a) = normalizeStringServer a.
Proof.
  intros Hc. unfold normalizeStringServer.
  rewrite !toLowerCase_app, !keep_alnum_app. simpl. rewrite Hc.
  rewrite toLowerCase_idem. repeat split; reflexivity.
Qed.

Lemma normalizeStringServer_ignores_case_and_punctuation_witness :
  normalizeStringServer ("Half" ++ String "-" "Life")
  = normalizeStringServer ("Half" ++ "Life").
Proof.
  exact (proj1 (normalizeStringServer_ignores_case_and_punctuation
                  "Half" "Life" "-" eq_refl)).
Defined.

(* ------------------------------------------------------------------ *)
(** ** The search endpoint *)

Lemma In_firstn {A : Type} (n : nat) (l : list A) (x : A) :
  In x (firstn n l) -> In x l.
Proof.
  intros H. rewrite <- (firstn_skipn n l). apply in_or_app. left. exact H.
Qed.

Lemma slice0_In {A : Type} (limit : Z) (l : list A) (x : A) :
  In x (slice0 limit l) -> In x l.
Proof. unfold slice0. destruct (limit <? 0)%Z; apply In_firstn. Qed.

Lemma slice0_nth {A : Type} (limit : Z) (l : list A) (i : nat) (x : A) :
  nth_error (slice0 limit l) i = Some x -> nth_error l i = Some x.
Proof.
  unfold slice0. destruct (limit <? 0)%Z; rewrite nth_error_firstn;
    destruct (_ <? _)%nat; congruence.
Qed.

Lemma slice0_all {A : Type} (limit : Z) (l : list A) :
  (Z.of_nat (List.length l) <= limit)%Z -> slice0 limit l = l.
Proof.
  intros H. unfold slice0.
  destruct (limit <? 0)%Z eqn:Hneg; [apply Z.ltb_lt in Hneg; lia|].
  apply firstn_all2. lia.
Qed.

Lemma slice0_length {A : Type} (limit : Z) (l : list A) :
  List.length (slice0 limit l)
  = if (limit <? 0)%Z
    then Z.to_nat (Z.of_nat (List.length l) + limit)
    else Nat.min (Z.to_nat limit) (List.length l).
Proof.
  unfold slice0. destruct (limit <? 0)%Z eqn:Hneg; rewrite length_firstn.
  - apply Z.ltb_lt in Hneg. lia.
  - reflexivity.
Qed.

Lemma matching_candidates (t : string) (apps : list steam_app) :
  filter (fun c => includes (normalizedName c) (normalizeStringServer t))
    (map (fun app => {| originalName := name app;
                        normalizedName := normalizeStringServer (name app) |})
       apps)
  = map (fun app => candidate_of (name app)) (matching t apps).
Proof.
  unfold matching. induction apps as [|a l IH]; [reflexivity|].
  simpl. destruct (includes _ _); simpl; rewrite IH; reflexivity.
Qed.

Lemma suggestions_for_eq (E : env) (t : string) (limit : Z)
  (apps : list steam_app) :
  suggestions_for E t limit apps
  = map originalName
      (slice0 limit
         (order_by
            (fun a b =>
               (by_prefix_then_name E (normalizeStringServer t) a b <=? 0)%Z)
            (map (fun app => candidate_of (name app)) (matching t apps)))).
Proof. unfold suggestions_for. rewrite matching_candidates. reflexivity. Qed.

Lemma search_steam_games_eq (E : env) (term limit : option string) (w : world) :
  search_steam_games E term limit w
  = (Ret {| status := 200;
            body := JNames
                      (if negb (truthy (term_of term))
                          || (String.length (term_of term) <? 2)%nat
                       then []
                       else suggestions_for E (term_of term) (limit_of limit)
                              (steamAppsCache (after_refresh E w))) |},
     after_refresh E w).
Proof.
  unfold search_steam_games, after_refresh, refresh_due, bind.
  fold (term_of term). fold (limit_of limit).
  set (short := negb (truthy (term_of term))
                || (String.length (term_of term) <? 2)%nat).
  destruct ((List.length (steamAppsCache w) =? 0)%nat
            || (clock E (now w) - lastSteamAppsFetchTime w
                >? STEAM_APPS_CACHE_DURATION)%Z).
  - destruct (fetchAndCacheSteamApps_returns E w) as [w' Hw']. rewrite Hw'.
    simpl. destruct short; reflexivity.
  - simpl. destruct short; reflexivity.
Qed.

Lemma suggestion_In (E : env) (t : string) (limit : Z) (apps : list steam_app)
  (n : string) :
  In n (suggestions_for E t limit apps) ->
  exists app, In app (matching t apps) /\ name app = n.
Proof.
  rewrite suggestions_for_eq. intros H.
  apply in_map_iff in H. destruct H as (c & <- & Hc).
  apply slice0_In, order_by_In, in_map_iff in Hc.
  destruct Hc as (app & <- & Happ). exists app. split; [exact Happ|reflexivity].
Qed.

Lemma search_answer_sound (E : env) (term limit : option string)
  (w : world) :
  exists names,
    search_steam_games E term limit w
    = (Ret {| status := 200; body := JNames names |}, after_refresh E w) /\
    forall n, In n names ->
      exists t app,
        term = Some t /\ (2 <= String.length (trim t))%nat /\
        In app (steamAppsCache (after_refresh E w)) /\ name app = n /\
        includes (normalizeStringServer (name app))
          (normalizeStringServer (trim t)) = true.
Proof.
  rewrite search_steam_games_eq. eexists. split; [reflexivity|].
  intros n Hn.
  destruct (negb (truthy (term_of term))
            || (String.length (term_of term) <? 2)%nat) eqn:Hshort;
    [destruct Hn|].
  apply orb_false_iff in Hshort. destruct Hshort as [_ Hlen].
  apply Nat.ltb_ge in Hlen.
  destruct term as [t|]; [|simpl in Hlen; lia].
  unfold term_of in Hlen, Hn.
  destruct (truthy t); [|simpl in Hlen; lia].
  destruct (suggestion_In _ _ _ _ _ Hn) as (app & Happ & Hname).
  unfold matching in Happ. apply filter_In in Happ. destruct Happ as [Hin Hinc].
  exists t, app. repeat split; assumption.
Qed.


Lemma term_of_long (t : string) :
  (2 <= String.length (trim t))%nat ->
  term_of (Some t) = trim t /\
  negb (truthy (trim t)) || (String.length (trim t) <? 2)%nat = false.
Proof.
  intros Hlen. unfold term_of.
  assert (Ht : truthy t = true).
  { destruct t; [simpl in Hlen; lia|reflexivity]. }
  rewrite Ht. split; [reflexivity|].
  apply orb_false_iff. split.
  - destruct (trim t); [simpl in Hlen; lia|reflexivity].
  - apply Nat.ltb_ge. exact Hlen.
Qed.

(** X4. The number of suggestions follows [limit] as [slice(0, limit)]
    reads it: at most [n] names for a positive [n], at most fifteen when
    [limit] is missing, is not a number or is [0], and for a negative [n]
    all the matches but the last [-n]. *)
Theorem suggestions_respect_limit (E : env) (term limit : option string)
  (w : world) :
  exists names,
    fst (search_steam_games E term limit w)
    = Ret {| status := 200; body := JNames names |} /\
    (forall n, parseInt limit = Some n -> (0 < n)%Z ->
       (Z.of_nat (List.length names) <= n)%Z) /\
    (parseInt limit = None \/ parseInt limit = Some 0%Z ->
       (List.length names <= 15)%nat) /\
    (forall n, parseInt limit = Some n -> (n < 0)%Z ->
       (2 <= String.length (term_of term))%nat ->
       List.length names
       = Z.to_nat (Z.of_nat (List.length
                               (matching (term_of term)
                                  (steamAppsCache (after_refresh E w)))) + n)).
Proof.
  rewrite search_steam_games_eq. eexists. split; [reflexivity|].
  destruct (negb (truthy (term_of term))
            || (String.length (term_of term) <? 2)%nat) eqn:Hshort.
  - split; [|split].
    + intros n _ Hn. simpl. lia.
    + intros _. simpl. lia.
    + intros n _ _ Hlen. apply orb_true_iff in Hshort.
      destruct Hshort as [Hs|Hs].
      * destruct (term_of term); [simpl in Hlen; lia|discriminate Hs].
      * apply Nat.ltb_lt in Hs. lia.
  - rewrite suggestions_for_eq, length_map, slice0_length, order_by_length,
      length_map.
    unfold limit_of. split; [|split].
    + intros n -> Hn. destruct (n =? 0)%Z eqn:H0; [apply Z.eqb_eq in H0; lia|].
      destruct (n <? 0)%Z eqn:Hneg; [apply Z.ltb_lt in Hneg; lia|]. lia.
    + intros Hl.
      assert (Hlim : match parseInt limit with
                     | Some n => if (n =? 0)%Z then 15%Z else n
                     | None => 15%Z
                     end = 15%Z)
        by (destruct Hl as [-> | ->]; reflexivity).
      rewrite Hlim. change (15 <? 0)%Z with false. cbv iota. lia.
    + intros n -> Hn _. destruct (n =? 0)%Z eqn:H0; [apply Z.eqb_eq in H0; lia|].
      destruct (n <? 0)%Z eqn:Hneg; [reflexivity|apply Z.ltb_ge in Hneg; lia].
Qed.

(** X5. When the trimmed term has at least two characters and no more apps
    match than [limit] allows, the answer lists the names of all the cached
    apps that match, each match once. *)
Theorem few_matches_are_all_listed (E : env) (t : string)
  (limit : option string) (w : world) :
  (2 <= String.length (trim t))%nat ->
  (Z.of_nat (List.length (matching (trim t)
                            (steamAppsCache (after_refresh E w))))
   <= limit_of limit)%Z ->
  exists names,
    fst (search_steam_games E (Some t) limit w)
    = Ret {| status := 200; body := JNames names |} /\
    Permutation names
      (map name (matching (trim t) (steamAppsCache (after_refresh E w)))).
Proof.
  intros Hlen Hfew. rewrite search_steam_games_eq.
  destruct (term_of_long t Hlen) as [-> ->].
  eexists. split; [reflexivity|].
  rewrite suggestions_for_eq, slice0_all
    by (rewrite order_by_length, length_map; exact Hfew).
  eapply Permutation_trans;
    [apply Permutation_map, order_by_perm|].
  rewrite map_map. simpl. apply Permutation_refl.
Qed.

Lemma few_matches_are_all_listed_witness :
  exists names,
    fst (search_steam_games Samples.calm (Some " port ") (Some "10")
           (set_steamApps [mkApp "Portal" 400; mkApp "Hades" 1145360;
                           mkApp "Deportal" 7] 0
              (Samples.fresh [] [])))
    = Ret {| status := 200; body := JNames names |} /\
    Permutation names ["Portal"; "Deportal"].
Proof.
  apply (few_matches_are_all_listed Samples.calm " port " (Some "10")
           (set_steamApps [mkApp "Portal" 400; mkApp "Hades" 1145360;
                           mkApp "Deportal" 7] 0
              (Samples.fresh [] []))).
  - simpl. lia.
  - vm_compute. discriminate.
Defined.

Section PrefixFirst.

Variable E : env.

Hypothesis compare_total : forall a b,
  (localeCompare E a b <= 0)%Z \/ (localeCompare E b a <= 0)%Z.

Hypothesis compare_trans : forall a b c,
  (localeCompare E a b <= 0)%Z -> (localeCompare E b c <= 0)%Z ->
  (localeCompare E a c <= 0)%Z.

Variable T : string.

Let leb (a b : candidate) : bool := (by_prefix_then_name E T a b <=? 0)%Z.

Lemma by_prefix_total (a b : candidate) : leb a b = true \/ leb b a = true.
Proof.
  unfold leb, by_prefix_then_name.
  destruct (startsWith (normalizedName a) T), (startsWith (normalizedName b) T);
    simpl; try (left; reflexivity); try (right; reflexivity);
    destruct (compare_total (normalizedName a) (normalizedName b));
    [left|right|left|right]; apply Z.leb_le; assumption.
Qed.

Lemma by_prefix_trans (a b c : candidate) :
  leb a b = true -> leb b c = true -> leb a c = true.
Proof.
  unfold leb, by_prefix_then_name.
  destruct (startsWith (normalizedName a) T), (startsWith (normalizedName b) T),
    (startsWith (normalizedName c) T); simpl; intros Hab Hbc;
    try reflexivity; try discriminate;
    apply Z.leb_le; apply Z.leb_le in Hab; apply Z.leb_le in Hbc;
    eapply compare_trans; eassumption.
Qed.

Lemma StronglySorted_nth {A : Type} (R : A -> A -> Prop) (l : list A) :
  StronglySorted R l ->
  forall i j a b, (i < j)%nat ->
    nth_error l i = Some a -> nth_error l j = Some b -> R a b.
Proof.
  induction 1 as [|x l Hs IH Hall]; intros i j a b Hij Hi Hj.
  - destruct i; discriminate Hi.
  - destruct j as [|j]; [lia|]. simpl in Hj. destruct i as [|i].
    + simpl in Hi. injection Hi as <-.
      rewrite Forall_forall in Hall. apply Hall.
      eapply nth_error_In. exact Hj.
    + simpl in Hi. apply (IH i j); [lia|assumption|assumption].
Qed.

Lemma suggestions_sorted (limit : Z) (apps : list steam_app)
  (t : string) (i j : nat) (ni nj : string) :
  T = normalizeStringServer t ->
  (i < j)%nat ->
  nth_error (suggestions_for E t limit apps) i = Some ni ->
  nth_error (suggestions_for E t limit apps) j = Some nj ->
  (by_prefix_then_name E T (candidate_of ni) (candidate_of nj) <= 0)%Z.
Proof.
  intros HT Hij Hi Hj. rewrite suggestions_for_eq, nth_error_map in Hi, Hj.
  rewrite <- HT in Hi, Hj. fold leb in Hi, Hj.
  destruct (nth_error _ i) as [ci|] eqn:Hci; [|discriminate Hi].
  destruct (nth_error _ j) as [cj|] eqn:Hcj; [|discriminate Hj].
  simpl in Hi, Hj. injection Hi as <-. injection Hj as <-.
  apply slice0_nth in Hci, Hcj.
  assert (Hcand : forall c,
             In c (order_by leb
                     (map (fun app => candidate_of (name app)) (matching t apps))) ->
             c = candidate_of (originalName c)).
  { intros c Hc. apply order_by_In, in_map_iff in Hc.
    destruct Hc as (app & <- & _). reflexivity. }
  rewrite <- (Hcand ci) by (eapply nth_error_In; exact Hci).
  rewrite <- (Hcand cj) by (eapply nth_error_In; exact Hcj).
  apply Z.leb_le.
  apply (StronglySorted_nth (fun a b => leb a b = true) _
           (order_by_sorted leb by_prefix_total by_prefix_trans _)
           i j ci cj Hij Hci Hcj).
Qed.

End PrefixFirst.

(** X6. Let [localeCompare] be a total preorder.  In the array the endpoint
    sends, a name whose normal form starts with the normalised term never
    comes after one whose normal form merely contains it, and within each
    of the two groups the names come in the order [localeCompare] gives
    their normal forms. *)
Theorem prefix_matches_come_first (E : env) (term limit : option string)
  (w : world) (names : list string) (i j : nat) (ni nj : string) :
  (forall a b, (localeCompare E a b <= 0)%Z \/ (localeCompare E b a <= 0)%Z) ->
  (forall a b c, (localeCompare E a b <= 0)%Z -> (localeCompare E b c <= 0)%Z ->
                 (localeCompare E a c <= 0)%Z) ->
  fst (search_steam_games E term limit w)
  = Ret {| status := 200; body := JNames names |} ->
  (i < j)%nat ->
  nth_error names i = Some ni -> nth_error names j = Some nj ->
  let T := normalizeStringServer (term_of term) in
  (startsWith (normalizeStringServer nj) T = true ->
   startsWith (normalizeStringServer ni) T = true) /\
  (startsWith (normalizeStringServer ni) T
   = startsWith (normalizeStringServer nj) T ->
   (localeCompare E (normalizeStringServer ni) (normalizeStringServer nj) <= 0)%Z).
Proof.
  intros Htotal Htrans Hr Hij Hi Hj T.
  rewrite search_steam_games_eq in Hr. simpl in Hr. injection Hr as <-.
  destruct (negb (truthy (term_of term))
            || (String.length (term_of term) <? 2)%nat);
    [destruct i; discriminate Hi|].
  pose proof (suggestions_sorted E Htotal Htrans T (limit_of limit)
                (steamAppsCache (after_refresh E w)) (term_of term)
                i j ni nj eq_refl Hij Hi Hj) as Hle.
  unfold by_prefix_then_name, candidate_of in Hle. simpl in Hle.
  destruct (startsWith (normalizeStringServer ni) T),
    (startsWith (normalizeStringServer nj) T); simpl in Hle;
    split; intros H; try reflexivity; try discriminate H; try lia;
    exact Hle.
Qed.

Lemma compare_code_units_total (a b : string) :
  (Samples.compare_code_units a b <= 0)%Z \/
  (Samples.compare_code_units b a <= 0)%Z.
Proof.
  unfold Samples.compare_code_units. rewrite (String.compare_antisym a b).
  destruct (String.compare b a); simpl; lia.
Qed.

Lemma compare_code_units_trans (a b c : string) :
  (Samples.compare_code_units a b <= 0)%Z ->
  (Samples.compare_code_units b c <= 0)%Z ->
  (Samples.compare_code_units a c <= 0)%Z.
Proof.
  unfold Samples.compare_code_units.
  destruct (String.compare a b) eqn:Hab; intros H1; try lia;
    destruct (String.compare b c) eqn:Hbc; intros H2; try lia.
  - apply String.compare_eq_iff in Hab, Hbc. subst.
    rewrite string_compare_refl. lia.
  - apply String.compare_eq_iff in Hab. subst. rewrite Hbc. lia.
  - apply String.compare_eq_iff in Hbc. subst. rewrite Hab. lia.
  - rewrite (string_compare_lt_trans _ _ _ Hab Hbc). lia.
Qed.

Lemma prefix_matches_come_first_witness :
  let T := normalizeStringServer (term_of (Some " port ")) in
  (startsWith (normalizeStringServer "Deportal") T = true ->
   startsWith (normalizeStringServer "Portal") T = true) /\
  (startsWith (normalizeStringServer "Portal") T
   = startsWith (normalizeStringServer "Deportal") T ->
   (localeCompare Samples.calm (normalizeStringServer "Portal")
      (normalizeStringServer "Deportal") <= 0)%Z).
Proof.
  exact (prefix_matches_come_first Samples.calm (Some " port ") (Some "10")
           (set_steamApps [mkApp "Deportal" 7; mkApp "Hades" 1145360;
                           mkApp "Portal" 400] 0
              (Samples.fresh [] []))
           ["Portal"; "Deportal"] 0 1 "Portal" "Deportal"
           compare_code_units_total compare_code_units_trans
           eq_refl (le_n 1) eq_refl eq_refl).
Defined.

(** X7. While the cached app list is not empty and was fetched no more than
    twenty-four hours ago, a search request leaves the process state as it
    found it: no fetch of the app list, no change of the cache. *)
Theorem fresh_app_list_is_not_fetched (E : env) (term limit : option string)
  (w : world) :
  steamAppsCache w <> [] ->
  (clock E (now w) - lastSteamAppsFetchTime w <= STEAM_APPS_CACHE_DURATION)%Z ->
  snd (search_steam_games E term limit w) = w.
Proof.
  intros Hne Hfresh. rewrite search_steam_games_eq. simpl.
  unfold after_refresh, refresh_due.
  destruct (steamAppsCache w) as [|a l]; [contradiction|]. simpl.
  destruct (_ >? _)%Z eqn:Hgt; [|reflexivity].
  apply Z.gtb_lt in Hgt. lia.
Qed.

Lemma fresh_app_list_is_not_fetched_witness :
  snd (search_steam_games Samples.calm (Some "port") None
         (set_steamApps [mkApp "Portal" 400] 0 (Samples.fresh [] [])))
  = set_steamApps [mkApp "Portal" 400] 0 (Samples.fresh [] []).
Proof.
  apply (fresh_app_list_is_not_fetched Samples.calm (Some "port") None
           (set_steamApps [mkApp "Portal" 400] 0 (Samples.fresh [] []))).
  - discriminate.
  - vm_compute. discriminate.
Defined.

Lemma seen_name_iff (earlier : list steam_app) (a : steam_app) :
  existsb (fun b => String.eqb (name b) (name a)) earlier = true <->
  In (name a) (map name earlier).
Proof.
  rewrite existsb_exists, in_map_iff. split.
  - intros (b & Hb & Heq). apply String.eqb_eq in Heq. exists b. auto.
  - intros (b & Heq & Hb). exists b. split; [exact Hb|].
    apply String.eqb_eq. exact Heq.
Qed.

Lemma first_by_name_In (l earlier : list steam_app) (a : steam_app) :
  In a (first_by_name earlier l) -> In a l.
Proof.
  revert earlier. induction l as [|x t IH]; intros earlier H; [exact H|].
  simpl in H. destruct (existsb _ earlier).
  - right. eapply IH. exact H.
  - destruct H as [->|H]; [left; reflexivity|right; eapply IH; exact H].
Qed.

Lemma first_by_name_names (l earlier : list steam_app) (n : string) :
  In n (map name (first_by_name earlier l)) <->
  In n (map name l) /\ ~ In n (map name earlier).
Proof.
  revert earlier. induction l as [|x t IH]; intros earlier.
  - simpl. tauto.
  - simpl.
    destruct (existsb (fun b => String.eqb (name b) (name x)) earlier) eqn:Hseen.
    + apply seen_name_iff in Hseen. rewrite IH, map_app, in_app_iff. simpl.
      split.
      * intros [Ht Hno]. split; [right; exact Ht|tauto].
      * intros [[Hx|Ht] Hno]; [subst n; contradiction|].
        split; [exact Ht|].
        intros [He|[Hx|[]]]; [contradiction|subst n; contradiction].
    + assert (Hnew : ~ In (name x) (map name earlier)).
      { intros Hin. apply seen_name_iff in Hin. congruence. }
      simpl. rewrite IH, map_app, in_app_iff. simpl. split.
      * intros [Hx|[Ht Hno]]; [subst n; tauto|tauto].
      * intros [[Hx|Ht] Hno]; [left; exact Hx|].
        destruct (string_dec (name x) n) as [Hx|Hx]; [left; exact Hx|].
        right. split; [exact Ht|]. intros [He|[Hx'|[]]]; contradiction.
Qed.

Lemma first_by_name_NoDup (l earlier : list steam_app) :
  NoDup (map name (first_by_name earlier l)).
Proof.
  revert earlier. induction l as [|x t IH]; intros earlier; [constructor|].
  simpl. destruct (existsb _ earlier); [apply IH|].
  simpl. constructor; [|apply IH].
  rewrite first_by_name_names, map_app, in_app_iff. simpl. tauto.
Qed.

Lemma is_game_true (app : steam_app) :
  is_game app = true <->
  trim (name app) <> "" /\
  forall keyword, In keyword NON_GAME_KEYWORDS ->
    includes (toLowerCase (name app)) keyword = false.
Proof.
  unfold is_game.
  assert (Hblank : forall s, truthy s = false <-> s = "")
    by (intros [|c r]; simpl; split; congruence).
  assert (Hkw : negb (existsb (fun keyword => includes (toLowerCase (name app)) keyword)
                        NON_GAME_KEYWORDS) = true <->
                forall keyword, In keyword NON_GAME_KEYWORDS ->
                  includes (toLowerCase (name app)) keyword = false).
  { rewrite negb_true_iff. split.
    - intros H keyword Hin.
      destruct (includes (toLowerCase (name app)) keyword) eqn:Hinc; [|reflexivity].
      assert (Hex : existsb (fun keyword => includes (toLowerCase (name app)) keyword)
                      NON_GAME_KEYWORDS = true)
        by (apply existsb_exists; exists keyword; auto).
      congruence.
    - intros H.
      destruct (existsb _ NON_GAME_KEYWORDS) eqn:Hex; [|reflexivity].
      apply existsb_exists in Hex. destruct Hex as (keyword & Hin & Hinc).
      rewrite (H keyword Hin) in Hinc. discriminate Hinc. }
  destruct (truthy (name app)) eqn:Hn; simpl.
  - destruct (truthy (trim (name app))) eqn:Ht; simpl.
    + rewrite Hkw. split; [intros H; split; [|exact H]|tauto].
      intros Heq. rewrite Heq in Ht. discriminate Ht.
    + apply Hblank in Ht. split; [discriminate|tauto].
  - apply Hblank in Hn. split; [discriminate|].
    intros [Hne _]. rewrite Hn in Hne. exfalso. apply Hne. reflexivity.
Qed.

(** X8. After the app list has been fetched, the cache holds only entries of
    the reply whose name is not blank and contains, in lower case, none of
    the non-game keywords; no name occurs twice; every entry of the reply
    with such a name has its name in the cache; and the time of the fetch is
    the clock's reading taken after the reply. *)
Theorem fetched_app_list_is_filtered (E : env) (w : world)
  (rawApps : list steam_app) :
  app_list E (now w) = AppList rawApps ->
  let w' := snd (fetchAndCacheSteamApps E w) in
  NoDup (map name (steamAppsCache w')) /\
  (forall app, In app (steamAppsCache w') ->
     In app rawApps /\ trim (name app) <> "" /\
     forall keyword, In keyword NON_GAME_KEYWORDS ->
       includes (toLowerCase (name app)) keyword = false) /\
  (forall app, In app rawApps -> is_game app = true ->
     In (name app) (map name (steamAppsCache w'))) /\
  lastSteamAppsFetchTime w' = clock E (S (now w)).
Proof.
  intros Hreply. unfold fetchAndCacheSteamApps. rewrite Hreply. simpl.
  set (leb := fun a b : steam_app => (localeCompare E (name a) (name b) <=? 0)%Z).
  set (kept := first_by_name [] (filter is_game rawApps)).
  split; [|split; [|split]].
  - eapply Permutation_NoDup;
      [apply Permutation_sym, Permutation_map, (order_by_perm leb)|].
    apply first_by_name_NoDup.
  - intros app Hin. apply order_by_In in Hin.
    apply first_by_name_In, filter_In in Hin. destruct Hin as [Hraw Hgame].
    split; [exact Hraw|]. apply is_game_true. exact Hgame.
  - intros app Hraw Hgame.
    apply (Permutation_in _ (Permutation_sym
                               (Permutation_map name (order_by_perm leb kept)))).
    apply first_by_name_names. split; [|intros []].
    apply in_map. apply filter_In. split; assumption.
  - reflexivity.
Qed.

Lemma fetched_app_list_is_filtered_witness :
  let E := {| db_err := fun _ => None; db_null_rows := fun _ => false;
              sql_random := fun _ i => Z.of_nat i;
              http_get := fun _ _ => None; div_text := fun h => h;
              localeCompare := Samples.compare_code_units;
              app_list := fun _ => AppList [mkApp "Portal 2" 620;
                                            mkApp "Portal 2 Soundtrack" 621;
                                            mkApp "  " 5;
                                            mkApp "Portal 2" 999;
                                            mkApp "Hades" 1145360];
              clock := fun t => Z.of_nat t |} in
  map name (steamAppsCache (snd (fetchAndCacheSteamApps E (Samples.fresh [] []))))
  = ["Hades"; "Portal 2"] /\
  NoDup (map name (steamAppsCache
                     (snd (fetchAndCacheSteamApps E (Samples.fresh [] []))))).
Proof.
  intros E. split; [reflexivity|].
  exact (proj1 (fetched_app_list_is_filtered E (Samples.fresh [] []) _ eq_refl)).
Defined.

(** X9. When a refresh of the app list is due and the fetch fails or the
    reply has not the expected shape, the request is still answered 200,
    with suggestions drawn from the list cached before; the cache and the
    time of the last fetch stay as they were, so that, the clock not running
    backwards, the next request finds the refresh due again. *)
Theorem failed_refresh_serves_old_list (E : env) (term limit : option string)
  (w : world) :
  refresh_due E w = true ->
  app_list E (now w) = AppListFailed \/ app_list E (now w) = AppListMalformed ->
  let w' := snd (search_steam_games E term limit w) in
  (exists names,
     fst (search_steam_games E term limit w)
     = Ret {| status := 200; body := JNames names |} /\
     forall n, In n names ->
       exists app, In app (steamAppsCache w) /\ name app = n) /\
  log w' = EvFetchAppList :: log w /\
  steamAppsCache w' = steamAppsCache w /\
  lastSteamAppsFetchTime w' = lastSteamAppsFetchTime w /\
  ((clock E (now w) <= clock E (now w'))%Z -> refresh_due E w' = true).
Proof.
  intros Hdue Hfail.
  assert (Hw' : after_refresh E w = record EvFetchAppList w).
  { unfold after_refresh. rewrite Hdue. unfold fetchAndCacheSteamApps.
    destruct Hfail as [-> | ->]; reflexivity. }
  pose proof (search_answer_sound E term limit w)
    as (names & Hrun & Hsound).
  rewrite Hrun. cbn [fst snd]. rewrite Hw' in *.
  split; [|split; [|split; [|split]]]; try reflexivity.
  - exists names. split; [reflexivity|].
    intros n Hn. destruct (Hsound n Hn) as (t & app & _ & _ & Hin & Hname & _).
    exists app. split; assumption.
  - intros Hclock. unfold refresh_due in *. simpl.
    apply orb_true_iff in Hdue. apply orb_true_iff.
    destruct Hdue as [He|Hs]; [left; exact He|right].
    apply Z.gtb_lt. apply Z.gtb_lt in Hs. lia.
Qed.

Lemma failed_refresh_serves_old_list_witness :
  fst (search_steam_games Samples.calm (Some "port") None (Samples.fresh [] []))
  = Ret {| status := 200; body := JNames [] |} /\
  log (snd (search_steam_games Samples.calm (Some "port") None
              (Samples.fresh [] [])))
  = [EvFetchAppList].
Proof.
  split; [reflexivity|].
  exact (proj1 (proj2 (failed_refresh_serves_old_list Samples.calm (Some "port")
                         None (Samples.fresh [] []) eq_refl
                         (or_introl eq_refl)))).
Defined.

(* ------------------------------------------------------------------ *)
(** ** The fields [scrapeSteamReview] extracts *)

Lemma startsWith_nil (s : string) : startsWith s "" = true.
Proof. destruct s; reflexivity. Qed.

Lemma startsWith_refl (s : string) : startsWith s s = true.
Proof.
  induction s as [|c r IH]; [reflexivity|].
  simpl. rewrite Ascii.eqb_refl. exact IH.
Qed.

Lemma includes_char_cons (c d : ascii) (r : string) :
  includes (String d r) (String c "") = false <->
  d <> c /\ includes r (String c "") = false.
Proof.
  change (includes (String d r) (String c ""))
    with (Ascii.eqb c d && startsWith r "" || includes r (String c "")).
  rewrite startsWith_nil, andb_true_r, orb_false_iff. split.
  - intros [Hc Hr]. split; [|exact Hr].
    intros ->. rewrite Ascii.eqb_refl in Hc. discriminate Hc.
  - intros [Hc Hr]. split; [|exact Hr].
    apply Ascii.eqb_neq. congruence.
Qed.

Lemma includes_app_r (a b : string) : includes (a ++ b) b = true.
Proof.
  induction a as [|c r IH]; simpl.
  - destruct b; simpl; [reflexivity|].
    rewrite Ascii.eqb_refl, startsWith_refl. reflexivity.
  - rewrite IH. apply orb_true_r.
Qed.

Lemma until_rparen_app (inner post : string) :
  includes inner ")" = false ->
  until_rparen (inner ++ String ")" post) = Some inner.
Proof.
  induction inner as [|c r IH]; intros Hfree; [reflexivity|].
  apply includes_char_cons in Hfree. destruct Hfree as [Hc Hr].
  simpl. unfold RPAREN.
  destruct (Ascii.eqb c ")") eqn:He; [apply Ascii.eqb_eq in He; contradiction|].
  rewrite (IH Hr). reflexivity.
Qed.

Lemma includes_char_app (c : ascii) (a b : string) :
  includes a (String c "") = false -> includes b (String c "") = false ->
  includes (a ++ b) (String c "") = false.
Proof.
  induction a as [|d r IH]; intros Ha Hb; [exact Hb|].
  apply includes_char_cons in Ha. destruct Ha as [Hd Hr].
  change (String d r ++ b) with (String d (r ++ b)).
  apply includes_char_cons. split; [exact Hd|apply IH; assumption].
Qed.

Lemma string_length_app (a b : string) :
  String.length (a ++ b) = String.length a + String.length b.
Proof. induction a as [|c r IH]; [reflexivity|]. simpl. rewrite IH. reflexivity. Qed.

Lemma string_eqb_longer (c : ascii) (r suffix : string) :
  String.eqb (String c (r ++ suffix)) suffix = false.
Proof.
  destruct (String.eqb (String c (r ++ suffix)) suffix) eqn:He; [|reflexivity].
  apply String.eqb_eq in He. apply (f_equal String.length) in He.
  simpl in He. rewrite string_length_app in He. lia.
Qed.

Lemma ends_with_strip_app (g suffix : string) :
  ends_with_strip suffix (g ++ suffix) = Some g.
Proof.
  induction g as [|c r IH].
  - simpl. destruct suffix; simpl.
    + reflexivity.
    + rewrite Ascii.eqb_refl, String.eqb_refl. reflexivity.
  - change (String c r ++ suffix) with (String c (r ++ suffix)).
    cbn [ends_with_strip]. rewrite string_eqb_longer, IH. reflexivity.
Qed.

Lemma string_app_assoc (a b c : string) : (a ++ b) ++ c = a ++ (b ++ c).
Proof. induction a as [|x r IH]; [reflexivity|]. simpl. rewrite IH. reflexivity. Qed.

Lemma at_review_time_here_found (g post : string) :
  g <> "" -> includes g ")" = false ->
  at_review_time_here (String "(" (g ++ " at review time)" ++ post)) = Some g.
Proof.
  intros Hg Hfree. unfold at_review_time_here, LPAREN. simpl Ascii.eqb. cbv iota.
  change (g ++ " at review time)" ++ post)
    with (g ++ (" at review time" ++ String ")" post)).
  rewrite <- string_app_assoc, until_rparen_app
    by (apply includes_char_app; [exact Hfree|reflexivity]).
  rewrite ends_with_strip_app.
  destruct g; [contradiction|reflexivity].
Qed.

Lemma at_review_time_match_skips (pre rest : string) :
  includes pre "(" = false ->
  at_review_time_match (pre ++ rest) = at_review_time_match rest.
Proof.
  induction pre as [|c r IH]; intros Hfree; [reflexivity|].
  apply includes_char_cons in Hfree. destruct Hfree as [Hc Hr].
  change (String c r ++ rest) with (String c (r ++ rest)).
  cbn [at_review_time_match at_review_time_here]. unfold LPAREN.
  destruct (Ascii.eqb c "(") eqn:He; [apply Ascii.eqb_eq in He; contradiction|].
  apply IH. exact Hr.
Qed.

Lemma at_review_time_match_truthy (s g : string) :
  at_review_time_match s = Some g -> truthy g = true.
Proof.
  induction s as [|c r IH]; [discriminate|].
  cbn [at_review_time_match].
  destruct (at_review_time_here (String c r)) as [g'|] eqn:Hhere.
  - intros H. injection H as <-. unfold at_review_time_here in Hhere.
    destruct (Ascii.eqb c LPAREN); [|discriminate Hhere].
    destruct (until_rparen r) as [inner|]; [|discriminate Hhere].
    destruct (ends_with_strip " at review time" inner) as [g0|];
      [|discriminate Hhere].
    destruct (truthy g0) eqn:Ht; [|discriminate Hhere].
    injection Hhere as <-. exact Ht.
  - exact IH.
Qed.

(** X10. When the trimmed play-time text reads [... (G at review time) ...]
    with no opening parenthesis before that one, [G] not empty and free of
    closing parentheses, the playtime of the record is [G]. *)
Theorem playtime_at_review_time_is_extracted (p : page) (pre g post : string) :
  trim (play_time_text p) = pre ++ "(" ++ g ++ " at review time)" ++ post ->
  includes pre "(" = false ->
  g <> "" -> includes g ")" = false ->
  extract_playtime p = g.
Proof.
  intros Htext Hpre Hg Hfree. unfold extract_playtime. rewrite Htext.
  rewrite (at_review_time_match_skips pre _ Hpre).
  change ("(" ++ g ++ " at review time)" ++ post)
    with (String "(" (g ++ " at review time)" ++ post)).
  cbn [at_review_time_match]. rewrite (at_review_time_here_found g post Hg Hfree).
  reflexivity.
Qed.

Lemma playtime_at_review_time_is_extracted_witness :
  extract_playtime Samples.full_page = "17.4 hrs".
Proof.
  apply (playtime_at_review_time_is_extracted Samples.full_page
           "3.0 hrs last two weeks / 51.2 hrs on record " "17.4 hrs" "").
  - reflexivity.
  - reflexivity.
  - discriminate.
  - reflexivity.
Defined.

Lemma truthy_true (s : string) : truthy s = true <-> s <> "".
Proof. destruct s; simpl; split; congruence. Qed.

Lemma append_nonempty (a b : string) : a <> "" -> a ++ b <> "".
Proof. destruct a; [contradiction|discriminate]. Qed.

(** X11. Every record the parser builds has a reviewer name, a
    recommendation, a playtime and a date that are not empty, and an avatar
    address that is absent or not empty.  The review text has no such
    guarantee: an HTML body of white space gives the empty text. *)
Theorem parsed_fields_are_never_empty (div_text : string -> string) (p : page) :
  let r := parse_review div_text p in
  reviewerName r <> "" /\
  reviewerAvatarUrl r <> Some "" /\
  recommendation r <> "" /\
  playtime r <> "" /\
  datePosted r <> "" /\
  reviewText (parse_review (fun h => h)
                (mkPage "" "" None None "" "" "" (Some " "))) = "".
Proof.
  cbv zeta. simpl.
  split; [|split; [|split; [|split; [|split]]]].
  - unfold extract_reviewerName.
    destruct (truthy (trim (persona_name_text p))) eqn:H1;
      [apply truthy_true; exact H1|].
    destruct (truthy (trim (header_name_text p))) eqn:H2;
      [apply truthy_true; exact H2|discriminate].
  - unfold extract_reviewerAvatarUrl.
    destruct (truthy_opt (avatar_last_child_src p)) eqn:H1; simpl.
    + rewrite H1. intros H. rewrite H in H1. discriminate H1.
    + destruct (truthy_opt (avatar_second_img_src p)) eqn:H2; [|discriminate].
      intros H. rewrite H in H2. discriminate H2.
  - unfold extract_recommendation.
    destruct (truthy (trim (rating_summary_text p))) eqn:H1;
      [apply truthy_true; exact H1|discriminate].
  - unfold extract_playtime.
    destruct (at_review_time_match (trim (play_time_text p))) as [g|] eqn:Hm.
    + apply truthy_true. eapply at_review_time_match_truthy. exact Hm.
    + destruct (truthy (trim (play_time_text p))); [|discriminate].
      destruct (fallbackPlaytime (trim (play_time_text p))) as [fb|];
        [|discriminate].
      destruct (truthy fb) eqn:Hfb; [|discriminate].
      apply truthy_true in Hfb.
      destruct (includes fb "hrs"); simpl.
      * destruct (String.eqb fb "hrs"); [discriminate|exact Hfb].
      * destruct (String.eqb (fb ++ " hrs") "hrs"); [discriminate|].
        apply append_nonempty. exact Hfb.
  - unfold extract_datePosted.
    destruct (truthy (replace_first "Posted: " ""
                        (trim (recommendation_date_text p)))) eqn:H1;
      [apply truthy_true; exact H1|discriminate].
  - reflexivity.
Qed.

(** X12. Outside the at-review-time case the playtime of a record is the
    text [Playtime not shown] or a text that contains [hrs] and is not
    [hrs] alone. *)
Theorem fallback_playtime_mentions_hours (p : page) :
  at_review_time_match (trim (play_time_text p)) = None ->
  extract_playtime p = "Playtime not shown" \/
  (includes (extract_playtime p) "hrs" = true /\ extract_playtime p <> "hrs").
Proof.
  intros Hm. unfold extract_playtime. rewrite Hm.
  destruct (truthy (trim (play_time_text p))); [|left; reflexivity].
  destruct (fallbackPlaytime (trim (play_time_text p))) as [fb|];
    [|left; reflexivity].
  destruct (truthy fb); [|left; reflexivity].
  destruct (includes fb "hrs") eqn:Hinc; simpl.
  - destruct (String.eqb fb "hrs") eqn:He; [left; reflexivity|right].
    split; [exact Hinc|]. apply String.eqb_neq. exact He.
  - destruct (String.eqb (fb ++ " hrs") "hrs") eqn:He; [left; reflexivity|right].
    split; [|apply String.eqb_neq; exact He].
    change " hrs" with (" " ++ "hrs"). rewrite <- string_app_assoc.
    apply includes_app_r.
Qed.

Lemma fallback_playtime_mentions_hours_witness :
  extract_playtime (mkPage "" "" None None "" "1.0 / 7 on record" "" None)
  = "Playtime not shown" \/
  (includes
     (extract_playtime (mkPage "" "" None None "" "1.0 / 7 on record" "" None))
     "hrs" = true /\
   extract_playtime (mkPage "" "" None None "" "1.0 / 7 on record" "" None)
   <> "hrs").
Proof.
  apply (fallback_playtime_mentions_hours
           (mkPage "" "" None None "" "1.0 / 7 on record" "" None)).
  reflexivity.
Defined.

(* ------------------------------------------------------------------ *)
(** ** The daily-game endpoint *)

Lemma or_else_nonempty (a b : string) : b <> "" -> or_else a b <> "".
Proof.
  intros Hb. unfold or_else. destruct (truthy a) eqn:Ha; [|exact Hb].
  apply truthy_true. exact Ha.
Qed.

Lemma fetchReviews_answers (E : env) (game : selection) (w : world) :
  exists r, fst (fetchReviewsForGameAndRespond E game w) = Ret r /\
    ((status r = 200 /\
      exists reviews,
        body r = JGame (GameData (sel_title game) (sel_steam_app_id game) reviews)) \/
     (status r = 500 /\ exists m, body r = JError m /\ m <> "")).
Proof.
  destruct (db_err E (now w)) as [m|] eqn:Herr;
    [|destruct (db_null_rows E (now w)) eqn:Hnull].
  - eexists. split.
    + run. rewrite Herr. simpl. reflexivity.
    + right. split; [reflexivity|]. eexists. split; [reflexivity|discriminate].
  - eexists. split.
    + run. rewrite Herr, Hnull. simpl. reflexivity.
    + right. split; [reflexivity|]. eexists. split; [reflexivity|discriminate].
  - rewrite (fetchReviews_ok E game w Herr Hnull). eexists. split; [reflexivity|].
    left. split; [reflexivity|]. eexists. reflexivity.
Qed.

Lemma replay_answers (g : gameData) :
  (status (replay g) = 200 /\
   exists t a reviews, body (replay g) = JGame (GameData t a reviews)) \/
  (status (replay g) = 500 /\ exists m, body (replay g) = JError m /\ m <> "").
Proof.
  unfold replay. destruct g; simpl.
  - left. split; [reflexivity|]. do 3 eexists. reflexivity.
  - right. split; [reflexivity|]. eexists. split; [reflexivity|].
    apply or_else_nonempty. discriminate.
  - right. split; [reflexivity|]. eexists. split; [reflexivity|].
    apply or_else_nonempty. discriminate.
Qed.

Lemma respond_with_answers (g : gameData) :
  (status (respond_with g) = 200 /\
   exists t a reviews, body (respond_with g) = JGame (GameData t a reviews)) \/
  (status (respond_with g) = 500 /\
   exists m, body (respond_with g) = JError m /\ m <> "").
Proof.
  unfold respond_with. destruct g; simpl.
  - left. split; [reflexivity|]. do 3 eexists. reflexivity.
  - right. split; [reflexivity|]. eexists. split; [reflexivity|].
    apply or_else_nonempty. discriminate.
  - right. split; [reflexivity|]. eexists. split; [reflexivity|].
    apply or_else_nonempty. discriminate.
Qed.

(** X13. Neither revision of the handler ever rejects.  Provided each store
    operation and each fetch of a review page settles, with a result or
    with an error (an operation that never settles is outside this
    development), the request is answered, with status 200 and a body
    [{ title, appId, reviews }] or with status 500 and an error body,
    [{ error: <text> }] with a text that is not empty or, in the caching
    revision, [{ error: true, message }]. *)
Theorem daily_game_never_rejects (E : env) (todayStr : string) (w : world) :
  (exists r, fst (daily_game E todayStr w) = Ret r /\
     ((status r = 200 /\
       exists t a reviews, body r = JGame (GameData t a reviews)) \/
      (status r = 500 /\ exists m, body r = JError m /\ m <> ""))) /\
  (exists r, fst (daily_game_cached E todayStr w) = Ret r /\
     ((status r = 200 /\
       exists t a reviews, body r = JGame (GameData t a reviews)) \/
      (status r = 500 /\
       ((exists m, body r = JError m /\ m <> "") \/
        exists m, body r = JGame (ErrorData m))))).
Proof.
  split.
  - rewrite daily_game_unfold.
    destruct (select_daily_game E todayStr w) as [[[g|]|msg] w'].
    + destruct (fetchReviews_answers E g w') as (r & Hr & [[Hs Hb]|Hf]).
      * exists r. split; [exact Hr|]. left. split; [exact Hs|].
        destruct Hb as [reviews Hb]. do 3 eexists. exact Hb.
      * exists r. split; [exact Hr|]. right. exact Hf.
    + eexists. split; [reflexivity|]. right. split; [reflexivity|].
      eexists. split; [reflexivity|discriminate].
    + eexists. split; [reflexivity|]. right. split; [reflexivity|].
      eexists. split; [reflexivity|discriminate].
  - destruct (cache_lookup todayStr (dailyGameCache w)) as [g|] eqn:Hc.
    + rewrite (daily_game_cached_hit _ _ _ _ Hc). cbn [fst].
      exists (replay g). split; [reflexivity|].
      destruct (replay_answers g) as [H|[Hs Hb]]; [left; exact H|].
      right. split; [exact Hs|left; exact Hb].
    + rewrite (daily_game_cached_miss _ _ _ Hc).
      destruct (select_daily_game E todayStr w) as [[[g|]|msg] w'].
      * destruct (getAndScrape_returns E g w') as [full Hfull]. rewrite Hfull.
        cbn [fst]. exists (respond_with full). split; [reflexivity|].
        destruct (respond_with_answers full) as [H|[Hs Hb]]; [left; exact H|].
        right. split; [exact Hs|left; exact Hb].
      * eexists. split; [reflexivity|]. right. split; [reflexivity|].
        right. eexists. reflexivity.
      * eexists. split; [reflexivity|]. right. split; [reflexivity|].
        right. eexists. reflexivity.
Qed.

Lemma set_last_played_same (todayStr : string) (g : game_row) :
  last_played_on g = Some todayStr -> set_last_played todayStr g = g.
Proof. destruct g; simpl; intros ->; reflexivity. Qed.

Lemma mark_played_In (todayStr : string) (g : game_row) (gs : list game_row) :
  In g gs -> In (set_last_played todayStr g) (mark_played todayStr (id g) gs).
Proof.
  intros Hin. unfold mark_played. apply in_map_iff. exists g.
  split; [|exact Hin]. rewrite Z.eqb_refl. reflexivity.
Qed.

Lemma selection_is_active_and_stamped (E : env) (todayStr : string)
  (w w' : world) (s : selection) :
  select_daily_game E todayStr w = (Ret (Some s), w') ->
  exists g, s = project g /\ In g (games w) /\ is_active g = true /\
            In (set_last_played todayStr g) (games w').
Proof.
  intros Hsel. apply select_daily_game_inv in Hsel.
  inversion Hsel; subst.
  - match goal with H : select_played_today _ _ = Some _ |- _ =>
      apply select_played_today_some in H;
      destruct H as (g & Hin & Hact & Hd & ->) end.
    exists g. simpl. rewrite (set_last_played_same _ _ Hd). auto.
  - match goal with H : select_unplayed _ _ = Some _ |- _ =>
      apply select_unplayed_some in H;
      destruct H as (j & g & Hj & -> & _) end.
    apply nth_error_In, unplayed_active_In in Hj. destruct Hj as (Hin & _ & Hact).
    exists g. simpl. split; [reflexivity|]. split; [exact Hin|].
    split; [exact Hact|]. apply mark_played_In. exact Hin.
  - match goal with H : select_least_recent _ _ = Some _ |- _ =>
      apply select_least_recent_some in H;
      destruct H as (j & g & Hj & -> & _) end.
    apply nth_error_In, filter_In in Hj. destruct Hj as (Hin & Hact).
    exists g. simpl. split; [reflexivity|]. split; [exact Hin|].
    split; [exact Hact|]. apply mark_played_In. exact Hin.
Qed.

Lemma games_of_fetchReviews (E : env) (game : selection) (w : world) :
  games (snd (fetchReviewsForGameAndRespond E game w)) = games w.
Proof.
  destruct (fetchReviews_returns E game w) as [r Hr]. rewrite Hr. simpl.
  rewrite games_record_all. reflexivity.
Qed.

Lemma games_of_getAndScrape (E : env) (game : selection) (w : world) :
  games (snd (getAndScrapeReviewDataForGame E game w)) = games w.
Proof.
  destruct (getAndScrape_returns E game w) as [r Hr]. rewrite Hr. simpl.
  rewrite games_record_all. reflexivity.
Qed.

(** X14. A 200 answer always carries the title and appId of a row of
    [games] that is active, and once the request is served that row carries
    today's date in [last_played_on]; an inactive row is never served.
    This holds for the revision without cache and, on a request that does
    not find the day in the cache slot, for the caching one. *)
Theorem served_game_is_active_and_stamped (E : env) (todayStr : string)
  (w : world) (r : response) :
  status r = 200 ->
  (fst (daily_game E todayStr w) = Ret r ->
   exists g reviews,
     In g (games w) /\ is_active g = true /\
     body r = JGame (GameData (title g) (steam_app_id g) reviews) /\
     In (set_last_played todayStr g) (games (snd (daily_game E todayStr w)))) /\
  (cache_lookup todayStr (dailyGameCache w) = None ->
   fst (daily_game_cached E todayStr w) = Ret r ->
   exists g reviews,
     In g (games w) /\ is_active g = true /\
     body r = JGame (GameData (title g) (steam_app_id g) reviews) /\
     In (set_last_played todayStr g)
       (games (snd (daily_game_cached E todayStr w)))).
Proof.
  intros Hs. split.
  - rewrite daily_game_unfold.
    destruct (select_daily_game E todayStr w) as [[[s|]|msg] w'] eqn:Hsel.
    + destruct (selection_is_active_and_stamped _ _ _ _ _ Hsel)
        as (g & -> & Hin & Hact & Hstamp).
      intros Hr. destruct (fetchReviews_body _ _ _ _ Hr Hs) as [reviews Hb].
      exists g, reviews. rewrite games_of_fetchReviews. auto.
    + simpl. intros Hr. injection Hr as <-. discriminate Hs.
    + simpl. intros Hr. injection Hr as <-. discriminate Hs.
  - intros Hmiss. rewrite (daily_game_cached_miss _ _ _ Hmiss).
    destruct (select_daily_game E todayStr w) as [[[s|]|msg] w'] eqn:Hsel.
    + destruct (selection_is_active_and_stamped _ _ _ _ _ Hsel)
        as (g & -> & Hin & Hact & Hstamp).
      pose proof (games_of_getAndScrape E (project g) w') as Hg.
      pose proof (getAndScrape_title E (project g) w') as Htitle.
      destruct (getAndScrapeReviewDataForGame E (project g) w')
        as [[full|m] w''] eqn:Hfull.
      * cbn [fst snd] in *. intros Hr. injection Hr as <-.
        assert (He : gameData_error full = false).
        { unfold respond_with in Hs.
          destruct (gameData_error full); [discriminate Hs|reflexivity]. }
        destruct (Htitle full eq_refl He) as [reviews ->].
        exists g, reviews. unfold with_cache. simpl. rewrite Hg. auto.
      * cbn [fst]. intros Hr. injection Hr as <-. discriminate Hs.
    + simpl. intros Hr. injection Hr as <-. discriminate Hs.
    + simpl. intros Hr. injection Hr as <-. discriminate Hs.
Qed.

Lemma served_game_is_active_and_stamped_witness :
  exists g reviews,
    In g [Samples.retired; Samples.hades] /\ is_active g = true /\
    JGame (GameData "Hades" "1145360" []) 
    = JGame (GameData (title g) (steam_app_id g) reviews) /\
    In (set_last_played "2024-05-01" g)
      (games (snd (daily_game Samples.calm "2024-05-01"
                     (Samples.fresh [Samples.retired; Samples.hades] [])))).
Proof.
  exact (proj1 (served_game_is_active_and_stamped Samples.calm "2024-05-01"
                  (Samples.fresh [Samples.retired; Samples.hades] [])
                  {| status := 200; body := JGame (GameData "Hades" "1145360" []) |}
                  eq_refl) eq_refl).
Defined.

Lemma selector_path_trace (E : env) (todayStr : string) (w w' : world)
  (o : outcome (option selection)) :
  selector_path E todayStr w o w' ->
  exists es,
    log w' = (es ++ EvSelectPlayedToday todayStr :: log w)%list /\
    fetched_urls es = [] /\
    game_reviews w' = game_reviews w /\
    dailyGameCache w' = dailyGameCache w.
Proof.
  intros H. inversion H; subst; unfold marked; simpl;
    match goal with
    | |- exists es, ?a :: ?b :: ?c :: ?x :: log w = _ /\ _ => exists [a; b; c]
    | |- exists es, ?a :: ?b :: ?x :: log w = _ /\ _ => exists [a; b]
    | |- exists es, ?a :: ?x :: log w = _ /\ _ => exists [a]
    | |- exists es, ?x :: log w = _ /\ _ => exists []
    end; repeat split; reflexivity.
Qed.

Lemma fetched_urls_app (l1 l2 : list event) :
  fetched_urls (l1 ++ l2) = (fetched_urls l1 ++ fetched_urls l2)%list.
Proof. unfold fetched_urls. apply flat_map_app. Qed.

Lemma fetched_urls_rev_gets (urls : list string) :
  fetched_urls (rev (map EvHttpGet urls)) = rev urls.
Proof.
  induction urls as [|u t IH]; [reflexivity|].
  simpl. rewrite fetched_urls_app, IH. reflexivity.
Qed.

Lemma select_review_urls_length (gid : Z) (reviews : list review_row) :
  (List.length (select_review_urls gid reviews) <= 6)%nat.
Proof.
  unfold select_review_urls, review_rows_of.
  rewrite length_map, length_firstn. lia.
Qed.

(** X15. In the caching revision the first request of a day settles the
    day: it leaves an entry for that day in the cache slot, and from then on
    any number of requests for the same day are all answered by replaying
    that entry, be it a payload or an error, while the process state
    (catalog, cache slot, log of store and network operations) stays
    exactly as the first request left it. *)
Theorem cache_freezes_the_day (E : env) (todayStr : string) (w : world)
  (n : nat) :
  let h := daily_game_cached E todayStr in
  let w1 := snd (h w) in
  exists g,
    cache_lookup todayStr (dailyGameCache w1) = Some g /\
    repeat_request h n w1 = w1 /\
    h (repeat_request h n w1) = (Ret (replay g), w1).
Proof.
  cbv zeta.
  destruct (cache_filled_by_first_call E todayStr w) as (g & Hg & _).
  exists g. split; [exact Hg|].
  pose proof (daily_game_cached_hit E todayStr _ g Hg) as Hhit.
  fold (replay g) in Hhit.
  assert (Hn : repeat_request (daily_game_cached E todayStr) n
                 (snd (daily_game_cached E todayStr w))
               = snd (daily_game_cached E todayStr w)).
  { induction n as [|k IH]; [reflexivity|].
    simpl. rewrite Hhit. simpl. exact IH. }
  rewrite Hn. split; [reflexivity|exact Hhit].
Qed.

Lemma cache_date_of_with_cache (todayStr : string) (g : gameData) (w : world) :
  dailyGameCache (with_cache todayStr g w)
  = {| cache_date := Some todayStr; cache_gameData := Some g |}.
Proof. reflexivity. Qed.

Lemma log_of_with_cache (todayStr : string) (g : gameData) (w : world) :
  log (with_cache todayStr g w) = log w.
Proof. reflexivity. Qed.

(** X16. The cache slot holds one day.  A request for a day other than the
    one in the slot starts by asking the catalog for the game of the new
    day, and when it is served the slot is dated with the new day: the
    entry of the earlier day is gone and is not served again. *)
Theorem cache_slot_holds_one_day (E : env) (todayStr earlier : string)
  (w : world) :
  cache_date (dailyGameCache w) = Some earlier -> earlier <> todayStr ->
  let w' := snd (daily_game_cached E todayStr w) in
  cache_date (dailyGameCache w') = Some todayStr /\
  cache_lookup earlier (dailyGameCache w') = None /\
  exists es, log w' = (es ++ EvSelectPlayedToday todayStr :: log w)%list.
Proof.
  intros Hdate Hne.
  assert (Hmiss : cache_lookup todayStr (dailyGameCache w) = None).
  { unfold cache_lookup. rewrite Hdate.
    destruct (String.eqb earlier todayStr) eqn:He; [|reflexivity].
    apply String.eqb_eq in He. contradiction. }
  assert (Hstale : forall g w0,
             cache_lookup earlier (dailyGameCache (with_cache todayStr g w0)) = None).
  { intros g w0. rewrite cache_date_of_with_cache. unfold cache_lookup. simpl.
    destruct (String.eqb todayStr earlier) eqn:He; [|reflexivity].
    apply String.eqb_eq in He. congruence. }
  rewrite (daily_game_cached_miss _ _ _ Hmiss).
  pose proof (select_daily_game_path E todayStr w) as Hpath.
  apply selector_path_trace in Hpath. destruct Hpath as (es & Hlog & _).
  destruct (select_daily_game E todayStr w) as [[[g|]|msg] w0]; cbn [fst snd] in *.
  - destruct (getAndScrape_returns E g w0) as [full Hfull]. rewrite Hfull.
    cbn [snd]. split; [reflexivity|]. split; [apply Hstale|].
    rewrite log_of_with_cache, log_record_all. simpl. rewrite Hlog.
    match goal with
    | |- exists _, (?a ++ ?b :: es ++ _)%list = _ => exists (a ++ b :: es)%list
    end.
    rewrite <- app_assoc. reflexivity.
  - split; [reflexivity|]. split; [apply Hstale|].
    exists es. rewrite log_of_with_cache. exact Hlog.
  - split; [reflexivity|]. split; [apply Hstale|].
    exists es. rewrite log_of_with_cache. exact Hlog.
Qed.

Lemma cache_slot_holds_one_day_witness :
  let w := snd (daily_game_cached Samples.calm "2024-05-01"
                  (Samples.fresh [Samples.portal2; Samples.hades] [])) in
  cache_date (dailyGameCache (snd (daily_game_cached Samples.calm "2024-05-02" w)))
  = Some "2024-05-02".
Proof.
  intros w.
  exact (proj1 (cache_slot_holds_one_day Samples.calm "2024-05-02" "2024-05-01"
                  w eq_refl ltac:(discriminate))).
Defined.

(** X17. The review pages a request of the revision without cache fetches
    are, in order, exactly the review URLs stored for the game it serves,
    one fetch for each, at most six; a request answered with status 500
    fetches none. *)
Theorem only_the_served_reviews_are_fetched (E : env) (todayStr : string)
  (w : world) (r : response) :
  fst (daily_game E todayStr w) = Ret r ->
  let w' := snd (daily_game E todayStr w) in
  (status r = 200 ->
   exists g reviews,
     In g (games w) /\
     body r = JGame (GameData (title g) (steam_app_id g) reviews) /\
     rev (fetched_urls (new_events w w'))
     = select_review_urls (id g) (game_reviews w) /\
     List.length reviews
     = List.length (select_review_urls (id g) (game_reviews w))) /\
  (status r = 500 -> fetched_urls (new_events w w') = []) /\
  (List.length (fetched_urls (new_events w w')) <= 6)%nat.
Proof.
  cbv zeta. rewrite daily_game_unfold.
  pose proof (select_daily_game_path E todayStr w) as Hpath.
  apply selector_path_trace in Hpath.
  destruct Hpath as (es & Hlog & Hquiet & Hrev & _).
  destruct (select_daily_game E todayStr w) as [[[s|]|msg] w0] eqn:Hsel;
    cbn [fst snd] in *.
  - destruct (selection_is_active_and_stamped _ _ _ _ _ Hsel)
      as (g & -> & Hin & _ & _).
    destruct (db_err E (now w0)) as [m|] eqn:Herr;
      [|destruct (db_null_rows E (now w0)) eqn:Hnull].
    + destruct (fetchReviews_failed E (project g) w0) as [msg Hf];
        [left; congruence|].
      rewrite Hf. cbn [fst snd]. intros Hr. injection Hr as <-.
      assert (Hnew : new_events w (record (EvSelectReviewUrls (sel_id (project g))) w0)
                     = EvSelectReviewUrls (sel_id (project g))
                       :: (es ++ [EvSelectPlayedToday todayStr])%list).
      { apply new_events_app. simpl. rewrite Hlog, <- app_assoc. reflexivity. }
      rewrite Hnew. simpl. rewrite fetched_urls_app, Hquiet. simpl.
      split; [discriminate|]. split; [reflexivity|lia].
    + destruct (fetchReviews_failed E (project g) w0) as [msg Hf];
        [right; exact Hnull|].
      rewrite Hf. cbn [fst snd]. intros Hr. injection Hr as <-.
      assert (Hnew : new_events w (record (EvSelectReviewUrls (sel_id (project g))) w0)
                     = EvSelectReviewUrls (sel_id (project g))
                       :: (es ++ [EvSelectPlayedToday todayStr])%list).
      { apply new_events_app. simpl. rewrite Hlog, <- app_assoc. reflexivity. }
      rewrite Hnew. simpl. rewrite fetched_urls_app, Hquiet. simpl.
      split; [discriminate|]. split; [reflexivity|lia].
    + rewrite (fetchReviews_ok E (project g) w0 Herr Hnull). cbn [fst snd].
      intros Hr. injection Hr as <-.
      set (urls := select_review_urls (sel_id (project g)) (game_reviews w0)).
      assert (Hnew : new_events w
                       (record_all (map EvHttpGet urls)
                          (record (EvSelectReviewUrls (sel_id (project g))) w0))
                     = (rev (map EvHttpGet urls)
                        ++ EvSelectReviewUrls (sel_id (project g))
                           :: es ++ [EvSelectPlayedToday todayStr])%list).
      { apply new_events_app. rewrite log_record_all. simpl. rewrite Hlog.
        rewrite <- !app_assoc. simpl. rewrite <- app_assoc. reflexivity. }
      rewrite Hnew, fetched_urls_app, fetched_urls_rev_gets. simpl.
      rewrite fetched_urls_app, Hquiet. simpl. rewrite app_nil_r.
      subst urls. simpl sel_id. rewrite Hrev.
      split; [|split].
      * intros _. exists g. eexists. split; [exact Hin|].
        split; [reflexivity|]. split; [apply rev_involutive|].
        apply resolve_all_length.
      * discriminate.
      * rewrite length_rev. apply select_review_urls_length.
  - intros Hr. injection Hr as <-.
    assert (Hnew : new_events w w0 = (es ++ [EvSelectPlayedToday todayStr])%list)
      by (apply new_events_app; rewrite Hlog, <- app_assoc; reflexivity).
    rewrite Hnew, fetched_urls_app, Hquiet. simpl.
    split; [discriminate|]. split; [reflexivity|lia].
  - intros Hr. injection Hr as <-.
    assert (Hnew : new_events w w0 = (es ++ [EvSelectPlayedToday todayStr])%list)
      by (apply new_events_app; rewrite Hlog, <- app_assoc; reflexivity).
    rewrite Hnew, fetched_urls_app, Hquiet. simpl.
    split; [discriminate|]. split; [reflexivity|lia].
Qed.

Lemma only_the_served_reviews_are_fetched_witness :
  let w := Samples.fresh [Samples.portal2] Samples.portal_reviews in
  exists g reviews,
    In g (games w) /\
    JGame (GameData "Portal 2" "620"
             [resolve Samples.calm 3 Samples.url1; resolve Samples.calm 4 Samples.url2])
    = JGame (GameData (title g) (steam_app_id g) reviews) /\
    rev (fetched_urls (new_events w (snd (daily_game Samples.calm "2024-05-01" w))))
    = select_review_urls (id g) (game_reviews w) /\
    List.length reviews
    = List.length (select_review_urls (id g) (game_reviews w)).
Proof.
  intros w.
  exact (proj1 (only_the_served_reviews_are_fetched Samples.calm "2024-05-01" w
                  {| status := 200;
                     body := JGame (GameData "Portal 2" "620"
                                      [resolve Samples.calm 3 Samples.url1;
                                       resolve Samples.calm 4 Samples.url2]) |}
                  eq_refl) eq_refl).
Defined.

(* ------------------------------------------------------------------ *)
(** ** The page script *)

Lemma firstn_S_nth {A : Type} (l : list A) (n : nat) (x : A) :
  nth_error l n = Some x -> firstn (S n) l = (firstn n l ++ [x])%list.
Proof.
  revert n. induction l as [|y t IH]; intros [|n] H; try discriminate H.
  - simpl in H. injection H as ->. reflexivity.
  - simpl in H. change (firstn (S (S n)) (y :: t)) with (y :: firstn (S n) t).
    rewrite (IH n H). reflexivity.
Qed.

Lemma reveal_from_app (index total : Z) (l : list clue) (c : clue) :
  reveal_from index total (l ++ [c])
  = (reveal_from index total l
     ++ [ClueCard (index + Z.of_nat (List.length l) + 1) total c])%list.
Proof.
  revert index. induction l as [|x t IH]; intros index;
    cbn [app reveal_from List.length].
  - replace (index + Z.of_nat 0 + 1)%Z with (index + 1)%Z by lia. reflexivity.
  - rewrite IH.
    replace (index + 1 + Z.of_nat (List.length t) + 1)%Z
      with (index + Z.of_nat (S (List.length t)) + 1)%Z by lia.
    reflexivity.
Qed.

Lemma play_app (a b : list string) (s : ui) :
  play (a ++ b) s = play b (play a s).
Proof. unfold play. apply fold_left_app. Qed.

Lemma play_over (values : list string) (s : ui) :
  isGameOver s = true -> play values s = s.
Proof.
  intros Hover. induction values as [|v vs IH]; [reflexivity|].
  change (play (v :: vs) s) with (play vs (handleGuess v s)).
  assert (Hsame : handleGuess v s = s)
    by (unfold handleGuess; rewrite Hover; reflexivity).
  rewrite Hsame. exact IH.
Qed.

Ltac fields :=
  cbn [currentGame currentReviewIndex guessesLeft isGameOver shareGrid
       inputDisabled reviewsContainer previousGuesses loadingText verdict
       revealedTitle storeLink alerts].

Section Game.

Variables (t a : string) (reviews : list clue).

Hypothesis has_title : t <> "".

Hypothesis has_clues : reviews <> [].

Let j : json := JGame (GameData t a reviews).

Let m : nat := Nat.min 6 (List.length reviews).

Lemma initGame_playing (s0 : ui) :
  playing j [] (initGame (HttpAnswer {| status := 200; body := j |}) s0).
Proof.
  unfold initGame, fetchDailyGame. simpl.
  apply truthy_true in has_title. rewrite has_title. simpl.
  destruct reviews as [|c rest] eqn:Hr; [contradiction|]. simpl.
  unfold displayNextReview. simpl. unfold playing. simpl.
  repeat split; reflexivity.
Qed.

Lemma handleGuess_blank (gs : list string) (value : string) (s : ui) :
  playing j gs s -> truthy (trim value) = false ->
  playing j gs (handleGuess value s).
Proof.
  intros (Hg & Hover & Hdis & Hrest) Hblank.
  unfold handleGuess. rewrite Hover, Hdis, Hblank. simpl.
  unfold playing. simpl. auto.
Qed.

Lemma handleGuess_right (gs : list string) (value : string) (s : ui) :
  playing j gs s -> truthy (trim value) = true ->
  normalizeString (trim value) = normalizeString t ->
  over j true (repeat Red (List.length gs) ++ [Green])%list gs
    (handleGuess value s).
Proof.
  intros (Hg & Hover & Hdis & Hv & Hi & Hl & Hgrid & Hprev & Hc) Hvalue Hsame.
  unfold handleGuess. rewrite Hover, Hdis, Hvalue, Hg. simpl.
  apply truthy_true in has_title. rewrite has_title. simpl.
  rewrite Hsame, String.eqb_refl.
  unfold endGame, note_guess. simpl. rewrite Hg. unfold over. simpl.
  rewrite Hgrid, Hprev. repeat split; reflexivity.
Qed.

Lemma handleGuess_wrong (gs : list string) (value : string) (s : ui) :
  playing j gs s -> (List.length gs < m)%nat ->
  truthy (trim value) = true ->
  normalizeString (trim value) <> normalizeString t ->
  ((S (List.length gs) < m)%nat ->
   playing j (gs ++ [trim value]) (handleGuess value s)) /\
  ((m <= S (List.length gs))%nat ->
   over j false (repeat Red m) (gs ++ [trim value]) (handleGuess value s)).
Proof.
  intros (Hg & Hover & Hdis & Hv & Hi & Hl & Hgrid & Hprev & Hc) Hn Hvalue Hwrong.
  assert (Hstep : handleGuess value s
                  = let s1 := note_guess Red (trim value) s in
                    if (guessesLeft s1 <=? 0)%Z then endGame false s1
                    else if (currentReviewIndex s1
                             <? Z.of_nat (List.length reviews))%Z
                         then displayNextReview s1
                         else endGame false s1).
  { unfold handleGuess. rewrite Hover, Hdis, Hvalue, Hg. simpl.
    apply truthy_true in has_title. rewrite has_title. simpl.
    apply String.eqb_neq in Hwrong. rewrite Hwrong. reflexivity. }
  rewrite Hstep. cbv zeta. clear Hstep.
  assert (Hend : over j false (repeat Red (S (List.length gs)))
                   (gs ++ [trim value])
                   (endGame false (note_guess Red (trim value) s))).
  { unfold endGame, note_guess. simpl. rewrite Hg. unfold over. simpl.
    rewrite Hgrid, Hprev, <- repeat_cons. repeat split; reflexivity. }
  unfold m in *. split.
  - intros Hmore.
    assert (H1 : (guessesLeft (note_guess Red (trim value) s) <=? 0)%Z = false)
      by (simpl; apply Z.leb_gt; lia).
    assert (H2 : (currentReviewIndex (note_guess Red (trim value) s)
                  <? Z.of_nat (List.length reviews))%Z = true)
      by (simpl; apply Z.ltb_lt; lia).
    rewrite H1, H2. unfold displayNextReview.
    change (currentGame (note_guess Red (trim value) s)) with (currentGame s).
    change (isGameOver (note_guess Red (trim value) s)) with (isGameOver s).
    change (currentReviewIndex (note_guess Red (trim value) s))
      with (currentReviewIndex s + 1)%Z.
    rewrite Hg, Hover. change (reviews_of j) with reviews. cbn [orb].
    assert (H3 : (Z.of_nat (List.length reviews) <=? currentReviewIndex s + 1)%Z
                 = false) by (apply Z.leb_gt; lia).
    rewrite H3.
    replace (Z.to_nat (currentReviewIndex s + 1)) with (S (List.length gs)) by lia.
    destruct (nth_error reviews (S (List.length gs))) as [c|] eqn:Hnth.
    + unfold playing, show, note_guess. fields.
      rewrite length_app. cbn [List.length].
      rewrite Hg, Hover, Hdis, Hv, Hi, Hl, Hgrid, Hprev, Hc.
      change (reviews_of j) with reviews.
      replace (List.length gs + 1)%nat with (S (List.length gs)) by lia.
      rewrite (firstn_S_nth reviews (S (List.length gs)) c Hnth), reveal_from_app.
      rewrite <- repeat_cons.
      assert (Hlen : List.length (firstn (S (List.length gs)) reviews)
                     = S (List.length gs))
        by (rewrite length_firstn; lia).
      rewrite Hlen.
      replace (0 + Z.of_nat (S (List.length gs)) + 1)%Z
        with (Z.of_nat (List.length gs) + 1 + 1)%Z by lia.
      repeat split; try reflexivity; lia.
    + apply nth_error_None in Hnth. lia.
  - intros Hlast.
    replace (Nat.min 6 (List.length reviews)) with (S (List.length gs)) by lia.
    destruct (guessesLeft (note_guess Red (trim value) s) <=? 0)%Z eqn:H1;
      [exact Hend|].
    destruct (currentReviewIndex (note_guess Red (trim value) s)
              <? Z.of_nat (List.length reviews))%Z eqn:H2; [|exact Hend].
    simpl in H1, H2. apply Z.leb_gt in H1. apply Z.ltb_lt in H2. lia.
Qed.

Lemma over_is_final (didWin : bool) (grid : list square) (gs : list string)
  (s : ui) (values : list string) :
  over j didWin grid gs s -> play values s = s.
Proof. intros (_ & Hover & _). apply play_over. exact Hover. Qed.

Lemma wrong_guesses_progress (values : list string) :
  forall (gs : list string) (s : ui),
    playing j gs s -> (List.length gs < m)%nat ->
    Forall (fun g => normalizeString g <> normalizeString t)
      (firstn (m - List.length gs) (entered values)) ->
    ((List.length gs + List.length (entered values) < m)%nat ->
     playing j (gs ++ entered values) (play values s)) /\
    ((m <= List.length gs + List.length (entered values))%nat ->
     over j false (repeat Red m) (firstn m (gs ++ entered values))
       (play values s)).
Proof.
  induction values as [|v vs IH]; intros gs s Hplay Hn Hwrong.
  - cbn [entered map filter List.length play fold_left].
    rewrite app_nil_r. split; [intros _; exact Hplay|lia].
  - change (play (v :: vs) s) with (play vs (handleGuess v s)).
    change (entered (v :: vs))
      with (if truthy (trim v) then trim v :: entered vs else entered vs) in *.
    destruct (truthy (trim v)) eqn:Hv.
    + destruct (m - List.length gs)%nat as [|d] eqn:Hd; [lia|].
      cbn [firstn] in Hwrong. inversion Hwrong as [|g gs' Hg Hrest]; subst.
      destruct (handleGuess_wrong gs v s Hplay Hn Hv Hg) as [Hmore Hlast].
      destruct (Nat.lt_ge_cases (S (List.length gs)) m) as [Hlt|Hge].
      * destruct (IH (gs ++ [trim v])%list (handleGuess v s) (Hmore Hlt))
          as [IH1 IH2];
          [rewrite length_app; cbn [List.length]; lia
          |rewrite length_app; cbn [List.length];
           replace (m - (List.length gs + 1))%nat with d by lia; exact Hrest|].
        rewrite length_app in IH1, IH2. cbn [List.length] in IH1, IH2.
        rewrite <- app_assoc in IH1, IH2. cbn [app] in IH1, IH2.
        cbn [List.length].
        split; intros H; [apply IH1|apply IH2]; lia.
      * split; [cbn [List.length]; lia|]. intros _.
        rewrite (over_is_final _ _ _ _ vs (Hlast Hge)).
        replace (firstn m (gs ++ trim v :: entered vs))
          with (gs ++ [trim v])%list; [exact (Hlast Hge)|].
        assert (Hm : m = List.length (gs ++ [trim v]))
          by (rewrite length_app; cbn [List.length]; lia).
        rewrite Hm.
        change (trim v :: entered vs) with ([trim v] ++ entered vs)%list.
        rewrite app_assoc, firstn_app, firstn_all, Nat.sub_diag.
        cbn [firstn]. rewrite app_nil_r. reflexivity.
    + apply (IH gs (handleGuess v s)); [|exact Hn|exact Hwrong].
      apply handleGuess_blank; assumption.
Qed.

End Game.

(** X18. A game loaded with a title and [k >= 1] clues gives the player
    [min 6 k] guesses.  Let the first [min 6 k] entries that are not blank
    be wrong guesses (their normal form is not the title's).  While fewer than [min 6 k] of
    them were entered the game is on: one clue more than wrong guesses is on
    display, in order, the counter shows six less the wrong guesses, the
    grid holds one red square for each.  From the [min 6 k]-th on the game
    is lost for good: the input is closed, the title and all [k] clues are
    revealed, the grid holds [min 6 k] red squares, and later entries,
    whatever they are, change nothing.  Blank entries never count. *)
Theorem wrong_guesses_use_up_the_game (t a : string) (reviews : list clue)
  (s0 : ui) (values : list string) :
  t <> "" -> reviews <> [] ->
  Forall (fun g => normalizeString g <> normalizeString t)
    (firstn (Nat.min 6 (List.length reviews)) (entered values)) ->
  let j := JGame (GameData t a reviews) in
  let s := play values (initGame (HttpAnswer {| status := 200; body := j |}) s0) in
  let m := Nat.min 6 (List.length reviews) in
  ((List.length (entered values) < m)%nat -> playing j (entered values) s) /\
  ((m <= List.length (entered values))%nat ->
   over j false (repeat Red m) (firstn m (entered values)) s).
Proof.
  intros Ht Hr Hwrong. cbv zeta.
  apply (wrong_guesses_progress t a reviews Ht values []
           _ (initGame_playing t a reviews Ht Hr s0)).
  - simpl. destruct reviews; [contradiction|simpl; lia].
  - simpl List.length. rewrite Nat.sub_0_r. exact Hwrong.
Qed.

Lemma wrong_guesses_use_up_the_game_witness :
  over (JGame (GameData "Portal 2" "620"
                 [scrape_failed Samples.url1; scrape_failed Samples.url2]))
    false [Red; Red] ["Hades"; "portal"]
    (play ["Hades"; "  "; " portal "; "Portal 2"]
       (initGame
          (HttpAnswer
             {| status := 200;
                body := JGame (GameData "Portal 2" "620"
                                 [scrape_failed Samples.url1;
                                  scrape_failed Samples.url2]) |})
          blank)).
Proof.
  refine (proj2 (wrong_guesses_use_up_the_game "Portal 2" "620"
                   [scrape_failed Samples.url1; scrape_failed Samples.url2]
                   blank ["Hades"; "  "; " portal "; "Portal 2"] _ _ _) _).
  - discriminate.
  - discriminate.
  - vm_compute. repeat constructor; discriminate.
  - vm_compute. lia.
Defined.

(** X19. While the game is on, an entry whose trimmed text has the normal
    form of the title wins at once, whatever its case, spacing and
    punctuation: the input is closed, the title and all the clues are
    revealed, and the grid is one red square for each wrong guess before,
    closed by a green one. *)
Theorem right_guess_wins (t a : string) (reviews : list clue) (s0 : ui)
  (values : list string) (value : string) :
  t <> "" -> reviews <> [] ->
  Forall (fun g => normalizeString g <> normalizeString t) (entered values) ->
  (List.length (entered values) < Nat.min 6 (List.length reviews))%nat ->
  trim value <> "" ->
  normalizeString (trim value) = normalizeString t ->
  let j := JGame (GameData t a reviews) in
  over j true (repeat Red (List.length (entered values)) ++ [Green])%list
    (entered values)
    (play (values ++ [value])
       (initGame (HttpAnswer {| status := 200; body := j |}) s0)).
Proof.
  intros Ht Hr Hwrong Hn Hvalue Hsame. cbv zeta. rewrite play_app.
  destruct (wrong_guesses_progress t a reviews Ht values []
              _ (initGame_playing t a reviews Ht Hr s0)) as [Hplay _].
  - cbn [List.length]. lia.
  - cbn [List.length]. rewrite Nat.sub_0_r, firstn_all2 by lia. exact Hwrong.
  - apply (handleGuess_right t a reviews Ht (entered values) value).
    + apply Hplay. cbn [List.length plus]. exact Hn.
    + apply truthy_true. exact Hvalue.
    + exact Hsame.
Qed.

Lemma right_guess_wins_witness :
  over (JGame (GameData "Half-Life 2" "220"
                 [scrape_failed Samples.url1; scrape_failed Samples.url2]))
    true [Red; Green] ["Portal"]
    (play ["Portal"; "  half life 2!"]
       (initGame
          (HttpAnswer
             {| status := 200;
                body := JGame (GameData "Half-Life 2" "220"
                                 [scrape_failed Samples.url1;
                                  scrape_failed Samples.url2]) |})
          blank)).
Proof.
  refine (right_guess_wins "Half-Life 2" "220"
            [scrape_failed Samples.url1; scrape_failed Samples.url2]
            blank ["Portal"] "  half life 2!" _ _ _ _ _ _).
  - discriminate.
  - discriminate.
  - vm_compute. repeat constructor; discriminate.
  - vm_compute. lia.
  - vm_compute. discriminate.
  - reflexivity.
Defined.

Lemma play_disabled (values : list string) (s : ui) :
  inputDisabled s = true -> play values s = s.
Proof.
  intros Hdis. induction values as [|v vs IH]; [reflexivity|].
  change (play (v :: vs) s) with (play vs (handleGuess v s)).
  assert (Hsame : handleGuess v s = s)
    by (unfold handleGuess; rewrite Hdis, orb_true_r; reflexivity).
  rewrite Hsame. exact IH.
Qed.

Lemma payload_without_urls (E : env) (todayStr : string) (w0 w : world)
  (game : selection) :
  select_daily_game E todayStr w0 = (Ret (Some game), w) ->
  db_err E (now w) = None ->
  db_null_rows E (now w) = false ->
  (forall r, In r (game_reviews w0) -> game_id r <> sel_id game) ->
  fst (daily_game E todayStr w0)
  = Ret {| status := 200;
           body := JGame (GameData (sel_title game) (sel_steam_app_id game) []) |}.
Proof.
  intros Hsel Herr Hnull Hnone.
  destruct (games_of_select _ _ _ _ _ Hsel) as [Hrev _].
  rewrite (daily_game_after_selection _ _ _ _ _ Hsel).
  rewrite (fetchReviews_ok E game w Herr Hnull), Hrev.
  rewrite (select_review_urls_none _ _ Hnone). reflexivity.
Qed.

(** X20. A game that has no review URL in the store cannot be played.  The
    server answers 200 with [reviews: []]; the page takes that answer for
    incomplete, writes [Error loading today's game: Incomplete game data
    received from server.. Please try refreshing the page.] in place of the
    clues and closes the input, and no entry is accepted afterwards. *)
Theorem game_without_clues_is_refused (E : env) (todayStr : string)
  (w0 w : world) (game : selection) (s0 : ui) :
  select_daily_game E todayStr w0 = (Ret (Some game), w) ->
  db_err E (now w) = None ->
  db_null_rows E (now w) = false ->
  (forall r, In r (game_reviews w0) -> game_id r <> sel_id game) ->
  let s := initGame (received (fst (daily_game E todayStr w0))) s0 in
  inputDisabled s = true /\
  reviewsContainer s
  = [LoadError "Error loading today's game: Incomplete game data received from server.. Please try refreshing the page."] /\
  forall values, play values s = s.
Proof.
  intros Hsel Herr Hnull Hnone.
  rewrite (payload_without_urls _ _ _ _ _ Hsel Herr Hnull Hnone). cbv zeta.
  assert (Hs : initGame
                 (received
                    (Ret {| status := 200;
                            body := JGame (GameData (sel_title game)
                                             (sel_steam_app_id game) []) |}))
                 s0
               = load_failed "Incomplete game data received from server."
                   (set_currentGame
                      (JGame (GameData (sel_title game)
                                (sel_steam_app_id game) []))
                      s0)).
  { unfold initGame, received, fetchDailyGame. simpl.
    rewrite orb_true_r. reflexivity. }
  rewrite Hs. split; [reflexivity|]. split; [reflexivity|].
  intros values. apply play_disabled. reflexivity.
Qed.

Lemma game_without_clues_is_refused_witness :
  inputDisabled
    (initGame
       (received (fst (daily_game Samples.calm "2024-05-01"
                         (Samples.fresh [Samples.portal2] []))))
       blank)
  = true.
Proof.
  refine (proj1 (game_without_clues_is_refused Samples.calm "2024-05-01"
                   (Samples.fresh [Samples.portal2] [])
                   (snd (select_daily_game Samples.calm "2024-05-01"
                           (Samples.fresh [Samples.portal2] [])))
                   (project Samples.portal2) blank
                   eq_refl eq_refl eq_refl _)).
  simpl. intros r [].
Defined.

(** X21. When the selection of the day's game fails in the store, the page
    served by the revision without cache shows the server's text.  With the
    caching revision the page that made the first request of the day shows
    [Error loading today's game: true. ...], because that answer carries
    [error: true], and the pages that load later in the day, answered from
    the cache slot, show the server's text. *)
Theorem store_failure_on_the_page (E : env) (todayStr : string) (w : world)
  (msg : string) (s0 : ui) :
  fst (select_daily_game E todayStr w) = Throw msg ->
  let first := daily_game_cached E todayStr w in
  let second := daily_game_cached E todayStr (snd first) in
  reviewsContainer (initGame (received (fst (daily_game E todayStr w))) s0)
  = [LoadError "Error loading today's game: Internal server error while selecting daily game.. Please try refreshing the page."] /\
  (cache_lookup todayStr (dailyGameCache w) = None ->
   reviewsContainer (initGame (received (fst first)) s0)
   = [LoadError "Error loading today's game: true. Please try refreshing the page."] /\
   reviewsContainer (initGame (received (fst second)) s0)
   = [LoadError "Error loading today's game: Internal server error while selecting daily game.. Please try refreshing the page."]).
Proof.
  intros Hsel. cbv zeta. split.
  - rewrite daily_game_unfold.
    destruct (select_daily_game E todayStr w) as [o w'].
    simpl in Hsel. subst o. reflexivity.
  - intros Hmiss. rewrite (daily_game_cached_miss _ _ _ Hmiss).
    destruct (select_daily_game E todayStr w) as [o w'].
    simpl in Hsel. subst o. cbn [fst snd]. split; [reflexivity|].
    rewrite (daily_game_cached_hit E todayStr _ _
               (cache_lookup_stored todayStr _ w')).
    reflexivity.
Qed.

Lemma store_failure_on_the_page_witness :
  reviewsContainer
    (initGame
       (received (fst (daily_game_cached (Samples.store_fails_at 0) "2024-05-01"
                         (Samples.fresh [Samples.portal2] []))))
       blank)
  = [LoadError "Error loading today's game: true. Please try refreshing the page."].
Proof.
  exact (proj1 (proj2 (store_failure_on_the_page (Samples.store_fails_at 0)
                         "2024-05-01" (Samples.fresh [Samples.portal2] [])
                         "SQLITE_BUSY: database is locked" blank eq_refl)
                 eq_refl)).
Defined.

(* ------------------------------------------------------------------ *)
(** ** The first revision of the daily-game endpoint *)

Lemma gameOffset_in_range (diff totalGames : Z) :
  (0 < totalGames)%Z ->
  (Z.to_nat (DayOfYear.gameOffset diff totalGames) < Z.to_nat totalGames)%nat.
Proof.
  intros Hn. unfold DayOfYear.gameOffset.
  pose proof (Z.rem_bound_abs (DayOfYear.dayOfYear diff - 1) totalGames) as Hb.
  lia.
Qed.

Lemma select_at_offset_some (diff : Z) (games : list game_row) :
  games <> [] ->
  exists game,
    DayOfYear.select_at_offset
      (DayOfYear.gameOffset diff (Z.of_nat (List.length games))) games
    = Some game.
Proof.
  intros Hne. unfold DayOfYear.select_at_offset.
  destruct (nth_error (order_by DayOfYear.id_leb games)
              (Z.to_nat (DayOfYear.gameOffset diff (Z.of_nat (List.length games)))))
    as [game|] eqn:Hnth; [exists game; reflexivity|].
  apply nth_error_None in Hnth. rewrite order_by_length in Hnth.
  pose proof (gameOffset_in_range diff (Z.of_nat (List.length games))) as Hb.
  destruct games; [contradiction|]. simpl List.length in *. lia.
Qed.

Lemma day_of_year_selects_offset_helper (err : nat -> option string) (diff : Z)
  (games : list game_row) (reviews : list DayOfYear.image_row) :
  let r := DayOfYear.daily_game err diff games reviews in
  (DayOfYear.answer_status r = 200%nat \/ DayOfYear.answer_status r = 500%nat) /\
  (err 0%nat = None -> err 1%nat = None -> err 2%nat = None ->
   games <> [] -> (DayOfYear.oneDay <= diff)%Z ->
   exists game,
     nth_error (order_by DayOfYear.id_leb games)
       (Z.to_nat ((DayOfYear.dayOfYear diff - 1)
                  mod Z.of_nat (List.length games)))
     = Some game /\
     r = {| DayOfYear.answer_status := 200;
            DayOfYear.answer_body_of :=
              DayOfYear.Payload (title game) (steam_app_id game)
                (DayOfYear.select_review_images (id game) reviews) |}).
Proof.
  cbv zeta. unfold DayOfYear.daily_game. split.
  - destruct (err 0%nat); [right; reflexivity|].
    destruct (Z.of_nat (List.length games) =? 0)%Z eqn:Hn; [right; reflexivity|].
    destruct (err 1%nat); [right; reflexivity|].
    assert (Hne : games <> []) by (intros ->; discriminate Hn).
    destruct (select_at_offset_some diff games Hne) as [game ->].
    unfold DayOfYear.fetchReviewsForGameAndRespond.
    destruct (err 2%nat); [right|left]; reflexivity.
  - intros -> -> -> Hne Hdiff.
    assert (Hn : (Z.of_nat (List.length games) =? 0)%Z = false).
    { apply Z.eqb_neq. destruct games; [contradiction|]. simpl List.length. lia. }
    rewrite Hn.
    destruct (select_at_offset_some diff games Hne) as [game Hgame].
    rewrite Hgame. exists game. split; [|reflexivity].
    unfold DayOfYear.select_at_offset, DayOfYear.gameOffset in Hgame.
    rewrite Z.rem_mod_nonneg in Hgame; [exact Hgame| |lia].
    assert (1 <= DayOfYear.dayOfYear diff)%Z; [|lia].
    unfold DayOfYear.dayOfYear.
    apply Z.div_le_lower_bound; [reflexivity|lia].
Qed.

(** X22. The first revision picks the day's game by the calendar.  It never
    answers 404: the fallback to the first game is never needed, since the
    offset computed from the day of the year always falls inside the table.
    When the store answers and the table is not empty, the answer is 200
    with the game at position [(dayOfYear - 1) mod totalGames] of the table
    in the order of [id], and with its first six review images in
    [clue_order]. *)
Theorem day_of_year_selects_by_offset (err : nat -> option string) (diff : Z)
  (games : list game_row) (reviews : list DayOfYear.image_row) :
  let r := DayOfYear.daily_game err diff games reviews in
  (DayOfYear.answer_status r = 200%nat \/ DayOfYear.answer_status r = 500%nat) /\
  (err 0%nat = None -> err 1%nat = None -> err 2%nat = None ->
   games <> [] -> (DayOfYear.oneDay <= diff)%Z ->
   exists game,
     nth_error (order_by DayOfYear.id_leb games)
       (Z.to_nat ((DayOfYear.dayOfYear diff - 1)
                  mod Z.of_nat (List.length games)))
     = Some game /\
     r = {| DayOfYear.answer_status := 200;
            DayOfYear.answer_body_of :=
              DayOfYear.Payload (title game) (steam_app_id game)
                (DayOfYear.select_review_images (id game) reviews) |}).
Proof. apply day_of_year_selects_offset_helper. Qed.

Lemma day_of_year_selects_by_offset_witness :
  DayOfYear.daily_game DayOfYear.healthy (33 * DayOfYear.oneDay + 5)
    [Samples.hades; Samples.portal2; Samples.celeste] []
  = {| DayOfYear.answer_status := 200;
       DayOfYear.answer_body_of := DayOfYear.Payload "Celeste" "504230" [] |}.
Proof.
  destruct (proj2 (day_of_year_selects_by_offset DayOfYear.healthy
                     (33 * DayOfYear.oneDay + 5)
                     [Samples.hades; Samples.portal2; Samples.celeste] [])
              eq_refl eq_refl eq_refl ltac:(discriminate) ltac:(vm_compute; discriminate))
    as (game & Hgame & Hr).
  vm_compute in Hgame. injection Hgame as <-. exact Hr.
Defined.

Lemma nth_error_seq_all {A : Type} (l : list A) :
  map (nth_error l) (seq 0 (List.length l)) = map Some l.
Proof.
  induction l as [|x t IH]; [reflexivity|].
  simpl. f_equal. rewrite <- seq_shift, map_map. exact IH.
Qed.

Lemma shifted_indices_perm (s n : nat) :
  Permutation (map (fun k => (s + k) mod n) (seq 0 n)) (seq 0 n).
Proof.
  destruct n as [|n']; [constructor|]. set (n := S n').
  apply NoDup_Permutation_bis.
  - apply Finite.Injective_map_NoDup_in; [|apply seq_NoDup].
    intros k k' Hk Hk' Heq. apply in_seq in Hk, Hk'.
    pose proof (Nat.div_mod_eq (s + k) n) as E1.
    pose proof (Nat.div_mod_eq (s + k') n) as E2.
    rewrite Heq in E1.
    assert (Hq : (s + k) / n = (s + k') / n) by (subst n; nia).
    rewrite Hq in E1. lia.
  - rewrite length_map. apply Nat.le_refl.
  - intros i Hi. apply in_map_iff in Hi. destruct Hi as (k & <- & _).
    apply in_seq. split; [lia|]. change (0 + n)%nat with n.
    apply Nat.mod_upper_bound. discriminate.
Qed.

(** X23. In the first revision, as long as the store answers and the table
    does not change, requests at [totalGames] instants of one year whose
    day numbers follow one another serve every game of the table exactly
    once.  The day number is the one the handler computes, the whole
    periods of 24 hours elapsed since the midnight that opens the year; the
    instants need not be at the same time of day. *)
Theorem day_of_year_cycles_through_the_games (diff : nat -> Z)
  (games : list game_row) (reviews : list DayOfYear.image_row) :
  (DayOfYear.oneDay <= diff 0%nat)%Z ->
  (forall k, (k < List.length games)%nat ->
     DayOfYear.dayOfYear (diff k)
     = (DayOfYear.dayOfYear (diff 0%nat) + Z.of_nat k)%Z) ->
  Permutation
    (map (fun k =>
            DayOfYear.served
              (DayOfYear.daily_game DayOfYear.healthy (diff k) games reviews))
       (seq 0 (List.length games)))
    (map (fun g => Some (title g, steam_app_id g)) games).
Proof.
  intros Hdiff Hdays.
  destruct games as [|g0 rest] eqn:Hgames; [constructor|]. rewrite <- Hgames in *.
  assert (Hne : games <> []) by (rewrite Hgames; discriminate).
  clear Hgames g0 rest.
  set (n := List.length games) in *.
  set (sorted := order_by DayOfYear.id_leb games).
  set (s := Z.to_nat (DayOfYear.dayOfYear (diff 0%nat) - 1)).
  assert (Hday : (1 <= DayOfYear.dayOfYear (diff 0%nat))%Z).
  { unfold DayOfYear.dayOfYear. apply Z.div_le_lower_bound; [reflexivity|lia]. }
  assert (Hn : (0 < n)%nat).
  { subst n. destruct games; [contradiction|simpl; lia]. }
  assert (Hserved : forall k, In k (seq 0 n) ->
             DayOfYear.served
               (DayOfYear.daily_game DayOfYear.healthy (diff k) games reviews)
             = option_map (fun g => (title g, steam_app_id g))
                 (nth_error sorted ((s + k) mod n))).
  { intros k Hk. apply in_seq in Hk.
    assert (Hlater : DayOfYear.dayOfYear (diff k)
                     = (DayOfYear.dayOfYear (diff 0%nat) + Z.of_nat k)%Z)
      by (apply Hdays; lia).
    destruct (proj2 (day_of_year_selects_offset_helper DayOfYear.healthy
                       (diff k) games reviews)
                eq_refl eq_refl eq_refl Hne) as (game & Hgame & ->).
    { assert (Hk1 : (1 <= DayOfYear.dayOfYear (diff k))%Z) by lia.
      unfold DayOfYear.dayOfYear in Hk1.
      destruct (Z_lt_le_dec (diff k) DayOfYear.oneDay) as [Hlt|Hle];
        [|exact Hle].
      exfalso.
      assert (diff k / DayOfYear.oneDay < 1)%Z; [|lia].
      apply Z.div_lt_upper_bound; [reflexivity|lia]. }
    rewrite Hlater in Hgame.
    replace (Z.to_nat ((DayOfYear.dayOfYear (diff 0%nat) + Z.of_nat k - 1)
                       mod Z.of_nat (List.length games)))
      with ((s + k) mod n)%nat in Hgame.
    - fold sorted in Hgame. rewrite Hgame. reflexivity.
    - subst s n.
      replace (DayOfYear.dayOfYear (diff 0%nat) + Z.of_nat k - 1)%Z
        with (Z.of_nat (Z.to_nat (DayOfYear.dayOfYear (diff 0%nat) - 1) + k))
        by lia.
      rewrite <- Nat2Z.inj_mod, Nat2Z.id. reflexivity. }
  rewrite (map_ext_in _ _ _ Hserved).
  rewrite <- (map_map (fun k => (s + k) mod n)
                (fun i => option_map (fun g => (title g, steam_app_id g))
                            (nth_error sorted i))).
  eapply Permutation_trans;
    [apply Permutation_map, shifted_indices_perm|].
  replace n with (List.length sorted) by apply order_by_length.
  rewrite <- (map_map (nth_error sorted)
                (option_map (fun g => (title g, steam_app_id g)))).
  rewrite nth_error_seq_all, map_map. simpl.
  apply Permutation_map. apply order_by_perm.
Qed.

Lemma day_of_year_cycles_through_the_games_witness :
  Permutation
    (map (fun k =>
            DayOfYear.served
              (DayOfYear.daily_game DayOfYear.healthy
                 (nth k [33 * DayOfYear.oneDay + 43200000;
                         34 * DayOfYear.oneDay + 86399999;
                         35 * DayOfYear.oneDay]%Z 0%Z)
                 [Samples.hades; Samples.portal2; Samples.celeste] []))
       (seq 0 3))
    [Some ("Hades", "1145360"); Some ("Portal 2", "620");
     Some ("Celeste", "504230")].
Proof.
  apply (day_of_year_cycles_through_the_games
           (fun k => nth k [33 * DayOfYear.oneDay + 43200000;
                            34 * DayOfYear.oneDay + 86399999;
                            35 * DayOfYear.oneDay]%Z 0%Z)
           [Samples.hades; Samples.portal2; Samples.celeste] []).
  - vm_compute. discriminate.
  - intros k Hk. simpl in Hk.
    destruct k as [|[|[|k]]]; try reflexivity. lia.
Defined.

(* ------------------------------------------------------------------ *)
(** ** Seeding at start-up *)

Section Reseeding.

Variable sq : Seeding.sqlite.

Variable titles : list string.

Lemma same_entry_refl (g : game_row) : Seeding.same_entry g g.
Proof. repeat split. Qed.

Lemma same_entry_trans (g1 g2 g3 : game_row) :
  Seeding.same_entry g1 g2 -> Seeding.same_entry g2 g3 ->
  Seeding.same_entry g1 g3.
Proof.
  unfold Seeding.same_entry. intros (A1 & A2 & A3 & A4) (B1 & B2 & B3 & B4).
  repeat split; congruence.
Qed.

Lemma evolves_refl (gs : list game_row) : Seeding.evolves titles gs gs.
Proof.
  split.
  - intros g Hg. exists g. split; [exact Hg|apply same_entry_refl].
  - intros g Hg. left. exists g. split; [exact Hg|apply same_entry_refl].
Qed.

Lemma evolves_ids (gs gs' : list game_row) :
  Seeding.evolves titles gs gs' -> incl (map id gs) (map id gs').
Proof.
  intros [K _] x Hx. apply in_map_iff in Hx. destruct Hx as (g & <- & Hg).
  destruct (K g Hg) as (g' & Hg' & Hid & _). rewrite <- Hid.
  apply in_map. exact Hg'.
Qed.

Lemma evolves_trans (gs1 gs2 gs3 : list game_row) :
  Seeding.evolves titles gs1 gs2 -> Seeding.evolves titles gs2 gs3 ->
  Seeding.evolves titles gs1 gs3.
Proof.
  intros H12 H23. pose proof (evolves_ids _ _ H12) as Hids.
  destruct H12 as [K1 S1]. destruct H23 as [K2 S2]. split.
  - intros g Hg. destruct (K1 g Hg) as (g' & Hg' & E1).
    destruct (K2 g' Hg') as (g'' & Hg'' & E2).
    exists g''. split; [exact Hg''|eapply same_entry_trans; eassumption].
  - intros g'' Hg''. destruct (S2 g'' Hg'') as [(g' & Hg' & E2)|[Hnew Hid]].
    + destruct (S1 g' Hg') as [(g & Hg & E1)|[Hnew Hid]].
      * left. exists g. split; [exact Hg|eapply same_entry_trans; eassumption].
      * right. destruct E2 as (Ei & Et & El & Ea).
        destruct Hnew as (Hl & Ha & Ht).
        unfold Seeding.entered_now. rewrite El, Ea, Et, Ei. auto.
    + right. split; [exact Hnew|]. intros Hin. apply Hid, Hids, Hin.
Qed.

Lemma grows_done {A : Type} (a : A) : Seeding.grows titles (Seeding.done a).
Proof.
  intros st o st' H. unfold Seeding.done in H. injection H as _ <-.
  apply evolves_refl.
Qed.

Lemma grows_and_then {A B : Type} (m : Seeding.Run A) (k : A -> Seeding.Run B) :
  Seeding.grows titles m -> (forall a, Seeding.grows titles (k a)) ->
  Seeding.grows titles (Seeding.and_then m k).
Proof.
  intros Hm Hk st o st' H. unfold Seeding.and_then in H.
  destruct (m st) as [[a|msg] st1] eqn:Hrun.
  - eapply evolves_trans; [eapply Hm; exact Hrun|eapply Hk; exact H].
  - injection H as _ <-. eapply Hm. exact Hrun.
Qed.

Lemma grows_caught (m : Seeding.Run unit) :
  Seeding.grows titles m -> Seeding.grows titles (Seeding.caught m).
Proof.
  intros Hm st o st' H. unfold Seeding.caught in H.
  destruct (m st) as [[a|msg] st1] eqn:Hrun; injection H as _ <-;
    eapply Hm; exact Hrun.
Qed.

Lemma grows_statement {A : Type}
  (effect : Seeding.database -> outcome A * Seeding.database) :
  (forall db, Seeding.evolves titles (Seeding.stored_games db)
                (Seeding.stored_games (snd (effect db)))) ->
  Seeding.grows titles (Seeding.statement sq effect).
Proof.
  intros He [db k] o st' H. unfold Seeding.statement in H.
  destruct (Seeding.statement_err sq k).
  - injection H as _ <-. apply evolves_refl.
  - specialize (He db). destruct (effect db) as [o' db'].
    injection H as _ <-. exact He.
Qed.

Lemma grows_update (appId : string) (gameId : Z) :
  Seeding.grows titles (Seeding.update_steam_app_id sq appId gameId).
Proof.
  apply grows_statement. intros db. simpl. split.
  - intros g Hg. eexists. split; [apply in_map; exact Hg|].
    destruct (id g =? gameId)%Z; repeat split.
  - intros g' Hg'. apply in_map_iff in Hg'. destruct Hg' as (g & <- & Hg).
    left. exists g. split; [exact Hg|].
    destruct (id g =? gameId)%Z; repeat split.
Qed.

Lemma grows_delete_reviews (gameId : Z) :
  Seeding.grows titles (Seeding.delete_reviews sq gameId).
Proof. apply grows_statement. intros db. apply evolves_refl. Qed.

Lemma grows_insert_review (gameId : Z) (url : string) (clueOrder : Z) :
  Seeding.grows titles (Seeding.insert_review_or_ignore sq gameId url clueOrder).
Proof.
  apply grows_statement. intros db. simpl.
  destruct (existsb _ (Seeding.stored_reviews db)); apply evolves_refl.
Qed.

Lemma largest_id_bound (gs : list game_row) (g : game_row) :
  In g gs -> (id g <= Seeding.largest_id gs)%Z.
Proof.
  induction gs as [|x t IH]; intros Hg; [destruct Hg|].
  simpl. destruct Hg as [->|Hg]; [lia|]. specialize (IH Hg). lia.
Qed.

Lemma grows_insert_game (gameTitle appId : string) :
  In gameTitle titles ->
  Seeding.grows titles (Seeding.insert_game sq gameTitle appId).
Proof.
  intros Ht. apply grows_statement. intros db.
  destruct (existsb _ (Seeding.stored_games db)); [apply evolves_refl|].
  simpl. split.
  - intros g Hg. exists g. split; [|apply same_entry_refl].
    apply in_or_app. left. exact Hg.
  - intros g' Hg'. apply in_app_or in Hg'. destruct Hg' as [Hg'|[<-|[]]].
    + left. exists g'. split; [exact Hg'|apply same_entry_refl].
    + right. split; [repeat split; exact Ht|]. simpl.
      intros Hin. apply in_map_iff in Hin. destruct Hin as (g & Hid & Hg).
      pose proof (largest_id_bound _ _ Hg). lia.
Qed.

Lemma grows_insert_reviews (gameId : Z) (reviews : list string) :
  forall i, Seeding.grows titles (Seeding.insert_reviews sq gameId i reviews).
Proof.
  induction reviews as [|u rest IH]; intros i; simpl.
  - apply grows_done.
  - destruct (Seeding.usable_url u); [|apply IH].
    apply grows_and_then; [apply grows_insert_review|intros _; apply IH].
Qed.

Lemma grows_upsert (dbGames : list (Z * string)) (gameData : Seeding.seed) :
  In (Seeding.seed_title gameData) titles ->
  Seeding.grows titles (Seeding.upsert sq dbGames gameData).
Proof.
  intros Ht. unfold Seeding.upsert. destruct (find _ dbGames).
  - apply grows_and_then; [apply grows_update|intros _].
    apply grows_and_then; [apply grows_delete_reviews|intros _].
    apply grows_insert_reviews.
  - apply grows_and_then; [apply grows_insert_game; exact Ht|intros gameId].
    apply grows_insert_reviews.
Qed.

Lemma grows_upsert_all (dbGames : list (Z * string))
  (gamesToSeed : list Seeding.seed) :
  incl (map Seeding.seed_title gamesToSeed) titles ->
  Seeding.grows titles (Seeding.upsert_all sq dbGames gamesToSeed).
Proof.
  induction gamesToSeed as [|gameData rest IH]; intros Hincl; simpl.
  - apply grows_done.
  - apply grows_and_then.
    + destruct (Seeding.usable_seed gameData); [|apply grows_done].
      apply grows_caught, grows_upsert. apply Hincl. left. reflexivity.
    + intros _. apply IH. intros x Hx. apply Hincl. right. exact Hx.
Qed.

Lemma upsert_all_returns (dbGames : list (Z * string))
  (gamesToSeed : list Seeding.seed) (st : Seeding.database * nat) :
  exists st', Seeding.upsert_all sq dbGames gamesToSeed st = (Ret tt, st').
Proof.
  revert st. induction gamesToSeed as [|gameData rest IH]; intros st; simpl.
  - eexists. reflexivity.
  - unfold Seeding.and_then.
    destruct (Seeding.usable_seed gameData).
    + unfold Seeding.caught.
      destruct (Seeding.upsert sq dbGames gameData st) as [[[]|msg] st1];
        apply IH.
    + unfold Seeding.done. apply IH.
Qed.

Lemma clean_up_returns (dbGames : list (Z * string))
  (st : Seeding.database * nat) :
  exists st', Seeding.clean_up sq titles dbGames st = (Ret tt, st').
Proof.
  revert st. induction dbGames as [|d rest IH]; intros st; simpl.
  - eexists. reflexivity.
  - unfold Seeding.and_then.
    destruct (existsb (String.eqb (snd d)) titles).
    + unfold Seeding.done. apply IH.
    + unfold Seeding.caught.
      destruct (Seeding.delete_game sq (fst d) st) as [[[]|msg] st1]; apply IH.
Qed.

Lemma shrinks_clean_up (dbGames : list (Z * string)) :
  Seeding.shrinks titles dbGames (Seeding.clean_up sq titles dbGames).
Proof.
  induction dbGames as [|d rest IH]; intros st o st' H; simpl in H.
  - unfold Seeding.done in H. injection H as _ <-. auto.
  - unfold Seeding.and_then in H.
    destruct (existsb (String.eqb (snd d)) titles) eqn:Hkeep.
    + unfold Seeding.done in H at 1.
      destruct (IH _ _ _ H) as [Hsub Hkept]. split; [exact Hsub|].
      intros g Hg Hsafe. apply Hkept; [exact Hg|].
      intros d' Hd'. apply Hsafe. right. exact Hd'.
    + destruct st as [db k].
      unfold Seeding.caught, Seeding.delete_game, Seeding.statement in H.
      destruct (Seeding.statement_err sq k).
      * destruct (IH _ _ _ H) as [Hsub Hkept]. split; [exact Hsub|].
        intros g Hg Hsafe. apply Hkept; [exact Hg|].
        intros d' Hd'. apply Hsafe. right. exact Hd'.
      * destruct (IH _ _ _ H) as [Hsub Hkept]. simpl in Hsub, Hkept. split.
        -- intros g Hg. apply Hsub in Hg. apply filter_In in Hg. tauto.
        -- intros g Hg Hsafe. apply Hkept.
           ++ apply filter_In. split; [exact Hg|].
              apply negb_true_iff, Z.eqb_neq.
              apply (Hsafe d); [left; reflexivity|exact Hkeep].
           ++ intros d' Hd'. apply Hsafe. right. exact Hd'.
Qed.

End Reseeding.

Lemma same_id_same_game (l : list game_row) (g g' : game_row) :
  NoDup (map id l) -> In g l -> In g' l -> id g = id g' -> g = g'.
Proof.
  intros Hnd Hg Hg' Hid.
  apply In_nth_error in Hg, Hg'. destruct Hg as [a Ha]. destruct Hg' as [b Hb].
  exact (proj2 (same_id_same_row l a b g g' Hnd Ha Hb Hid)).
Qed.

Lemma seedInitialData_unfold (sq : Seeding.sqlite)
  (gamesToSeed : list Seeding.seed) :
  gamesToSeed <> [] ->
  Seeding.seedInitialData sq gamesToSeed
  = Seeding.and_then (Seeding.select_id_title sq)
      (fun dbGames =>
         Seeding.and_then (Seeding.upsert_all sq dbGames gamesToSeed)
           (fun _ =>
              Seeding.clean_up sq (map Seeding.seed_title gamesToSeed) dbGames)).
Proof. destruct gamesToSeed; [contradiction|reflexivity]. Qed.

Lemma and_then_run {A B : Type} (m : Seeding.Run A) (k : A -> Seeding.Run B)
  (st : Seeding.database * nat) :
  Seeding.and_then m k st
  = match m st with
    | (Ret a, st') => k a st'
    | (Throw msg, st') => (Throw msg, st')
    end.
Proof. reflexivity. Qed.

Lemma select_id_title_run (sq : Seeding.sqlite) (db : Seeding.database)
  (k : nat) :
  Seeding.select_id_title sq (db, k)
  = match Seeding.statement_err sq k with
    | Some msg => (Throw msg, (db, S k))
    | None =>
        (Ret (map (fun g => (id g, title g)) (Seeding.stored_games db)),
         (db, S k))
    end.
Proof.
  unfold Seeding.select_id_title, Seeding.statement.
  destruct (Seeding.statement_err sq k); reflexivity.
Qed.

(** The two loops, once the titles in the table have been read. *)
Lemma seeded_stages (sq : Seeding.sqlite) (gamesToSeed : list Seeding.seed)
  (db : Seeding.database) :
  gamesToSeed <> [] -> Seeding.statement_err sq 0%nat = None ->
  let titles := map Seeding.seed_title gamesToSeed in
  let dbGames := map (fun g => (id g, title g)) (Seeding.stored_games db) in
  exists st1 st2,
    Seeding.upsert_all sq dbGames gamesToSeed (db, 1%nat) = (Ret tt, st1) /\
    Seeding.clean_up sq titles dbGames st1 = (Ret tt, st2) /\
    Seeding.seeded sq gamesToSeed db = fst st2.
Proof.
  intros Hne Herr. cbv zeta.
  destruct (upsert_all_returns sq
              (map (fun g => (id g, title g)) (Seeding.stored_games db))
              gamesToSeed (db, 1%nat)) as [st1 H1].
  destruct (clean_up_returns sq (map Seeding.seed_title gamesToSeed)
              (map (fun g => (id g, title g)) (Seeding.stored_games db)) st1)
    as [st2 H2].
  exists st1, st2. split; [exact H1|]. split; [exact H2|].
  unfold Seeding.seeded. rewrite (seedInitialData_unfold sq _ Hne).
  rewrite and_then_run, select_id_title_run, Herr, and_then_run, H1, H2.
  reflexivity.
Qed.

Lemma seeded_untouched (sq : Seeding.sqlite) (gamesToSeed : list Seeding.seed)
  (db : Seeding.database) :
  gamesToSeed = [] \/ Seeding.statement_err sq 0%nat <> None ->
  Seeding.seeded sq gamesToSeed db = db.
Proof.
  intros [->|Herr]; [reflexivity|].
  destruct gamesToSeed as [|sd rest] eqn:Hs; [reflexivity|].
  unfold Seeding.seeded. rewrite seedInitialData_unfold by discriminate.
  rewrite and_then_run, select_id_title_run.
  destruct (Seeding.statement_err sq 0%nat); [reflexivity|contradiction].
Qed.

Lemma reseeding_stages (sq : Seeding.sqlite) (gamesToSeed : list Seeding.seed)
  (db : Seeding.database) :
  NoDup (map id (Seeding.stored_games db)) ->
  let titles := map Seeding.seed_title gamesToSeed in
  let db' := Seeding.seeded sq gamesToSeed db in
  (forall g, In g (Seeding.stored_games db) -> In (title g) titles ->
     exists g', In g' (Seeding.stored_games db') /\ Seeding.same_entry g g') /\
  (forall g', In g' (Seeding.stored_games db') ->
     (exists g, In g (Seeding.stored_games db) /\ Seeding.same_entry g g') \/
     (Seeding.entered_now titles g' /\
      ~ In (id g') (map id (Seeding.stored_games db)))).
Proof.
  intros Hnd. cbv zeta.
  assert (Hsame : Seeding.seeded sq gamesToSeed db = db ->
            (forall g, In g (Seeding.stored_games db) ->
               In (title g) (map Seeding.seed_title gamesToSeed) ->
               exists g', In g' (Seeding.stored_games
                                   (Seeding.seeded sq gamesToSeed db)) /\
                          Seeding.same_entry g g') /\
            (forall g', In g' (Seeding.stored_games
                                 (Seeding.seeded sq gamesToSeed db)) ->
               (exists g, In g (Seeding.stored_games db) /\
                          Seeding.same_entry g g') \/
               (Seeding.entered_now (map Seeding.seed_title gamesToSeed) g' /\
                ~ In (id g') (map id (Seeding.stored_games db))))).
  { intros ->. split.
    - intros g Hg _. exists g. split; [exact Hg|apply same_entry_refl].
    - intros g Hg. left. exists g. split; [exact Hg|apply same_entry_refl]. }
  destruct gamesToSeed as [|sd0 rest] eqn:Hseeds;
    [apply Hsame, seeded_untouched; left; reflexivity|].
  rewrite <- Hseeds in *.
  assert (Hne : gamesToSeed <> []) by (rewrite Hseeds; discriminate).
  clear Hseeds sd0 rest.
  destruct (Seeding.statement_err sq 0%nat) eqn:Herr;
    [apply Hsame, seeded_untouched; right; congruence|].
  clear Hsame.
  destruct (seeded_stages sq gamesToSeed db Hne Herr)
    as (st1 & st2 & Hup & Hclean & ->).
  set (titles := map Seeding.seed_title gamesToSeed) in *.
  set (dbGames := map (fun g => (id g, title g)) (Seeding.stored_games db)) in *.
  pose proof (grows_upsert_all sq titles dbGames gamesToSeed (incl_refl _)
                _ _ _ Hup) as [Hkept Hsound].
  simpl in Hkept, Hsound.
  destruct (shrinks_clean_up sq titles dbGames _ _ _ Hclean) as [Hsub Hsafe].
  split.
  - intros g Hg Ht. destruct (Hkept g Hg) as (g' & Hg' & Hsame).
    exists g'. split; [|exact Hsame]. apply Hsafe; [exact Hg'|].
    intros d Hd Hgone Hid. subst dbGames.
    apply in_map_iff in Hd. destruct Hd as (g0 & <- & Hg0). simpl in *.
    destruct Hsame as (Hid' & _).
    assert (g = g0)
      by (apply (same_id_same_game _ _ _ Hnd Hg Hg0); congruence).
    subst g0.
    assert (Hin : existsb (String.eqb (title g)) titles = true).
    { apply existsb_exists. exists (title g). split; [exact Ht|].
      apply String.eqb_refl. }
    congruence.
  - intros g' Hg'. apply Hsound, Hsub, Hg'.
Qed.

(** X24. Seeding at start-up does not disturb the rotation.  With [id] a
    key of [games], every game whose title is in the seed list is still in
    the table afterwards, with the same id, the same [last_played_on] and
    the same [is_active], whatever statement fails on the way; and every
    row of the table afterwards is such an earlier row or a row entered by
    this run for a title of the seed list: never played, active, and under
    an id no row had before. *)
Theorem reseeding_keeps_the_rotation_state (sq : Seeding.sqlite)
  (gamesToSeed : list Seeding.seed) (db : Seeding.database) :
  NoDup (map id (Seeding.stored_games db)) ->
  let db' := Seeding.seeded sq gamesToSeed db in
  (forall g, In g (Seeding.stored_games db) ->
     In (title g) (map Seeding.seed_title gamesToSeed) ->
     exists g', In g' (Seeding.stored_games db') /\ Seeding.same_entry g g') /\
  (forall g', In g' (Seeding.stored_games db') ->
     (exists g, In g (Seeding.stored_games db) /\ Seeding.same_entry g g') \/
     (Seeding.entered_now (map Seeding.seed_title gamesToSeed) g' /\
      ~ In (id g') (map id (Seeding.stored_games db)))).
Proof. intros Hnd. exact (reseeding_stages sq gamesToSeed db Hnd). Qed.

Lemma reseeding_keeps_the_rotation_state_witness :
  let db := {| Seeding.stored_games := [Samples.celeste; Samples.retired];
               Seeding.stored_reviews := [];
               Seeding.games_sequence := 5 |} in
  let gamesToSeed :=
    [ Seeding.mkSeed "Celeste" "504230" [Samples.url1];
      Seeding.mkSeed "Hades" "1145360" [Samples.url2] ] in
  exists g',
    In g' (Seeding.stored_games
             (Seeding.seeded (Seeding.obliging false) gamesToSeed db)) /\
    Seeding.same_entry Samples.celeste g'.
Proof.
  intros db gamesToSeed.
  refine (proj1 (reseeding_keeps_the_rotation_state (Seeding.obliging false)
                   gamesToSeed db _) Samples.celeste _ _).
  - simpl. repeat constructor; simpl; intuition discriminate.
  - left. reflexivity.
  - left. reflexivity.
Defined.

Lemma statement_obliging {A : Type} (fk : bool)
  (effect : Seeding.database -> outcome A * Seeding.database)
  (db : Seeding.database) (k : nat) :
  Seeding.statement (Seeding.obliging fk) effect (db, k)
  = (fst (effect db), (snd (effect db), S k)).
Proof.
  unfold Seeding.statement. simpl. destruct (effect db). reflexivity.
Qed.

Lemma clean_up_obliging (fk : bool) (titles : list string)
  (dbGames : list (Z * string)) :
  forall st st',
    Seeding.clean_up (Seeding.obliging fk) titles dbGames st = (Ret tt, st') ->
    forall g d,
      In g (Seeding.stored_games (fst st')) -> In d dbGames ->
      existsb (String.eqb (snd d)) titles = false -> id g <> fst d.
Proof.
  induction dbGames as [|d0 rest IH]; intros st st' H g d Hg Hd Hgone;
    [destruct Hd|].
  simpl in H. rewrite and_then_run in H.
  destruct (existsb (String.eqb (snd d0)) titles) eqn:Hkeep.
  - unfold Seeding.done in H at 1. destruct Hd as [->|Hd]; [congruence|].
    exact (IH _ _ H g d Hg Hd Hgone).
  - destruct st as [db k].
    unfold Seeding.caught, Seeding.delete_game in H.
    rewrite statement_obliging in H. cbn [fst snd] in H.
    destruct Hd as [->|Hd]; [|exact (IH _ _ H g d Hg Hd Hgone)].
    destruct (shrinks_clean_up (Seeding.obliging fk) titles rest _ _ _ H)
      as [Hsub _].
    apply Hsub in Hg. simpl in Hg. apply filter_In in Hg.
    destruct Hg as [_ Hg]. apply negb_true_iff, Z.eqb_neq in Hg. exact Hg.
Qed.

Lemma upsert_new_title (fk : bool) (titles : list string)
  (dbGames : list (Z * string)) (gameData : Seeding.seed)
  (st st' : Seeding.database * nat) (o : outcome unit) :
  find (fun g => String.eqb (snd g) (Seeding.seed_title gameData)) dbGames
  = None ->
  Seeding.upsert (Seeding.obliging fk) dbGames gameData st = (o, st') ->
  exists g, In g (Seeding.stored_games (fst st')) /\
            title g = Seeding.seed_title gameData.
Proof.
  intros Hfind H. unfold Seeding.upsert in H. rewrite Hfind in H.
  rewrite and_then_run in H. destruct st as [db k].
  unfold Seeding.insert_game in H. rewrite statement_obliging in H.
  destruct (existsb (fun g => String.eqb (title g) (Seeding.seed_title gameData))
              (Seeding.stored_games db)) eqn:Hex.
  - cbn [fst snd] in H. injection H as _ <-.
    apply existsb_exists in Hex. destruct Hex as (g & Hg & Heq).
    exists g. split; [exact Hg|apply String.eqb_eq; exact Heq].
  - cbn [fst snd] in H.
    destruct (grows_insert_reviews (Seeding.obliging fk) titles _ _ _ _ _ _ H)
      as [Hkept _].
    cbn [fst Seeding.stored_games] in Hkept.
    destruct (Hkept {| id := Z.max (Seeding.games_sequence db)
                               (Seeding.largest_id (Seeding.stored_games db)) + 1;
                       title := Seeding.seed_title gameData;
                       steam_app_id := Seeding.seed_steam_app_id gameData;
                       last_played_on := None; is_active := true |})
      as (g' & Hg' & _ & Ht & _).
    + apply in_or_app. right. left. reflexivity.
    + exists g'. split; [exact Hg'|exact Ht].
Qed.

Lemma upsert_all_obliging_titles (fk : bool) (titles : list string)
  (dbGames : list (Z * string)) (gamesToSeed : list Seeding.seed) :
  incl (map Seeding.seed_title gamesToSeed) titles ->
  forall st st',
    Seeding.upsert_all (Seeding.obliging fk) dbGames gamesToSeed st
    = (Ret tt, st') ->
    forall gameData,
      In gameData gamesToSeed -> Seeding.usable_seed gameData = true ->
      In (Seeding.seed_title gameData) (map snd dbGames) \/
      exists g, In g (Seeding.stored_games (fst st')) /\
                title g = Seeding.seed_title gameData.
Proof.
  induction gamesToSeed as [|sd rest IH]; intros Hincl st st' H gameData Hin Hok;
    [destruct Hin|].
  simpl in H. rewrite and_then_run in H.
  destruct ((if Seeding.usable_seed sd
             then Seeding.caught (Seeding.upsert (Seeding.obliging fk) dbGames sd)
             else Seeding.done tt) st) as [[[]|msg] st1] eqn:Hhead;
    [|discriminate H].
  assert (Hrest : incl (map Seeding.seed_title rest) titles)
    by (intros x Hx; apply Hincl; right; exact Hx).
  destruct Hin as [->|Hin]; [|exact (IH Hrest _ _ H gameData Hin Hok)].
  rewrite Hok in Hhead.
  destruct (find (fun g => String.eqb (snd g) (Seeding.seed_title gameData))
              dbGames) as [d|] eqn:Hfind.
  - left. apply find_some in Hfind. destruct Hfind as [Hd Heq].
    apply String.eqb_eq in Heq. rewrite <- Heq. apply in_map. exact Hd.
  - right. unfold Seeding.caught in Hhead.
    destruct (Seeding.upsert (Seeding.obliging fk) dbGames gameData st)
      as [o st0] eqn:Hup.
    assert (Hst : st0 = st1) by (destruct o; congruence).
    subst st0.
    destruct (upsert_new_title fk titles _ _ _ _ _ Hfind Hup) as (g & Hg & Ht).
    destruct (grows_upsert_all (Seeding.obliging fk) titles dbGames rest Hrest
                _ _ _ H) as [Hkept _].
    destruct (Hkept g Hg) as (g' & Hg' & _ & Ht' & _).
    exists g'. split; [exact Hg'|congruence].
Qed.

(** X25. When SQLite runs every statement, the table of games follows the
    seed list after a start-up: a game whose title has left the list is
    deleted, so every title in the table is a title of the list, and every
    entry of the list that passes the validation has a row under its
    title. *)
Theorem obliged_seeding_follows_the_list (fk : bool)
  (gamesToSeed : list Seeding.seed) (db : Seeding.database) :
  NoDup (map id (Seeding.stored_games db)) ->
  gamesToSeed <> [] ->
  let db' := Seeding.seeded (Seeding.obliging fk) gamesToSeed db in
  (forall g', In g' (Seeding.stored_games db') ->
     In (title g') (map Seeding.seed_title gamesToSeed)) /\
  (forall gameData,
     In gameData gamesToSeed -> Seeding.usable_seed gameData = true ->
     exists g', In g' (Seeding.stored_games db') /\
                title g' = Seeding.seed_title gameData).
Proof.
  intros Hnd Hne. cbv zeta.
  pose proof (reseeding_stages (Seeding.obliging fk) gamesToSeed db Hnd)
    as [Hkeep Hsound].
  cbv zeta in Hkeep, Hsound.
  destruct (seeded_stages (Seeding.obliging fk) gamesToSeed db Hne eq_refl)
    as (st1 & st2 & Hup & Hclean & Hdb').
  rewrite Hdb' in *.
  set (titles := map Seeding.seed_title gamesToSeed) in *.
  set (dbGames := map (fun g => (id g, title g)) (Seeding.stored_games db)) in *.
  assert (Hdec : forall t, existsb (String.eqb t) titles = false -> ~ In t titles).
  { intros t Hex Hin.
    assert (existsb (String.eqb t) titles = true); [|congruence].
    apply existsb_exists. exists t. split; [exact Hin|apply String.eqb_refl]. }
  split.
  - intros g' Hg'. destruct (Hsound g' Hg') as [(g & Hg & Hid & Ht & _)|[Hnew _]];
      [|exact (proj2 (proj2 Hnew))].
    rewrite Ht.
    destruct (existsb (String.eqb (title g)) titles) eqn:Hex.
    + apply existsb_exists in Hex. destruct Hex as (t & Hin & Heq).
      apply String.eqb_eq in Heq. subst t. exact Hin.
    + exfalso.
      apply (clean_up_obliging fk titles dbGames _ _ Hclean g' (id g, title g)
               Hg'); [|exact Hex|exact Hid].
      subst dbGames. apply in_map_iff. exists g. split; [reflexivity|exact Hg].
  - intros gameData Hin Hok.
    assert (Held : forall g, In g (Seeding.stored_games db) ->
                     title g = Seeding.seed_title gameData ->
                     exists g', In g' (Seeding.stored_games (fst st2)) /\
                                title g' = Seeding.seed_title gameData).
    { intros g Hg Ht.
      destruct (Hkeep g Hg) as (g' & Hg' & _ & Ht' & _).
      - rewrite Ht. apply in_map. exact Hin.
      - exists g'. split; [exact Hg'|congruence]. }
    destruct (upsert_all_obliging_titles fk titles dbGames gamesToSeed
                (incl_refl _) _ _ Hup gameData Hin Hok) as [Hold|(g1 & Hg1 & Ht1)].
    + subst dbGames. rewrite map_map in Hold. simpl in Hold.
      apply in_map_iff in Hold. destruct Hold as (g & Ht & Hg).
      exact (Held g Hg Ht).
    + destruct (grows_upsert_all (Seeding.obliging fk) titles dbGames gamesToSeed
                  (incl_refl _) _ _ _ Hup) as [_ Hsound1].
      simpl in Hsound1.
      destruct (Hsound1 g1 Hg1) as [(g & Hg & _ & Ht & _)|[_ Hfresh]].
      * apply (Held g Hg). congruence.
      * exists g1. split; [|exact Ht1].
        destruct (shrinks_clean_up (Seeding.obliging fk) titles dbGames
                    _ _ _ Hclean) as [_ Hsafe].
        apply Hsafe; [exact Hg1|].
        intros d Hd _ Hid. apply Hfresh. rewrite Hid. subst dbGames.
        rewrite in_map_iff in Hd. destruct Hd as (g & <- & Hg).
        cbn [fst]. apply in_map. exact Hg.
Qed.

Lemma obliged_seeding_follows_the_list_witness :
  let db := {| Seeding.stored_games := [Samples.celeste; Samples.retired];
               Seeding.stored_reviews := [];
               Seeding.games_sequence := 5 |} in
  let gamesToSeed :=
    [ Seeding.mkSeed "Celeste" "504230" [Samples.url1];
      Seeding.mkSeed "Hades" "1145360" [Samples.url2] ] in
  map title (Seeding.stored_games
               (Seeding.seeded (Seeding.obliging false) gamesToSeed db))
  = ["Celeste"; "Hades"] /\
  exists g',
    In g' (Seeding.stored_games
             (Seeding.seeded (Seeding.obliging false) gamesToSeed db)) /\
    title g' = "Hades".
Proof.
  intros db gamesToSeed. split; [reflexivity|].
  refine (proj2 (obliged_seeding_follows_the_list false gamesToSeed db _ _)
            (Seeding.mkSeed "Hades" "1145360" [Samples.url2]) _ _).
  - simpl. repeat constructor; simpl; intuition discriminate.
  - discriminate.
  - right. left. reflexivity.
  - reflexivity.
Defined.

Lemma url_not_stored (url : string) (reviews : list review_row) :
  ~ In url (map review_page_url reviews) ->
  existsb (fun r => String.eqb (review_page_url r) url) reviews = false.
Proof.
  intros Hno. destruct (existsb _ reviews) eqn:Hex; [|reflexivity].
  exfalso. apply Hno. apply existsb_exists in Hex.
  destruct Hex as (r & Hr & Heq). apply String.eqb_eq in Heq. subst url.
  apply in_map. exact Hr.
Qed.

Lemma title_not_stored (t : string) (games : list game_row) :
  ~ In t (map title games) ->
  existsb (fun g => String.eqb (title g) t) games = false.
Proof.
  intros Hno. destruct (existsb _ games) eqn:Hex; [|reflexivity].
  exfalso. apply Hno. apply existsb_exists in Hex.
  destruct Hex as (g & Hg & Heq). apply String.eqb_eq in Heq. subst t.
  apply in_map. exact Hg.
Qed.

Lemma largest_id_app (l : list game_row) (g : game_row) :
  Seeding.largest_id (l ++ [g]) = Z.max (Seeding.largest_id l) (Z.max (id g) 0).
Proof.
  induction l as [|x t IH]; simpl; [lia|]. rewrite IH. lia.
Qed.

Lemma game_rows_from_nth (gamesToSeed : list Seeding.seed) :
  forall (n : Z) (i : nat),
    nth_error (Seeding.game_rows_from n gamesToSeed) i
    = option_map
        (fun gameData =>
           {| id := n + Z.of_nat i + 1; title := Seeding.seed_title gameData;
              steam_app_id := Seeding.seed_steam_app_id gameData;
              last_played_on := None; is_active := true |})
        (nth_error gamesToSeed i).
Proof.
  induction gamesToSeed as [|sd rest IH]; intros n [|i]; try reflexivity.
  - simpl. rewrite Z.add_0_r. reflexivity.
  - cbn [Seeding.game_rows_from nth_error]. rewrite IH.
    destruct (nth_error rest i); [|reflexivity]. simpl.
    do 2 f_equal. lia.
Qed.

Lemma game_rows_from_length (gamesToSeed : list Seeding.seed) (n : Z) :
  List.length (Seeding.game_rows_from n gamesToSeed) = List.length gamesToSeed.
Proof.
  revert n. induction gamesToSeed as [|sd rest IH]; intros n; [reflexivity|].
  simpl. rewrite IH. reflexivity.
Qed.

Lemma filter_all {A : Type} (f : A -> bool) (l : list A) :
  (forall x, In x l -> f x = true) -> filter f l = l.
Proof.
  induction l as [|x t IH]; intros H; [reflexivity|].
  simpl. rewrite (H x (or_introl eq_refl)), IH; [reflexivity|].
  intros y Hy. apply H. right. exact Hy.
Qed.

Lemma filter_none {A : Type} (f : A -> bool) (l : list A) :
  (forall x, In x l -> f x = false) -> filter f l = [].
Proof.
  induction l as [|x t IH]; intros H; [reflexivity|].
  simpl. rewrite (H x (or_introl eq_refl)). apply IH.
  intros y Hy. apply H. right. exact Hy.
Qed.

Lemma existsb_eqb_In (u : string) (l : list string) :
  existsb (String.eqb u) l = true <-> In u l.
Proof.
  rewrite existsb_exists. split.
  - intros (x & Hx & Heq). apply String.eqb_eq in Heq. subst x. exact Hx.
  - intros Hin. exists u. split; [exact Hin|apply String.eqb_refl].
Qed.

Lemma review_rows_kept_urls (gameId : Z) (urls : list string) :
  forall i seen,
    map review_page_url (Seeding.review_rows_kept gameId i seen urls)
    = Seeding.first_seen seen urls.
Proof.
  induction urls as [|u rest IH]; intros i seen; [reflexivity|].
  cbn [Seeding.review_rows_kept Seeding.first_seen].
  destruct (Seeding.usable_url u && negb (existsb (String.eqb u) seen));
    [cbn [map review_page_url]; rewrite IH; reflexivity|apply IH].
Qed.

Lemma review_rows_kept_game_id (gameId : Z) (urls : list string) :
  forall i seen r,
    In r (Seeding.review_rows_kept gameId i seen urls) -> game_id r = gameId.
Proof.
  induction urls as [|u rest IH]; intros i seen r Hr; [destruct Hr|].
  cbn [Seeding.review_rows_kept] in Hr.
  destruct (Seeding.usable_url u && negb (existsb (String.eqb u) seen));
    [destruct Hr as [<-|Hr]; [reflexivity|]|]; exact (IH _ _ _ Hr).
Qed.

Lemma review_rows_kept_clue_order (gameId : Z) (urls : list string) :
  forall i seen r,
    In r (Seeding.review_rows_kept gameId i seen urls) -> (i + 1 <= clue_order r)%Z.
Proof.
  induction urls as [|u rest IH]; intros i seen r Hr; [destruct Hr|].
  cbn [Seeding.review_rows_kept] in Hr.
  destruct (Seeding.usable_url u && negb (existsb (String.eqb u) seen)).
  - destruct Hr as [<-|Hr]; [cbn [clue_order]; lia|].
    apply IH in Hr. lia.
  - apply IH in Hr. lia.
Qed.

Lemma insert_by_least (r : review_row) (l : list review_row) :
  (forall r', In r' l -> (clue_order r <= clue_order r')%Z) ->
  insert_by clue_order_leb r l = r :: l.
Proof.
  intros Hleast. destruct l as [|y t]; [reflexivity|].
  cbn [insert_by]. unfold clue_order_leb.
  destruct (clue_order r <=? clue_order y)%Z eqn:Hle; [reflexivity|].
  apply Z.leb_gt in Hle. specialize (Hleast y (or_introl eq_refl)). lia.
Qed.

Lemma review_rows_kept_in_order (gameId : Z) (urls : list string) :
  forall i seen,
    order_by clue_order_leb (Seeding.review_rows_kept gameId i seen urls)
    = Seeding.review_rows_kept gameId i seen urls.
Proof.
  induction urls as [|u rest IH]; intros i seen; [reflexivity|].
  cbn [Seeding.review_rows_kept].
  destruct (Seeding.usable_url u && negb (existsb (String.eqb u) seen));
    [|apply IH].
  cbn [order_by]. rewrite IH. apply insert_by_least.
  intros r' Hr'. apply review_rows_kept_clue_order in Hr'.
  cbn [clue_order]. lia.
Qed.

Lemma first_seen_In (u : string) (urls : list string) :
  Seeding.usable_url u = true ->
  forall seen,
    In u (Seeding.first_seen seen urls) <-> In u urls /\ ~ In u seen.
Proof.
  intros Hu. induction urls as [|v rest IH]; intros seen.
  - simpl. tauto.
  - cbn [Seeding.first_seen].
    destruct (string_dec v u) as [->|Hneq].
    + rewrite Hu. cbn [andb].
      destruct (existsb (String.eqb u) seen) eqn:Hex; cbn [negb].
      * apply existsb_eqb_In in Hex. rewrite IH. simpl. tauto.
      * assert (Hno : ~ In u seen).
        { intros Hin. apply existsb_eqb_In in Hin. congruence. }
        simpl. tauto.
    + destruct (Seeding.usable_url v && negb (existsb (String.eqb v) seen)).
      * simpl. rewrite IH. simpl. split.
        -- intros [Heq|[Hin Hno]]; [contradiction|]. split; [tauto|tauto].
        -- intros [[Heq|Hin] Hno]; [contradiction|]. right.
           split; [exact Hin|]. intros [Heq|Hs]; [contradiction|tauto].
      * rewrite IH. simpl. split.
        -- intros [Hin Hno]. tauto.
        -- intros [[Heq|Hin] Hno]; [contradiction|tauto].
Qed.

Lemma insert_reviews_first_start (fk : bool) (gameId : Z) (urls : list string) :
  forall (i : Z) (seen : list string) (db : Seeding.database) (k : nat),
    (forall u, Seeding.usable_url u = true ->
       (In u seen <-> In u (map review_page_url (Seeding.stored_reviews db)))) ->
    exists k',
      Seeding.insert_reviews (Seeding.obliging fk) gameId i urls (db, k)
      = (Ret tt,
         ({| Seeding.stored_games := Seeding.stored_games db;
             Seeding.stored_reviews :=
               (Seeding.stored_reviews db
                ++ Seeding.review_rows_kept gameId i seen urls)%list;
             Seeding.games_sequence := Seeding.games_sequence db |}, k')).
Proof.
  induction urls as [|u rest IH]; intros i seen db k Hheld.
  - exists k. simpl. rewrite app_nil_r. destruct db; reflexivity.
  - cbn [Seeding.insert_reviews Seeding.review_rows_kept].
    destruct (Seeding.usable_url u) eqn:Hu; cbn [andb].
    + rewrite and_then_run. unfold Seeding.insert_review_or_ignore.
      rewrite statement_obliging. cbn [fst snd].
      destruct (existsb (String.eqb u) seen) eqn:Hseen; cbn [negb].
      * assert (Hstored : existsb (fun r => String.eqb (review_page_url r) u)
                            (Seeding.stored_reviews db) = true).
        { apply existsb_eqb_In, (Hheld u Hu), in_map_iff in Hseen.
          destruct Hseen as (r & Hr & Hin). apply existsb_exists.
          exists r. split; [exact Hin|]. rewrite Hr. apply String.eqb_refl. }
        rewrite Hstored. exact (IH (i + 1)%Z seen db (S k) Hheld).
      * assert (Hnew : ~ In u (map review_page_url (Seeding.stored_reviews db))).
        { intros Hin. apply (Hheld u Hu), existsb_eqb_In in Hin. congruence. }
        rewrite (url_not_stored u _ Hnew).
        destruct (IH (i + 1)%Z (u :: seen)
                    {| Seeding.stored_games := Seeding.stored_games db;
                       Seeding.stored_reviews :=
                         (Seeding.stored_reviews db
                          ++ [{| game_id := gameId; review_page_url := u;
                                 clue_order := i + 1 |}])%list;
                       Seeding.games_sequence := Seeding.games_sequence db |}
                    (S k)) as [k' Hrun].
        { intros v Hv. cbn [Seeding.stored_reviews].
          rewrite map_app, in_app_iff. cbn [map review_page_url In].
          rewrite <- (Hheld v Hv). tauto. }
        exists k'. rewrite Hrun.
        cbn [Seeding.stored_games Seeding.stored_reviews Seeding.games_sequence].
        rewrite <- app_assoc. reflexivity.
    + exact (IH (i + 1)%Z seen db k Hheld).
Qed.

Lemma held_after_entry (seen urls : list string) (stored : list string)
  (gameId i : Z) :
  (forall u, Seeding.usable_url u = true -> (In u seen <-> In u stored)) ->
  forall u, Seeding.usable_url u = true ->
    (In u (seen ++ urls)
     <-> In u (stored
               ++ map review_page_url (Seeding.review_rows_kept gameId i seen urls))).
Proof.
  intros Hheld u Hu.
  rewrite review_rows_kept_urls, !in_app_iff, (first_seen_In u urls Hu seen),
    <- (Hheld u Hu).
  destruct (in_dec string_dec u seen); tauto.
Qed.

Lemma upsert_all_first_start (fk : bool) (gamesToSeed : list Seeding.seed) :
  forall (seen : list string) (db : Seeding.database) (k : nat),
    NoDup (map Seeding.seed_title (Seeding.valid_seeds gamesToSeed)) ->
    (0 <= Seeding.games_sequence db)%Z ->
    (Seeding.largest_id (Seeding.stored_games db)
     <= Seeding.games_sequence db)%Z ->
    (forall gameData, In gameData (Seeding.valid_seeds gamesToSeed) ->
       ~ In (Seeding.seed_title gameData)
           (map title (Seeding.stored_games db))) ->
    (forall u, Seeding.usable_url u = true ->
       (In u seen <-> In u (map review_page_url (Seeding.stored_reviews db)))) ->
    exists k',
      Seeding.upsert_all (Seeding.obliging fk) [] gamesToSeed (db, k)
      = (Ret tt,
         ({| Seeding.stored_games :=
               (Seeding.stored_games db
                ++ Seeding.game_rows_from (Seeding.games_sequence db)
                     (Seeding.valid_seeds gamesToSeed))%list;
             Seeding.stored_reviews :=
               (Seeding.stored_reviews db
                ++ Seeding.all_review_rows_kept (Seeding.games_sequence db) seen
                     (Seeding.valid_seeds gamesToSeed))%list;
             Seeding.games_sequence :=
               (Seeding.games_sequence db
                + Z.of_nat (List.length (Seeding.valid_seeds gamesToSeed)))%Z |}, k')).
Proof.
  induction gamesToSeed as [|sd rest IH];
    intros seen db k Htitles Hseq Hmax Hnewt Hheld.
  - exists k. simpl. rewrite !app_nil_r, Z.add_0_r. destruct db; reflexivity.
  - cbn [Seeding.upsert_all]. unfold Seeding.valid_seeds in *. cbn [filter] in *.
    destruct (Seeding.usable_seed sd) eqn:Hsd.
    + cbn [map] in Htitles.
      inversion Htitles as [|? ? Hnotin Htitles']; subst.
      rewrite and_then_run.
      set (lastID := (Seeding.games_sequence db + 1)%Z).
      set (row := {| id := lastID; title := Seeding.seed_title sd;
                     steam_app_id := Seeding.seed_steam_app_id sd;
                     last_played_on := None; is_active := true |}).
      set (db1 := {| Seeding.stored_games :=
                       (Seeding.stored_games db ++ [row])%list;
                     Seeding.stored_reviews := Seeding.stored_reviews db;
                     Seeding.games_sequence := lastID |}).
      destruct (insert_reviews_first_start fk lastID (Seeding.seed_reviews sd)
                  0 seen db1 (S k) Hheld) as [k1 Hrev].
      assert (Hhead : Seeding.caught
                        (Seeding.upsert (Seeding.obliging fk) [] sd) (db, k)
                      = (Ret tt,
                         ({| Seeding.stored_games := Seeding.stored_games db1;
                             Seeding.stored_reviews :=
                               (Seeding.stored_reviews db1
                                ++ Seeding.review_rows_kept lastID 0 seen
                                     (Seeding.seed_reviews sd))%list;
                             Seeding.games_sequence :=
                               Seeding.games_sequence db1 |},
                          k1))).
      { unfold Seeding.caught, Seeding.upsert. cbn [find].
        rewrite and_then_run. unfold Seeding.insert_game.
        rewrite statement_obliging.
        rewrite (title_not_stored _ _ (Hnewt sd (or_introl eq_refl))).
        cbn [fst snd].
        replace (Z.max (Seeding.games_sequence db)
                   (Seeding.largest_id (Seeding.stored_games db)) + 1)%Z
          with lastID by (subst lastID; lia).
        fold row. fold db1. rewrite Hrev. reflexivity. }
      rewrite Hhead.
      match goal with
      | |- context [Seeding.upsert_all _ _ rest (?d, k1)] => set (db2 := d)
      end.
      destruct (IH (seen ++ Seeding.seed_reviews sd)%list db2 k1 Htitles')
        as [k' Hrun].
      * subst db2 db1 lastID. simpl. lia.
      * subst db2 db1. cbn [Seeding.stored_games Seeding.games_sequence].
        rewrite largest_id_app. subst row lastID. simpl. lia.
      * intros gameData Hin. subst db2 db1.
        cbn [Seeding.stored_games]. rewrite map_app, in_app_iff. simpl.
        intros [Hold|[Heq|[]]].
        -- exact (Hnewt gameData (or_intror Hin) Hold).
        -- apply Hnotin. rewrite Heq. apply in_map. exact Hin.
      * subst db2 db1. cbn [Seeding.stored_reviews]. rewrite map_app.
        apply held_after_entry. exact Hheld.
      * exists k'. rewrite Hrun. subst db2 db1.
        cbn [Seeding.stored_games Seeding.stored_reviews Seeding.games_sequence
             Seeding.game_rows_from Seeding.all_review_rows_kept List.length].
        fold lastID. fold row. rewrite <- !app_assoc. simpl.
        f_equal. f_equal. f_equal. subst lastID. lia.
    + unfold Seeding.done at 1. rewrite and_then_run.
      exact (IH seen db k Htitles Hseq Hmax Hnewt Hheld).
Qed.

Lemma all_review_rows_kept_game_id (gamesToSeed : list Seeding.seed) :
  forall n seen r,
    In r (Seeding.all_review_rows_kept n seen gamesToSeed) -> (n < game_id r)%Z.
Proof.
  induction gamesToSeed as [|sd rest IH]; intros n seen r Hr; [destruct Hr|].
  cbn [Seeding.all_review_rows_kept] in Hr. apply in_app_or in Hr.
  destruct Hr as [Hr|Hr].
  - apply review_rows_kept_game_id in Hr. lia.
  - apply IH in Hr. lia.
Qed.

Lemma reviews_of_kept_game (gamesToSeed : list Seeding.seed) :
  forall (n : Z) (seen : list string) (i : nat) (gameData : Seeding.seed),
    nth_error gamesToSeed i = Some gameData ->
    filter (fun r => (game_id r =? n + Z.of_nat i + 1)%Z)
      (Seeding.all_review_rows_kept n seen gamesToSeed)
    = Seeding.review_rows_kept (n + Z.of_nat i + 1) 0
        (seen ++ flat_map Seeding.seed_reviews (firstn i gamesToSeed))
        (Seeding.seed_reviews gameData).
Proof.
  induction gamesToSeed as [|sd rest IH]; intros n seen [|i] gameData Hnth;
    try discriminate Hnth.
  - simpl in Hnth. injection Hnth as ->.
    cbn [Seeding.all_review_rows_kept firstn flat_map]. rewrite filter_app, app_nil_r.
    replace (n + Z.of_nat 0 + 1)%Z with (n + 1)%Z by lia.
    rewrite filter_all, filter_none; [apply app_nil_r| |].
    + intros r Hr. apply all_review_rows_kept_game_id in Hr.
      apply Z.eqb_neq. lia.
    + intros r Hr. apply review_rows_kept_game_id in Hr.
      apply Z.eqb_eq. exact Hr.
  - simpl in Hnth. cbn [Seeding.all_review_rows_kept firstn flat_map].
    rewrite filter_app.
    replace (n + Z.of_nat (S i) + 1)%Z with (n + 1 + Z.of_nat i + 1)%Z by lia.
    rewrite filter_none.
    + rewrite (IH (n + 1)%Z _ i gameData Hnth), app_assoc. reflexivity.
    + intros r Hr. apply review_rows_kept_game_id in Hr.
      apply Z.eqb_neq. lia.
Qed.

Lemma distinct_NoDup (l : list string) : Seeding.distinct l = true -> NoDup l.
Proof.
  induction l as [|x t IH]; intros H; [constructor|].
  cbn [Seeding.distinct] in H. apply andb_true_iff in H. destruct H as [Hx Ht].
  constructor; [|exact (IH Ht)].
  intros Hin. apply existsb_eqb_In in Hin. rewrite Hin in Hx. discriminate Hx.
Qed.

(** X26. A first start on an empty database, SQLite running every
    statement.  Let the entries that pass the validation have different
    titles, as those of the list of the script have.  Then the [i]-th of
    them, counting from 0, becomes the row of [games] with id [i + 1], never
    played and active; the entries that fail the validation leave nothing.
    The review query of the server, asked for that id, returns in the order
    of the entry the first six of its URLs that are usable and occur neither
    earlier in the entry nor in an earlier entry: a URL written twice is
    stored once, and the entry has one clue less. *)
Theorem first_start_stores_the_seed_list (fk : bool)
  (gamesToSeed : list Seeding.seed) :
  NoDup (map Seeding.seed_title (Seeding.valid_seeds gamesToSeed)) ->
  let db' := Seeding.seeded (Seeding.obliging fk) gamesToSeed Seeding.empty in
  List.length (Seeding.stored_games db')
  = List.length (Seeding.valid_seeds gamesToSeed) /\
  forall i gameData,
    nth_error (Seeding.valid_seeds gamesToSeed) i = Some gameData ->
    nth_error (Seeding.stored_games db') i
    = Some {| id := Z.of_nat i + 1; title := Seeding.seed_title gameData;
              steam_app_id := Seeding.seed_steam_app_id gameData;
              last_played_on := None; is_active := true |} /\
    select_review_urls (Z.of_nat i + 1) (Seeding.stored_reviews db')
    = firstn 6
        (Seeding.first_seen
           (flat_map Seeding.seed_reviews (firstn i (Seeding.valid_seeds gamesToSeed)))
           (Seeding.seed_reviews gameData)).
Proof.
  intros Htitles. cbv zeta.
  assert (Hdb : Seeding.seeded (Seeding.obliging fk) gamesToSeed Seeding.empty
                = {| Seeding.stored_games :=
                       Seeding.game_rows_from 0 (Seeding.valid_seeds gamesToSeed);
                     Seeding.stored_reviews :=
                       Seeding.all_review_rows_kept 0 [] (Seeding.valid_seeds gamesToSeed);
                     Seeding.games_sequence :=
                       Z.of_nat (List.length (Seeding.valid_seeds gamesToSeed)) |}).
  { destruct gamesToSeed as [|sd0 rest0] eqn:Hs; [reflexivity|].
    rewrite <- Hs in *.
    assert (Hne : gamesToSeed <> []) by (rewrite Hs; discriminate).
    clear Hs sd0 rest0.
    destruct (seeded_stages (Seeding.obliging fk) gamesToSeed Seeding.empty
                Hne eq_refl) as (st1 & st2 & Hup & Hclean & ->).
    simpl in Hup, Hclean. unfold Seeding.done in Hclean.
    injection Hclean as <-.
    destruct (upsert_all_first_start fk gamesToSeed [] Seeding.empty 1%nat
                Htitles) as [k' Hrun];
      try (simpl; lia); try (intros x _ []);
      try (intros u _; simpl; tauto).
    rewrite Hrun in Hup. injection Hup as <-. reflexivity. }
  rewrite Hdb. cbn [Seeding.stored_games Seeding.stored_reviews].
  split; [apply game_rows_from_length|].
  intros i gameData Hnth. split.
  - rewrite game_rows_from_nth, Hnth. reflexivity.
  - unfold select_review_urls, review_rows_of.
    pose proof (reviews_of_kept_game (Seeding.valid_seeds gamesToSeed) 0 [] i gameData
                  Hnth) as Hf.
    replace (0 + Z.of_nat i + 1)%Z with (Z.of_nat i + 1)%Z in Hf by lia.
    rewrite Hf, review_rows_kept_in_order, <- firstn_map, review_rows_kept_urls.
    reflexivity.
Qed.

Lemma first_start_stores_the_seed_list_witness :
  let db' :=
    Seeding.seeded (Seeding.obliging false) Seeding.gamesToSeed Seeding.empty in
  List.length Seeding.gamesToSeed = 72%nat /\
  List.length (Seeding.stored_games db') = 71%nat /\
  nth_error (Seeding.stored_games db') 62
  = Some {| id := 63; title := "Limbus Company"; steam_app_id := "1973530";
            last_played_on := None; is_active := true |} /\
  select_review_urls 63 (Seeding.stored_reviews db')
  = [ "https://steamcommunity.com/profiles/76561199231176078/recommended/1973530/";
      "https://steamcommunity.com/profiles/76561198198701690/recommended/1973530/";
      "https://steamcommunity.com/id/Tsuttan/recommended/1973530/";
      "https://steamcommunity.com/profiles/76561198834855056/recommended/1973530/";
      "https://steamcommunity.com/profiles/76561199083033455/recommended/1973530/" ].
Proof.
  cbv zeta.
  assert (Hnd : NoDup (map Seeding.seed_title
                         (Seeding.valid_seeds Seeding.gamesToSeed))).
  { apply distinct_NoDup. vm_compute. reflexivity. }
  destruct (first_start_stores_the_seed_list false Seeding.gamesToSeed Hnd)
    as [Hlen Hrows].
  split; [vm_compute; reflexivity|].
  split; [rewrite Hlen; vm_compute; reflexivity|].
  destruct (Hrows 62%nat
              (Seeding.mkSeed "Limbus Company" "1973530"
                 [ "https://steamcommunity.com/profiles/76561199231176078/recommended/1973530/";
                   "https://steamcommunity.com/profiles/76561198198701690/recommended/1973530/";
                   "https://steamcommunity.com/id/Tsuttan/recommended/1973530/";
                   "https://steamcommunity.com/profiles/76561198834855056/recommended/1973530/";
                   "https://steamcommunity.com/profiles/76561198198701690/recommended/1973530/";
                   "https://steamcommunity.com/profiles/76561199083033455/recommended/1973530/" ]))
    as [Hrow Hurls].
  { vm_compute. reflexivity. }
  split; [exact Hrow|].
  change 63%Z with (Z.of_nat 62 + 1)%Z. rewrite Hurls. vm_compute. reflexivity.
Defined.

(* ------------------------------------------------------------------ *)
(** ** Line breaks in the review text *)

Lemma lower_char_lt (c : ascii) : lower_char c = "<"%char -> c = "<"%char.
Proof.
  destruct c as [[|] [|] [|] [|] [|] [|] [|] [|]]; intros H;
    try reflexivity; discriminate H.
Qed.

Lemma replace_br_plain (a rest : string) :
  includes a "<" = false ->
  replace_br_from 0 (a ++ rest) = a ++ replace_br_from 0 rest.
Proof.
  induction a as [|c r IH]; intros Hfree; [reflexivity|].
  apply includes_char_cons in Hfree. destruct Hfree as [Hc Hr].
  change (String c r ++ rest) with (String c (r ++ rest)).
  cbn [replace_br_from].
  assert (Hno : br_here (String c (r ++ rest)) = None).
  { unfold br_here. cbn [toLowerCase startsWith].
    destruct (Ascii.eqb "<" (lower_char c)) eqn:He; [|reflexivity].
    apply Ascii.eqb_eq in He. symmetry in He. apply lower_char_lt in He.
    contradiction. }
  rewrite Hno, (IH Hr). reflexivity.
Qed.

Lemma replace_br_skip (x b : string) :
  replace_br_from (String.length x) (x ++ b) = replace_br_from 0 b.
Proof.
  induction x as [|c r IH]; [reflexivity|].
  cbn [String.length append replace_br_from]. exact IH.
Qed.

Lemma skip_spaces_app (ws rest : string) :
  forallb is_space (list_ascii_of_string ws) = true ->
  skip_spaces rest = rest ->
  skip_spaces (ws ++ rest) = rest.
Proof.
  induction ws as [|c r IH]; intros Hws Hrest; [exact Hrest|].
  simpl in Hws. apply andb_true_iff in Hws. destruct Hws as [Hc Hr].
  simpl. rewrite Hc. apply IH; assumption.
Qed.

Lemma br_here_tag (c1 c2 : ascii) (ws slash b : string) :
  lower_char c1 = "b"%char -> lower_char c2 = "r"%char ->
  forallb is_space (list_ascii_of_string ws) = true ->
  slash = "" \/ slash = "/" ->
  br_here (String "<" (String c1 (String c2 (ws ++ slash ++ String ">" b))))
  = Some (4 + String.length ws + String.length slash).
Proof.
  intros H1 H2 Hws Hslash. unfold br_here.
  cbn [toLowerCase startsWith]. rewrite H1, H2.
  change (lower_char "<") with "<"%char.
  rewrite !Ascii.eqb_refl. cbn [andb]. rewrite startsWith_nil.
  cbn [drop].
  assert (Hskip : skip_spaces (ws ++ slash ++ String ">" b)
                  = slash ++ String ">" b).
  { apply skip_spaces_app; [exact Hws|].
    destruct Hslash as [-> | ->]; reflexivity. }
  rewrite Hskip.
  assert (Hgt : startsWith (String ">" b) ">" = true)
    by (cbn [startsWith]; rewrite Ascii.eqb_refl; apply startsWith_nil).
  destruct Hslash as [-> | ->]; cbn [append startsWith drop String.length];
    rewrite ?startsWith_nil; cbn [Ascii.eqb Bool.eqb andb];
    rewrite ?string_length_app; cbn [String.length];
    rewrite Hgt; f_equal; lia.
Qed.

(** X27. The replacement of line breaks in the HTML of a review leaves the
    text before the first [<] as it is and turns a tag [<br>], [<br/>] or
    [<br />], in any mix of upper and lower case and with any white space
    before the optional slash, into one line feed, after which the rest of
    the HTML is treated the same way; an HTML without [<] is not changed. *)
Theorem line_break_tags_become_line_feeds (a ws slash b : string)
  (c1 c2 : ascii) :
  includes a "<" = false ->
  lower_char c1 = "b"%char -> lower_char c2 = "r"%char ->
  forallb is_space (list_ascii_of_string ws) = true ->
  slash = "" \/ slash = "/" ->
  replace_br (a ++ String "<" (String c1 (String c2 (ws ++ slash ++ String ">" b))))
  = a ++ String LF (replace_br b) /\
  replace_br a = a.
Proof.
  intros Hfree H1 H2 Hws Hslash. unfold replace_br. split.
  - rewrite (replace_br_plain a _ Hfree). f_equal.
    cbn [replace_br_from].
    rewrite (br_here_tag c1 c2 ws slash b H1 H2 Hws Hslash). f_equal.
    replace (4 + String.length ws + String.length slash - 1)%nat
      with (String.length (String c1 (String c2 (ws ++ slash ++ ">"))))
      by (cbn [String.length]; rewrite !string_length_app;
          cbn [String.length]; lia).
    rewrite <- (replace_br_skip (String c1 (String c2 (ws ++ slash ++ ">"))) b).
    cbn [append]. rewrite !string_app_assoc. reflexivity.
  - pose proof (replace_br_plain a "" Hfree) as H.
    assert (Ha : a ++ "" = a)
      by (clear; induction a as [|c r IH]; [reflexivity|simpl; rewrite IH; reflexivity]).
    cbn [replace_br_from] in H. rewrite !Ha in H. exact H.
Qed.

Lemma line_break_tags_become_line_feeds_witness :
  replace_br "The cake<BR />is a lie"
  = "The cake" ++ String LF (replace_br "is a lie").
Proof.
  exact (proj1 (line_break_tags_become_line_feeds "The cake" " " "/" "is a lie"
                  "B" "R" eq_refl eq_refl eq_refl eq_refl
                  (or_intror eq_refl))).
Defined.

(* ------------------------------------------------------------------ *)
(** ** Suggestions on the page *)

(** X28. Whatever is typed, the list of suggestions under the guess input
    holds at most ten options once the search endpoint has answered, and
    each of them is the name of an app of the server's cached list whose
    normal form contains the normal form of what was typed; for fewer than
    two characters the list is empty. *)
Theorem page_offers_at_most_ten_suggestions (E : env) (searchTerm : string)
  (w : world) :
  let options :=
    fetchAutocompleteSuggestions
      (fun term limit => received (fst (search_steam_games E term limit w)))
      searchTerm in
  (List.length options <= 10)%nat /\
  (forall n, In n options ->
     exists app,
       In app (steamAppsCache (after_refresh E w)) /\ name app = n /\
       includes (normalizeStringServer (name app))
         (normalizeStringServer (trim searchTerm)) = true) /\
  ((String.length searchTerm < 2)%nat -> options = []).
Proof.
  cbv zeta. unfold fetchAutocompleteSuggestions.
  destruct (String.length searchTerm <? 2)%nat eqn:Hshort.
  - split; [simpl; lia|]. split; [intros n []|reflexivity].
  - apply Nat.ltb_ge in Hshort. rewrite search_steam_games_eq.
    cbn [fst received status body response_ok].
    change (response_ok 200) with true. cbv iota.
    split; [|split; [|lia]].
    + destruct (negb (truthy (term_of (Some searchTerm)))
                || (String.length (term_of (Some searchTerm)) <? 2)%nat);
        [simpl; lia|].
      rewrite suggestions_for_eq, length_map, slice0_length.
      change (limit_of (Some "10")) with 10%Z.
      change (10 <? 0)%Z with false. cbv iota.
      change (Z.to_nat 10) with 10%nat. lia.
    + intros n Hn.
      destruct (negb (truthy (term_of (Some searchTerm)))
                || (String.length (term_of (Some searchTerm)) <? 2)%nat);
        [destruct Hn|].
      destruct (suggestion_In _ _ _ _ _ Hn) as (app & Happ & Hname).
      unfold matching in Happ. apply filter_In in Happ.
      destruct Happ as [Hin Hinc].
      exists app. split; [exact Hin|]. split; [exact Hname|].
      unfold term_of in Hinc.
      destruct (truthy searchTerm) eqn:Ht; [exact Hinc|].
      destruct searchTerm; [simpl in Hshort; lia|discriminate Ht].
Qed.
